(* ===== verification/_CoqProject ===== *)
-Q . S2P
Prelude.v
Utf8.v
ProcessLogs.v
PyDict.v
PyFloat.v
Framing.v
Scenario.v
Processes.v
ProcessLifecycle.v
ProcessExamples.v
Reachability.v
Mesh.v
Airtime.v
Calculations.v
Events.v
EventStream.v
Medium.v
PyDecimal.v
TrafficRequest.v
Identifier.v
PacketIds.v
TrafficState.v
TrafficHandlers.v
RunInvariant.v
RunAccounting.v
TrafficLifecycle.v
RunTheorems.v
RunClosing.v
RunSchedule.v
RunGeneration.v
RunCompletion.v
RunExamples.v
Gateway.v
GatewayStreams.v
GatewayWrites.v
GatewayLifecycle.v
GatewayExamples.v
Configure.v
ConfigureTheorems.v
Service.v
ServiceOps.v
ServiceRuns.v
ServiceTopology.v
ServiceFrame.v
ServiceInvariant.v
ServiceSafety.v
ServiceResults.v
ServiceExamples.v
Api.v
ApiTheorems.v
ApiExamples.v
Bench.v
BenchExperiments.v
BenchTheorems.v
BenchExamples.v
