(* ===== verification/Prelude.v ===== *)
(** * Meshtastic Lab: verification library (root file)

    Meshtastic Lab (the Python package under src/backend/app, with its benchmark under
    src/experiments) runs unmodified Meshtastic firmware processes as the nodes of a
    simulated radio mesh.  A
    gateway per node owns the one TCP connection to that node's daemon; the
    directed medium forwards each RF frame a daemon transmits to the daemons its
    enabled links reach; the traffic controller makes the nodes send test messages
    and follows each to its acknowledgment; the event broker records what happens
    and streams it to browsers; the simulator service owns all of these and
    serves the HTTP API.

    ** How the parts interact

    [NodeGateway] parses its daemon's byte stream with [FrameParser], hands every
    simulator packet to [DirectedMedium.transmit] and passes the rest to its one
    external client.  [DirectedMedium] reports each transmission, forwarding and
    drop to [TrafficController] and each injection to a gateway.  [TrafficController]
    submits packets through the gateways, calls the airtime and metric
    calculations, and publishes to [EventBroker].  The websocket of
    src/backend/app/main.py subscribes to [EventBroker].  [SimulatorService] starts the
    processes, has each node configured, gives the gateways, the processes and the
    medium their callbacks ([sv_step] is a task of any of them acting on the service)
    and runs the commands; a route of the API is one operation of the service
    ([handle]).  In the model a component
    is a record with one definition per operation; a component it calls back is
    either the concrete one or a type parameter with the operations used (the
    event sink [B] and the class [Publisher] of Medium.v, the medium's type [T] of
    Gateway.v, the class [PyRandom] of TrafficRequest.v, [Meshtastic] of Mesh.v).

    ** Files

    - Prelude, PyDict, PyFloat: exceptions and the result monad, record update,
      bytes, lists; insertion-ordered dictionaries; binary64 arithmetic.
    - Framing: gateway/framing.py, the stream parser and encoder.
    - Scenario, Reachability: models/scenario.py.
    - Mesh: the protobuf messages, whose package is a parameter.
    - Airtime, Calculations: metrics/airtime.py and metrics/calculations.py.
    - Events, EventStream: metrics/events.py and the websocket of main.py.
    - Medium: simulator/medium.py.
    - traffic/controller.py, in the order of its parts: PyDecimal and TrafficRequest
      (requests, message counts, offsets, destinations), Identifier (the payload's
      identifier), PacketIds (allocation and quarantine), TrafficState (records),
      TrafficHandlers (everything reported to a run, submission, admission),
      TrafficLifecycle (start, metrics, drain, final sample, finish, save, stop,
      fail), RunSchedule (the schedule and the run's task).  Their theorems are in
      RunInvariant and RunAccounting (the books balance after every handler),
      RunTheorems (from start to the frozen result), RunClosing (drain, saving,
      late reports), RunGeneration (the loop submits the schedule), RunCompletion
      (a run completes) and RunExamples (the worked run of the witnesses).
    - gateway/node_gateway.py: Gateway (state and operations), GatewayStreams (what is
      passed on), GatewayWrites (what the daemon is sent), GatewayLifecycle (start
      and stop), GatewayExamples (a worked gateway).
    - runtime/processes.py: Utf8 (decoding the log text), ProcessLogs (draining a pipe
      into a bounded tail), Processes (the supervisor: hardware ids, starting,
      stopping, exits), ProcessLifecycle (its theorems) and ProcessExamples.
    - runtime/configure.py: Configure (connecting, the settings transaction and its
      verification as calls on the client) and ConfigureTheorems.
    - simulator/service.py and provenance.py: Service (state, views, what other tasks do
      through the service's callbacks), ServiceOps (start, stop, reset, the cleanup
      after a failure), ServiceRuns (topology edits, sampling of local statistics,
      traffic runs and their results).  Their theorems are in ServiceTopology,
      ServiceFrame (what tasks leave alone), ServiceInvariant (what each command
      does), ServiceSafety (reachable states), ServiceResults and ServiceExamples.
    - main.py: Api (the routes, their parameters' checks and the exception handlers),
      ApiTheorems and ApiExamples.
    - experiments/run_system_bench.py: Bench (the driver as the requests it makes, and its
      summaries), BenchExperiments (the built-in experiments and what the API accepts
      of them), BenchTheorems and BenchExamples.
    ** What the theorems show

    - Streams: parsing does not depend on read boundaries, encoding round trips,
      bytes are conserved, buffers are bounded; the gateway passes messages on
      unchanged and in order and multiplexes its sources frame by frame.
    - Topology: the validator accepts exactly the complete simple digraphs, presets
      and link edits keep them, reachability is bounded-length path existence.
    - Numbers: the float airtime, the percentiles and the Decimal message counts are
      the exact mathematical values in the ranges the schema allows.
    - Events: the bounded broker refines an unbounded log, subscriptions account for
      each event, and websocket clients see increasing streams with announced gaps.
    - Runs: the counters, tables and events of a run agree after any sequence of
      handler calls; the schedule is complete and terminates; a run generates what
      was asked for, drains in bounded time, freezes one consistent result and saves
      it all or nothing; packet ids are not reused early; closed runs ignore reports.
    - Lifecycles: gateways and runs start or refuse cleanly, stop and fail as
      documented, except for the three defects GatewayLifecycle and RunClosing prove
      ([start_after_failure], [start_hides_disconnect], [fail_after_failure]).
    - Processes: hardware ids are distinct and valid, the supervisor starts and stops
      every process or reports why not, a drained log is the bounded tail of the
      output, except that a line over the reader's limit ends the draining
      ([overlong_line_ends_drain]).
    - Configuration: the settings are one transaction that stops at the first message
      not accepted; what was written verifies; a mismatch is reported without the
      keys; every session on the client is closed.
    - Service: a running simulation has every resource and a stopped one none, the
      scenario is a complete graph whose links are the medium's; starting, stopping
      and cleaning up have the stated outcomes on every branch; samples are answers
      to their own requests; a finished run stays available.  [start_keeps_failed_gateway]
      and [stale_cleanup_stops_new_run] exhibit two races of the lifecycle.
    - API: requests keep all of that, whatever their order; reading requests and
      refused ones change nothing, an edit succeeds or is refused whole, and the
      scenario served is accepted back.  [missing_binary_not_found] shows a failed
      start answered as not found.
    - Benchmark: each trial runs on freshly started firmware, the simulation is stopped at
      the end whatever fails, what is sent is accepted, and the flow summaries account
      for each message.
    ** Concurrency

    The program is single-threaded asyncio: only an [await] lets other code run.
    What a task does between two awaits is one operation.  Operations of other
    tasks at an await enter either as lists of operations that may be anything
    ([gw_run], [run_step] sequences) or as an argument (the outcome of a bounded
    wait, the sample taken, the disk operations that fail).  A handler reads the
    clock once; readings are arguments and not assumed increasing unless a theorem
    says so.

    ** Bounds and fuel

    [feed_loop] takes as much fuel as the buffer has bytes (each pass consumes one
    byte or returns).  [bfs] takes the square of the number of nodes plus one (each
    entry is pushed by the expansion of a distinct node).  The schedule's loop takes
    the number of messages still to be sent.  The drain loop takes the number of its
    polls before the deadline.  Each bound is shown to be enough.  The drawing loop
    of packet ids has no bound in the code: its fuel is a parameter, and theorems
    say what an id that is returned satisfies.  Machine widths are written out:
    16-bit frame lengths, 32-bit packet ids and node numbers, binary64 floats and
    28-digit decimals; Python integers are [Z].

    ** Assumptions

    Texts are ASCII [string]s except where bytes are modelled (payloads).  Pydantic's
    coercions are not modelled: a record is what validation is run on.  Wall-clock
    stamps that nothing reads are left out.  Division of integers whose quotient
    exceeds the largest float is not modelled.  The protobuf package, SHA-256,
    [random.Random], Base64 decoding, [int] of non-ASCII digits, the text and rounding
    of numbers in the benchmark and the file system are parameters.  Rate-limit
    answers a node sends are taken to be well addressed where a theorem names the assumption.  [run_completes] is for runs of at most
    2048 direct messages, where the live percentiles are exact.

    ** Not modelled

    Asyncio itself and sockets; cancelling a gateway that is starting; logging;
    commands other than the running start while a simulation is starting, and the
    cancellation of a request's task; that the stability windows of the nodes close
    in another order than the nodes'; FastAPI's routing, JSON encoding and static
    files; the official client library, which Configure takes as its answers; the
    acceptance and preflight scripts, which check a deployed container from outside;
    printing and the JSON files of the benchmark; frontend and container files. *)
From Stdlib Require Export ZArith Lia.
From stdpp Require Export strings pretty option base gmap sets list.

#[global] Open Scope Z_scope.
#[global] Set Default Goal Selector "!".
#[global] Set Warnings "-clear-no-such-hyp".

(** ** Python exceptions and fallible computations *)

(** The exception classes the modelled code raises, each with the message
    (and, for [SimulationConflict], the API error code) it is raised with. *)
Inductive exn :=
| ValueError (msg : string)
| RuntimeError (msg : string)
| KeyError (msg : string)
| IndexError (msg : string)
| TypeError (msg : string)
| OverflowError (msg : string)
| ZeroDivisionError (msg : string)
| QueueFull
| DecodeError (msg : string)
| OSError (msg : string)
| FileNotFoundError (msg : string)
| AttributeError (msg : string)
| TimeoutError (msg : string)
| NodeConfigurationError (msg : string)
| GatewayError (msg : string)
| PacketIdQuarantineCapacityError (msg : string)
| SimulationConflict (code msg : string).

#[export] Instance exn_eq_dec : EqDecision exn.
Proof. solve_decision. Defined.

(** [str(exc)]; a missing key is shown as its [repr], here for keys without quotes. *)
Definition exn_text (e : exn) : string :=
  match e with
  | KeyError key => "'" +:+ key +:+ "'"
  | QueueFull => EmptyString
  | ValueError msg | RuntimeError msg | IndexError msg | TypeError msg | OverflowError msg
  | ZeroDivisionError msg | DecodeError msg | OSError msg | FileNotFoundError msg | AttributeError msg | TimeoutError msg
  | NodeConfigurationError msg | GatewayError msg
  | PacketIdQuarantineCapacityError msg | SimulationConflict _ msg => msg
  end.

(** A computation that returns a value or raises. *)
Inductive res (A : Type) :=
| Ok (a : A)
| Raise (e : exn).
Arguments Ok {A} a.
Arguments Raise {A} e.

#[export] Instance res_eq_dec `{EqDecision A} : EqDecision (res A).
Proof. solve_decision. Defined.

#[export] Instance res_ret : MRet res := @Ok.
#[export] Instance res_bind : MBind res := λ A B f m,
  match m with Ok a => f a | Raise e => Raise e end.
#[export] Instance res_fmap : FMap res := λ A B f m,
  match m with Ok a => Ok (f a) | Raise e => Raise e end.

Definition is_ok {A} (m : res A) : bool :=
  match m with Ok _ => true | Raise _ => false end.

(** [guard_raise b e] is the statement [if b: raise e]. *)
Definition guard_raise (b : bool) (e : exn) : res unit :=
  if b then Raise e else Ok tt.

(** A Python [for] loop whose body may raise. *)
Fixpoint for_each {A S} (f : A → S → res S) (l : list A) (s : S) : res S :=
  match l with
  | [] => Ok s
  | x :: l => s ← f x s; for_each f l s
  end.

Fixpoint map_res {A B} (f : A → res B) (l : list A) : res (list B) :=
  match l with
  | [] => Ok []
  | x :: l => y ← f x; ys ← map_res f l; Ok (y :: ys)
  end.

Lemma bind_ok_inv {A B} (m : res A) (f : A → res B) b :
  m ≫= f = Ok b → ∃ a, m = Ok a ∧ f a = Ok b.
Proof. destruct m; cbn; [eauto | discriminate]. Qed.

Lemma is_ok_inv {A} (m : res A) : is_ok m = true → ∃ a, m = Ok a.
Proof. destruct m; cbn; [eauto | discriminate]. Qed.

Lemma guard_raise_ok b e u : guard_raise b e = Ok u ↔ b = false.
Proof. destruct b, u; cbn; split; congruence. Qed.

Lemma for_each_app {A S} (f : A → S → res S) l1 l2 s :
  for_each f (l1 ++ l2) s = (s' ← for_each f l1 s; for_each f l2 s').
Proof.
  revert s. induction l1 as [|x l1 IH]; intros s; cbn; [done|].
  destruct (f x s); cbn; [apply IH | done].
Qed.

Lemma map_res_ok {A B} (f : A → res B) l ys :
  map_res f l = Ok ys ↔ Forall2 (λ x y, f x = Ok y) l ys.
Proof.
  revert ys. induction l as [|x l IH]; intros ys; cbn.
  - split; [intros [= <-]; constructor | by inversion 1].
  - split.
    + intros H. apply bind_ok_inv in H as (y & Hy & H).
      apply bind_ok_inv in H as (ys' & Hys & [= <-]).
      constructor; [done|]. by apply IH.
    + inversion 1 as [|?? ? ys' Hx Hl]; subst. rewrite Hx; cbn.
      apply IH in Hl. by rewrite Hl.
Qed.

Lemma map_res_total {A B} (f : A → res B) l (g : A → B) :
  (∀ x, x ∈ l → f x = Ok (g x)) → map_res f l = Ok (g <$> l).
Proof.
  intros H. apply map_res_ok. rewrite Forall2_fmap_r.
  induction l as [|x l IH]; constructor.
  - apply H. set_solver.
  - apply IH. set_solver.
Qed.

(** Case analysis of a chain of binds that returned. *)
Ltac inv_bind H :=
  let a := fresh "a" in let Ha := fresh "Ha" in
  apply bind_ok_inv in H as (a & Ha & H).

Lemma string_length_app s t : String.length (s +:+ t) = (String.length s + String.length t)%nat.
Proof.
  induction s as [|a s IH]; [done|].
  change (S (String.length (s +:+ t)) = S (String.length s + String.length t))%nat. by rewrite IH.
Qed.

(** ** Computations that record the calls they make *)

Definition traced (C A : Type) : Type := list C * res A.

#[export] Instance traced_ret {C} : MRet (traced C) := λ A a, ([], Ok a).
#[export] Instance traced_bind {C} : MBind (traced C) := λ A B f m,
  match m with
  | (calls, Ok a) => let (more, r) := f a in (calls ++ more, r)
  | (calls, Raise e) => (calls, Raise e)
  end.

Definition traced_lift {C A} (r : res A) : traced C A := ([], r).

(** [try: m finally: last], whose error replaces the outcome. *)
Definition traced_finally {C A} (m : traced C A) (last : traced C unit) : traced C A :=
  (m.1 ++ last.1, match last.2 with Ok _ => m.2 | Raise e => Raise e end).

Section traced.
Context {C : Type}.

Lemma traced_assoc {A B D} (m : traced C A) (f : A → traced C B) (g : B → traced C D) :
  (x ← (y ← m; f y); g x) = (y ← m; x ← f y; g x).
Proof.
  destruct m as [c [a|e]]; [|done]. unfold mbind, traced_bind. destruct (f a) as [c' [b|e]]; [|done].
  destruct (g b) as [c'' r]. by rewrite app_assoc.
Qed.

Lemma traced_ret_bind {A B} (a : A) (f : A → traced C B) : (x ← (mret a : traced C A); f x) = f a.
Proof. unfold mbind, traced_bind, mret, traced_ret. by destruct (f a). Qed.

Lemma traced_lift_ok {A B} (a : A) (f : A → traced C B) : (x ← traced_lift (Ok a); f x) = f a.
Proof. apply (traced_ret_bind a f). Qed.

Lemma traced_bind_tt (m : traced C unit) : (_ ← m; mret tt) = m.
Proof. destruct m as [c [[]|e]]; [|done]. unfold mbind, traced_bind, mret, traced_ret. by rewrite app_nil_r. Qed.

Lemma traced_bind_ext {A B} (m : traced C A) (f g : A → traced C B) : (∀ a, f a = g a) → m ≫= f = m ≫= g.
Proof. intros Hf. destruct m as [c [a|e]]; [|done]. unfold mbind, traced_bind. by rewrite Hf. Qed.
End traced.

(** ** Record update

    [r <| f := v |>] is the record [r] with field [f] replaced.  A record type
    opts in with an [Eta] instance that rebuilds it from its projections; the
    setter of a field is derived from that by abstracting the projection. *)
Class Eta (R : Type) := eta : R → R.
Class Field {R A : Type} (p : R → A) := set_field : (A → A) → R → R.
Arguments set_field {R A} p {_} _ _.

Ltac derive_field p :=
  match type of p with
  | ?R → ?A =>
    let e := constr:(_ : Eta R) in
    let b := eval hnf in e in
    let t := eval pattern p in b in
    match t with
    | ?g _ =>
      let u := eval cbv beta in (λ (f : A → A) (r : R), g (λ r', f (p r')) r) in
      exact u
    end
  end.

#[export] Hint Extern 1 (Field ?p) => derive_field p : typeclass_instances.

Declare Scope record_scope.
Delimit Scope record_scope with record.
Notation "r <| f := v |>" := (set_field f (λ _, v) r)
  (at level 1, f at level 0, v at level 99, left associativity) : record_scope.
Notation "r <| f ::= g |>" := (set_field f g r)
  (at level 1, f at level 0, g at level 99, left associativity) : record_scope.
#[global] Open Scope record_scope.

(** ** Bytes *)
Abbreviation byte := Byte.byte.

Definition byte_val (b : byte) : Z := Z.of_N (Byte.to_N b).

(** The byte of the low eight bits of an integer. *)
Definition byte_of (z : Z) : byte :=
  match Byte.of_N (Z.to_N (z mod 256)) with Some b => b | None => Byte.x00 end.

#[export] Instance byte_eq_dec : EqDecision byte := Byte.byte_eq_dec.

Lemma byte_val_range b : 0 <= byte_val b < 256.
Proof. unfold byte_val. pose proof (Byte.to_N_bounded b). lia. Qed.

Lemma byte_val_of z : byte_val (byte_of z) = z mod 256.
Proof.
  unfold byte_val, byte_of. pose proof (Z.mod_pos_bound z 256 ltac:(lia)).
  destruct (Byte.of_N (Z.to_N (z mod 256))) as [b|] eqn:E.
  - apply Byte.to_of_N in E. lia.
  - apply Byte.of_N_None_iff in E. lia.
Qed.

Lemma byte_val_inj b c : byte_val b = byte_val c → b = c.
Proof.
  unfold byte_val. intros H%N2Z.inj.
  pose proof (Byte.of_to_N b) as Hb. pose proof (Byte.of_to_N c) as Hc.
  rewrite H in Hb. congruence.
Qed.

Lemma byte_of_val b : byte_of (byte_val b) = b.
Proof.
  apply byte_val_inj. rewrite byte_val_of.
  apply Z.mod_small, byte_val_range.
Qed.

(** ** Generic lemmas on lists *)

(** Python's [len]. *)
Definition zlen {A} (l : list A) : Z := Z.of_nat (length l).

Lemma zlen_nonneg {A} (l : list A) : 0 <= zlen l.
Proof. unfold zlen. lia. Qed.
Lemma zlen_app {A} (l k : list A) : zlen (l ++ k) = zlen l + zlen k.
Proof. unfold zlen. rewrite length_app. lia. Qed.
Lemma zlen_nil {A} : zlen (@nil A) = 0.
Proof. done. Qed.
Lemma zlen_cons {A} (x : A) l : zlen (x :: l) = zlen l + 1.
Proof. unfold zlen. cbn. lia. Qed.
Lemma zlen_take_drop {A} n (l : list A) : zlen (take n l) + zlen (drop n l) = zlen l.
Proof. rewrite <-zlen_app. by rewrite take_drop. Qed.

Create HintDb lab.
Create Rewrite HintDb zlen.
#[export] Hint Resolve zlen_nonneg byte_val_range : lab.
#[export] Hint Rewrite @zlen_app @zlen_cons @zlen_nil : zlen.

Ltac zlen_lia := autorewrite with zlen in *; unfold zlen in *; cbn [length] in *; lia.

(** Sum of integers: Python's [sum]. *)
Fixpoint zsum (l : list Z) : Z :=
  match l with [] => 0 | x :: l => x + zsum l end.

Lemma zsum_app l k : zsum (l ++ k) = zsum l + zsum k.
Proof. induction l; cbn; lia. Qed.
Lemma zsum_nonneg l : Forall (λ x, 0 <= x) l → 0 <= zsum l.
Proof. induction 1; cbn; lia. Qed.

(** Python's [enumerate]. *)
Definition enumerate {A} (l : list A) : list (Z * A) := zip (seqZ 0 (zlen l)) l.

Lemma enumerate_snd {A} (l : list A) : (enumerate l).*2 = l.
Proof. apply snd_zip. rewrite length_seqZ. unfold zlen. lia. Qed.

Lemma enumerate_length {A} (l : list A) : length (enumerate l) = length l.
Proof. rewrite <-(enumerate_snd l) at 2. by rewrite length_fmap. Qed.

Lemma enumerate_lookup {A} (l : list A) i j x :
  enumerate l !! i = Some (j, x) ↔ j = Z.of_nat i ∧ l !! i = Some x.
Proof.
  unfold enumerate. rewrite lookup_zip_Some, lookup_seqZ.
  split; [naive_solver|]. intros [-> H]. split; [|done].
  apply lookup_lt_Some in H. unfold zlen. lia.
Qed.

Lemma enumerate_elem {A} (l : list A) j x :
  (j, x) ∈ enumerate l ↔ ∃ i, j = Z.of_nat i ∧ l !! i = Some x.
Proof.
  rewrite list_elem_of_lookup. split; intros [i H]; exists i.
  - by apply enumerate_lookup in H.
  - by apply enumerate_lookup.
Qed.

Lemma enumerate_elem_snd {A} (l : list A) p : p ∈ enumerate l → p.2 ∈ l.
Proof.
  intros H. rewrite <-(enumerate_snd l). apply list_elem_of_fmap. by exists p.
Qed.

Lemma enumerate_fst {A} (l : list A) : (enumerate l).*1 = seqZ 0 (zlen l).
Proof. apply fst_zip. rewrite length_seqZ. unfold zlen. lia. Qed.

Lemma NoDup_enumerate {A} (l : list A) : NoDup (enumerate l).
Proof. apply (NoDup_fmap_1 fst). rewrite enumerate_fst. apply NoDup_seqZ. Qed.

Lemma fmap_bind {A B C} (f : B → C) (g : A → list B) l :
  f <$> (l ≫= g) = l ≫= (λ x, f <$> g x).
Proof. induction l as [|x l IH]; cbn; [done|]. by rewrite fmap_app, <-IH. Qed.

Lemma elem_of_if_nil {A} (b : bool) (x y : A) :
  x ∈ (if b then [] else [y]) ↔ b = false ∧ x = y.
Proof.
  destruct b; [split; [by intros ?%elem_of_nil | by intros []]|].
  rewrite list_elem_of_singleton. naive_solver.
Qed.

Lemma sublist_length_eq {A} (l k : list A) :
  l `sublist_of` k → length l = length k → l = k.
Proof.
  induction 1 as [|x l k H IH|x l k H IH]; cbn; intros Hl; [done| |].
  - f_equal. apply IH. lia.
  - apply sublist_length in H. lia.
Qed.

(** ** Sorted lists of strings *)

(** [sorted] on strings. *)
Fixpoint sinsert (x : string) (l : list string) : list string :=
  match l with
  | [] => [x]
  | y :: l => if String.ltb y x then y :: sinsert x l else x :: y :: l
  end.
Definition str_sorted (l : list string) : list string := foldr sinsert [] l.

Lemma sinsert_perm x l : sinsert x l ≡ₚ x :: l.
Proof.
  induction l as [|y l IH]; [done|]. cbn [sinsert]. destruct (String.ltb y x); [|done].
  rewrite IH. apply Permutation_swap.
Qed.

Lemma str_sorted_perm l : str_sorted l ≡ₚ l.
Proof. induction l as [|x l IH]; [done|]. cbn [str_sorted foldr]. by rewrite sinsert_perm, IH. Qed.

(** The order of strings is a strict total order. *)
Lemma ltb_cons a s b t :
  String.ltb (String a s) (String b t) = true ↔
    (Ascii.N_of_ascii a < Ascii.N_of_ascii b)%N ∨ (a = b ∧ String.ltb s t = true).
Proof.
  unfold String.ltb. cbn [String.compare]. unfold Ascii.compare.
  destruct (N.compare_spec (Ascii.N_of_ascii a) (Ascii.N_of_ascii b)) as [E|E|E].
  - apply (f_equal Ascii.ascii_of_N) in E. rewrite !Ascii.ascii_N_embedding in E. subst b.
    split; [by right|]. intros [?|[_ ?]]; [lia|done].
  - split; [by left|done].
  - split; [done|]. intros [?|[-> _]]; lia.
Qed.

Lemma ltb_trans s t u : String.ltb s t = true → String.ltb t u = true → String.ltb s u = true.
Proof.
  revert t u. induction s as [|a s IH]; intros [|b t] [|c u]; try done.
  rewrite !ltb_cons. intros [?|[-> ?]] [?|[-> ?]]; [left; lia|by left|by left|]. right. split; [done|].
  by eapply IH.
Qed.

Lemma ltb_total s t : String.ltb s t = true ∨ s = t ∨ String.ltb t s = true.
Proof.
  unfold String.ltb. rewrite (String.compare_antisym t s).
  destruct (String.compare s t) eqn:E; [|by left|by do 2 right].
  apply String.compare_eq_iff in E. auto.
Qed.

Lemma ltb_irrefl s : String.ltb s s = false.
Proof.
  destruct (String.ltb s s) eqn:E; [|done]. unfold String.ltb in E.
  pose proof (String.compare_antisym s s) as A. destruct (String.compare s s); done.
Qed.

Lemma ltb_asym s t : String.ltb s t = true → String.ltb t s = false.
Proof.
  intros H1. destruct (String.ltb t s) eqn:H2; [|done].
  pose proof (ltb_trans _ _ _ H1 H2) as H. by rewrite ltb_irrefl in H.
Qed.

Lemma sinsert_comm x y l : sinsert x (sinsert y l) = sinsert y (sinsert x l).
Proof.
  assert (∀ x y, String.ltb x y = true → ∀ l, sinsert x (sinsert y l) = sinsert y (sinsert x l)) as H.
  { clear. intros x y Hxy. pose proof (ltb_asym _ _ Hxy) as Hyx. induction l as [|z l IH]; cbn [sinsert].
    { by rewrite Hxy, Hyx. }
    destruct (String.ltb z x) eqn:Hx.
    - pose proof (ltb_trans _ _ _ Hx Hxy) as Hy. rewrite Hy. cbn [sinsert]. by rewrite Hx, Hy, IH.
    - destruct (String.ltb z y) eqn:Hy; cbn [sinsert].
      + by rewrite Hx, Hxy, Hy.
      + by rewrite Hyx, Hxy, Hy. }
  destruct (ltb_total x y) as [?|[->|?]]; [auto|done|symmetry; auto].
Qed.

(** Sorting forgets the order of its argument. *)
Lemma str_sorted_proper l k : l ≡ₚ k → str_sorted l = str_sorted k.
Proof.
  induction 1 as [|x l k _ IH|x y l|l k m _ IH1 _ IH2]; cbn [str_sorted foldr]; [done| | |].
  - by unfold str_sorted in IH; rewrite IH.
  - apply sinsert_comm.
  - by rewrite IH1.
Qed.
