(* ===== verification/Utf8.v ===== *)
(** * UTF-8

    A Python [str] as its code points, [str.encode()], and [bytes.decode] with the
    error handlers the code uses: what replaces a malformed sequence is an argument
    ([[]] for "ignore", U+FFFD for "replace").  A malformed sequence extends as far as
    it could still have become a character, as in CPython. *)
From S2P Require Import Prelude.

(** A [str] without surrogates. *)
Definition text : Type := list Z.

Definition scalar (c : Z) : bool :=
  ((0 <=? c) && (c <? 0xD800)) || ((0xE000 <=? c) && (c <? 0x110000)).

Definition utf8_char (c : Z) : list byte :=
  if c <? 0x80 then [byte_of c]
  else if c <? 0x800 then [byte_of (0xC0 + c / 64); byte_of (0x80 + c mod 64)]
  else if c <? 0x10000 then
    [byte_of (0xE0 + c / 4096); byte_of (0x80 + c / 64 mod 64); byte_of (0x80 + c mod 64)]
  else [byte_of (0xF0 + c / 262144); byte_of (0x80 + c / 4096 mod 64);
        byte_of (0x80 + c / 64 mod 64); byte_of (0x80 + c mod 64)].

Definition utf8_encode (t : text) : list byte := t ≫= utf8_char.

(** The six bits of a continuation byte. *)
Definition low6 (b : byte) : option Z :=
  let v := byte_val b in
  if (0x80 <=? v) && (v <? 0xC0) then Some (v - 0x80) else None.

(** The second byte of a sequence of three or four: no overlong forms, no
    surrogates, nothing above U+10FFFF. *)
Definition second_ok (lead v : Z) : bool :=
  if lead =? 0xE0 then 0xA0 <=? v
  else if lead =? 0xED then v <? 0xA0
  else if lead =? 0xF0 then 0x90 <=? v
  else if lead =? 0xF4 then v <? 0x90
  else true.

(** Continuation bytes, [n] of them, accumulated onto [acc]. *)
Fixpoint utf8_tail (n : nat) (acc : Z) (l : list byte) : option Z * list byte :=
  match n with
  | O => (Some acc, l)
  | S n =>
    match l with
    | [] => (None, [])
    | b :: rest => match low6 b with
                   | Some x => utf8_tail n (acc * 64 + x) rest
                   | None => (None, l)
                   end
    end
  end.

(** The character a sequence starts with, [None] if it is malformed, and the rest. *)
Definition utf8_next (b : byte) (l : list byte) : option Z * list byte :=
  let v := byte_val b in
  let long n base :=
    match l with
    | [] => (None, [])
    | b1 :: _ => if second_ok v (byte_val b1) then utf8_tail n (v - base) l else (None, l)
    end in
  if v <? 0x80 then (Some v, l)
  else if (0xC2 <=? v) && (v <? 0xE0) then utf8_tail 1 (v - 0xC0) l
  else if (0xE0 <=? v) && (v <? 0xF0) then long 2%nat 0xE0
  else if (0xF0 <=? v) && (v <? 0xF5) then long 3%nat 0xF0
  else (None, l).

(** Every step consumes a byte: [utf8_decode] runs with the length as fuel. *)
Fixpoint utf8_decode_loop (fuel : nat) (on_error : text) (l : list byte) : text :=
  match fuel, l with
  | S fuel, b :: l =>
    let (c, rest) := utf8_next b l in
    match c with Some c => [c] | None => on_error end ++ utf8_decode_loop fuel on_error rest
  | _, _ => []
  end.

Definition utf8_decode (on_error : text) (l : list byte) : text :=
  utf8_decode_loop (length l) on_error l.

(** ** Round trips *)

Lemma low6_spec b x : low6 b = Some x ↔ byte_val b = 0x80 + x ∧ 0 <= x < 64.
Proof.
  unfold low6. destruct (andb _ _) eqn:E.
  - split; [intros [= <-]|intros [-> ?]; f_equal]; lia.
  - split; [discriminate|]. lia.
Qed.

Lemma byte_val_of_small z : 0 <= z < 256 → byte_val (byte_of z) = z.
Proof. intros. rewrite byte_val_of. by apply Z.mod_small. Qed.

Lemma byte_of_eq b z : byte_val b = z → b = byte_of z.
Proof. intros <-. by rewrite byte_of_val. Qed.

Lemma utf8_tail_length n acc l : (length (utf8_tail n acc l).2 <= length l)%nat.
Proof.
  revert acc l. induction n as [|n IH]; intros acc [|b l]; cbn; try lia.
  destruct (low6 b); cbn; [|lia]. etrans; [apply IH|lia].
Qed.

Lemma utf8_next_length b l : (length (utf8_next b l).2 <= length l)%nat.
Proof.
  unfold utf8_next. repeat (case_match; cbn; try lia); try apply utf8_tail_length.
Qed.

Lemma utf8_decode_fuel fuel e l : (length l <= fuel)%nat → utf8_decode_loop fuel e l = utf8_decode e l.
Proof.
  unfold utf8_decode. revert l. induction (lt_wf fuel) as [fuel _ IH]. intros l Hl.
  destruct l as [|b l]; [by destruct fuel|]. destruct fuel as [|fuel]; [cbn in Hl; lia|].
  cbn [utf8_decode_loop length]. pose proof (utf8_next_length b l) as Hn.
  destruct (utf8_next b l) as [c rest]. cbn [snd length] in *. f_equal.
  rewrite (IH fuel) by lia.
  destruct (decide (length l = fuel)) as [->|]; [|symmetry; apply IH; lia].
  by rewrite (IH fuel) by lia.
Qed.

Lemma utf8_decode_cons e b l :
  utf8_decode e (b :: l) =
    match (utf8_next b l).1 with Some c => [c] | None => e end ++ utf8_decode e (utf8_next b l).2.
Proof.
  unfold utf8_decode at 1. cbn [length utf8_decode_loop]. pose proof (utf8_next_length b l) as Hn.
  destruct (utf8_next b l) as [c rest]. cbn in *. by rewrite utf8_decode_fuel by lia.
Qed.

Lemma utf8_tail_some n acc l c rest :
  utf8_tail n acc l = (Some c, rest) →
  ∃ k, length k = n ∧ l = k ++ rest ∧
    Forall (λ b, is_Some (low6 b)) k ∧
    c = foldl (λ acc b, acc * 64 + (byte_val b - 0x80)) acc k.
Proof.
  revert acc l. induction n as [|n IH]; intros acc l; cbn [utf8_tail].
  - intros [= <- <-]. by exists [].
  - destruct l as [|b l]; [done|]. destruct (low6 b) as [x|] eqn:Hx; [|done].
    intros (k & <- & -> & Hk & ->)%IH. exists (b :: k). split_and!; [done..| |].
    + constructor; [by rewrite Hx|done].
    + cbn [foldl]. apply low6_spec in Hx as [-> _]. do 2 f_equal. lia.
Qed.

(** Quotients and remainders by constants. *)
Ltac ediv := Z.to_euclidean_division_equations; lia.

Lemma low6_bits b1 : is_Some (low6 b1) → ∃ x, byte_val b1 = 0x80 + x ∧ 0 <= x < 64.
Proof. intros [x ?%low6_spec]. eauto. Qed.

(** The encoding of a character from the bits of its bytes. *)
Lemma utf8_char_2 v x : 2 <= v < 32 → 0 <= x < 64 →
  utf8_char (v * 64 + x) = [byte_of (0xC0 + v); byte_of (0x80 + x)].
Proof.
  intros ??. unfold utf8_char. rewrite (proj2 (Z.ltb_ge _ 0x80)), (proj2 (Z.ltb_lt _ 0x800)) by lia.
  repeat f_equal; ediv.
Qed.

Lemma utf8_char_3 v x y : 0 <= v < 16 → 0 <= x < 64 → 0 <= y < 64 → (v = 0 → 32 <= x) →
  utf8_char ((v * 64 + x) * 64 + y) = [byte_of (0xE0 + v); byte_of (0x80 + x); byte_of (0x80 + y)].
Proof.
  intros ????. unfold utf8_char.
  rewrite (proj2 (Z.ltb_ge _ 0x80)), (proj2 (Z.ltb_ge _ 0x800)), (proj2 (Z.ltb_lt _ 0x10000)) by lia.
  repeat f_equal; ediv.
Qed.

Lemma utf8_char_4 v x y z : 0 <= v < 5 → 0 <= x < 64 → 0 <= y < 64 → 0 <= z < 64 → (v = 0 → 16 <= x) →
  utf8_char (((v * 64 + x) * 64 + y) * 64 + z) =
    [byte_of (0xF0 + v); byte_of (0x80 + x); byte_of (0x80 + y); byte_of (0x80 + z)].
Proof.
  intros ?????. unfold utf8_char.
  rewrite (proj2 (Z.ltb_ge _ 0x80)), (proj2 (Z.ltb_ge _ 0x800)), (proj2 (Z.ltb_ge _ 0x10000)) by lia.
  repeat f_equal; ediv.
Qed.

(** Bytes the decoder turns into a character are that character's encoding. *)
Lemma utf8_next_some b l c rest :
  utf8_next b l = (Some c, rest) → scalar c = true ∧ b :: l = utf8_char c ++ rest.
Proof.
  pose proof (byte_val_range b) as Hb.
  unfold utf8_next. destruct (Z.ltb_spec (byte_val b) 0x80).
  { intros [= <- <-]. unfold utf8_char, scalar.
    rewrite (proj2 (Z.ltb_lt _ 0x80)) by lia. rewrite byte_of_val. split; [lia|done]. }
  destruct (andb (0xC2 <=? byte_val b) _) eqn:E2.
  { intros (k & Hn & -> & Hk & ->)%utf8_tail_some.
    destruct k as [|b1 [|]]; try discriminate Hn.
    apply Forall_singleton, low6_bits in Hk as (x & Hx & ?).
    cbn [foldl]. rewrite Hx, Z.add_simpl_l, utf8_char_2 by lia. unfold scalar. split; [lia|].
    cbn [app]. f_equal; [apply byte_of_eq; lia|]. f_equal. apply byte_of_eq. lia. }
  destruct (andb (0xE0 <=? byte_val b) _) eqn:E3.
  { destruct l as [|b' l]; [done|]. destruct (second_ok _ _) eqn:Hs; [|done].
    intros (k & Hn & Heq & Hk & ->)%utf8_tail_some.
    destruct k as [|b1 [|b2 [|]]]; try discriminate Hn. injection Heq as -> ->.
    apply Forall_cons in Hk as [(x & Hx & ?)%low6_bits Hk].
    apply Forall_singleton, low6_bits in Hk as (y & Hy & ?).
    cbn [foldl]. rewrite Hx, Hy, !Z.add_simpl_l.
    assert ((byte_val b = 0xE0 → 32 <= x) ∧ (byte_val b = 0xED → x < 32)) as [Ha Hd].
    { unfold second_ok in Hs. split; intros Hv; rewrite Hv in Hs; cbn in Hs; lia. }
    rewrite utf8_char_3 by lia. split.
    - unfold scalar. destruct (Z.ltb_spec (byte_val b) 0xED); [lia|]. destruct (Z.eq_dec (byte_val b) 0xED); lia.
    - cbn [app]. f_equal; [apply byte_of_eq; lia|]. f_equal; [apply byte_of_eq; lia|]. f_equal. apply byte_of_eq; lia. }
  destruct (andb (0xF0 <=? byte_val b) _) eqn:E4; [|done].
  destruct l as [|b' l]; [done|]. destruct (second_ok _ _) eqn:Hs; [|done].
  intros (k & Hn & Heq & Hk & ->)%utf8_tail_some.
  destruct k as [|b1 [|b2 [|b3 [|]]]]; try discriminate Hn. injection Heq as -> ->.
  apply Forall_cons in Hk as [(x & Hx & ?)%low6_bits Hk].
  apply Forall_cons in Hk as [(y & Hy & ?)%low6_bits Hk].
  apply Forall_singleton, low6_bits in Hk as (z & Hz & ?).
  cbn [foldl]. rewrite Hx, Hy, Hz, !Z.add_simpl_l.
  assert ((byte_val b = 0xF0 → 16 <= x) ∧ (byte_val b = 0xF4 → x < 16)) as [Ha Hd].
  { unfold second_ok in Hs. split; intros Hv; rewrite Hv in Hs; cbn in Hs; lia. }
  rewrite utf8_char_4 by lia. split; [unfold scalar; lia|].
  cbn [app]. f_equal; [apply byte_of_eq; lia|]. f_equal; [apply byte_of_eq; lia|].
  f_equal; [apply byte_of_eq; lia|]. f_equal. apply byte_of_eq; lia.
Qed.

Lemma utf8_tail_app n acc k rest :
  length k = n → Forall (λ b, is_Some (low6 b)) k →
  utf8_tail n acc (k ++ rest) = (Some (foldl (λ acc b, acc * 64 + (byte_val b - 0x80)) acc k), rest).
Proof.
  intros <-. revert acc. induction k as [|b k IH]; intros acc Hk; [done|].
  apply Forall_cons in Hk as [[x Hx] Hk]. cbn [length utf8_tail app foldl]. rewrite Hx, IH by done.
  apply low6_spec in Hx as [-> _]. do 4 f_equal. lia.
Qed.

Lemma low6_byte x : 0 <= x < 64 → low6 (byte_of (0x80 + x)) = Some x.
Proof. intros ?. apply low6_spec. rewrite byte_val_of_small; lia. Qed.

(** The decoder reads back one encoded character. *)
Lemma utf8_next_char c : scalar c = true →
  ∃ b l, utf8_char c = b :: l ∧ Forall (λ b, is_Some (low6 b)) l ∧
    ∀ rest, utf8_next b (l ++ rest) = (Some c, rest).
Proof.
  intros Hc. unfold scalar in Hc. unfold utf8_char.
  destruct (Z.ltb_spec c 0x80).
  { eexists _, _. split; [done|]. split; [constructor|]. intros rest. unfold utf8_next.
    rewrite byte_val_of_small by lia. by rewrite (proj2 (Z.ltb_lt c 0x80)) by lia. }
  destruct (Z.ltb_spec c 0x800).
  { assert (0 <= c mod 64 < 64) by ediv. eexists _, _. split; [done|]. split.
    { repeat constructor. by rewrite low6_byte. }
    intros rest. unfold utf8_next. rewrite byte_val_of_small by ediv.
    rewrite (proj2 (Z.ltb_ge _ 0x80)) by ediv. destruct (andb (0xC2 <=? _) _) eqn:E; [|exfalso; ediv].
    rewrite utf8_tail_app; [|done|by repeat constructor; rewrite low6_byte].
    cbn [foldl]. rewrite byte_val_of_small by lia. do 2 f_equal. ediv. }
  destruct (Z.ltb_spec c 0x10000).
  { assert (0 <= c mod 64 < 64) by ediv. assert (0 <= c / 64 mod 64 < 64) by ediv.
    assert (0 <= c / 4096 < 16) by ediv.
    eexists _, _. split; [done|]. split.
    { repeat constructor; by rewrite low6_byte. }
    intros rest. unfold utf8_next. rewrite byte_val_of_small by lia.
    rewrite (proj2 (Z.ltb_ge _ 0x80)) by lia.
    destruct (andb (0xC2 <=? _) _) eqn:E2; [lia|]. destruct (andb (0xE0 <=? _) _) eqn:E; [|lia].
    cbn [app]. rewrite byte_val_of_small by lia.
    replace (second_ok _ _) with true by (unfold second_ok; repeat case_match; ediv).
    match goal with |- context [utf8_tail 2 _ (?x :: ?y :: rest)] => change (x :: y :: rest) with ([x; y] ++ rest) end.
    rewrite utf8_tail_app; [|done|by repeat constructor; rewrite low6_byte].
    cbn [foldl]. rewrite !byte_val_of_small by lia. do 2 f_equal. ediv. }
  assert (0 <= c mod 64 < 64) by ediv. assert (0 <= c / 64 mod 64 < 64) by ediv.
  assert (0 <= c / 4096 mod 64 < 64) by ediv. assert (0 <= c / 262144 < 5) by ediv.
  eexists _, _. split; [done|]. split.
  { repeat constructor; by rewrite low6_byte. }
  intros rest. unfold utf8_next. rewrite byte_val_of_small by lia.
  rewrite (proj2 (Z.ltb_ge _ 0x80)) by lia.
  destruct (andb (0xC2 <=? _) _) eqn:E2; [lia|]. destruct (andb (0xE0 <=? _) _) eqn:E3; [lia|].
  destruct (andb (0xF0 <=? _) _) eqn:E; [|lia].
  cbn [app]. rewrite byte_val_of_small by lia.
  replace (second_ok _ _) with true by (unfold second_ok; repeat case_match; ediv).
  match goal with |- context [utf8_tail 3 _ (?x :: ?y :: ?z :: rest)] =>
    change (x :: y :: z :: rest) with ([x; y; z] ++ rest) end.
  rewrite utf8_tail_app; [|done|by repeat constructor; rewrite low6_byte].
  cbn [foldl]. rewrite !byte_val_of_small by lia. do 2 f_equal. ediv.
Qed.

Lemma utf8_encode_cons c t : utf8_encode (c :: t) = utf8_char c ++ utf8_encode t.
Proof. done. Qed.

Lemma utf8_encode_app t u : utf8_encode (t ++ u) = utf8_encode t ++ utf8_encode u.
Proof. apply bind_app. Qed.

Lemma utf8_decode_char e c l : scalar c = true → utf8_decode e (utf8_char c ++ l) = c :: utf8_decode e l.
Proof.
  intros (b & k & -> & _ & Hk)%utf8_next_char. cbn [app]. by rewrite utf8_decode_cons, Hk.
Qed.

(** Decoding an encoded text gives the text back, whatever the error handler. *)
Lemma utf8_decode_encode e t : Forall (λ c, scalar c = true) t → utf8_decode e (utf8_encode t) = t.
Proof.
  induction 1 as [|c t Hc Ht IH]; [done|]. by rewrite utf8_encode_cons, utf8_decode_char, IH.
Qed.

(** Decoding gives texts without surrogates. *)
Lemma utf8_decode_scalar e l :
  Forall (λ c, scalar c = true) e → Forall (λ c, scalar c = true) (utf8_decode e l).
Proof.
  intros He. induction (Nat.lt_wf_0_projected (@length byte) l) as [l _ IH].
  destruct l as [|b l]; [constructor|]. rewrite utf8_decode_cons. pose proof (utf8_next_length b l).
  destruct (utf8_next b l) as [[c|] rest] eqn:Hn; cbn [fst snd] in *; rewrite Forall_app; split; try done.
  - constructor; [|done]. by apply utf8_next_some in Hn as [? _].
  - apply IH. cbn. lia.
  - apply IH. cbn. lia.
Qed.

(** Dropping malformed bytes and encoding again never lengthens the bytes. *)
Lemma utf8_ignore_length l : zlen (utf8_encode (utf8_decode [] l)) <= zlen l.
Proof.
  induction (Nat.lt_wf_0_projected (@length byte) l) as [l _ IH].
  destruct l as [|b l]; [done|]. rewrite utf8_decode_cons. pose proof (utf8_next_length b l).
  rewrite utf8_encode_app, zlen_app.
  assert (zlen (utf8_encode (utf8_decode [] (utf8_next b l).2)) <= zlen (utf8_next b l).2)
    by (apply IH; cbn; lia).
  destruct (utf8_next b l) as [[c|] rest] eqn:Hn; cbn [fst snd] in *.
  - apply utf8_next_some in Hn as [_ Heq]. rewrite Heq, zlen_app. unfold utf8_encode at 1. cbn [mbind list_bind].
    rewrite app_nil_r. lia.
  - cbn. zlen_lia.
Qed.

(** Cutting an encoded text at its start and dropping the malformed bytes leaves a
    suffix of the text. *)
Lemma utf8_cut_suffix t n : Forall (λ c, scalar c = true) t →
  ∃ m, utf8_decode [] (drop n (utf8_encode t)) = drop m t.
Proof.
  intros Ht. revert n. induction Ht as [|c t Hc Ht IH]; intros n; [by exists O; destruct n|].
  rewrite utf8_encode_cons. destruct (utf8_next_char c Hc) as (b & k & Hbk & Hk & _).
  destruct n as [|n].
  { exists O. by rewrite !drop_0, utf8_decode_char, utf8_decode_encode. }
  rewrite Hbk. cbn [app drop].
  destruct (decide (n < length k)%nat) as [Hn|Hn].
  - exists 1%nat. cbn [drop]. rewrite drop_app_le by lia.
    assert (Forall (λ b, is_Some (low6 b)) (drop n k)) as Hd by by apply Forall_drop.
    revert Hd. generalize (drop n k). intros l Hl.
    rewrite drop_0. induction Hl as [|b' l [x Hx] Hl IHl]; cbn [app]; [by apply utf8_decode_encode|].
    rewrite utf8_decode_cons. apply low6_spec in Hx as [Hx ?].
    assert (utf8_next b' (l ++ utf8_encode t) = (None, l ++ utf8_encode t)) as ->; [|done].
    unfold utf8_next. rewrite Hx.
    rewrite (proj2 (Z.ltb_ge _ 0x80)) by lia.
    destruct (andb _ _) eqn:E1; [lia|]. destruct (andb (224 <=? _) _) eqn:E2; [lia|].
    destruct (andb (240 <=? _) _) eqn:E3; [lia|]. done.
  - rewrite drop_app_ge by lia. destruct (IH (n - length k)%nat) as [m ->]. by exists (S m).
Qed.
