(* ===== verification/ProcessLogs.v ===== *)
(** * The logs of a firmware process (src/backend/app/runtime/processes.py)

    [_BoundedLogWriter], which keeps a log file and one backup within a size, and
    [_drain_output], which feeds it the lines of a process and keeps the last ones in
    memory.  A file system is the map of its files; the steps of a write that can fail
    are numbered. *)
From S2P Require Import Prelude Utf8.

Definition PERSISTED_LOG_MAX_BYTES : Z := 8 * 1024 * 1024.

Abbreviation log_files := (gmap string (list byte)).

Definition NEWLINE : byte := Byte.x0a.

Definition file_at (fs : log_files) (path : string) : list byte := default [] (fs !! path).

(** The open stream is [lw_path]'s file; [self.size] is [lw_size]. *)
Record LogWriter := mkLogWriter {
  lw_path : string;
  lw_max_bytes : Z;
  lw_size : Z }.
#[export] Instance eta_LogWriter : Eta LogWriter := λ r,
  mkLogWriter (lw_path r) (lw_max_bytes r) (lw_size r).

Definition backup_path (path : string) : string := path +:+ ".1".

(** The step that fails: removing the backup, renaming the file, opening a new one,
    or writing, which leaves the first bytes. *)
Inductive log_fault :=
| FaultUnlink
| FaultReplace
| FaultOpen
| FaultWrite (written : nat).

(** [l[-n:]] for a positive [n]. *)
Definition last_bytes {A} (n : Z) (l : list A) : list A := drop (Z.to_nat (zlen l - n)) l.

(** What follows the first newline, nothing if there is none. *)
Fixpoint after_newline (l : list byte) : list byte :=
  match l with
  | [] => []
  | b :: l => if decide (b = NEWLINE) then l else after_newline l
  end.

Definition trim_existing (w : LogWriter) (fs : log_files) : LogWriter * log_files :=
  let tail := after_newline (last_bytes (lw_max_bytes w) (file_at fs (lw_path w))) in
  (w <| lw_size := zlen tail |>, <[lw_path w := tail]> fs).

(** The constructor, when the file can be opened. *)
Definition new_log_writer (path : string) (max_bytes : Z) (fs : log_files) : LogWriter * log_files :=
  let content := file_at fs path in
  let w := mkLogWriter path max_bytes (zlen content) in
  let fs := <[path := content]> fs in
  if max_bytes <? lw_size w then trim_existing w fs else (w, fs).

Definition log_error : exn := OSError "log file".

Definition rotate (fault : option log_fault) (w : LogWriter) (fs : log_files)
    : (LogWriter * log_files) * res unit :=
  match fault with
  | Some FaultUnlink => ((w, fs), Raise log_error)
  | _ =>
    let fs := delete (backup_path (lw_path w)) fs in
    match fault with
    | Some FaultReplace => ((w, fs), Raise log_error)
    | _ =>
      let fs := <[backup_path (lw_path w) := file_at fs (lw_path w)]> (delete (lw_path w) fs) in
      match fault with
      | Some FaultOpen => ((w, fs), Raise log_error)
      | _ => ((w <| lw_size := 0 |>, <[lw_path w := []]> fs), Ok tt)
      end
    end
  end.

(** The bytes of a line; those of a line that is too long are its last ones. *)
Definition log_payload (max_bytes : Z) (t : text) : list byte :=
  let payload := utf8_encode (t ++ [10]) in
  if max_bytes <? zlen payload then utf8_encode (utf8_decode [] (last_bytes max_bytes payload))
  else payload.

Definition append_payload (fault : option log_fault) (payload : list byte) (w : LogWriter)
    (fs : log_files) : (LogWriter * log_files) * res unit :=
  match fault with
  | Some (FaultWrite n) =>
    ((w, <[lw_path w := file_at fs (lw_path w) ++ take n payload]> fs), Raise log_error)
  | _ => ((w <| lw_size := lw_size w + zlen payload |>,
           <[lw_path w := file_at fs (lw_path w) ++ payload]> fs), Ok tt)
  end.

Definition write_line (fault : option log_fault) (t : text) (w : LogWriter) (fs : log_files)
    : (LogWriter * log_files) * res unit :=
  let payload := log_payload (lw_max_bytes w) t in
  if negb (lw_size w =? 0) && (lw_max_bytes w <? lw_size w + zlen payload) then
    match rotate fault w fs with
    | ((w, fs), Ok _) => append_payload fault payload w fs
    | ((w, fs), Raise e) => ((w, fs), Raise e)
    end
  else append_payload fault payload w fs.

(** ** Draining a stream *)

(** [str.isspace] *)
Definition space_code (c : Z) : bool :=
  bool_decide (c ∈ [0x20; 0x85; 0xA0; 0x1680; 0x2028; 0x2029; 0x202F; 0x205F; 0x3000]) ||
  ((9 <=? c) && (c <=? 13)) || ((28 <=? c) && (c <=? 31)) || ((0x2000 <=? c) && (c <=? 0x200A)).

Fixpoint lstrip (t : text) : text :=
  match t with c :: t' => if space_code c then lstrip t' else t | [] => [] end.

Definition rstrip (t : text) : text := reverse (lstrip (reverse t)).

(** [line.decode("utf-8", errors="replace").rstrip()] *)
Definition line_text (line : list byte) : text := rstrip (utf8_decode [0xFFFD] line).

Definition RECENT_LINES : Z := 250.

(** [append] on a deque of at most [RECENT_LINES] lines. *)
Definition append_recent (t : text) (recent : list text) : list text :=
  last_bytes RECENT_LINES (recent ++ [t]).

(** The limit of an asyncio stream reader: [readline] raises [ValueError] on a line
    with more bytes before its newline. *)
Definition READER_LIMIT : Z := 65536.

Definition line_body (line : list byte) : list byte :=
  match reverse line with
  | b :: rest => if decide (b = NEWLINE) then reverse rest else line
  | [] => []
  end.

Definition line_readable (line : list byte) : bool := zlen (line_body line) <=? READER_LIMIT.

(** One output stream of a process: whether its task still reads, its last lines,
    and the writer, until opening or writing the file fails. *)
Record Drain := mkDrain {
  draining : bool;
  recent_lines : list text;
  output : option LogWriter }.
#[export] Instance eta_Drain : Eta Drain := λ r,
  mkDrain (draining r) (recent_lines r) (output r).

Definition open_drain (path : string) (max_bytes : Z) (openable : bool) (fs : log_files)
    : Drain * log_files :=
  if openable then
    let (w, fs) := new_log_writer path max_bytes fs in (mkDrain true [] (Some w), fs)
  else (mkDrain true [] None, fs).

(** A turn of the loop of [_drain_output]. *)
Definition drain_line (fault : option log_fault) (line : list byte) (d : Drain) (fs : log_files)
    : Drain * log_files :=
  if negb (draining d) then (d, fs)
  else if negb (line_readable line) then (d <| draining := false |> <| output := None |>, fs)
  else
    let t := line_text line in
    let d := d <| recent_lines ::= append_recent t |> in
    match output d with
    | None => (d, fs)
    | Some w =>
      match write_line fault t w fs with
      | ((w, fs), Ok _) => (d <| output := Some w |>, fs)
      | ((_, fs), Raise _) => (d <| output := None |>, fs)
      end
    end.

Definition drain_lines (lines : list (list byte * option log_fault)) (d : Drain) (fs : log_files)
    : Drain * log_files :=
  foldl (λ p l, drain_line l.2 l.1 p.1 p.2) (d, fs) lines.

(** ** Sizes *)

Lemma last_bytes_length {A} n (l : list A) : 0 <= n → zlen (last_bytes n l) = Z.min n (zlen l).
Proof. intros ?. unfold last_bytes, zlen. rewrite length_drop. lia. Qed.

Lemma after_newline_length l : zlen (after_newline l) <= zlen l.
Proof. induction l as [|b l IH]; cbn [after_newline]; [done|]. case_decide; zlen_lia. Qed.

Lemma log_payload_length max t : 0 <= max → zlen (log_payload max t) <= max.
Proof.
  intros ?. unfold log_payload. destruct (Z.ltb_spec max (zlen (utf8_encode (t ++ [10])))); [|done].
  etrans; [apply utf8_ignore_length|]. rewrite last_bytes_length; lia.
Qed.

Lemma backup_path_ne path : backup_path path ≠ path.
Proof.
  unfold backup_path. intros H. apply (f_equal String.length) in H. revert H.
  induction path as [|a path IH]; cbn; [done|]. intros [= H]. auto.
Qed.

Lemma file_at_insert fs p q l :
  file_at (<[p := l]> fs) q = if decide (p = q) then l else file_at fs q.
Proof. unfold file_at. rewrite lookup_insert. by case_decide. Qed.

(** The writer knows the size of its file, which is within the bound. *)
Definition writer_ok (path : string) (max : Z) (w : LogWriter) (fs : log_files) : Prop :=
  lw_path w = path ∧ lw_max_bytes w = max ∧ lw_size w = zlen (file_at fs path) ∧ lw_size w <= max.

Lemma new_log_writer_ok path max fs w fs' :
  0 < max → new_log_writer path max fs = (w, fs') →
  writer_ok path max w fs' ∧ fs' = <[path := file_at fs' path]> fs.
Proof.
  intros Hmax. unfold new_log_writer, writer_ok. cbn [lw_size].
  destruct (Z.ltb_spec max (zlen (file_at fs path))) as [H|H]; intros [= <- <-];
    unfold set_field; cbn [lw_path lw_max_bytes lw_size]; rewrite !file_at_insert, !decide_True by done.
  - split; [|by rewrite insert_insert_eq]. split_and!; try done.
    etrans; [apply after_newline_length|]. rewrite last_bytes_length; lia.
  - done.
Qed.

(** ** What stays on disk *)

(** The files after [chunks] were appended to a log that held [start]: either all of it
    is in the file, or the file and its backup hold a tail of it, cut between chunks,
    of more than [max] bytes. *)
Definition retains (path : string) (max : Z) (fs0 : log_files) (start : list byte)
    (chunks : list (list byte)) (fs : log_files) : Prop :=
  fs = <[path := start ++ mjoin chunks]> fs0 ∨
  ∃ old new lost backup,
    chunks = old ++ new ∧ start ++ mjoin old = lost ++ backup ∧
    fs = <[path := mjoin new]> (<[backup_path path := backup]> fs0) ∧
    zlen backup <= max < zlen backup + zlen (mjoin new).

Lemma join_singleton {A} (p : list A) : mjoin [p] = p.
Proof. apply app_nil_r. Qed.

Lemma retains_file path max fs0 start chunks fs :
  retains path max fs0 start chunks fs →
  ∃ lost, start ++ mjoin chunks = lost ++ file_at fs path.
Proof.
  intros [->|(old & new & lost & backup & -> & Heq & -> & _)]; rewrite file_at_insert, decide_True by done.
  - by exists [].
  - exists (lost ++ backup). by rewrite join_app, app_assoc, Heq.
Qed.

(** Appending a chunk without rotating. *)
Lemma retains_append path max fs0 start chunks fs p :
  retains path max fs0 start chunks fs →
  retains path max fs0 start (chunks ++ [p]) (<[path := file_at fs path ++ p]> fs).
Proof.
  intros [->|(old & new & lost & backup & -> & Heq & -> & ? & ?)];
    rewrite file_at_insert, decide_True, insert_insert_eq by done.
  - left. by rewrite join_app, app_assoc, join_singleton.
  - right. exists old, (new ++ [p]), lost, backup. rewrite join_app, join_singleton, <-app_assoc, zlen_app.
    pose proof (zlen_nonneg p). split_and!; try done. lia.
Qed.

Lemma rotate_ok path max w fs :
  writer_ok path max w fs →
  rotate None w fs = ((w <| lw_size := 0 |>,
    <[path := []]> (<[backup_path path := file_at fs path]> fs)), Ok tt).
Proof.
  intros (Hp & _). unfold rotate. rewrite Hp. do 2 f_equal. pose proof (backup_path_ne path) as Hne.
  replace (file_at (delete (backup_path path) fs) path) with (file_at fs path)
    by by unfold file_at; rewrite lookup_delete_ne by done.
  apply map_eq. intros q. rewrite !lookup_insert, !lookup_delete. repeat case_decide; congruence || done.
Qed.

Lemma write_line_ok path max fs0 start chunks t w fs w' fs' r :
  0 < max → writer_ok path max w fs → retains path max fs0 start chunks fs →
  write_line None t w fs = ((w', fs'), r) →
  r = Ok tt ∧ writer_ok path max w' fs' ∧
  retains path max fs0 start (chunks ++ [log_payload max t]) fs'.
Proof.
  intros Hmax Hw Hr. pose proof Hw as (Hp & Hm & Hs & Hle). unfold write_line. rewrite Hm.
  pose proof (log_payload_length max t ltac:(lia)) as Hl. set (p := log_payload max t) in *.
  destruct (Z.eqb_spec (lw_size w) 0) as [H0|H0]; cbn [negb andb];
    [|destruct (Z.ltb_spec max (lw_size w + zlen p)) as [Hbig|Hbig]].
  - unfold append_payload. intros [= <- <- <-]. unfold set_field; cbn [lw_size]. rewrite Hp. split; [done|].
    split; [|by apply retains_append]. unfold writer_ok; cbn [lw_path lw_max_bytes lw_size].
    rewrite file_at_insert, decide_True, zlen_app by done. split_and!; try done; lia.
  - rewrite (rotate_ok path max) by done. unfold append_payload. intros [= <- <- <-].
    unfold set_field; cbn [lw_path lw_size lw_max_bytes]. rewrite Hp. split; [done|].
    rewrite insert_insert_eq, file_at_insert, decide_True by done. cbn [app].
    split; [unfold writer_ok; cbn [lw_path lw_max_bytes lw_size];
      rewrite file_at_insert, decide_True by done; split_and!; try done; lia|].
    right. destruct (retains_file _ _ _ _ _ _ Hr) as [lost Heq].
    exists chunks, [p], lost, (file_at fs path). rewrite join_singleton. split_and!; [done|done| |lia|lia].
    destruct Hr as [->|(old & new & lost' & backup & -> & _ & -> & _)].
    + rewrite file_at_insert, decide_True by done. pose proof (backup_path_ne path).
      by rewrite (insert_insert_ne _ (backup_path path)), insert_insert_eq by done.
    + rewrite file_at_insert, decide_True by done. pose proof (backup_path_ne path).
      rewrite (insert_insert_ne _ (backup_path path)), insert_insert_eq by done.
      by rewrite insert_insert_eq.
  - unfold append_payload. intros [= <- <- <-]. unfold set_field; cbn [lw_size]. rewrite Hp. split; [done|].
    split; [|by apply retains_append]. unfold writer_ok; cbn [lw_path lw_max_bytes lw_size].
    rewrite file_at_insert, decide_True, zlen_app by done. split_and!; try done; lia.
Qed.

(** The bounds that hold whatever fails. *)
Definition bounded_files (path : string) (max : Z) (fs0 fs : log_files) : Prop :=
  zlen (file_at fs path) <= max ∧
  (fs !! backup_path path = fs0 !! backup_path path ∨ zlen (file_at fs (backup_path path)) <= max) ∧
  ∀ q, q ≠ path → q ≠ backup_path path → fs !! q = fs0 !! q.

Lemma bounded_insert path max fs0 fs l :
  bounded_files path max fs0 fs → zlen l <= max → bounded_files path max fs0 (<[path := l]> fs).
Proof.
  intros (H1 & H2 & H3) Hl. pose proof (backup_path_ne path). unfold bounded_files.
  rewrite !file_at_insert, decide_True, decide_False, lookup_insert_ne by done. split_and!; [done..|].
  intros q ??. rewrite lookup_insert_ne by done. auto.
Qed.

Lemma rotate_bounded fault path max fs0 w fs w' fs' r :
  writer_ok path max w fs → bounded_files path max fs0 fs → rotate fault w fs = ((w', fs'), r) →
  bounded_files path max fs0 fs' ∧
  (r = Ok tt → w' = w <| lw_size := 0 |> ∧ file_at fs' path = []).
Proof.
  intros (Hp & Hm & Hs & Hle) (H1 & H2 & H3). unfold rotate. rewrite Hp.
  pose proof (backup_path_ne path) as Hne. pose proof (zlen_nonneg (file_at fs path)).
  pose proof (@zlen_nil byte) as H0.
  set (fs1 := delete (backup_path path) fs).
  assert (file_at fs1 path = file_at fs path) as E1 by by unfold file_at, fs1; rewrite lookup_delete_ne by done.
  assert (bounded_files path max fs0 fs1) as B1.
  { split; [by rewrite E1|]. unfold fs1, file_at. split; [right; rewrite lookup_delete_eq; cbn [from_option]; lia|].
    intros q ??. rewrite lookup_delete_ne by done. auto. }
  assert (bounded_files path max fs0 (<[backup_path path := file_at fs1 path]> (delete path fs1))) as B2.
  { split; [|split].
    - unfold file_at at 1. rewrite lookup_insert_ne, lookup_delete_eq by done. unfold zlen at 1. cbn. lia.
    - right. unfold file_at at 1. rewrite lookup_insert_eq. cbn [default]. by rewrite E1.
    - intros q ??. rewrite lookup_insert_ne, lookup_delete_ne by done. by apply B1. }
  destruct fault as [[| | |n]|]; intros [= <- <- <-]; try (split; [done|discriminate]);
    (split; [apply bounded_insert; [done|lia]|]); rewrite file_at_insert, decide_True by done; done.
Qed.

Lemma write_line_bounded fault path max fs0 t w fs w' fs' r :
  0 < max → writer_ok path max w fs → bounded_files path max fs0 fs →
  write_line fault t w fs = ((w', fs'), r) →
  bounded_files path max fs0 fs' ∧ (r = Ok tt → writer_ok path max w' fs').
Proof.
  intros Hmax Hw Hb. pose proof Hw as (Hp & Hm & Hs & Hle). unfold write_line. rewrite Hm.
  pose proof (log_payload_length max t ltac:(lia)) as Hl. set (p := log_payload max t) in *.
  assert (∀ w1 fs1 w' fs' r, writer_ok path max w1 fs1 → bounded_files path max fs0 fs1 →
    lw_size w1 + zlen p <= max → append_payload fault p w1 fs1 = ((w', fs'), r) →
    bounded_files path max fs0 fs' ∧ (r = Ok tt → writer_ok path max w' fs')) as Happ.
  { clearbody p. clear w fs w' fs' r Hw Hb Hp Hm Hs Hle. intros w1 fs1 w' fs' r (Hp & Hm & Hs & _) Hb Hle. unfold append_payload. rewrite Hp.
    assert (∀ n, bounded_files path max fs0 (<[path := file_at fs1 path ++ take n p]> fs1)) as Hn.
    { intros n. apply bounded_insert; [done|]. rewrite zlen_app.
      pose proof (zlen_take_drop n p). pose proof (zlen_nonneg (drop n p)). lia. }
    assert (writer_ok path max (w1 <| lw_size := lw_size w1 + zlen p |>) (<[path := file_at fs1 path ++ p]> fs1)).
    { unfold writer_ok, set_field; cbn [lw_path lw_max_bytes lw_size].
      rewrite file_at_insert, decide_True, zlen_app by done. split_and!; try done; lia. }
    specialize (Hn (length p)) as Hp'. rewrite take_ge in Hp' by done.
    destruct fault as [[| | |n]|]; intros [= <- <- <-]; split; done || apply Hn. }
  destruct (Z.eqb_spec (lw_size w) 0) as [H0|H0]; cbn [negb andb];
    [by apply Happ; [..|lia]|destruct (Z.ltb_spec max (lw_size w + zlen p)) as [Hbig|Hbig]; [|by apply Happ]].
  destruct (rotate fault w fs) as [[w1 fs1] r1] eqn:Hr.
  eapply rotate_bounded in Hr as [Hb1 Hok]; [|done..].
  destruct r1 as [[]|e]; [|by intros [= <- <- <-]]. destruct (Hok eq_refl) as [-> Hempty].
  apply Happ; [|done|unfold set_field; cbn [lw_size]; lia].
  unfold writer_ok, set_field; cbn [lw_path lw_max_bytes lw_size].
  split_and!; [done|done|by rewrite Hempty|lia].
Qed.

(** ** A stream of lines *)

Lemma last_bytes_idem {A} n (l : list A) : 0 <= n → last_bytes n (last_bytes n l) = last_bytes n l.
Proof.
  intros ?. unfold last_bytes at 1. rewrite last_bytes_length by done.
  by replace (Z.to_nat _) with O by lia.
Qed.

Lemma last_bytes_snoc {A} n (l k : list A) x :
  0 <= n → last_bytes n (last_bytes n l ++ [x]) = last_bytes n (l ++ [x]).
Proof.
  intros Hn. unfold last_bytes at 1 3. rewrite !zlen_app, last_bytes_length by done.
  unfold last_bytes. destruct (Z.leb_spec (zlen l) n) as [H|H].
  - rewrite Z.min_r by done. by replace (Z.to_nat (zlen l - n)) with O by lia.
  - rewrite Z.min_l by lia. pose proof (zlen_cons x (@nil A)) as H1. rewrite zlen_nil in H1.
    destruct (Z.eq_dec n 0) as [->|].
    + rewrite !drop_ge; [done|..]; rewrite ?length_app, ?length_drop; cbn [length]; unfold zlen in *; cbn [length] in *; lia.
    + rewrite !drop_app_le, drop_drop; [|unfold zlen in *; rewrite ?length_drop; lia..].
      f_equal. f_equal. lia.
Qed.

Lemma last_bytes_app {A} n (k l : list A) :
  0 <= n → last_bytes n (last_bytes n k ++ l) = last_bytes n (k ++ l).
Proof.
  intros Hn. induction l as [|x l IH] using rev_ind; [by rewrite !app_nil_r, last_bytes_idem|].
  by rewrite !app_assoc, <-(last_bytes_snoc _ (last_bytes _ k ++ l)), IH, last_bytes_snoc.
Qed.

(** The lines before the first one [readline] refuses. *)
Fixpoint readable_lines (lines : list (list byte)) : list (list byte) :=
  match lines with
  | l :: lines => if line_readable l then l :: readable_lines lines else []
  | [] => []
  end.

Definition fault_free (lines : list (list byte * option log_fault)) : Prop :=
  Forall (λ l, l.2 = None) lines.

Lemma drain_lines_stopped lines d fs : draining d = false → drain_lines lines d fs = (d, fs).
Proof.
  intros Hd. unfold drain_lines. induction lines as [|l lines IH]; [done|]. cbn [foldl fst snd].
  unfold drain_line at 2. by rewrite Hd.
Qed.

Lemma drain_lines_cons l lines d fs :
  drain_lines (l :: lines) d fs =
    drain_lines lines (drain_line l.2 l.1 d fs).1 (drain_line l.2 l.1 d fs).2.
Proof. unfold drain_lines. cbn [foldl fst snd]. by rewrite <-surjective_pairing. Qed.

(** The last lines are those read, whatever happens to the file. *)
Lemma drain_recent lines d fs :
  draining d = true → recent_lines d = last_bytes RECENT_LINES (recent_lines d) →
  recent_lines (drain_lines lines d fs).1 =
    last_bytes RECENT_LINES (recent_lines d ++ (line_text <$> readable_lines lines.*1)) ∧
  draining (drain_lines lines d fs).1 = forallb line_readable lines.*1.
Proof.
  revert d fs. induction lines as [|[l fault] lines IH]; intros d fs Hd Hr; [by rewrite app_nil_r|].
  rewrite drain_lines_cons. cbn [fmap list_fmap fst snd readable_lines forallb].
  unfold drain_line. rewrite Hd. cbn [negb]. destruct (line_readable l); cbn [negb andb].
  - set (q := match output _ with Some _ => _ | None => _ end).
    assert (recent_lines q.1 = append_recent (line_text l) (recent_lines d) ∧ draining q.1 = true) as [Hq Hq'].
    { unfold q. destruct (output _); [|done]. by destruct (write_line _ _ _ _) as [[? ?] []]. }
    clearbody q. destruct (IH q.1 q.2 Hq') as [-> ->].
    + rewrite Hq. unfold append_recent. by rewrite last_bytes_idem.
    + rewrite Hq. unfold append_recent. cbn [fmap list_fmap]. split; [|done].
      rewrite last_bytes_app by done. by rewrite <-app_assoc.
  - rewrite drain_lines_stopped by done. by rewrite app_nil_r.
Qed.

(** What one stream keeps of its file. *)
Definition stream_ok (path : string) (max : Z) (fs0 : log_files) (start : list byte)
    (texts : list text) (ok : bool) (d : Drain) (fs : log_files) : Prop :=
  bounded_files path max fs0 fs ∧
  (∀ w, output d = Some w → writer_ok path max w fs) ∧
  (ok = true → is_Some (output d) ∧ retains path max fs0 start (log_payload max <$> texts) fs).

Lemma drain_line_ok path max fs0 start texts ok fault l d fs :
  0 < max → stream_ok path max fs0 start texts ok d fs → draining d = true → line_readable l = true →
  stream_ok path max fs0 start (texts ++ [line_text l]) (ok && bool_decide (fault = None))
    (drain_line fault l d fs).1 (drain_line fault l d fs).2.
Proof.
  intros Hmax (Hb & Hw & Hr) Hd Hl. unfold drain_line. rewrite Hd, Hl. cbn [negb].
  set (d1 := set_field _ _ d). assert (output d1 = output d) as Ho1 by done. clearbody d1.
  rewrite Ho1. destruct (output d) as [w|] eqn:Ho; cbn [fst snd].
  2: { split; [done|]. split; [by rewrite Ho1|]. intros [-> _]%andb_true_iff. by destruct (Hr eq_refl) as [[? ?] _]. }
  specialize (Hw w eq_refl).
  destruct (write_line fault (line_text l) w fs) as [[w' fs'] r] eqn:E.
  destruct (write_line_bounded _ _ _ _ _ _ _ _ _ _ Hmax Hw Hb E) as [Hb' Hw'].
  assert (ok && bool_decide (fault = None) = true → r = Ok tt ∧
    retains path max fs0 start (log_payload max <$> texts ++ [line_text l]) fs') as Hok.
  { intros [-> ->%bool_decide_eq_true]%andb_true_iff. destruct (Hr eq_refl) as [_ Hr'].
    destruct (write_line_ok _ _ _ _ _ _ _ _ _ _ _ Hmax Hw Hr' E) as (-> & _ & ?).
    by rewrite fmap_app. }
  destruct r as [[]|e]; cbn [fst snd]; (split; [done|]); unfold set_field; cbn [output].
  - split; [intros ? [= <-]; auto|]. intros H. destruct (Hok H). eauto.
  - split; [done|]. intros H. by destruct (Hok H).
Qed.

Lemma drain_stream path max fs0 start texts ok lines d fs :
  0 < max → stream_ok path max fs0 start texts ok d fs → draining d = true →
  bounded_files path max fs0 (drain_lines lines d fs).2 ∧
  (ok = true → fault_free lines →
   retains path max fs0 start (log_payload max <$> texts ++ (line_text <$> readable_lines lines.*1))
     (drain_lines lines d fs).2).
Proof.
  intros Hmax. revert texts ok d fs. induction lines as [|[l fault] lines IH]; intros texts ok d fs Hs Hd.
  { rewrite app_nil_r. split; [apply Hs|]. intros ? _. by apply Hs. }
  rewrite drain_lines_cons. cbn [fmap list_fmap fst snd readable_lines].
  destruct (line_readable l) eqn:Hl.
  - pose proof (drain_line_ok _ _ _ _ _ _ fault l _ _ Hmax Hs Hd Hl) as Hs'.
    assert (draining (drain_line fault l d fs).1 = true) as Hd'.
    { unfold drain_line. rewrite Hd, Hl. cbn [negb]. destruct (output _); [|done].
      by destruct (write_line _ _ _ _) as [[? ?] []]. }
    destruct (IH _ _ _ _ Hs' Hd') as [H1 H2]. split; [done|].
    intros -> [Hn Hf]%Forall_cons. cbn [snd] in Hn. subst fault.
    rewrite <-app_assoc in H2. by apply H2.
  - unfold drain_line. rewrite Hd, Hl. cbn [negb fst snd]. rewrite drain_lines_stopped by done.
    rewrite app_nil_r. split; [apply Hs|]. intros ? _. by apply Hs.
Qed.

Lemma line_text_scalar l : Forall (λ c, scalar c = true) (line_text l).
Proof.
  unfold line_text, rstrip. apply Forall_reverse.
  assert (Forall (λ c, scalar c = true) (reverse (utf8_decode [0xFFFD] l))) as H.
  { apply Forall_reverse, utf8_decode_scalar. by constructor. }
  revert H. generalize (reverse (utf8_decode [0xFFFD] l)). induction 1 as [|c t Hc Ht IH]; [constructor|].
  cbn [lstrip]. destruct (space_code c); [done|by constructor].
Qed.

Lemma log_payload_suffix max t :
  Forall (λ c, scalar c = true) t → ∃ m, log_payload max t = utf8_encode (drop m (t ++ [10])).
Proof.
  intros Ht. unfold log_payload. case_match; [|by exists O].
  destruct (utf8_cut_suffix (t ++ [10]) (Z.to_nat (zlen (utf8_encode (t ++ [10])) - max))) as [m Hm].
  { apply Forall_app. split; [done|by constructor]. }
  exists m. unfold last_bytes. by rewrite Hm.
Qed.

Lemma after_newline_drop l : ∃ k, after_newline l = drop k l.
Proof.
  induction l as [|b l [k Hk]]; [by exists O|]. cbn [after_newline].
  case_decide; [by exists 1%nat|by exists (S k)].
Qed.

(** The log a writer starts from is the end of the file it finds. *)
Lemma new_log_writer_start path max fs w fs' :
  new_log_writer path max fs = (w, fs') → ∃ k, file_at fs' path = drop k (file_at fs path).
Proof.
  unfold new_log_writer. cbn [lw_size]. case_match; intros [= <- <-]; cbn [lw_path lw_max_bytes];
    rewrite !file_at_insert, !decide_True by done; [|by exists O].
  unfold last_bytes. destruct (after_newline_drop (drop (Z.to_nat (zlen (file_at fs path) - max)) (file_at fs path)))
    as [k ->]. rewrite drop_drop. by eexists.
Qed.

Lemma stream_ok_new path max fs0 w fs1 :
  writer_ok path max w fs1 → fs1 = <[path := file_at fs1 path]> fs0 →
  stream_ok path max fs0 (file_at fs1 path) [] true (mkDrain true [] (Some w)) fs1.
Proof.
  intros Hw Hf. pose proof (backup_path_ne path). split; [|split].
  - destruct Hw as (_ & _ & Hs & Hle). split; [by rewrite <-Hs|].
    rewrite Hf. split; [left|intros q ??]; by rewrite lookup_insert_ne.
  - by intros ? [= <-].
  - intros _. split; [by eexists|]. left. cbn. by rewrite app_nil_r.
Qed.

(** C33: draining a process's output keeps, in memory, the last 250 lines read and, on
    disk, a log and one backup that never exceed their size and touch no other file,
    whatever fails; without failures the two hold all that was written, or more than
    the size's worth of its end, cut between lines. A line is written as its UTF-8
    text, or as an end of it that fits when it is too long. *)
Theorem drain_keeps_tail path max fs0 lines :
  0 < max →
  let p := open_drain path max true fs0 in
  let r := drain_lines lines p.1 p.2 in
  let texts := line_text <$> readable_lines lines.*1 in
  recent_lines r.1 = last_bytes RECENT_LINES texts ∧
  draining r.1 = forallb line_readable lines.*1 ∧
  bounded_files path max fs0 r.2 ∧
  (∃ k, file_at p.2 path = drop k (file_at fs0 path)) ∧
  (fault_free lines → retains path max fs0 (file_at p.2 path) (log_payload max <$> texts) r.2) ∧
  ∀ t, t ∈ texts →
    zlen (log_payload max t) <= max ∧
    (∃ m, log_payload max t = utf8_encode (drop m (t ++ [10]))) ∧
    (zlen (utf8_encode (t ++ [10])) <= max → log_payload max t = utf8_encode (t ++ [10])).
Proof.
  intros Hmax p r texts.
  assert (draining p.1 = true ∧ recent_lines p.1 = [] ∧
    stream_ok path max fs0 (file_at p.2 path) [] true p.1 p.2 ∧
    ∃ k, file_at p.2 path = drop k (file_at fs0 path)) as (Hd & Hr & Hs & Hk).
  { unfold p, open_drain. destruct (new_log_writer path max fs0) as [w fs1] eqn:E. cbn [fst snd].
    split; [done|]. split; [done|]. split; [|by eapply new_log_writer_start].
    apply new_log_writer_ok in E as [Hw Hf]; [|done]. by apply stream_ok_new. }
  clearbody p. subst r. destruct (drain_recent lines p.1 p.2 Hd) as [H1 H2]; [by rewrite Hr|].
  rewrite Hr in H1. destruct (drain_stream _ _ _ _ _ _ lines _ _ Hmax Hs Hd) as [H3 H4].
  split_and!; try done; [by apply H4|]. intros t Ht.
  apply list_elem_of_fmap in Ht as (l & -> & _).
  split_and!; [apply log_payload_length; lia|apply log_payload_suffix, line_text_scalar|].
  intros Hle. unfold log_payload. case_match; [lia|done].
Qed.

Lemma drain_keeps_tail_witness :
  let lines := (λ l, (Byte.x61 :: l, None)) <$> [[]; [Byte.x62]; [Byte.x63; Byte.x0a]] in
  0 < 5 ∧ retains "log" 5 ∅ [] (log_payload 5 <$> [[97]; [97; 98]; [97; 99]])
    (drain_lines lines (open_drain "log" 5 true ∅).1 (open_drain "log" 5 true ∅).2).2.
Proof.
  intros lines. split; [lia|].
  destruct (drain_keeps_tail "log" 5 ∅ lines ltac:(lia)) as (_ & _ & _ & _ & H & _).
  apply H. by repeat constructor.
Defined.

(** A line over the reader's limit ends the task: nothing after it is read, kept or
    written. *)
Lemma overlong_line_ends_drain line fault lines d fs :
  draining d = true → line_readable line = false →
  drain_lines ((line, fault) :: lines) d fs = (d <| draining := false |> <| output := None |>, fs).
Proof.
  intros Hd Hl. rewrite drain_lines_cons. cbn [fst snd]. unfold drain_line. rewrite Hd, Hl. cbn [negb fst snd].
  by apply drain_lines_stopped.
Qed.
