(* ===== verification/PyDict.v ===== *)
(** * Python dictionaries

    A [dict] keeps its keys in insertion order and overwriting a value keeps the
    key's place, which the code's loops over dictionaries observe (the order in
    which receivers are served, or pending submissions failed). [dict K V] is an
    association list with those operations; [dict_ok] (distinct keys) holds of
    every dictionary built by them. Dictionaries that are only looked up are
    [gmap]s in the components. *)
From S2P Require Import Prelude.

Definition dict (K V : Type) : Type := list (K * V).

Section dict.
Context {K V : Type} {Keq : EqDecision K}.
Implicit Types (d : dict K V) (k : K) (v : V).

(** [d.get(k)] *)
Fixpoint dget (k : K) (d : dict K V) : option V :=
  match d with
  | [] => None
  | (k', v) :: d => if decide (k = k') then Some v else dget k d
  end.

(** [d[k] = v] *)
Fixpoint dset (k : K) (v : V) (d : dict K V) : dict K V :=
  match d with
  | [] => [(k, v)]
  | (k', v') :: d => if decide (k = k') then (k', v) :: d else (k', v') :: dset k v d
  end.

(** [d.pop(k, None)] *)
Fixpoint ddel (k : K) (d : dict K V) : dict K V :=
  match d with
  | [] => []
  | (k', v') :: d => if decide (k = k') then d else (k', v') :: ddel k d
  end.

Definition dmem (k : K) (d : dict K V) : bool := bool_decide (k ∈ d.*1).

(** [{k: v for ...}] *)
Definition dict_of (l : list (K * V)) : dict K V :=
  foldl (λ d kv, dset kv.1 kv.2 d) [] l.

Definition dict_ok (d : dict K V) : Prop := NoDup d.*1.

Lemma dget_dset k k' v d :
  dget k' (dset k v d) = if decide (k' = k) then Some v else dget k' d.
Proof.
  induction d as [|[k0 v0] d IH]; cbn; [by repeat case_decide|].
  destruct (decide (k = k0)) as [->|]; cbn; repeat case_decide; congruence.
Qed.

Lemma dget_dset_eq k v d : dget k (dset k v d) = Some v.
Proof. rewrite dget_dset. by case_decide. Qed.

Lemma dget_dset_ne k k' v d : k' ≠ k → dget k' (dset k v d) = dget k' d.
Proof. rewrite dget_dset. by case_decide. Qed.

Lemma dget_None k d : dget k d = None ↔ k ∉ d.*1.
Proof.
  induction d as [|[k0 v0] d IH]; cbn; [split; [by intros _ ?%elem_of_nil | done]|].
  rewrite not_elem_of_cons. case_decide; naive_solver.
Qed.

Lemma dget_elem k v d : dget k d = Some v → (k, v) ∈ d.
Proof.
  induction d as [|[k0 v0] d IH]; cbn; [done|].
  case_decide; [intros [= <-]; subst; set_solver | set_solver].
Qed.

Lemma dget_key k v d : dget k d = Some v → k ∈ d.*1.
Proof. intros H%dget_elem. apply list_elem_of_fmap. by exists (k, v). Qed.

Lemma dget_Some k v d : dict_ok d → dget k d = Some v ↔ (k, v) ∈ d.
Proof.
  intros Hok. split; [apply dget_elem|].
  induction d as [|[k0 v0] d IH]; cbn; [set_solver|].
  apply NoDup_cons in Hok as [Hnin Hok].
  intros [[= -> ->]|H]%elem_of_cons; [by case_decide|].
  case_decide; [|auto]. subst. destruct Hnin.
  apply list_elem_of_fmap. by exists (k0, v).
Qed.

Lemma dmem_spec k d : dmem k d = true ↔ is_Some (dget k d).
Proof.
  unfold dmem. rewrite bool_decide_eq_true. destruct (dget k d) eqn:E.
  - apply dget_key in E. naive_solver.
  - apply dget_None in E. split; [done | by intros [? ?]].
Qed.

Lemma dset_keys k v d : k ∈ d.*1 → (dset k v d).*1 = d.*1.
Proof.
  induction d as [|[k0 v0] d IH]; cbn; [set_solver|].
  case_decide as E; [done|]. cbn. intros H. f_equal. apply IH. set_solver.
Qed.

Lemma dset_fresh k v d : k ∉ d.*1 → dset k v d = d ++ [(k, v)].
Proof.
  induction d as [|[k0 v0] d IH]; cbn; [done|].
  intros H. case_decide as E; [set_solver|]. f_equal. apply IH. set_solver.
Qed.

Lemma dset_key_in k k' v d : k' ∈ (dset k v d).*1 ↔ k' = k ∨ k' ∈ d.*1.
Proof.
  destruct (decide (k ∈ d.*1)) as [H|H].
  - rewrite dset_keys by done. naive_solver.
  - rewrite dset_fresh, fmap_app by done. cbn. set_solver.
Qed.

Lemma dict_ok_nil : dict_ok [].
Proof. constructor. Qed.

Lemma dict_ok_dset k v d : dict_ok d → dict_ok (dset k v d).
Proof.
  unfold dict_ok. intros H. destruct (decide (k ∈ d.*1)) as [E|E].
  - by rewrite dset_keys.
  - rewrite dset_fresh, fmap_app by done. apply NoDup_app. cbn.
    split_and!; [done|set_solver|apply NoDup_singleton].
Qed.

Lemma ddel_sublist k d : ddel k d `sublist_of` d.
Proof.
  induction d as [|[k0 v0] d IH]; cbn; [done|].
  case_decide; [by constructor | by apply sublist_skip].
Qed.

Lemma dict_ok_ddel k d : dict_ok d → dict_ok (ddel k d).
Proof.
  intros H. eapply sublist_NoDup; [exact H|].
  apply fmap_sublist, ddel_sublist.
Qed.

Lemma dget_ddel k k' d :
  dict_ok d → dget k' (ddel k d) = if decide (k' = k) then None else dget k' d.
Proof.
  induction d as [|[k0 v0] d IH]; cbn; intros Hok; [by case_decide|].
  apply NoDup_cons in Hok as [Hnin Hok]. destruct (decide (k = k0)) as [->|Hne]; cbn.
  - destruct (decide (k' = k0)) as [->|]; [|done]. by apply dget_None.
  - rewrite IH by done. repeat case_decide; congruence.
Qed.

Lemma ddel_fresh k d : k ∉ d.*1 → ddel k d = d.
Proof.
  induction d as [|[k0 v0] d IH]; cbn; [done|]. intros H.
  case_decide as E; [set_solver|]. f_equal. apply IH. set_solver.
Qed.

Lemma ddel_elem k kv d : dict_ok d → kv ∈ ddel k d ↔ kv ∈ d ∧ kv.1 ≠ k.
Proof.
  intros Hok. destruct kv as [k' v]. cbn.
  rewrite <-!dget_Some by auto using dict_ok_ddel. rewrite dget_ddel by done.
  case_decide; naive_solver.
Qed.

Lemma ddel_key_in k k' d : dict_ok d → k' ∈ (ddel k d).*1 ↔ k' ∈ d.*1 ∧ k' ≠ k.
Proof.
  intros Hok. rewrite !list_elem_of_fmap. split.
  - intros ([k0 v] & -> & [H1 H2]%ddel_elem); [|done]. cbn in *. split; [|done].
    by exists (k0, v).
  - intros (([k0 v] & -> & H) & Hne). exists (k0, v). split; [done|]. by apply ddel_elem.
Qed.

Lemma dget_is_Some k d : k ∈ d.*1 → is_Some (dget k d).
Proof.
  intros Hk. destruct (dget k d) eqn:E; [done|]. apply dget_None in E. done.
Qed.

Lemma dset_elem k v k' v' d : (k', v') ∈ dset k v d → (k' = k ∧ v' = v) ∨ (k', v') ∈ d.
Proof.
  induction d as [|[k0 v0] d IH]; cbn.
  - intros [= -> ->]%list_elem_of_singleton. by left.
  - case_decide as E; intros [He|He]%elem_of_cons.
    + injection He as -> ->. by left.
    + right. by right.
    + injection He as -> ->. right. by left.
    + destruct (IH He) as [?|?]; [by left|right; by right].
Qed.

(** The last binding wins. *)
Lemma dget_dict_of k l : dget k (dict_of l) = snd <$> last (filter (λ kv, kv.1 = k) l).
Proof.
  unfold dict_of.
  assert (∀ d, dget k (foldl (λ d kv, dset kv.1 kv.2 d) d l) =
    match last (filter (λ kv, kv.1 = k) l) with Some kv => Some kv.2 | None => dget k d end) as H.
  { induction l as [|[k0 v0] l IH] using rev_ind; intros d; [done|].
    rewrite foldl_app, filter_app, filter_cons, filter_nil. cbn.
    rewrite dget_dset. repeat case_decide; subst; try done.
    - by rewrite last_snoc.
    - by rewrite app_nil_r, IH. }
  rewrite H. by destruct (last _).
Qed.

(** A list with distinct keys is its own dictionary. *)
Lemma foldl_dset_app d l :
  NoDup (d.*1 ++ l.*1) → foldl (λ d kv, dset kv.1 kv.2 d) d l = d ++ l.
Proof.
  revert d. induction l as [|[k v] l IH]; intros d H; cbn; [by rewrite app_nil_r|].
  cbn in H. rewrite dset_fresh.
  - rewrite IH; [by rewrite <-app_assoc|]. rewrite fmap_app. cbn.
    by rewrite <-app_assoc.
  - apply NoDup_app in H as (_ & H & _). intros Hk. apply (H k Hk). set_solver.
Qed.

Lemma dict_of_nodup l : NoDup l.*1 → dict_of l = l.
Proof. intros H. by apply (foldl_dset_app []). Qed.

Lemma dict_of_ok l : dict_ok (dict_of l).
Proof.
  unfold dict_of. assert (∀ d, dict_ok d → dict_ok (foldl (λ d kv, dset kv.1 kv.2 d) d l)) as H.
  { induction l as [|[k v] l IH]; cbn; [done|]. intros d Hd. by apply IH, dict_ok_dset. }
  apply H, dict_ok_nil.
Qed.

Lemma dict_of_keys k l : k ∈ (dict_of l).*1 ↔ k ∈ l.*1.
Proof.
  unfold dict_of.
  assert (∀ d, k ∈ (foldl (λ d kv, dset kv.1 kv.2 d) d l).*1 ↔ k ∈ d.*1 ∨ k ∈ l.*1) as H.
  { induction l as [|[k0 v0] l IH]; intros d; cbn; [set_solver|].
    rewrite IH, dset_key_in. set_solver. }
  rewrite H. set_solver.
Qed.
End dict.

#[export] Hint Resolve dict_ok_nil dict_ok_dset dict_ok_ddel dict_of_ok : lab.
