(* ===== verification/PyFloat.v ===== *)
(** * Python floats

    CPython's [float] is IEEE 754 binary64; its operations are Stdlib's
    executable [SpecFloat] ones at precision 53 and exponent bound 1024, so a
    model evaluates to the very float the code computes. Literals are the
    correctly rounded quotients they denote ([flit]). The comparison is shown to
    be a total preorder away from NaN ([rank]), which is what sorting and the
    code's [min]/[max] rely on. *)
From Stdlib Require Import Floats.SpecFloat Sorting.Sorted.
From S2P Require Import Prelude.

Abbreviation float := spec_float.
Definition prec : Z := 53.
Definition emax : Z := 1024.

#[export] Instance float_eq_dec : EqDecision float.
Proof. solve_decision. Defined.

(** ** Arithmetic *)
Definition fadd : float → float → float := SFadd prec emax.
Definition fsub : float → float → float := SFsub prec emax.
Definition fmul : float → float → float := SFmul prec emax.
Definition fdiv : float → float → float := SFdiv prec emax.

(** [float(n)]: the nearest float, ties to even. *)
Definition of_Z (n : Z) : float := binary_normalize prec emax n 0 false.

(** A decimal literal n/d. *)
Definition flit (n d : Z) : float := fdiv (of_Z n) (of_Z d).

Definition fzero : float := S754_zero false.

(** The unrounded float of an integer, for [int / int]. *)
Definition exact_Z (n : Z) : float :=
  match n with
  | 0 => fzero
  | Z.pos m => S754_finite false m 0
  | Z.neg m => S754_finite true m 0
  end.

(** [a / b] on ints: the quotient rounded once. *)
Definition int_truediv (a b : Z) : res float :=
  if b =? 0 then Raise (ZeroDivisionError "division by zero")
  else Ok (fdiv (exact_Z a) (exact_Z b)).

(** [a / b] on floats. *)
Definition float_truediv (a b : float) : res float :=
  match b with
  | S754_zero _ => Raise (ZeroDivisionError "float division by zero")
  | _ => Ok (fdiv a b)
  end.

(** ** Comparison *)
Definition flt : float → float → bool := SFltb.
Definition fle : float → float → bool := SFleb.
Definition feq : float → float → bool := SFeqb.

(** Python's two-argument [max(a, b)] and [min(a, b)]: [a] unless [b] is strictly better. *)
Definition fmax (a b : float) : float := if flt a b then b else a.
Definition fmin (a b : float) : float := if flt b a then b else a.

(** ** Rounding to integers *)
Definition to_int (f : bool → positive → Z → Z) (x : float) : res Z :=
  match x with
  | S754_zero _ => Ok 0
  | S754_finite s m e => Ok (f s m e)
  | S754_infinity _ => Raise (OverflowError "cannot convert float infinity to integer")
  | S754_nan => Raise (ValueError "cannot convert float NaN to integer")
  end.

(** [math.floor], [math.ceil] and [int]. *)
Definition ffloor : float → res Z :=
  to_int (λ s m e, Z.shiftl (cond_Zopp s (Z.pos m)) e).
Definition fceil : float → res Z :=
  to_int (λ s m e, - Z.shiftl (- cond_Zopp s (Z.pos m)) e).
Definition ftrunc : float → res Z :=
  to_int (λ s m e, cond_Zopp s (Z.shiftl (Z.pos m) e)).

(** [sorted(values)]: a stable sort by [<]. *)
Fixpoint finsert (x : float) (l : list float) : list float :=
  match l with
  | [] => [x]
  | y :: l => if flt y x then y :: finsert x l else x :: y :: l
  end.
Fixpoint fsorted (l : list float) : list float :=
  match l with [] => [] | x :: l => finsert x (fsorted l) end.

(** ** The order *)
Definition is_nan (x : float) : bool := match x with S754_nan => true | _ => false end.

(** Position of a float that is not NaN: compared lexicographically. *)
Definition rank (x : float) : Z * Z * Z :=
  match x with
  | S754_infinity true => (-2, 0, 0)
  | S754_finite true m e => (-1, - e, - Z.pos m)
  | S754_finite false m e => (1, e, Z.pos m)
  | S754_infinity false => (2, 0, 0)
  | _ => (0, 0, 0)
  end.

Definition lex_compare (a b : Z * Z * Z) : comparison :=
  match a.1.1 ?= b.1.1 with
  | Eq => match a.1.2 ?= b.1.2 with Eq => a.2 ?= b.2 | c => c end
  | c => c
  end.

Lemma lex_compare_spec a b :
  CompareSpec (a = b)
    (a.1.1 < b.1.1 ∨ a.1.1 = b.1.1 ∧ (a.1.2 < b.1.2 ∨ a.1.2 = b.1.2 ∧ a.2 < b.2))
    (b.1.1 < a.1.1 ∨ a.1.1 = b.1.1 ∧ (b.1.2 < a.1.2 ∨ a.1.2 = b.1.2 ∧ b.2 < a.2))
    (lex_compare a b).
Proof.
  destruct a as [[a1 a2] a3], b as [[b1 b2] b3]. unfold lex_compare. cbn.
  destruct (Z.compare_spec a1 b1), (Z.compare_spec a2 b2), (Z.compare_spec a3 b3);
    constructor; (lia || congruence).
Qed.

Lemma SFcompare_rank x y :
  is_nan x = false → is_nan y = false → SFcompare x y = Some (lex_compare (rank x) (rank y)).
Proof.
  assert (∀ a b, (- a ?= - b) = (b ?= a)) as Hopp by (intros; by rewrite Z.compare_opp).
  assert (∀ m n, (- Z.pos m ?= - Z.pos n) = (Z.pos n ?= Z.pos m)) as Hopp' by done.
  destruct x as [sx|[]| |[] mx ex], y as [sy|[]| |[] my ey]; try done; intros _ _;
    cbn; unfold lex_compare; cbn; rewrite ?Hopp.
  rewrite (Z.compare_antisym ex ey). destruct (ex ?= ey); cbn; [|done..].
  by rewrite (Pos.compare_antisym mx my).
Qed.

Lemma flt_rank x y : is_nan x = false → is_nan y = false →
  flt x y = match lex_compare (rank x) (rank y) with Lt => true | _ => false end.
Proof. intros Hx Hy. unfold flt, SFltb. by rewrite SFcompare_rank. Qed.

Lemma fle_rank x y : is_nan x = false → is_nan y = false →
  fle x y = match lex_compare (rank x) (rank y) with Gt => false | _ => true end.
Proof. intros Hx Hy. unfold fle, SFleb. rewrite SFcompare_rank by done. by destruct lex_compare. Qed.

(** Rewrites comparisons of floats into lexicographic inequalities. *)
Ltac float_order :=
  rewrite ?flt_rank, ?fle_rank in * by done;
  repeat match goal with
  | |- context [lex_compare ?a ?b] => destruct (lex_compare_spec a b)
  | H : context [lex_compare ?a ?b] |- _ => destruct (lex_compare_spec a b)
  end; try done; try (exfalso; repeat match goal with H : rank _ = rank _ |- _ => rewrite H in * end; lia).

Lemma fle_refl x : is_nan x = false → fle x x = true.
Proof. intros. float_order. Qed.
Lemma flt_irrefl x : flt x x = false.
Proof. destruct (is_nan x) eqn:E; [by destruct x | float_order]. Qed.
Lemma fle_flt x y : is_nan x = false → is_nan y = false → fle x y = negb (flt y x).
Proof. intros. float_order. Qed.
Lemma fle_trans x y z :
  is_nan x = false → is_nan y = false → is_nan z = false →
  fle x y = true → fle y z = true → fle x z = true.
Proof. intros. float_order. Qed.
Lemma fle_total x y : is_nan x = false → is_nan y = false → fle x y = true ∨ fle y x = true.
Proof. intros. float_order; auto. Qed.

(** ** Sorting *)
Lemma finsert_perm x l : finsert x l ≡ₚ x :: l.
Proof.
  induction l as [|y l IH]; cbn; [done|]. destruct (flt y x); [|done].
  rewrite IH. constructor.
Qed.

Lemma fsorted_perm l : fsorted l ≡ₚ l.
Proof. induction l as [|x l IH]; cbn; [done|]. by rewrite finsert_perm, IH. Qed.

Lemma fsorted_length l : length (fsorted l) = length l.
Proof. by rewrite fsorted_perm. Qed.

Definition fle_rel (x y : float) : Prop := fle x y = true.

Lemma finsert_sorted x l :
  is_nan x = false → Forall (λ y, is_nan y = false) l →
  StronglySorted fle_rel l → StronglySorted fle_rel (finsert x l).
Proof.
  intros Hx Hl Hs. induction Hs as [|y l Hs IH Hy]; cbn; [by repeat constructor|].
  apply Forall_cons in Hl as [Hny Hl]. specialize (IH Hl).
  destruct (flt y x) eqn:E.
  - constructor; [done|]. rewrite finsert_perm. constructor; [|done].
    unfold fle_rel. float_order.
  - constructor; [by constructor|]. assert (fle x y = true) as Hxy by float_order.
    constructor; [done|]. rewrite Forall_forall in Hy, Hl |- *. intros z Hz.
    apply (fle_trans x y z); auto. by apply Hy.
Qed.

Lemma fsorted_sorted l :
  Forall (λ y, is_nan y = false) l → StronglySorted fle_rel (fsorted l).
Proof.
  induction 1 as [|x l Hx Hl IH]; cbn; [constructor|].
  apply finsert_sorted; [done| |done]. by rewrite fsorted_perm.
Qed.
