(* ===== verification/Framing.v ===== *)
(** * Stream framing (src/backend/app/gateway/framing.py)

    The incremental parser of the Meshtastic TCP/serial framing and the
    encoder. [feed] is the parser's [while] loop, run with as much fuel as the
    buffer has bytes ([feed_loop_fuel]: more fuel never changes the result).

    Theorems: frames do not depend on how the stream is cut into reads
    ([feed_chunks]), encoded frames parse back ([decode_encode_stream]), every
    byte fed is framed, counted as discarded or still buffered
    ([feed_conserves]), what is emitted is well formed and the buffer stays
    bounded ([feed_frames_wf], [feed_bounded]). *)
From S2P Require Import Prelude.

(** ** Data *)
Definition MAGIC : list byte := [Byte.x94; Byte.xc3].
Definition HEADER_SIZE : Z := 4.
Definition MAX_PROTOBUF_SIZE : Z := 512.

Record Frame := mkFrame { raw : list byte; payload : list byte }.

#[export] Instance Frame_eq_dec : EqDecision Frame.
Proof. solve_decision. Defined.

(** The parser object. *)
Record FrameParser := mkFrameParser {
  buffer : list byte;
  maximum_payload_size : Z;
  discarded_bytes : Z;
  oversized_frames : Z }.

#[export] Instance eta_FrameParser : Eta FrameParser := λ r,
  mkFrameParser (buffer r) (maximum_payload_size r) (discarded_bytes r) (oversized_frames r).

Definition new_parser (maximum : Z) : FrameParser := mkFrameParser [] maximum 0 0.

Definition buffered_bytes (p : FrameParser) : Z := zlen (buffer p).

(** [int.from_bytes(b, byteorder="big")] and [n.to_bytes(2, byteorder="big")]. *)
Definition from_bytes_big (b : list byte) : Z :=
  foldl (λ n x, n * 256 + byte_val x) 0 b.
Definition to_bytes2_big (n : Z) : list byte := [byte_of (n / 256); byte_of n].

(** [bytearray.find(MAGIC)], [None] for -1. *)
Fixpoint find_magic (b : list byte) : option nat :=
  match b with
  | x :: t =>
    match t with
    | y :: _ =>
      if bool_decide (x = Byte.x94 ∧ y = Byte.xc3) then Some 0%nat
      else S <$> find_magic t
    | [] => None
    end
  | [] => None
  end.

(** ** One pass of the parser's loop body *)

(** How the body ends: [break] with the parser's new state, [continue] after
    dropping a byte, or a frame appended to the result. *)
Inductive body_result :=
| Break (p : FrameParser)
| Continue (p : FrameParser)
| Emit (f : Frame) (p : FrameParser).

(** The branch that finds no magic: all but a trailing first magic byte goes. *)
Definition discard_garbage (p : FrameParser) : FrameParser :=
  let b := buffer p in
  let keep := match last b with
              | Some x => if bool_decide (x = Byte.x94) then 1 else 0
              | None => 0
              end in
  p <| discarded_bytes ::= Z.add (zlen b - keep) |>
    <| buffer := if keep =? 0 then [] else drop (length b - 1) b |>.

Definition feed_body (p : FrameParser) : body_result :=
  match find_magic (buffer p) with
  | None => Break (discard_garbage p)
  | Some start =>
    let p := p <| buffer ::= drop start |>
               <| discarded_bytes ::= Z.add (Z.of_nat start) |> in
    if zlen (buffer p) <? HEADER_SIZE then Break p
    else
      let payload_size := from_bytes_big (take 2 (drop 2 (buffer p))) in
      if payload_size >? maximum_payload_size p then
        Continue (p <| oversized_frames ::= Z.add 1 |>
                    <| discarded_bytes ::= Z.add 1 |>
                    <| buffer ::= drop 1 |>)
      else
        let frame_size := HEADER_SIZE + payload_size in
        if zlen (buffer p) <? frame_size then Break p
        else
          let r := take (Z.to_nat frame_size) (buffer p) in
          Emit (mkFrame r (drop (Z.to_nat HEADER_SIZE) r))
               (p <| buffer ::= drop (Z.to_nat frame_size) |>)
  end.

(** The [while self._buffer] loop. *)
Fixpoint feed_loop (fuel : nat) (p : FrameParser) : list Frame * FrameParser :=
  match buffer p, fuel with
  | [], _ => ([], p)
  | _, O => ([], p)
  | _, S fuel =>
    match feed_body p with
    | Break p => ([], p)
    | Continue p => feed_loop fuel p
    | Emit f p => let '(fs, p) := feed_loop fuel p in (f :: fs, p)
    end
  end.

Definition parse (p : FrameParser) : list Frame * FrameParser :=
  feed_loop (length (buffer p)) p.

Definition feed (p : FrameParser) (data : list byte) : list Frame * FrameParser :=
  parse (p <| buffer ::= (λ b, b ++ data) |>).

(** Successive reads of one connection. *)
Fixpoint feed_all (p : FrameParser) (reads : list (list byte)) : list Frame * FrameParser :=
  match reads with
  | [] => ([], p)
  | d :: reads =>
    let '(fs, p) := feed p d in
    let '(gs, p) := feed_all p reads in (fs ++ gs, p)
  end.

Definition encode_frame (pl : list byte) : res (list byte) :=
  if zlen pl >? MAX_PROTOBUF_SIZE then
    Raise (ValueError ("protobuf payload is " +:+ pretty (zlen pl) +:+ " bytes, maximum is "
                       +:+ pretty MAX_PROTOBUF_SIZE))
  else Ok (MAGIC ++ to_bytes2_big (zlen pl) ++ pl).

(** ** The shape of a frame *)

Definition frame_of (pl : list byte) : Frame :=
  mkFrame (MAGIC ++ to_bytes2_big (zlen pl) ++ pl) pl.

Definition frame_wf (maximum : Z) (f : Frame) : Prop :=
  f = frame_of (payload f) ∧ zlen (payload f) <= maximum ∧ zlen (payload f) < 65536.

Ltac parser_simpl :=
  unfold set_field;
  cbn [buffer maximum_payload_size discarded_bytes oversized_frames raw payload].

(** ** Finding the magic bytes *)

Lemma find_magic_cons2 x y t :
  find_magic (x :: y :: t)
  = if bool_decide (x = Byte.x94 ∧ y = Byte.xc3) then Some 0%nat
    else S <$> find_magic (y :: t).
Proof. done. Qed.

Arguments find_magic : simpl never.

Lemma find_magic_spec b s :
  find_magic b = Some s → ∃ r, drop s b = Byte.x94 :: Byte.xc3 :: r.
Proof.
  revert s. induction b as [|x [|y t] IH]; intros s; [done | done |].
  rewrite find_magic_cons2. case_bool_decide as E.
  - intros [= <-]. destruct E as [-> ->]. by eexists.
  - intros H. apply fmap_Some in H as (s' & Hs & ->). by apply IH.
Qed.

Lemma find_magic_app b c s : find_magic b = Some s → find_magic (b ++ c) = Some s.
Proof.
  revert s. induction b as [|x [|y t] IH]; intros s; [done | done |].
  cbn [app]. rewrite !find_magic_cons2. case_bool_decide as E; [done|].
  intros H. apply fmap_Some in H as (s' & Hs & ->).
  change (y :: t ++ c) with ((y :: t) ++ c). by rewrite (IH _ Hs).
Qed.

Lemma find_magic_lt b s : find_magic b = Some s → (s + 2 <= length b)%nat.
Proof.
  intros H. destruct (find_magic_spec _ _ H) as [r Hr].
  apply (f_equal length) in Hr. rewrite length_drop in Hr. cbn in Hr. lia.
Qed.

Lemma find_magic_drop b s : find_magic b = Some s → find_magic (drop s b) = Some 0%nat.
Proof. intros H. destruct (find_magic_spec _ _ H) as [r ->]. done. Qed.

(** [pre] can be dropped in front of [t] without changing where the magic is. *)
Definition garbage_before (pre t : list byte) : Prop :=
  find_magic (pre ++ t) = Nat.add (length pre) <$> find_magic t.

Lemma no_magic_garbage pre t :
  find_magic pre = None → (last pre = Some Byte.x94 → head t ≠ Some Byte.xc3) →
  garbage_before pre t.
Proof.
  unfold garbage_before. revert t.
  induction pre as [|x [|y pre] IH]; intros t Hn Hl.
  - cbn. by destruct (find_magic t).
  - destruct t as [|y t]; [done|]. cbn [app length]. rewrite find_magic_cons2.
    rewrite bool_decide_false; [by destruct (find_magic (y :: t))|].
    intros [-> ->]. by apply Hl.
  - cbn [app]. rewrite find_magic_cons2 in Hn |- *. case_bool_decide as E; [done|].
    apply fmap_None in Hn. specialize (IH t Hn Hl).
    cbn [app] in IH. rewrite IH. cbn [length]. by destruct (find_magic t).
Qed.

Lemma magic_garbage b c s :
  find_magic b = Some s → garbage_before (take s b) (drop s b ++ c).
Proof.
  intros H. unfold garbage_before.
  rewrite app_assoc, take_drop, (find_magic_app _ _ _ H).
  rewrite (find_magic_app _ _ _ (find_magic_drop _ _ H)). cbn.
  apply find_magic_lt in H. rewrite length_take. f_equal. lia.
Qed.

(** ** The loop body on a buffer with leading garbage *)

Lemma feed_body_garbage m d o pre t :
  t ≠ [] → garbage_before pre t →
  feed_body (mkFrameParser (pre ++ t) m d o)
  = feed_body (mkFrameParser t m (zlen pre + d) o).
Proof.
  intros Ht Hg. unfold feed_body. cbn [buffer]. rewrite Hg.
  destruct (find_magic t) as [s|] eqn:E; cbn [fmap option_fmap option_map].
  - parser_simpl.
    rewrite drop_app_ge by lia.
    replace (length pre + s - length pre)%nat with s by lia.
    replace (Z.of_nat (length pre + s) + d) with (Z.of_nat s + (zlen pre + d))
      by (unfold zlen; lia).
    done.
  - f_equal. unfold discard_garbage.
    parser_simpl.
    rewrite last_app. destruct (last t) as [x|] eqn:El.
    2:{ apply last_None in El. done. }
    f_equal.
    + case_bool_decide; cbn; [|done]. rewrite length_app.
      assert (length t ≠ 0%nat) by (by destruct t).
      rewrite drop_app_ge by lia. f_equal. lia.
    + rewrite zlen_app. lia.
Qed.

(** What the three outcomes leave in the buffer. *)
Lemma feed_body_decreases p p' :
  feed_body p = Continue p' ∨ (∃ f, feed_body p = Emit f p') →
  (length (buffer p') < length (buffer p))%nat.
Proof.
  destruct p as [b m d o]. unfold feed_body. cbn [buffer].
  destruct (find_magic b) as [s|] eqn:E; [|by intros [?|[? ?]]].
  pose proof (find_magic_lt _ _ E) as Hlt.
  parser_simpl.
  destruct (_ <? HEADER_SIZE); [by intros [?|[? ?]]|].
  set (sz := from_bytes_big _).
  destruct (sz >? m).
  - intros [[= <-]|[? ?]]; [|done]. cbn. rewrite !length_drop. lia.
  - destruct (Z.ltb_spec (zlen (drop s b)) (HEADER_SIZE + sz)) as [|Hge];
      [by intros [?|[? ?]]|].
    intros [?|[f [= _ <-]]]; [done|]. cbn. rewrite !length_drop.
    assert (0 <= sz).
    { subst sz. unfold from_bytes_big.
      generalize (take 2 (drop 2 (drop s b))). intros l.
      assert (∀ n, 0 <= n → 0 <= foldl (λ n x, n * 256 + byte_val x) n l) as H.
      { induction l as [|x l IH]; cbn; intros n Hn; [done|]. apply IH.
        pose proof (byte_val_range x). lia. }
      by apply H. }
    unfold HEADER_SIZE in *. lia.
Qed.

(** ** Fuel *)

Lemma feed_loop_fuel n k p :
  (length (buffer p) <= n)%nat → (length (buffer p) <= k)%nat →
  feed_loop n p = feed_loop k p.
Proof.
  revert k p. induction n as [|n IH]; intros k p Hn Hk.
  - destruct (buffer p) eqn:E; [|cbn in Hn; lia]. destruct k; cbn; by rewrite E.
  - destruct (buffer p) eqn:E.
    { destruct k; cbn; by rewrite E. }
    destruct k as [|k]; [cbn in Hk; lia|].
    cbn [feed_loop]. rewrite E.
    destruct (feed_body p) as [p'|p'|f p'] eqn:B; [done| |].
    + pose proof (feed_body_decreases p p' (or_introl B)) as H. rewrite E in H. cbn in *.
      apply IH; lia.
    + pose proof (feed_body_decreases p p' (or_intror (ex_intro _ f B))) as H.
      rewrite E in H. cbn in *. rewrite (IH k p'); [done | lia..].
Qed.

Lemma parse_unfold p :
  parse p = match buffer p with
            | [] => ([], p)
            | _ => match feed_body p with
                   | Break p => ([], p)
                   | Continue p => parse p
                   | Emit f p => let '(fs, p) := parse p in (f :: fs, p)
                   end
            end.
Proof.
  unfold parse at 1. destruct (buffer p) as [|x l] eqn:E; cbn; rewrite E; [done|].
  destruct (feed_body p) as [p'|p'|f p'] eqn:B; [done| |].
  - pose proof (feed_body_decreases p p' (or_introl B)) as H. rewrite E in H. cbn in H.
    apply feed_loop_fuel; lia.
  - pose proof (feed_body_decreases p p' (or_intror (ex_intro _ f B))) as H.
    rewrite E in H. cbn in H. unfold parse.
    rewrite (feed_loop_fuel (length l) (length (buffer p')) p'); [done|lia..].
Qed.

Lemma parse_garbage m d o pre t :
  t ≠ [] → garbage_before pre t →
  parse (mkFrameParser (pre ++ t) m d o) = parse (mkFrameParser t m (zlen pre + d) o).
Proof.
  intros Ht Hg. rewrite !parse_unfold. cbn [buffer].
  rewrite (feed_body_garbage _ _ _ _ _ Ht Hg).
  destruct t as [|y t]; [done|]. by destruct pre.
Qed.

(** ** Cutting the stream *)

Definition append (p : FrameParser) (data : list byte) : FrameParser :=
  p <| buffer ::= (λ b, b ++ data) |>.

(** What the "no magic" branch leaves is a suffix that can still start a frame. *)
Lemma discard_garbage_suffix b m d o :
  find_magic b = None → b ≠ [] →
  ∃ pre t, b = pre ++ t ∧
    discard_garbage (mkFrameParser b m d o) = mkFrameParser t m (zlen pre + d) o ∧
    (t = [] ∨ t = [Byte.x94]) ∧ ∀ c, t ++ c ≠ [] → garbage_before pre (t ++ c).
Proof.
  intros Hn Hb. unfold discard_garbage. parser_simpl.
  destruct (last b) as [x|] eqn:El; [|by apply last_None in El].
  apply last_Some in El as [pre ->]. case_bool_decide as Hx; cbn [Z.eqb].
  - subst x. exists pre, [Byte.x94]. split_and!; [done| |by right|].
    + f_equal; [|zlen_lia]. rewrite drop_app_ge by (rewrite length_app; cbn; lia).
      rewrite length_app. cbn [length].
      by replace (length pre + 1 - 1 - length pre)%nat with 0%nat by lia.
    + intros c _. apply no_magic_garbage; [|by destruct c].
      destruct (find_magic pre) as [s|] eqn:E; [|done].
      by rewrite (find_magic_app _ _ _ E) in Hn.
  - exists (pre ++ [x]), []. split_and!; [by rewrite app_nil_r| |by left|].
    + f_equal. zlen_lia.
    + intros c _. apply no_magic_garbage; [done|].
      rewrite last_snoc. congruence.
Qed.

Lemma parse_nil m d o : parse (mkFrameParser [] m d o) = ([], mkFrameParser [] m d o).
Proof. by rewrite parse_unfold. Qed.

(** The three outcomes of a pass when more data is appended. *)
Lemma feed_body_app b m d o c :
  b ≠ [] → c ≠ [] →
  match feed_body (mkFrameParser b m d o) with
  | Break p => parse (mkFrameParser (b ++ c) m d o) = parse (append p c)
  | Continue p => feed_body (mkFrameParser (b ++ c) m d o) = Continue (append p c)
  | Emit f p => feed_body (mkFrameParser (b ++ c) m d o) = Emit f (append p c)
  end.
Proof.
  intros Hb Hc. unfold append. unfold feed_body at 1. cbn [buffer].
  destruct (find_magic b) as [s|] eqn:E.
  2:{ destruct (discard_garbage_suffix b m d o E Hb) as (pre & t & -> & -> & Ht & Hg).
      parser_simpl. rewrite <-app_assoc.
      assert (t ++ c ≠ []) by (by destruct t). by rewrite parse_garbage by auto. }
  pose proof (find_magic_lt _ _ E) as Hlt.
  parser_simpl.
  assert (parse (mkFrameParser (b ++ c) m d o)
          = parse (mkFrameParser (drop s b ++ c) m (Z.of_nat s + d) o)) as Hbrk.
  { rewrite <-(take_drop s b) at 1. rewrite <-app_assoc.
    rewrite parse_garbage; [|by destruct (drop s b)|by apply magic_garbage].
    unfold zlen. rewrite length_take. do 2 f_equal. lia. }
  destruct (Z.ltb_spec (zlen (drop s b)) HEADER_SIZE) as [|H4]; [done|].
  assert (4 <= length (drop s b))%nat as H4' by (unfold zlen, HEADER_SIZE in H4; lia).
  assert (take 2 (drop 2 (drop s (b ++ c))) = take 2 (drop 2 (drop s b))) as Hsz.
  { rewrite (drop_app_le b c s) by lia. rewrite drop_app_le by lia.
    rewrite take_app_le; [done|]. rewrite length_drop. lia. }
  assert (zlen (drop s (b ++ c)) = zlen (drop s b) + zlen c) as Hlen.
  { rewrite (drop_app_le b c s) by lia. by rewrite zlen_app. }
  assert ((zlen (drop s (b ++ c)) <? HEADER_SIZE) = false) as H4c.
  { apply Z.ltb_ge. rewrite Hlen. pose proof (zlen_nonneg c). lia. }
  set (sz := from_bytes_big (take 2 (drop 2 (drop s b)))).
  destruct (sz >? m) eqn:Hm.
  - unfold feed_body. parser_simpl. rewrite (find_magic_app _ _ _ E), H4c, Hsz.
    fold sz. rewrite Hm, drop_app_le by lia.
    by rewrite drop_app_le by lia.
  - destruct (Z.ltb_spec (zlen (drop s b)) (HEADER_SIZE + sz)) as [|Hfit]; [done|].
    unfold feed_body. parser_simpl. rewrite (find_magic_app _ _ _ E), H4c, Hsz.
    fold sz. rewrite Hm, (proj2 (Z.ltb_ge _ _)).
    2:{ rewrite Hlen. pose proof (zlen_nonneg c). lia. }
    unfold zlen in Hfit. rewrite drop_app_le by lia.
    rewrite take_app_le by lia. by rewrite drop_app_le by lia.
Qed.

Lemma append_nil p : append p [] = p.
Proof. destruct p as [b m d o]. unfold append. parser_simpl. by rewrite app_nil_r. Qed.

Lemma feed_body_break_stable p p' : feed_body p = Break p' → parse p' = ([], p').
Proof.
  destruct p as [b m d o]. rewrite parse_unfold. unfold feed_body at 1. cbn [buffer].
  destruct (find_magic b) as [s|] eqn:E.
  - parser_simpl.
    pose proof (find_magic_drop _ _ E) as E0.
    destruct (zlen (drop s b) <? HEADER_SIZE) eqn:H4.
    + intros [= <-]. cbn [buffer]. destruct (drop s b) as [|x l] eqn:Ed; [done|].
      unfold feed_body. parser_simpl. by rewrite E0, drop_0, H4.
    + destruct (from_bytes_big _ >? m) eqn:Hm; [done|].
      destruct (_ <? HEADER_SIZE + _) eqn:Hf; [|done].
      intros [= <-]. cbn [buffer]. destruct (drop s b) as [|x l] eqn:Ed; [done|].
      unfold feed_body. parser_simpl. by rewrite E0, drop_0, H4, Hm, Hf.
  - intros [= <-]. destruct (decide (b = [])) as [->|Hb]; [done|].
    destruct (discard_garbage_suffix b m d o E Hb) as (pre & t & -> & -> & [->| ->] & _);
      [done|].
    cbn [buffer]. unfold feed_body, discard_garbage. parser_simpl. done.
Qed.

Lemma parse_nonempty p :
  buffer p ≠ [] →
  parse p = match feed_body p with
            | Break p => ([], p)
            | Continue p => parse p
            | Emit f p => let '(fs, p) := parse p in (f :: fs, p)
            end.
Proof. intros H. rewrite parse_unfold. by destruct (buffer p). Qed.

Lemma parse_append p c :
  parse (append p c)
  = let '(fs, p1) := parse p in
    let '(gs, p2) := parse (append p1 c) in (fs ++ gs, p2).
Proof.
  remember (length (buffer p)) as n eqn:Hn. revert p Hn.
  induction n as [n IH] using (well_founded_induction lt_wf). intros p ->.
  destruct (decide (buffer p = [])) as [Eb|Hb].
  { rewrite (parse_unfold p), Eb. by destruct (parse (append p c)). }
  assert (match feed_body p with
          | Break p1 => parse (append p c) = parse (append p1 c)
          | Continue p1 => parse (append p c) = parse (append p1 c)
          | Emit f p1 =>
            parse (append p c) = let '(fs, q) := parse (append p1 c) in (f :: fs, q)
          end) as H.
  { destruct (decide (c = [])) as [->|Hc].
    - rewrite append_nil, (parse_nonempty p Hb).
      destruct (feed_body p) as [p1|p1|f p1] eqn:B; rewrite ?append_nil; [|done..].
      by rewrite (feed_body_break_stable _ _ B).
    - pose proof (feed_body_app (buffer p) (maximum_payload_size p)
        (discarded_bytes p) (oversized_frames p) c Hb Hc) as Ha.
      destruct p as [b m d o]. cbn [buffer maximum_payload_size discarded_bytes oversized_frames]
        in Ha, Hb.
      destruct (feed_body _) as [p1|p1|f p1]; [exact Ha|..];
        unfold append at 1; parser_simpl; rewrite parse_nonempty by (by destruct b);
        by rewrite Ha. }
  rewrite (parse_nonempty p Hb).
  destruct (feed_body p) as [p1|p1|f p1] eqn:B; rewrite H.
  - by destruct (parse (append p1 c)).
  - apply (IH (length (buffer p1))); [|done]. apply feed_body_decreases; auto.
  - rewrite (IH (length (buffer p1))); [|apply feed_body_decreases; eauto|done].
    destruct (parse p1) as [fs p2]. by destruct (parse (append p2 c)).
Qed.

Lemma feed_app p a b :
  feed p (a ++ b)
  = let '(fs, p1) := feed p a in let '(gs, p2) := feed p1 b in (fs ++ gs, p2).
Proof.
  unfold feed. fold (append p (a ++ b)) (append p a).
  replace (append p (a ++ b)) with (append (append p a) b); [apply parse_append|].
  destruct p as [l m d o]. unfold append. parser_simpl. by rewrite app_assoc.
Qed.

(** What stays after a read is stable: parsing it again changes nothing. *)
Lemma parse_stable p : parse (parse p).2 = ([], (parse p).2).
Proof.
  pose proof (parse_append p []) as H. rewrite append_nil in H.
  destruct (parse p) as [fs p1]. cbn. rewrite append_nil in H.
  destruct (parse p1) as [gs p2]. injection H as Hfs <-.
  assert (gs = []) as ->; [|done].
  apply (f_equal length) in Hfs. rewrite length_app in Hfs.
  by destruct gs; [|cbn in Hfs; lia].
Qed.

Lemma feed_all_concat p reads :
  parse p = ([], p) → feed_all p reads = feed p (concat reads).
Proof.
  revert p. induction reads as [|d reads IH]; intros p Hp; cbn [feed_all concat].
  - unfold feed. fold (append p []). by rewrite append_nil, Hp.
  - rewrite feed_app. destruct (feed p d) as [fs p1] eqn:E.
    rewrite IH; [done|]. unfold feed in E. fold (append p d) in E.
    pose proof (parse_stable (append p d)) as H. by rewrite E in H.
Qed.

(** C14: the frames produced, and the parser state left, by a sequence of reads
    depend only on the bytes of the stream and not on how the reads cut it. *)
Theorem feed_chunks p reads :
  parse p = ([], p) → feed_all p reads = feed p (concat reads).
Proof. apply feed_all_concat. Qed.

Lemma feed_chunks_witness :
  feed_all (new_parser 512) [[Byte.x00; Byte.x94]; [Byte.xc3; Byte.x00]; [Byte.x01; Byte.x2a]]
  = feed (new_parser 512) [Byte.x00; Byte.x94; Byte.xc3; Byte.x00; Byte.x01; Byte.x2a].
Proof.
  apply (feed_chunks (new_parser 512)
    [[Byte.x00; Byte.x94]; [Byte.xc3; Byte.x00]; [Byte.x01; Byte.x2a]]). reflexivity.
Defined.

(** ** Invariants of a parse, by induction on its passes *)

Lemma parse_ind (P : FrameParser → list Frame → FrameParser → Prop) :
  (∀ p, buffer p = [] → P p [] p) →
  (∀ p p', buffer p ≠ [] → feed_body p = Break p' → P p [] p') →
  (∀ p p' fs q, feed_body p = Continue p' → P p' fs q → P p fs q) →
  (∀ p f p' fs q, feed_body p = Emit f p' → P p' fs q → P p (f :: fs) q) →
  ∀ p, P p (parse p).1 (parse p).2.
Proof.
  intros Hnil Hbreak Hcont Hemit p.
  remember (length (buffer p)) as n eqn:Hn. revert p Hn.
  induction n as [n IH] using (well_founded_induction lt_wf). intros p ->.
  destruct (decide (buffer p = [])) as [Eb|Hb].
  { rewrite parse_unfold, Eb. by apply Hnil. }
  rewrite parse_nonempty by done.
  destruct (feed_body p) as [p1|p1|f p1] eqn:B.
  - by apply Hbreak.
  - apply Hcont with p1; [done|]. apply (IH (length (buffer p1))); [|done].
    apply feed_body_decreases; auto.
  - assert (P p1 (parse p1).1 (parse p1).2) as H1.
    { apply (IH (length (buffer p1))); [|done]. apply feed_body_decreases; eauto. }
    destruct (parse p1) as [fs q]. cbn in *. by apply Hemit with p1.
Qed.

Lemma to_from_bytes2 h l :
  to_bytes2_big (byte_val h * 256 + byte_val l) = [h; l].
Proof.
  pose proof (byte_val_range h). pose proof (byte_val_range l).
  unfold to_bytes2_big. f_equal; [|f_equal]; apply byte_val_inj; rewrite byte_val_of.
  - rewrite Z.div_add_l, (Z.div_small (byte_val l)) by lia.
    rewrite Z.add_0_r. apply Z.mod_small. lia.
  - rewrite Z.add_comm, Z.mod_add by lia. apply Z.mod_small. lia.
Qed.

Lemma from_to_bytes2 n : 0 <= n < 65536 → from_bytes_big (to_bytes2_big n) = n.
Proof.
  intros Hn. unfold from_bytes_big, to_bytes2_big. cbn [foldl].
  rewrite !byte_val_of. rewrite (Z.mod_small (n / 256)).
  - rewrite Z.mul_0_l, Z.add_0_l. pose proof (Z.div_mod n 256). lia.
  - split; [apply Z.div_pos; lia | apply Z.div_lt_upper_bound; lia].
Qed.

(** An emitted frame is the front of the buffer after the garbage. *)
Lemma feed_body_emit p f p' :
  feed_body p = Emit f p' →
  frame_wf (maximum_payload_size p) f ∧
  maximum_payload_size p' = maximum_payload_size p ∧
  oversized_frames p' = oversized_frames p ∧
  ∃ s : nat, drop s (buffer p) = raw f ++ buffer p' ∧
    (s <= length (buffer p))%nat ∧ discarded_bytes p' = discarded_bytes p + Z.of_nat s.
Proof.
  destruct p as [b m d o]. unfold feed_body. cbn [buffer].
  destruct (find_magic b) as [s|] eqn:E; [|done].
  pose proof (find_magic_lt _ _ E) as Hlt.
  destruct (find_magic_spec _ _ E) as [r Hr]. parser_simpl.
  destruct (Z.ltb_spec (zlen (drop s b)) HEADER_SIZE) as [|H4]; [done|].
  set (sz := from_bytes_big _). destruct (sz >? m) eqn:Hm; [done|].
  destruct (Z.ltb_spec (zlen (drop s b)) (HEADER_SIZE + sz)) as [|Hfit]; [done|].
  rewrite Hr in *. unfold HEADER_SIZE, zlen in *.
  destruct r as [|h [|l r]]; cbn in H4; [lia..|].
  pose proof (byte_val_range h). pose proof (byte_val_range l).
  assert (sz = byte_val h * 256 + byte_val l) as Hsz.
  { unfold sz, from_bytes_big. rewrite Hr.
    change (take 2 (drop 2 (Byte.x94 :: Byte.xc3 :: h :: l :: r))) with [h; l].
    cbn [foldl]. lia. }
  clearbody sz.
  intros [= <- <-]. parser_simpl.
  replace (Z.to_nat (4 + sz)) with (4 + Z.to_nat sz)%nat by lia.
  change (Z.to_nat 4) with 4%nat. cbn [Nat.add take drop].
  assert (length (take (Z.to_nat sz) r) = Z.to_nat sz) as Hl.
  { rewrite length_take. cbn in Hfit. lia. }
  split_and!; [..|done|done|].
  - rewrite drop_0. unfold frame_wf, frame_of, zlen. cbn [payload]. rewrite Hl.
    split_and!; [|lia..].
    f_equal. rewrite Z2Nat.id, Hsz, to_from_bytes2 by lia. done.
  - exists s. rewrite Hr. cbn [app]. rewrite take_drop. split_and!; [done|lia|lia].
Qed.

Lemma feed_body_continue p p' :
  feed_body p = Continue p' →
  maximum_payload_size p' = maximum_payload_size p ∧
  ∃ s : nat, (s < length (buffer p))%nat ∧ buffer p' = drop (s + 1) (buffer p) ∧
    discarded_bytes p' = discarded_bytes p + Z.of_nat s + 1 ∧
    oversized_frames p' = oversized_frames p + 1.
Proof.
  destruct p as [b m d o]. unfold feed_body. cbn [buffer].
  destruct (find_magic b) as [s|] eqn:E; [|done].
  pose proof (find_magic_lt _ _ E) as Hlt. parser_simpl.
  destruct (_ <? HEADER_SIZE); [done|]. destruct (_ >? m); [|by destruct (_ <? _)].
  intros [= <-]. parser_simpl. split; [done|]. exists s. rewrite drop_drop.
  split_and!; [lia|done|lia|lia].
Qed.

Lemma feed_body_break p p' :
  buffer p ≠ [] → feed_body p = Break p' →
  maximum_payload_size p' = maximum_payload_size p ∧
  oversized_frames p' = oversized_frames p ∧
  (0 <= maximum_payload_size p → zlen (buffer p') < HEADER_SIZE + maximum_payload_size p) ∧
  ∃ s : nat, (s <= length (buffer p))%nat ∧ buffer p' = drop s (buffer p) ∧
    discarded_bytes p' = discarded_bytes p + Z.of_nat s.
Proof.
  destruct p as [b m d o]. unfold feed_body. cbn [buffer]. intros Hb.
  destruct (find_magic b) as [s|] eqn:E.
  - pose proof (find_magic_lt _ _ E) as Hlt. parser_simpl.
    destruct (Z.ltb_spec (zlen (drop s b)) HEADER_SIZE) as [H4|H4].
    { intros [= <-]. parser_simpl. split_and!; [done..|lia|]. exists s. split_and!; [lia|done|lia]. }
    destruct (_ >? m) eqn:Hm; [done|].
    destruct (Z.ltb_spec (zlen (drop s b)) (HEADER_SIZE + from_bytes_big (take 2 (drop 2 (drop s b)))))
      as [Hf|]; [|done].
    intros [= <-]. parser_simpl. rewrite Z.gtb_ltb, Z.ltb_ge in Hm.
    split_and!; [done..|lia|]. exists s. split_and!; [lia|done|lia].
  - intros [= <-]. destruct (discard_garbage_suffix b m d o E Hb) as (pre & t & -> & -> & Ht & _).
    parser_simpl. split_and!; [done..| |].
    + unfold HEADER_SIZE, zlen. destruct Ht as [->| ->]; cbn [length]; lia.
    + exists (length pre). rewrite length_app, drop_app_ge by lia.
      rewrite Nat.sub_diag. split_and!; [lia|done|unfold zlen; lia].
Qed.

(** The counters and the buffer after a whole parse, against the one before. *)
Definition parse_accounts (p : FrameParser) (fs : list Frame) (q : FrameParser) : Prop :=
  maximum_payload_size q = maximum_payload_size p ∧
  Forall (frame_wf (maximum_payload_size p)) fs ∧
  buffered_bytes p + discarded_bytes p
  = zsum ((λ f, zlen (raw f)) <$> fs) + buffered_bytes q + discarded_bytes q ∧
  oversized_frames p <= oversized_frames q ∧
  discarded_bytes p + (oversized_frames q - oversized_frames p) <= discarded_bytes q ∧
  (0 <= maximum_payload_size p → buffered_bytes q < HEADER_SIZE + maximum_payload_size p).

Lemma parse_accounts_parse p : parse_accounts p (parse p).1 (parse p).2.
Proof.
  apply parse_ind; unfold parse_accounts, buffered_bytes.
  - intros q Hq. rewrite Hq. unfold HEADER_SIZE, zlen. cbn [fmap list_fmap zsum length].
    split_and!; [done|by apply Forall_nil|lia..].
  - intros q q' Hne Hb.
    destruct (feed_body_break _ _ Hne Hb) as (-> & -> & Hlt & s & Hs & Hbuf & ->).
    cbn [fmap list_fmap zsum].
    split_and!; [done|by apply Forall_nil| |lia|lia|done].
    rewrite Hbuf. unfold zlen. rewrite length_drop. lia.
  - intros q q' fs r Hc (-> & Hf & Hsum & Ho & Hd & Hb).
    destruct (feed_body_continue _ _ Hc) as (Hm & s & Hs & Hbuf & Hd' & Ho').
    rewrite Hm, Ho', Hd' in *. split_and!; [done|done| |lia|lia|done].
    rewrite Hbuf in Hsum. unfold zlen in *. rewrite length_drop in Hsum. lia.
  - intros q f q' fs r He (-> & Hf & Hsum & Ho & Hd & Hb).
    destruct (feed_body_emit _ _ _ He) as (Hwf & Hm & Ho' & s & Hbuf & Hs & Hd').
    rewrite Hm, Ho', Hd' in *. split_and!; [done|by constructor| |lia|lia|done].
    cbn [fmap list_fmap zsum]. apply (f_equal zlen) in Hbuf. rewrite zlen_app in Hbuf.
    unfold zlen in *. rewrite length_drop in Hbuf.
    change (list_fmap Frame Z) with (@fmap list _ Frame Z). lia.
Qed.

Lemma feed_accounts p data :
  parse_accounts (append p data) (feed p data).1 (feed p data).2.
Proof. apply parse_accounts_parse. Qed.

(** every byte fed to the parser is, exactly once, in an emitted frame,
    counted as discarded, or still buffered; each oversized header costs one
    discarded byte. *)
Theorem feed_conserves p data fs q :
  feed p data = (fs, q) →
  buffered_bytes p + zlen data
  = zsum ((λ f, zlen (raw f)) <$> fs) + (discarded_bytes q - discarded_bytes p)
    + buffered_bytes q
  ∧ 0 <= oversized_frames q - oversized_frames p <= discarded_bytes q - discarded_bytes p.
Proof.
  intros E. pose proof (feed_accounts p data) as H. rewrite E in H. cbn in H.
  destruct H as (_ & _ & Hs & Ho & Hd & _).
  unfold buffered_bytes, append, set_field in *.
  cbn [buffer discarded_bytes oversized_frames] in *. rewrite zlen_app in Hs. lia.
Qed.

Lemma feed_conserves_witness :
  buffered_bytes (new_parser 4) + 7
  = zsum [5] + (2 - 0) + 0 ∧ 0 <= 0 - 0 <= 2 - 0.
Proof.
  apply (feed_conserves (new_parser 4)
    [Byte.x01; Byte.x02; Byte.x94; Byte.xc3; Byte.x00; Byte.x01; Byte.x2a]
    [frame_of [Byte.x2a]] (mkFrameParser [] 4 2 0)). vm_compute. reflexivity.
Defined.

(** Every emitted frame is the magic, the big-endian length and a payload of
    exactly that length within the configured maximum, and what stays buffered
    is shorter than one maximal frame, whatever the input. *)
Theorem feed_frames_wf p data fs q :
  0 <= maximum_payload_size p → feed p data = (fs, q) →
  Forall (frame_wf (maximum_payload_size p)) fs ∧
  buffered_bytes q < HEADER_SIZE + maximum_payload_size p.
Proof.
  intros Hm E. pose proof (feed_accounts p data) as H. rewrite E in H. cbn in H.
  destruct H as (_ & Hf & _ & _ & _ & Hb). by auto.
Qed.

Lemma feed_frames_wf_witness :
  Forall (frame_wf 512) [frame_of [Byte.x2a]] ∧ 1 < HEADER_SIZE + 512.
Proof.
  apply (feed_frames_wf (new_parser 512)
    [Byte.x94; Byte.xc3; Byte.x00; Byte.x01; Byte.x2a; Byte.x94]
    [frame_of [Byte.x2a]] (mkFrameParser [Byte.x94] 512 0 0)).
  - vm_compute. discriminate.
  - vm_compute. reflexivity.
Defined.

(** ** Round trip *)

Lemma encode_frame_ok pl enc :
  encode_frame pl = Ok enc ↔ zlen pl <= MAX_PROTOBUF_SIZE ∧ enc = raw (frame_of pl).
Proof.
  unfold encode_frame. destruct (Z.gtb_spec (zlen pl) MAX_PROTOBUF_SIZE) as [H|H].
  - split; [done|]. lia.
  - split; [by intros [= <-] | by intros [_ ->]].
Qed.

(** A whole frame in front of the buffer is taken as it is. *)
Lemma feed_body_frame pl rest m d o :
  zlen pl <= m → zlen pl < 65536 →
  feed_body (mkFrameParser (raw (frame_of pl) ++ rest) m d o)
  = Emit (frame_of pl) (mkFrameParser rest m d o).
Proof.
  intros Hm H16. unfold feed_body. cbn [buffer].
  assert (find_magic (raw (frame_of pl) ++ rest) = Some 0%nat) as -> by done.
  parser_simpl. rewrite drop_0.
  change (take 2 (drop 2 (raw (frame_of pl) ++ rest))) with (to_bytes2_big (zlen pl)).
  pose proof (zlen_nonneg pl). rewrite from_to_bytes2 by lia.
  assert (zlen (raw (frame_of pl) ++ rest) = HEADER_SIZE + zlen pl + zlen rest) as Hl.
  { cbn [raw frame_of]. rewrite !zlen_app. unfold HEADER_SIZE, zlen, MAGIC, to_bytes2_big.
    cbn [length]. lia. }
  pose proof (zlen_nonneg rest). unfold HEADER_SIZE in *.
  rewrite Hl, Z.gtb_ltb, (proj2 (Z.ltb_ge m (zlen pl))) by lia.
  rewrite !(proj2 (Z.ltb_ge (4 + zlen pl + zlen rest) _)) by lia.
  assert (Z.to_nat (4 + zlen pl) = length (raw (frame_of pl))) as ->.
  { cbn [raw frame_of]. rewrite !length_app. unfold zlen, MAGIC, to_bytes2_big.
    cbn [length]. lia. }
  rewrite take_app_length, drop_app_length. done.
Qed.

Lemma parse_frames pls m d o :
  Forall (λ pl, zlen pl <= m ∧ zlen pl < 65536) pls →
  parse (mkFrameParser (concat (raw ∘ frame_of <$> pls)) m d o)
  = (frame_of <$> pls, mkFrameParser [] m d o).
Proof.
  induction 1 as [|pl pls [Hm H16] _ IH]; [apply parse_nil|].
  rewrite parse_nonempty by done. cbn [fmap list_fmap concat].
  change ((raw ∘ frame_of) pl) with (raw (frame_of pl)).
  rewrite feed_body_frame by done.
  change (list_fmap _ _ (raw ∘ frame_of) pls) with (raw ∘ frame_of <$> pls).
  by rewrite IH.
Qed.

(** C15: any sequence of payloads the encoder accepts, sent back to back and cut
    into reads in any way, is received as exactly those frames, with an empty
    buffer and nothing discarded. *)
Theorem decode_encode_stream pls encs reads m :
  MAX_PROTOBUF_SIZE <= m → map_res encode_frame pls = Ok encs →
  concat reads = concat encs →
  feed_all (new_parser m) reads = (frame_of <$> pls, new_parser m).
Proof.
  intros Hm Henc Hcut. rewrite feed_all_concat by apply parse_nil. rewrite Hcut.
  apply map_res_ok in Henc. unfold feed, new_parser. parser_simpl. cbn [app].
  assert (encs = (raw ∘ frame_of <$> pls)) as ->.
  { clear Hcut. induction Henc as [|pl e pls encs He _ IH]; [done|].
    cbn. apply encode_frame_ok in He as [_ ->]. by rewrite IH. }
  apply parse_frames. clear Hcut. induction Henc as [|pl e pls encs He _ IH]; constructor; [|done].
  apply encode_frame_ok in He as [He _]. unfold MAX_PROTOBUF_SIZE in *. lia.
Qed.

Lemma decode_encode_stream_witness :
  feed_all (new_parser 512)
    [[Byte.x94]; [Byte.xc3; Byte.x00; Byte.x01; Byte.x2a; Byte.x94; Byte.xc3]; [Byte.x00; Byte.x00]]
  = ([frame_of [Byte.x2a]; frame_of []], new_parser 512).
Proof.
  apply (decode_encode_stream [[Byte.x2a]; []]
    [raw (frame_of [Byte.x2a]); raw (frame_of [])]); [|reflexivity..].
  vm_compute. discriminate.
Defined.

(** Noise without a magic pair, even when it ends in the first magic
    byte, is discarded byte for byte and the
    frame behind it is received intact. *)
Theorem feed_resyncs noise pl m :
  find_magic noise = None →
  zlen pl <= m → zlen pl < 65536 →
  feed (new_parser m) (noise ++ raw (frame_of pl))
  = ([frame_of pl], mkFrameParser [] m (zlen noise) 0).
Proof.
  intros Hn Hm H16. unfold feed, new_parser. parser_simpl. cbn [app].
  rewrite parse_garbage; [|done|].
  - rewrite Z.add_0_r. change [frame_of pl] with (frame_of <$> [pl]).
    rewrite <-(parse_frames [pl] m (zlen noise) 0) by (by repeat constructor).
    cbn [fmap list_fmap concat]. by rewrite app_nil_r.
  - by apply no_magic_garbage.
Qed.

Lemma feed_resyncs_witness :
  feed (new_parser 512) ([Byte.x00; Byte.x94; Byte.x01; Byte.x94] ++ raw (frame_of [Byte.x2a]))
  = ([frame_of [Byte.x2a]], mkFrameParser [] 512 4 0).
Proof.
  apply (feed_resyncs [Byte.x00; Byte.x94; Byte.x01; Byte.x94] [Byte.x2a] 512).
  - reflexivity.
  - vm_compute. discriminate.
  - vm_compute. reflexivity.
Defined.
