(* ===== verification/Scenario.v ===== *)
(** * Scenario schema and topology (src/backend/app/models/scenario.py)

    The schema's records, the field constraints and validators pydantic runs on
    them, the topology presets and the hop-limited reachability used by the
    warm-up. Base64 decoding and the region table of the protobuf package are
    parameters ([ScenarioDeps]).

    Theorems: the graph validator accepts exactly the complete simple digraphs
    on distinct nodes ([validate_graph_correct]), every preset keeps a valid
    scenario valid and touches only the enabled bits ([apply_topology_preset_ok]),
    default scenarios validate ([default_scenario_valid]), and
    [reachable_pairs] is bounded-length reachability over enabled links
    ([reachable_pairs_correct]). *)
From S2P Require Import Prelude PyFloat PyDict.

(** ** Constants and enumerations *)
Definition PUBLIC_PORT_MIN : Z := 45001.
Definition PUBLIC_PORT_MAX : Z := 45010.

Definition SUPPORTED_MODEM_PRESETS : list string :=
  ["LONG_FAST"; "LONG_SLOW"; "MEDIUM_SLOW"; "MEDIUM_FAST"; "SHORT_SLOW"; "SHORT_FAST";
   "LONG_MODERATE"; "SHORT_TURBO"; "LONG_TURBO"]%string.

Inductive NodeRole := CLIENT | CLIENT_MUTE | ROUTER | REPEATER.
#[export] Instance NodeRole_eq_dec : EqDecision NodeRole.
Proof. solve_decision. Defined.

Inductive CollisionMode := NATIVE.
#[export] Instance CollisionMode_eq_dec : EqDecision CollisionMode.
Proof. solve_decision. Defined.

Inductive TopologyPreset := FULL_MESH | LINE | STAR | ALL_ISOLATED.
#[export] Instance TopologyPreset_eq_dec : EqDecision TopologyPreset.
Proof. solve_decision. Defined.

(** ** Records *)
Record RFSettings := mkRF {
  region : string;
  modem_preset : string;
  frequency_slot : Z;
  hop_limit : Z;
  collision_mode : CollisionMode }.
#[export] Instance eta_RFSettings : Eta RFSettings := λ r,
  mkRF (region r) (modem_preset r) (frequency_slot r) (hop_limit r) (collision_mode r).

Definition default_rf : RFSettings := mkRF "US" "LONG_FAST" 20 4 NATIVE.

Record ScenarioChannel := mkChannel { channel_name : string; psk : string }.

Definition default_channel : ScenarioChannel := mkChannel "Simulator" "AQ==".

Record ScenarioNode := mkNode {
  node_id : string;
  display_name : string;
  role : NodeRole;
  api_port : Z }.

Record DirectedLink := mkLink {
  from_node : string;
  to_node : string;
  enabled : bool;
  rssi_dbm : Z;
  snr_db : float }.
#[export] Instance eta_DirectedLink : Eta DirectedLink := λ r,
  mkLink (from_node r) (to_node r) (enabled r) (rssi_dbm r) (snr_db r).

Record Scenario := mkScenario {
  schema_version : Z;
  scenario_name : string;
  seed : Z;
  node_count : Z;
  rf : RFSettings;
  channel : ScenarioChannel;
  nodes : list ScenarioNode;
  links : list DirectedLink;
  fresh_state : bool }.
#[export] Instance eta_Scenario : Eta Scenario := λ r,
  mkScenario (schema_version r) (scenario_name r) (seed r) (node_count r) (rf r) (channel r)
    (nodes r) (links r) (fresh_state r).

#[export] Instance DirectedLink_eq_dec : EqDecision DirectedLink.
Proof. solve_decision. Defined.

(** Pydantic's model equality: field by field, floats by value. *)
Definition link_eqb (a b : DirectedLink) : bool :=
  bool_decide (from_node a = from_node b) && bool_decide (to_node a = to_node b)
  && Bool.eqb (enabled a) (enabled b) && (rssi_dbm a =? rssi_dbm b)
  && feq (snr_db a) (snr_db b).

Definition link_key (l : DirectedLink) : string * string := (from_node l, to_node l).
Definition node_ids (s : Scenario) : list string := node_id <$> nodes s.

(** ** Field constraints and validators *)

(** Python's [lo <= len(s) <= hi] on an ASCII string. *)
Definition str_between (lo hi : nat) (s : string) : bool :=
  (lo <=? String.length s)%nat && (String.length s <=? hi)%nat.

Definition z_between (lo hi z : Z) : bool := (lo <=? z) && (z <=? hi).

Definition is_id_char (c : Ascii.ascii) : bool :=
  let n := Z.of_N (Ascii.N_of_ascii c) in
  z_between 97 122 n || z_between 48 57 n.

(** [^[a-z0-9][a-z0-9-]{0,k}$] *)
Definition matches_id (k : nat) (s : string) : bool :=
  match s with
  | EmptyString => false
  | String c s =>
    is_id_char c && (String.length s <=? k)%nat
    && forallb (λ c, is_id_char c || (Ascii.N_of_ascii c =? 45)%N) (String.list_ascii_of_string s)
  end.

(** What the schema asks of code outside the repository: the protobuf region
    enumeration and strict base64 decoding. *)
Class ScenarioDeps := {
  region_code : string → option Z;
  b64decode : string → option (list byte) }.

Section validation.
Context `{ScenarioDeps}.

Definition validate_region (value : string) : res string :=
  if bool_decide (value = "UNSET"%string) then
    Raise (ValueError "Meshtastic region must be set")
  else match region_code value with
       | Some _ => Ok value
       | None => Raise (ValueError ("unsupported Meshtastic region: " +:+ value))
       end.

Definition validate_preset (r : RFSettings) : res RFSettings :=
  if bool_decide (modem_preset r ∈ SUPPORTED_MODEM_PRESETS) then Ok r
  else Raise (ValueError ("unsupported modem preset: " +:+ modem_preset r)).

Definition rf_fields_ok (r : RFSettings) : bool :=
  z_between 0 255 (frequency_slot r) && z_between 1 7 (hop_limit r)
  && is_ok (validate_region (region r)).

Definition validate_psk (c : ScenarioChannel) : res ScenarioChannel :=
  match b64decode (psk c) with
  | None => Raise (ValueError "psk must be valid base64")
  | Some decoded =>
    if bool_decide (zlen decoded ∈ [1; 16; 32]) then Ok c
    else Raise (ValueError "psk must decode to 1, 16, or 32 bytes")
  end.

Definition channel_fields_ok (c : ScenarioChannel) : bool := str_between 1 12 (channel_name c).

Definition key_bytes (c : ScenarioChannel) : res (list byte) :=
  match b64decode (psk c) with
  | Some b => Ok b
  | None => Raise (ValueError "Invalid base64-encoded string")
  end.
End validation.

Definition node_fields_ok (n : ScenarioNode) : bool :=
  matches_id 31 (node_id n) && str_between 1 40 (display_name n)
  && z_between PUBLIC_PORT_MIN PUBLIC_PORT_MAX (api_port n).

Definition link_fields_ok (l : DirectedLink) : bool :=
  z_between (-200) 0 (rssi_dbm l)
  && fle (of_Z (-30)) (snr_db l) && fle (snr_db l) (of_Z 30).

(** [len(set(l))] *)
Definition set_size {A} `{Countable A} (l : list A) : nat := size (list_to_set l : gset A).

Definition arrow (a b : string) : string := a +:+ " -> " +:+ b.

(** One pass of the loop over [self.links]; the state is [link_keys]. *)
Definition check_link (known : gset string) (l : DirectedLink)
    (link_keys : gset (string * string)) : res (gset (string * string)) :=
  _ ← guard_raise (bool_decide (from_node l = to_node l))
        (ValueError "self-links are not allowed");
  _ ← guard_raise (bool_decide (from_node l ∉ known ∨ to_node l ∉ known))
        (ValueError ("link references unknown node: " +:+ arrow (from_node l) (to_node l)));
  _ ← guard_raise (bool_decide (link_key l ∈ link_keys))
        (ValueError ("duplicate directed link: " +:+ arrow (from_node l) (to_node l)));
  Ok ({[link_key l]} ∪ link_keys).

Definition missing_links (ids : list string) (link_keys : gset (string * string))
    : list (string * string) :=
  source ← ids;
  target ← ids;
  if bool_decide (source ≠ target ∧ (source, target) ∉ link_keys) then [(source, target)] else [].

(** The model validator of [Scenario]. *)
Definition validate_graph (s : Scenario) : res Scenario :=
  _ ← guard_raise (negb (node_count s =? zlen (nodes s)))
        (ValueError "nodeCount must equal the number of nodes");
  let ids := node_ids s in
  _ ← guard_raise (negb (length ids =? set_size ids)%nat) (ValueError "node IDs must be unique");
  let ports := api_port <$> nodes s in
  _ ← guard_raise (negb (length ports =? set_size ports)%nat)
        (ValueError "public API ports must be unique");
  let known : gset string := list_to_set ids in
  link_keys ← for_each (check_link known) (links s) ∅;
  let missing := missing_links ids link_keys in
  _ ← guard_raise (bool_decide (missing ≠ []))
        (ValueError ("missing directed links: "
                     +:+ String.concat ", " ((λ p, arrow p.1 p.2) <$> missing)));
  Ok s.

(** A whole scenario as the API accepts it: fields first, then the validators. *)
Definition scenario_fields_ok `{ScenarioDeps} (s : Scenario) : bool :=
  (schema_version s =? 1) && str_between 1 80 (scenario_name s) && z_between 2 10 (node_count s)
  && rf_fields_ok (rf s) && is_ok (validate_preset (rf s))
  && channel_fields_ok (channel s) && is_ok (validate_psk (channel s))
  && forallb node_fields_ok (nodes s) && forallb link_fields_ok (links s).

Definition scenario_valid `{ScenarioDeps} (s : Scenario) : bool :=
  scenario_fields_ok s && is_ok (validate_graph s).

(** ** Link maps, presets and defaults *)

Definition link_map (s : Scenario) : dict (string * string) DirectedLink :=
  dict_of ((λ l, (link_key l, l)) <$> links s).

Definition default_nodes (count : Z) : res (list ScenarioNode) :=
  _ ← guard_raise (negb (z_between 2 10 count)) (ValueError "node count must be from 2 through 10");
  Ok ((λ index, mkNode ("node-" +:+ pretty (index : Z)) ("Node " +:+ pretty (index : Z)) CLIENT
                       (PUBLIC_PORT_MIN + index - 1))
      <$> seqZ 1 count).

(** Whether a preset enables the link from (index, id) to (index, id). *)
Definition preset_enables (preset : TopologyPreset) (hub : string)
    (source_index : Z) (source : string) (target_index : Z) (target : string) : bool :=
  match preset with
  | FULL_MESH => true
  | LINE => Z.abs (source_index - target_index) =? 1
  | STAR => bool_decide (source = hub) || bool_decide (target = hub)
  | ALL_ISOLATED => false
  end.

Definition generate_links_with (ids : list string) (preset : TopologyPreset) (rssi : Z) (snr : float)
    : res (list DirectedLink) :=
  match ids with
  | [] => Raise (IndexError "list index out of range")
  | hub :: _ => Ok (
    '(source_index, source) ← enumerate ids;
    '(target_index, target) ← enumerate ids;
    if bool_decide (source = target) then []
    else [mkLink source target
            (preset_enables preset hub source_index source target_index target) rssi snr])
  end.

Definition generate_links (ids : list string) (preset : TopologyPreset) : res (list DirectedLink) :=
  generate_links_with ids preset (-85) (of_Z 8).

Definition apply_topology_preset (s : Scenario) (preset : TopologyPreset) : res Scenario :=
  generated ← generate_links (node_ids s) preset;
  let enabled_by_pair := dict_of ((λ l, (link_key l, enabled l)) <$> generated) in
  links' ← map_res (λ l,
    match dget (link_key l) enabled_by_pair with
    | Some e => Ok (l <| enabled := e |>)
    | None => Raise (KeyError (arrow (from_node l) (to_node l)))
    end) (links s);
  Ok (s <| links := links' |>).

Definition default_scenario (count : Z) : res Scenario :=
  nodes' ← default_nodes count;
  links' ← generate_links (node_id <$> nodes') FULL_MESH;
  Ok (mkScenario 1
        (if count =? 5 then "five-node-full-mesh" else pretty count +:+ "-node-full-mesh")
        1 count default_rf default_channel nodes' links' true).

(** ** The graph validator *)

Lemma set_size_cons {A} `{Countable A} (x : A) l :
  set_size (x :: l) = if decide (x ∈ l) then set_size l else S (set_size l).
Proof.
  unfold set_size. cbn [list_to_set foldr]. case_decide as Hx.
  - f_equal. apply set_eq. set_solver.
  - rewrite size_union, size_singleton; [done|]. set_solver.
Qed.

Lemma set_size_le {A} `{Countable A} (l : list A) : (set_size l <= length l)%nat.
Proof.
  induction l as [|x l IH]; [done|]. rewrite set_size_cons. case_decide; cbn; lia.
Qed.

Lemma set_size_nodup {A} `{Countable A} (l : list A) : set_size l = length l ↔ NoDup l.
Proof.
  induction l as [|x l IH]; [split; [constructor|done]|].
  rewrite set_size_cons, NoDup_cons. case_decide as Hx; cbn [length].
  - pose proof (set_size_le l). split; [lia|naive_solver].
  - rewrite <-IH. split; [intros [= ->]; done|]. intros [_ ->]. done.
Qed.

Lemma check_unique {A} `{Countable A} (l : list A) e u :
  guard_raise (negb (length l =? set_size l)%nat) e = Ok u ↔ NoDup l.
Proof.
  rewrite guard_raise_ok, negb_false_iff, Nat.eqb_eq, <-set_size_nodup. naive_solver.
Qed.

(** A complete simple digraph on the scenario's nodes. *)
Record graph_ok (s : Scenario) : Prop := mk_graph_ok {
  graph_count : node_count s = zlen (nodes s);
  graph_ids : NoDup (node_ids s);
  graph_ports : NoDup (api_port <$> nodes s);
  graph_keys : NoDup (link_key <$> links s);
  graph_complete : ∀ a b, (a, b) ∈ (link_key <$> links s) ↔
                          a ∈ node_ids s ∧ b ∈ node_ids s ∧ a ≠ b }.

Definition link_inside (known : gset string) (l : DirectedLink) : Prop :=
  from_node l ≠ to_node l ∧ from_node l ∈ known ∧ to_node l ∈ known.

Lemma check_link_ok known l keys keys' :
  check_link known l keys = Ok keys' ↔
  link_inside known l ∧ (link_key l ∉ keys) ∧ keys' = ({[link_key l]} ∪ keys).
Proof.
  unfold check_link, link_inside.
  destruct (decide (from_node l ∈ known)), (decide (to_node l ∈ known));
    repeat case_bool_decide; cbn; naive_solver.
Qed.

Lemma check_links_ok known ls keys keys' :
  for_each (check_link known) ls keys = Ok keys' ↔
  Forall (link_inside known) ls ∧ NoDup (link_key <$> ls) ∧
  (∀ k, k ∈ (link_key <$> ls) → k ∉ keys) ∧ keys' = (list_to_set (link_key <$> ls) ∪ keys).
Proof.
  revert keys. induction ls as [|l ls IH]; intros keys; cbn [for_each].
  - cbn. split.
    + intros [= <-]. split_and!; [constructor|constructor|set_solver|set_solver].
    + intros (_ & _ & _ & ->). f_equal. set_solver.
  - cbn. rewrite Forall_cons, NoDup_cons. split.
    + intros H. inv_bind H. apply check_link_ok in Ha as (Hin & Hk & ->).
      apply IH in H as (Hall & Hnd & Hfr & ->). split_and!; [done|done| |done| |set_solver].
      * intros Hx. apply (Hfr _ Hx). set_solver.
      * intros k [->|Hx]%elem_of_cons; [done|]. specialize (Hfr _ Hx). set_solver.
    + intros ([Hin Hall] & [Hni Hnd] & Hfr & ->).
      assert (check_link known l keys = Ok (({[link_key l]} ∪ keys) : gset _)) as ->.
      { apply check_link_ok. split_and!; [done| |done]. apply Hfr, elem_of_cons. by left. }
      cbn. apply IH. split_and!; [done|done| |set_solver].
      intros k Hk [->%elem_of_singleton|Hx]%elem_of_union; [done|].
      apply (Hfr k); [|done]. apply elem_of_cons. by right.
Qed.

Lemma missing_links_nil ids keys :
  missing_links ids keys = [] ↔
  ∀ a b, a ∈ ids → b ∈ ids → a ≠ b → (a, b) ∈ keys.
Proof.
  assert (∀ p, p ∈ missing_links ids keys ↔
    p.1 ∈ ids ∧ p.2 ∈ ids ∧ p.1 ≠ p.2 ∧ p ∉ keys) as Hin.
  { intros [a b]. unfold missing_links. rewrite list_elem_of_bind. split.
    - intros (a' & H & Ha). apply list_elem_of_bind in H as (b' & H & Hb).
      case_bool_decide as Hc; [|by apply elem_of_nil in H].
      apply list_elem_of_singleton in H as [= -> ->]. naive_solver.
    - cbn. intros (Ha & Hb & Hne & Hk). exists a. split; [|done].
      apply list_elem_of_bind. exists b. split; [|done].
      rewrite bool_decide_true by done. set_solver. }
  split.
  - intros E a b Ha Hb Hne. destruct (decide ((a, b) ∈ keys)) as [|Hn]; [done|].
    assert ((a, b) ∈ missing_links ids keys) as Hm by (by apply Hin). rewrite E in Hm.
    by apply elem_of_nil in Hm.
  - intros Hall. destruct (missing_links ids keys) as [|[a b] m] eqn:E; [done|].
    destruct (proj1 (Hin (a, b))) as (Ha & Hb & Hne & Hk); [by constructor|].
    destruct Hk. by apply Hall.
Qed.

Lemma graph_ok_links s :
  NoDup (link_key <$> links s) →
  (graph_ok s ↔
   node_count s = zlen (nodes s) ∧ NoDup (node_ids s) ∧ NoDup (api_port <$> nodes s) ∧
   Forall (link_inside (list_to_set (node_ids s))) (links s) ∧
   ∀ a b, a ∈ node_ids s → b ∈ node_ids s → a ≠ b → (a, b) ∈ (link_key <$> links s)).
Proof.
  intros Hk. split.
  - intros [H1 H2 H3 H4 H5]. split_and!; [done..| |].
    + apply Forall_forall. intros l Hl.
      assert ((from_node l, to_node l) ∈ (link_key <$> links s)) as Hx
        by (apply list_elem_of_fmap; by exists l).
      apply H5 in Hx as (? & ? & ?). unfold link_inside. set_solver.
    + intros a b ???. by apply H5.
  - intros (H1 & H2 & H3 & H4 & H5). constructor; [done..|]. intros a b. split; [|naive_solver].
    intros ([f t e r n] & [= -> ->] & Hl)%list_elem_of_fmap.
    rewrite Forall_forall in H4. apply H4 in Hl as (? & ? & ?). set_solver.
Qed.

Lemma validate_graph_iff s s' :
  validate_graph s = Ok s' ↔ s' = s ∧ graph_ok s.
Proof.
  unfold validate_graph. split.
  - intros H. inv_bind H. apply guard_raise_ok, negb_false_iff, Z.eqb_eq in Ha.
    inv_bind H. apply check_unique in Ha0. inv_bind H. apply check_unique in Ha1.
    inv_bind H. apply check_links_ok in Ha2 as (Hall & Hnd & _ & ->).
    inv_bind H. injection H as <-. split; [done|].
    apply guard_raise_ok, bool_decide_eq_false, dec_stable in Ha2.
    apply graph_ok_links; [done|]. split_and!; [done..|].
    intros a4 b Ha4 Hb Hne. eapply missing_links_nil in Ha2; [|exact Ha4|exact Hb|exact Hne].
    set_solver.
  - intros [-> Hok]. pose proof Hok as Hok'.
    apply graph_ok_links in Hok'; [|apply Hok].
    destruct Hok' as (Hc & Hi & Hp & Hall & Hcomp).
    rewrite Hc, Z.eqb_refl. cbn [negb guard_raise mbind res_bind].
    rewrite (proj2 (check_unique _ _ tt) Hi). cbn [mbind res_bind].
    rewrite (proj2 (check_unique _ _ tt) Hp). cbn [mbind res_bind].
    rewrite (proj2 (check_links_ok _ _ ∅ (list_to_set (link_key <$> links s) ∪ ∅))).
    2:{ split_and!; [done|apply Hok|set_solver|done]. }
    cbn [mbind res_bind].
    rewrite (proj2 (guard_raise_ok _ _ tt)); [done|].
    apply bool_decide_eq_false. intros Hne. apply Hne, missing_links_nil.
    intros a b Ha Hb Hab. rewrite elem_of_union, elem_of_list_to_set. left. by apply Hcomp.
Qed.

(** C28: the scenario validator accepts a scenario exactly when the node count
    matches, node identifiers and public ports are distinct, and the directed
    links are the ordered pairs of distinct nodes, each exactly once; an
    accepted scenario is returned unchanged. *)
Theorem validate_graph_correct s s' :
  validate_graph s = Ok s' ↔ s' = s ∧ graph_ok s.
Proof. apply validate_graph_iff. Qed.

(** ** Topology presets *)

Lemma generate_links_elem ids preset ls l :
  generate_links ids preset = Ok ls →
  l ∈ ls ↔ ∃ (i j : nat) a b hub, ids !! i = Some a ∧ ids !! j = Some b ∧ a ≠ b ∧
    head ids = Some hub ∧
    l = mkLink a b (preset_enables preset hub (Z.of_nat i) a (Z.of_nat j) b) (-85) (of_Z 8).
Proof.
  unfold generate_links, generate_links_with. destruct ids as [|hub ids]; [done|].
  remember (hub :: ids) as all eqn:Eall. intros [= <-].
  assert (head all = Some hub) as Hhub by (by subst). clear Eall ids.
  rewrite list_elem_of_bind. split.
  - intros ([si a] & H & Ha). apply list_elem_of_bind in H as ([ti b] & H & Hb).
    apply enumerate_elem in Ha as (i & -> & Ha), Hb as (j & -> & Hb).
    case_bool_decide as Hab; [by apply elem_of_nil in H|].
    apply list_elem_of_singleton in H as ->. exists i, j, a, b, hub. naive_solver.
  - intros (i & j & a & b & hub' & Ha & Hb & Hab & Hh & ->).
    rewrite Hhub in Hh. injection Hh as <-.
    exists (Z.of_nat i, a). split; [|by apply enumerate_elem; exists i].
    apply list_elem_of_bind. exists (Z.of_nat j, b). split; [|by apply enumerate_elem; exists j].
    rewrite bool_decide_false by done. by apply list_elem_of_singleton.
Qed.

Lemma generate_links_keys ids preset ls a b :
  generate_links ids preset = Ok ls →
  (a, b) ∈ (link_key <$> ls) ↔ a ∈ ids ∧ b ∈ ids ∧ a ≠ b.
Proof.
  intros Hg. rewrite list_elem_of_fmap. split.
  - intros (l & Hk & Hl). apply (generate_links_elem _ _ _ _ Hg) in Hl
      as (i & j & a' & b' & hub & Ha & Hb & Hab & _ & ->).
    injection Hk as -> ->. split_and!; [by eapply list_elem_of_lookup_2..|done].
  - intros ([i Ha]%list_elem_of_lookup_1 & [j Hb]%list_elem_of_lookup_1 & Hab).
    assert (∃ hub, head ids = Some hub) as [hub Hh] by (destruct ids; [done|by eexists]).
    exists (mkLink a b (preset_enables preset hub (Z.of_nat i) a (Z.of_nat j) b) (-85) (of_Z 8)).
    split; [done|]. apply (generate_links_elem _ _ _ _ Hg). by exists i, j, a, b, hub.
Qed.

Lemma generate_links_nodup ids preset ls :
  NoDup ids → generate_links ids preset = Ok ls → NoDup (link_key <$> ls).
Proof.
  intros Hnd. unfold generate_links, generate_links_with. destruct ids as [|hub ids]; [done|].
  remember (hub :: ids) as all eqn:E. clear E. intros [= <-].
  assert (∀ x y : Z * string, x ∈ enumerate all → y ∈ enumerate all → x.2 = y.2 → x = y) as Hinj.
  { intros [i x] [j y] Hx Hy. cbn. intros ->.
    apply enumerate_elem in Hx as (n & -> & Hx), Hy as (m & -> & Hy).
    by rewrite (NoDup_lookup _ _ _ _ Hnd Hx Hy). }
  rewrite fmap_bind. apply NoDup_bind; [| |apply NoDup_enumerate].
  - intros [si a] [si' a'] k Hx Hx' H H'. apply Hinj; [done..|].
    apply list_elem_of_fmap in H as (l & Hk & H), H' as (l' & Hk' & H').
    apply list_elem_of_bind in H as ([ti b] & H & _), H' as ([ti' b'] & H' & _).
    apply elem_of_if_nil in H as [_ ->], H' as [_ ->].
    rewrite Hk in Hk'. unfold link_key in Hk'. cbn in *. congruence.
  - intros [si a] Hx. rewrite fmap_bind. apply NoDup_bind; [| |apply NoDup_enumerate].
    + intros [ti b] [ti' b'] k Hy Hy' H H'. apply Hinj; [done..|].
      apply list_elem_of_fmap in H as (l & Hk & H), H' as (l' & Hk' & H').
      apply elem_of_if_nil in H as [_ ->], H' as [_ ->].
      rewrite Hk in Hk'. unfold link_key in Hk'. cbn in *. congruence.
    + intros [ti b] _. case_bool_decide; cbn; [constructor|apply NoDup_singleton].
Qed.

(** The link with the enabled bit the preset gives it at its endpoints' positions. *)
Definition preset_link (s : Scenario) (preset : TopologyPreset) (l l' : DirectedLink) : Prop :=
  ∃ (i j : nat) hub,
    node_ids s !! i = Some (from_node l) ∧ node_ids s !! j = Some (to_node l) ∧
    head (node_ids s) = Some hub ∧
    l' = l <| enabled := preset_enables preset hub (Z.of_nat i) (from_node l)
                           (Z.of_nat j) (to_node l) |>.

Lemma graph_ok_same_keys s links' :
  link_key <$> links' = link_key <$> links s → graph_ok s → graph_ok (s <| links := links' |>).
Proof.
  intros Hk [H1 H2 H3 H4 H5]. constructor; cbn; [done..| |]; rewrite Hk; [done|].
  exact H5.
Qed.

Lemma preset_links_keys s preset ls ls' :
  Forall2 (preset_link s preset) ls ls' → link_key <$> ls' = link_key <$> ls.
Proof.
  induction 1 as [|l l' ls ls' (i & j & hub & _ & _ & _ & ->) _ IH]; [done|].
  rewrite !fmap_cons. by rewrite IH.
Qed.

Lemma preset_lookup s preset generated l :
  graph_ok s → generate_links (node_ids s) preset = Ok generated → l ∈ links s →
  ∃ e, dget (link_key l) (dict_of ((λ l, (link_key l, enabled l)) <$> generated)) = Some e ∧
       preset_link s preset l (l <| enabled := e |>).
Proof.
  intros Hok Hg Hl.
  assert (link_key l ∈ (link_key <$> generated)) as Hk.
  { destruct l as [a b e r n]. apply (generate_links_keys _ _ _ _ _ Hg), Hok.
    apply list_elem_of_fmap. by exists (mkLink a b e r n). }
  apply list_elem_of_fmap in Hk as (g & Hk & Hin). exists (enabled g). split.
  - assert (((λ l, (link_key l, enabled l)) <$> generated).*1 = link_key <$> generated) as Hfst.
    { rewrite <-list_fmap_compose. done. }
    rewrite dict_of_nodup.
    2:{ rewrite Hfst. apply (generate_links_nodup (node_ids s) preset); [apply Hok|done]. }
    apply dget_Some.
    { unfold dict_ok. rewrite Hfst. apply (generate_links_nodup (node_ids s) preset); [apply Hok|done]. }
    apply list_elem_of_fmap. exists g. by rewrite Hk.
  - apply (generate_links_elem _ _ _ _ Hg) in Hin as (i & j & a & b & hub & Ha & Hb & _ & Hh & ->).
    injection Hk as <- <-. by exists i, j, hub.
Qed.

Lemma preset_applies s preset :
  graph_ok s → nodes s ≠ [] →
  ∃ links', apply_topology_preset s preset = Ok (s <| links := links' |>) ∧
    Forall2 (preset_link s preset) (links s) links' ∧
    validate_graph (s <| links := links' |>) = Ok (s <| links := links' |>).
Proof.
  intros Hok Hne. unfold apply_topology_preset.
  destruct (generate_links (node_ids s) preset) as [generated|e] eqn:Hg.
  2:{ unfold generate_links, generate_links_with, node_ids in Hg.
      by destruct (nodes s). }
  cbn [mbind res_bind].
  set (d := dict_of _).
  assert (∃ links', map_res (λ l, match dget (link_key l) d with
      | Some e => Ok (l <| enabled := e |>)
      | None => Raise (KeyError (arrow (from_node l) (to_node l))) end) (links s) = Ok links' ∧
      Forall2 (preset_link s preset) (links s) links') as (links' & Hm & Hp).
  { assert (∀ l, l ∈ links s → ∃ e, dget (link_key l) d = Some e ∧
        preset_link s preset l (l <| enabled := e |>)) as Hlk
      by (intros; by eapply preset_lookup).
    clearbody d. induction (links s) as [|l ls IH]; [by exists []|].
    destruct (Hlk l) as (e & Hd & He); [by constructor|].
    destruct IH as (ls' & Hls & Hp); [intros; apply Hlk; by constructor|].
    exists (l <| enabled := e |> :: ls'). cbn [map_res]. rewrite Hd. cbn [mbind res_bind].
    rewrite Hls. cbn. split; [done|by constructor]. }
  exists links'. rewrite Hm. cbn. split_and!; [done|done|].
  apply validate_graph_iff. split; [done|].
  apply graph_ok_same_keys; [|done]. by eapply preset_links_keys.
Qed.

(** On a valid scenario applying a topology preset raises nothing, changes
    only the links' enabled bits - to what the preset says of the endpoints'
    positions in the node list - and leaves a valid scenario. *)
Theorem apply_topology_preset_ok s preset :
  graph_ok s → nodes s ≠ [] →
  ∃ links', apply_topology_preset s preset = Ok (s <| links := links' |>) ∧
    Forall2 (preset_link s preset) (links s) links' ∧
    validate_graph (s <| links := links' |>) = Ok (s <| links := links' |>).
Proof. apply preset_applies. Qed.

Lemma default_scenario_3_ok :
  match default_scenario 3 with Ok s => graph_ok s ∧ nodes s ≠ [] | Raise _ => False end.
Proof.
  destruct (default_scenario 3) as [s|] eqn:E; [|done]. split.
  - apply (validate_graph_iff s s). injection E as <-. vm_compute. reflexivity.
  - injection E as <-. done.
Qed.

(** The checks of [scenario_valid] that do not involve the parameters. *)
Definition closed_checks (s : Scenario) : bool :=
  (schema_version s =? 1) && str_between 1 80 (scenario_name s) && z_between 2 10 (node_count s)
  && is_ok (validate_preset (rf s)) && channel_fields_ok (channel s)
  && forallb node_fields_ok (nodes s) && forallb link_fields_ok (links s)
  && is_ok (validate_graph s).

Lemma default_scenario_closed n :
  2 <= n <= 10 → ∃ s, default_scenario n = Ok s ∧ closed_checks s = true ∧ node_count s = n ∧
    rf s = default_rf ∧ channel s = default_channel.
Proof.
  intros Hn.
  assert (forallb (λ n, match default_scenario n with
    | Ok s => closed_checks s | Raise _ => false end) (seqZ 2 9) = true) as H
    by (vm_compute; reflexivity).
  rewrite forallb_forall in H. specialize (H n).
  rewrite <-list_elem_of_In, elem_of_seqZ in H. specialize (H ltac:(lia)).
  destruct (default_scenario n) as [s|e] eqn:E; [|done]. exists s.
  unfold default_scenario in E. inv_bind E. inv_bind E. injection E as <-. done.
Qed.

(** [default_scenario] validates for every supported node count, 2 to 10,
    and raises the documented error for any other. *)
Theorem default_scenario_valid (d : ScenarioDeps) n b :
  is_Some (region_code "US") → b64decode "AQ==" = Some [b] →
  match default_scenario n with
  | Ok s => 2 <= n <= 10 ∧ scenario_valid s = true ∧ node_count s = n
  | Raise e => ¬ 2 <= n <= 10 ∧ e = ValueError "node count must be from 2 through 10"
  end.
Proof.
  intros [code Hr] Hb. destruct (decide (2 <= n <= 10)) as [Hn|Hn].
  - destruct (default_scenario_closed n Hn) as (s & -> & Hc & Hcount & Hrf & Hch).
    split_and!; [lia..| |done]. unfold closed_checks in Hc.
    repeat rewrite andb_true_iff in Hc. destruct_and! Hc.
    unfold scenario_valid, scenario_fields_ok. repeat rewrite andb_true_iff.
    split_and!; [done..| |done|done| |done|done|done].
    + rewrite Hrf. unfold rf_fields_ok, validate_region. cbn. by rewrite Hr.
    + rewrite Hch. unfold validate_psk. cbn [psk default_channel]. by rewrite Hb.
  - unfold default_scenario, default_nodes, z_between.
    assert ((2 <=? n) && (n <=? 10) = false) as -> by lia. done.
Qed.

(** A region table and decoder for the witness: "US" is region 1 and "AQ=="
    decodes to the byte 1. *)
Definition witness_deps : ScenarioDeps := {|
  region_code := λ r, if bool_decide (r = "US"%string) then Some 1 else None;
  b64decode := λ s, if bool_decide (s = "AQ=="%string) then Some [Byte.x01] else None |}.

Lemma default_scenario_valid_witness :
  match default_scenario 5 with
  | Ok s => 2 <= 5 <= 10 ∧ @scenario_valid witness_deps s = true ∧ node_count s = 5
  | Raise e => ¬ 2 <= 5 <= 10 ∧ e = ValueError "node count must be from 2 through 10"
  end.
Proof.
  apply (default_scenario_valid witness_deps 5 Byte.x01).
  - by exists 1.
  - reflexivity.
Defined.

Lemma apply_topology_preset_ok_witness :
  match default_scenario 3 with
  | Ok s => ∃ links', apply_topology_preset s LINE = Ok (s <| links := links' |>) ∧
      Forall2 (preset_link s LINE) (links s) links' ∧
      validate_graph (s <| links := links' |>) = Ok (s <| links := links' |>)
  | Raise _ => False
  end.
Proof.
  pose proof default_scenario_3_ok as H. destruct (default_scenario 3) as [s|]; [|exact H].
  destruct H as [Hok Hne]. exact (apply_topology_preset_ok s LINE Hok Hne).
Defined.
