(* ===== verification/Processes.v ===== *)
(** * The firmware processes (src/backend/app/runtime/processes.py)

    [NativeProcessSupervisor]: the hardware ids, starting one process per node,
    observing exits, stopping and reaping, and the logs it serves.  What processes and
    the supervisor's other tasks do at an [await] is a list of operations ([proc_op]);
    the operating system appears as the list of commands spawned and signals sent, and
    the outcome of each spawn is an argument.  SHA-256 is the parameter [Sha256]. *)
From S2P Require Import Prelude PyDict Framing Utf8 ProcessLogs Scenario.

(** ** Hardware ids *)

Class Sha256 := sha256 : list byte → list byte.

Definition hardware_digest `{Sha256} (node_id : string) (salt : Z) : Z :=
  from_bytes_big (take 4 (sha256 (String.list_byte_of_string
    ("meshtastic-lab:" +:+ node_id +:+ ":" +:+ pretty salt)))).

Definition hardware_id_free (used : list Z) (id : Z) : bool :=
  negb (bool_decide (id ∈ [0; 0xFFFFFFFF])) && negb (bool_decide (id ∈ used)).

(** The [while True] loop over the salts; [None]: [fuel] salts do not suffice. *)
Fixpoint draw_hardware_id `{Sha256} (fuel : nat) (node_id : string) (used : list Z) (salt : Z)
    : option Z :=
  match fuel with
  | O => None
  | S fuel =>
    let id := hardware_digest node_id salt in
    if hardware_id_free used id then Some id else draw_hardware_id fuel node_id used (salt + 1)
  end.

Fixpoint assign_hardware_ids `{Sha256} (fuel : nat) (node_ids : list string)
    (hardware_ids : dict string Z) (used : list Z) : option (dict string Z) :=
  match node_ids with
  | [] => Some hardware_ids
  | node_id :: node_ids =>
    id ← draw_hardware_id fuel node_id used 0;
    assign_hardware_ids fuel node_ids (dset node_id id hardware_ids) (id :: used)
  end.

Definition hardware_ids_for `{Sha256} (fuel : nat) (node_ids : list string) : option (dict string Z) :=
  assign_hardware_ids fuel (str_sorted node_ids) [] [].

(** ** The supervisor *)

Inductive NodeProcessState := STOPPED | STARTING | RUNNING | STOPPING | FAILED.

#[export] Instance NodeProcessState_eq_dec : EqDecision NodeProcessState.
Proof. solve_decision. Defined.

Record Process := mkProcess { pid : Z; returncode : option Z }.
#[export] Instance eta_Process : Eta Process := λ r, mkProcess (pid r) (returncode r).

(** A record with the locals of its three tasks: the streams' drains, once they have
    opened their logs, and whether the exit is still being watched for. *)
Record ProcessRecord := mkRecord {
  pr_node_id : string;
  hardware_id : Z;
  internal_port : Z;
  data_directory : string;
  stdout_path : string;
  stderr_path : string;
  pr_state : NodeProcessState;
  process : option Process;
  stdout_drain : option Drain;
  stderr_drain : option Drain;
  exit_watched : bool }.
#[export] Instance eta_ProcessRecord : Eta ProcessRecord := λ r,
  mkRecord (pr_node_id r) (hardware_id r) (internal_port r) (data_directory r) (stdout_path r)
    (stderr_path r) (pr_state r) (process r) (stdout_drain r) (stderr_drain r) (exit_watched r).

Record ArchivedProcessLogs := mkArchive { ar_stdout : list text; ar_stderr : list text }.

Inductive signal := SIGTERM | SIGKILL.

Record Supervisor := mkSupervisor {
  binary_path : string;
  data_root : string;
  internal_port_base : Z;
  log_max_bytes : Z;
  sup_records : dict string ProcessRecord;
  archived_logs : dict string ArchivedProcessLogs;
  sup_stopping : bool;
  sup_files : log_files;
  spawned : list (list string);
  signals : list (Z * signal) }.
#[export] Instance eta_Supervisor : Eta Supervisor := λ r,
  mkSupervisor (binary_path r) (data_root r) (internal_port_base r) (log_max_bytes r) (sup_records r)
    (archived_logs r) (sup_stopping r) (sup_files r) (spawned r) (signals r).

Definition new_supervisor (binary root : string) (port_base log_max : Z) (fs : log_files)
    : res Supervisor :=
  _ ← guard_raise (log_max <=? 0) (ValueError "log_max_bytes must be positive");
  Ok (mkSupervisor binary root port_base log_max [] [] false fs [] []).

Definition node_root (root node_id : string) : string := root +:+ "/" +:+ node_id.

Definition record_for (s : Supervisor) (node_id : string) (index hardware_id : Z) : ProcessRecord :=
  let root := node_root (data_root s) node_id in
  mkRecord node_id hardware_id (internal_port_base s + index) (root +:+ "/state") (root +:+ "/stdout.log")
    (root +:+ "/stderr.log") STOPPED None None None false.

Definition modify_record (node_id : string) (f : ProcessRecord → ProcessRecord) (s : Supervisor)
    : Supervisor :=
  match dget node_id (sup_records s) with
  | Some r => s <| sup_records ::= dset node_id (f r) |>
  | None => s
  end.

Inductive stream := STDOUT | STDERR.

Definition stream_path (st : stream) (r : ProcessRecord) : string :=
  match st with STDOUT => stdout_path r | STDERR => stderr_path r end.
Definition stream_drain (st : stream) (r : ProcessRecord) : option Drain :=
  match st with STDOUT => stdout_drain r | STDERR => stderr_drain r end.
Definition set_drain (st : stream) (d : Drain) (r : ProcessRecord) : ProcessRecord :=
  match st with
  | STDOUT => r <| stdout_drain := Some d |>
  | STDERR => r <| stderr_drain := Some d |>
  end.

(** The lines kept of a stream. *)
Definition stream_lines (st : stream) (r : ProcessRecord) : list text :=
  match stream_drain st r with Some d => recent_lines d | None => [] end.

Definition running (r : ProcessRecord) : bool :=
  match process r with Some p => bool_decide (returncode p = None) | None => false end.

(** What happens at an [await]: a drain opens its log or reads a line, a process
    exits, or the task watching for the exit runs. *)
Inductive proc_op :=
| POpen (node_id : string) (st : stream) (openable : bool)
| PLine (node_id : string) (st : stream) (line : list byte) (fault : option log_fault)
| PExit (node_id : string) (code : Z)
| PObserve (node_id : string).

Definition proc_open (node_id : string) (st : stream) (openable : bool) (s : Supervisor) : Supervisor :=
  match dget node_id (sup_records s) with
  | Some r =>
    match process r, stream_drain st r with
    | Some _, None =>
      let (d, fs) := open_drain (stream_path st r) (log_max_bytes s) openable (sup_files s) in
      modify_record node_id (set_drain st d) (s <| sup_files := fs |>)
    | _, _ => s
    end
  | None => s
  end.

Definition proc_line (node_id : string) (st : stream) (line : list byte) (fault : option log_fault)
    (s : Supervisor) : Supervisor :=
  match dget node_id (sup_records s) ≫= stream_drain st with
  | Some d =>
    let (d, fs) := drain_line fault line d (sup_files s) in
    modify_record node_id (set_drain st d) (s <| sup_files := fs |>)
  | None => s
  end.

Definition exit_process (code : Z) (r : ProcessRecord) : ProcessRecord :=
  if running r then r <| process ::= fmap (λ p, p <| returncode := Some code |>) |> else r.

Section supervisor.
Context `{Sha256} {T : Type} (failure_handler : option (string → option Z → T → T)).
Implicit Types (s : Supervisor) (w : Supervisor * T).

Definition with_sup (f : Supervisor → Supervisor) (w : Supervisor * T) : Supervisor * T := (f w.1, w.2).

(** [_monitor_exit], once the process has exited. *)
Definition observe_exit (node_id : string) (w : Supervisor * T) : Supervisor * T :=
  match dget node_id (sup_records w.1) with
  | Some r =>
    match process r with
    | Some p =>
      if exit_watched r && negb (bool_decide (returncode p = None)) then
        let w := with_sup (modify_record node_id (λ r, r <| exit_watched := false |>)) w in
        if sup_stopping w.1 then w
        else
          let w := with_sup (modify_record node_id (λ r, r <| pr_state := FAILED |>)) w in
          (w.1, match failure_handler with Some h => h node_id (returncode p) w.2 | None => w.2 end)
      else w
    | None => w
    end
  | None => w
  end.

Definition proc_step (op : proc_op) (w : Supervisor * T) : Supervisor * T :=
  match op with
  | POpen node_id st openable => with_sup (proc_open node_id st openable) w
  | PLine node_id st line fault => with_sup (proc_line node_id st line fault) w
  | PExit node_id code => with_sup (modify_record node_id (exit_process code)) w
  | PObserve node_id => observe_exit node_id w
  end.

Definition proc_run (ops : list proc_op) (w : Supervisor * T) : Supervisor * T :=
  foldl (λ w op, proc_step op w) w ops.

(** ** Stopping *)

Definition terminate_record (r : ProcessRecord) : ProcessRecord :=
  if running r then r <| pr_state := STOPPING |> else r.

Definition kill_record (r : ProcessRecord) : ProcessRecord := exit_process (-9) r.

(** The signal sent to every process that still runs. *)
Definition signal_running (sig : signal) (s : Supervisor) : list (Z * signal) :=
  (sup_records s).*2 ≫= λ r,
    if running r then match process r with Some p => [(pid p, sig)] | None => [] end else [].

Definition map_records (f : ProcessRecord → ProcessRecord) (s : Supervisor) : Supervisor :=
  s <| sup_records ::= fmap (λ kv, (kv.1, f kv.2)) |>.

Definition archive_logs (s : Supervisor) : Supervisor :=
  s <| archived_logs ::= λ d, foldl (λ d r,
         dset (pr_node_id r) (mkArchive (stream_lines STDOUT r) (stream_lines STDERR r)) d)
       d (sup_records s).*2 |>.

(** [_stop_unlocked]; [exiting] is what happens within the shutdown timeout, after
    which the processes left are killed, [draining] while the tasks end. *)
Definition stop_unlocked (exiting draining : list proc_op) (w : Supervisor * T) : Supervisor * T :=
  match sup_records w.1 with
  | [] => w
  | _ =>
    let w := with_sup (λ s, s <| sup_stopping := true |> <| signals ::= λ l, l ++ signal_running SIGTERM s |>) w in
    let w := with_sup (map_records terminate_record) w in
    let w := proc_run exiting w in
    let w := with_sup (λ s, s <| signals ::= λ l, l ++ signal_running SIGKILL s |>) w in
    let w := with_sup (map_records kill_record) w in
    let w := proc_run draining w in
    with_sup (λ s, (archive_logs s) <| sup_records := [] |> <| sup_stopping := false |>) w
  end.

(** ** Starting *)

(** What happens while one process starts: whether its directories can be prepared,
    the other tasks' operations, and the process spawned with whether its output is
    captured. *)
Record Spawn := mkSpawn {
  sp_prepare : res unit;
  sp_meanwhile : list proc_op;
  sp_process : res (Z * bool) }.

Definition command (binary : string) (erase : bool) (r : ProcessRecord) : list string :=
  (binary :: (if erase then ["--erase"] else []) ++
    ["--sim"; "--fsdir"; data_directory r; "--hwid"; pretty (hardware_id r);
     "--port"; pretty (internal_port r)])%string.

(** [shutil.rmtree] *)
Definition remove_tree (root : string) (fs : log_files) : log_files :=
  filter (λ kv, String.prefix (root +:+ "/") kv.1 = false) fs.

Definition start_one (erase : bool) (node_id : string) (sp : Spawn) (w : Supervisor * T)
    : (Supervisor * T) * res unit :=
  match dget node_id (sup_records w.1) with
  | None => (w, Ok tt)
  | Some r =>
    let w := if erase then with_sup (λ s, s <| sup_files ::= remove_tree (node_root (data_root s) node_id) |>) w
             else w in
    match sp_prepare sp with
    | Raise e => (w, Raise e)
    | Ok _ =>
      let w := with_sup (modify_record node_id (λ r, r <| pr_state := STARTING |>)) w in
      let w := with_sup (λ s, s <| spawned ::= λ l, l ++ [command (binary_path s) erase r] |>) w in
      let w := proc_run (sp_meanwhile sp) w in
      match sp_process sp with
      | Raise e => (w, Raise e)
      | Ok (new_pid, captured) =>
        let w := with_sup (modify_record node_id (λ r, r <| process := Some (mkProcess new_pid None) |>)) w in
        if negb captured then (w, Raise (RuntimeError ("failed to capture output for " +:+ node_id)))
        else (with_sup (modify_record node_id (λ r, r <| pr_state := RUNNING |> <| exit_watched := true |>)) w,
              Ok tt)
      end
    end
  end.

(** The loop over the numbered nodes; [spawn] gives what happens while each starts. *)
Fixpoint start_nodes (erase : bool) (ids : dict string Z) (spawn : Z → Spawn)
    (l : list (Z * string)) (w : Supervisor * T) : (Supervisor * T) * res unit :=
  match l with
  | [] => (w, Ok tt)
  | (index, node_id) :: l =>
    match dget node_id ids with
    | None => (w, Raise (KeyError node_id))
    | Some hw =>
      let w := with_sup (λ s, s <| sup_records ::= dset node_id (record_for s node_id index hw) |>) w in
      match start_one erase node_id (spawn index) w with
      | (w, Ok _) => start_nodes erase ids spawn l w
      | (w, Raise e) => (w, Raise e)
      end
    end
  end.

Record SupervisorStart := mkSupervisorStart {
  ss_binary_present : bool;
  ss_root : res unit;
  ss_spawn : Z → Spawn;
  ss_exiting : list proc_op;
  ss_draining : list proc_op }.

Definition clear_archived_logs (s : Supervisor) : Supervisor := s <| archived_logs := [] |>.

(** [_start_unlocked]; [None]: the salts do not suffice. *)
Definition start_unlocked (fuel : nat) (env : SupervisorStart) (scenario : Scenario) (w : Supervisor * T)
    : option ((Supervisor * T) * res unit) :=
  match sup_records w.1 with
  | _ :: _ => Some (w, Raise (RuntimeError "firmware processes are already allocated"))
  | [] =>
    let w := with_sup clear_archived_logs w in
    if negb (ss_binary_present env) then
      Some (w, Raise (FileNotFoundError ("native firmware binary not found: " +:+ binary_path w.1)))
    else match ss_root env with
    | Raise e => Some (w, Raise e)
    | Ok _ =>
      let w := with_sup (λ s, s <| sup_stopping := false |>) w in
      ids ← hardware_ids_for fuel (node_ids scenario);
      match start_nodes (fresh_state scenario) ids (ss_spawn env) (enumerate (node_ids scenario)) w with
      | (w, Ok _) => Some (w, Ok tt)
      | (w, Raise e) => Some (stop_unlocked (ss_exiting env) (ss_draining env) w, Raise e)
      end
    end
  end.
End supervisor.

(** ** Logs *)

(** Python's [l[-n:]]. *)
Definition py_suffix {A} (n : Z) (l : list A) : list A :=
  if 0 <? n then last_bytes n l else drop (Z.to_nat (- n)) l.

Definition archive_lines (st : stream) (a : ArchivedProcessLogs) : list text :=
  match st with STDERR => ar_stderr a | STDOUT => ar_stdout a end.

Definition recent_logs (node_id : string) (st : stream) (limit : Z) (s : Supervisor)
    : res (list text) :=
  match dget node_id (sup_records s) with
  | Some r => Ok (py_suffix limit (stream_lines st r))
  | None =>
    match dget node_id (archived_logs s) with
    | Some a => Ok (py_suffix limit (archive_lines st a))
    | None => Raise (KeyError node_id)
    end
  end.

Definition has_logs (node_id : string) (s : Supervisor) : bool :=
  dmem node_id (sup_records s) || dmem node_id (archived_logs s).

(** ** The hardware ids *)

Section hardware.
Context `{Sha256}.

Lemma hardware_id_free_spec used id :
  hardware_id_free used id = true ↔ id ≠ 0 ∧ id ≠ 0xFFFFFFFF ∧ (id ∉ used).
Proof.
  unfold hardware_id_free. rewrite andb_true_iff, !negb_true_iff, !bool_decide_eq_false.
  rewrite !not_elem_of_cons. split; [naive_solver|]. intros (? & ? & ?). split_and!; try done. apply not_elem_of_nil.
Qed.

Lemma from_bytes_big_range l : 0 <= from_bytes_big l < 256 ^ zlen l.
Proof.
  unfold from_bytes_big. induction l as [|b l IH] using rev_ind; [split; [done|reflexivity]|].
  rewrite foldl_app. cbn [foldl]. rewrite zlen_app, Z.pow_add_r by (unfold zlen; lia).
  change (256 ^ zlen [b]) with 256. pose proof (byte_val_range b). lia.
Qed.

Lemma hardware_digest_range node_id salt : 0 <= hardware_digest node_id salt <= 0xFFFFFFFF.
Proof.
  unfold hardware_digest. set (l := take 4 _). pose proof (from_bytes_big_range l) as Hr.
  assert (256 ^ zlen l <= 256 ^ 4) as Hp; [|change (256 ^ 4) with 0x100000000 in Hp; lia].
  apply Z.pow_le_mono_r; [lia|]. unfold zlen, l. rewrite length_take. lia.
Qed.

Lemma draw_hardware_id_spec fuel node_id used salt id :
  draw_hardware_id fuel node_id used salt = Some id →
  ∃ k, (k < fuel)%nat ∧ id = hardware_digest node_id (salt + Z.of_nat k) ∧
    hardware_id_free used id = true ∧
    ∀ j, (j < k)%nat → hardware_id_free used (hardware_digest node_id (salt + Z.of_nat j)) = false.
Proof.
  revert salt. induction fuel as [|fuel IH]; intros salt; cbn [draw_hardware_id]; [done|].
  destruct (hardware_id_free used (hardware_digest node_id salt)) eqn:Hf.
  - intros Heq. injection Heq as <-. exists O. change (Z.of_nat 0) with 0. rewrite Z.add_0_r.
    split_and!; [lia|done|done|lia].
  - intros (k & Hk & -> & Hfree & Hj)%IH. exists (S k).
    replace (salt + 1 + Z.of_nat k) with (salt + Z.of_nat (S k)) in * by lia.
    split_and!; [lia|done|done|]. intros [|j] Hlt; [change (Z.of_nat 0) with 0; by rewrite Z.add_0_r|].
    replace (salt + Z.of_nat (S j)) with (salt + 1 + Z.of_nat j) by lia. apply Hj. lia.
Qed.

(** The loop ends as soon as the salts give more values than are excluded. *)
Lemma draw_hardware_id_ends fuel node_id used :
  (set_size used + 2 < set_size (hardware_digest node_id <$> seqZ 0 (Z.of_nat fuel)))%nat →
  is_Some (draw_hardware_id fuel node_id used 0).
Proof.
  intros Hsize.
  assert (∀ salt, draw_hardware_id fuel node_id used salt = None →
    ∀ j, (j < fuel)%nat → hardware_id_free used (hardware_digest node_id (salt + Z.of_nat j)) = false) as Hnone.
  { clear. induction fuel as [|fuel IH]; intros salt; cbn [draw_hardware_id]; [lia|].
    destruct (hardware_id_free used (hardware_digest node_id salt)) eqn:Hf; [done|]. intros Hn [|j] Hj; [change (Z.of_nat 0) with 0; by rewrite Z.add_0_r|].
    replace (salt + Z.of_nat (S j)) with (salt + 1 + Z.of_nat j) by lia. apply IH; [done|lia]. }
  destruct (draw_hardware_id fuel node_id used 0) eqn:E; [done|]. exfalso.
  specialize (Hnone 0 E).
  assert (set_size (hardware_digest node_id <$> seqZ 0 (Z.of_nat fuel)) <= set_size (0%Z :: 0xFFFFFFFF%Z :: used))%nat as Hle.
  { unfold set_size. apply subseteq_size. intros x. rewrite !elem_of_list_to_set, list_elem_of_fmap.
    intros (j & -> & Hj%elem_of_seqZ). specialize (Hnone (Z.to_nat j) ltac:(lia)).
    replace (0 + Z.of_nat (Z.to_nat j)) with j in Hnone by lia.
    destruct (decide (hardware_digest node_id j ∈ 0 :: 0xFFFFFFFF :: used)) as [|Hnot]; [done|].
    apply not_elem_of_cons in Hnot as [? [? ?]%not_elem_of_cons].
    by rewrite (proj2 (hardware_id_free_spec _ _)) in Hnone. }
  rewrite !set_size_cons in Hle. repeat case_decide; lia.
Qed.

(** The ids assigned so far, and why each is the one its node gets. *)
Definition ids_ok (d : dict string Z) (used : list Z) : Prop :=
  d.*2 = reverse used ∧ NoDup used ∧
  ∀ i n h, d !! i = Some (n, h) →
    0 < h < 0xFFFFFFFF ∧ ∃ salt, 0 <= salt ∧ h = hardware_digest n salt ∧
      ∀ j, 0 <= j < salt →
        hardware_digest n j = 0 ∨ hardware_digest n j = 0xFFFFFFFF ∨ hardware_digest n j ∈ take i d.*2.

Lemma assign_hardware_ids_spec fuel l d used d' :
  NoDup (d.*1 ++ l) → ids_ok d used → assign_hardware_ids fuel l d used = Some d' →
  d'.*1 = d.*1 ++ l ∧ ids_ok d' (reverse d'.*2).
Proof.
  revert d used. induction l as [|n l IH]; intros d used Hnd Hok; cbn [assign_hardware_ids].
  { intros Heq. injection Heq as <-. rewrite app_nil_r. split; [done|].
    destruct Hok as (H2 & Hu & Hok). split; [by rewrite reverse_involutive|]. split; [|done].
    by rewrite H2, reverse_involutive. }
  destruct (draw_hardware_id fuel n used 0) as [id|] eqn:Hd; [|done]. cbn [mbind option_bind].
  assert (n ∉ d.*1) as Hn by (apply NoDup_app in Hnd as (_ & H1 & _); intros Hin; apply (H1 n Hin); by left).
  rewrite dset_fresh by done. intros (Hk & Hok')%IH.
  - rewrite fmap_app, <-app_assoc in Hk. done.
  - by rewrite fmap_app, <-app_assoc.
  - destruct Hok as (H2 & Hu & Hi).
    apply draw_hardware_id_spec in Hd as (k & _ & Hid & Hfree & Hj). rewrite Z.add_0_l in Hid.
    apply hardware_id_free_spec in Hfree as (? & ? & Hnew).
    split; [by rewrite fmap_app, H2, reverse_cons|]. split; [by constructor|].
    intros i m h Hl. rewrite fmap_app. apply lookup_app_Some in Hl as [Hl|[Hge Hl]].
    + destruct (Hi i m h Hl) as (? & salt & ? & ? & Hs). split; [done|]. exists salt. split_and!; [done..|].
      intros j Hjs. rewrite take_app_le; [by apply Hs|]. apply lookup_lt_Some in Hl. rewrite length_fmap. lia.
    + apply list_lookup_singleton_Some in Hl as [Hi0 Heq]. injection Heq as <- <-.
      pose proof (hardware_digest_range n (Z.of_nat k)).
      split; [lia|]. exists (Z.of_nat k). split_and!; [lia|done|].
      intros j Hjk. specialize (Hj (Z.to_nat j) ltac:(lia)).
      replace (0 + Z.of_nat (Z.to_nat j)) with j in Hj by lia.
      replace i with (length d.*2) by (rewrite length_fmap; lia). rewrite take_app_length, H2.
      destruct (decide (hardware_digest n j = 0)); [by left|].
      destruct (decide (hardware_digest n j = 0xFFFFFFFF)); [by right; left|].
      right; right. apply elem_of_reverse. destruct (decide (hardware_digest n j ∈ used)) as [|Hnot]; [done|].
      by rewrite (proj2 (hardware_id_free_spec _ _)) in Hj.
Qed.

Lemma assign_hardware_ids_ends fuel l d used :
  (∀ n, n ∈ l → (length used + length l + 2 <
     set_size (hardware_digest n <$> seqZ 0 (Z.of_nat fuel)))%nat) →
  is_Some (assign_hardware_ids fuel l d used).
Proof.
  revert d used. induction l as [|n l IH]; intros d used Hs; cbn [assign_hardware_ids]; [done|].
  destruct (draw_hardware_id_ends fuel n used) as [id ->].
  { pose proof (set_size_le used). specialize (Hs n ltac:(by left)). cbn in Hs. lia. }
  cbn [mbind option_bind]. apply IH. intros m Hm. specialize (Hs m ltac:(by right)). cbn in *. lia.
Qed.

(** C34: every node gets one hardware id, in the range the firmware accepts and its
    own; it is the digest of the node's name with the first salt whose value is not
    excluded or taken by an earlier name, and does not depend on the order of the
    nodes. The search ends once the salts tried give each name enough values. *)
Theorem hardware_ids_correct fuel ids :
  NoDup ids →
  (∀ ids', ids ≡ₚ ids' → hardware_ids_for fuel ids' = hardware_ids_for fuel ids) ∧
  ((∀ n, n ∈ ids → (length ids + 2 < set_size (hardware_digest n <$> seqZ 0 (Z.of_nat fuel)))%nat) →
   is_Some (hardware_ids_for fuel ids)) ∧
  ∀ d, hardware_ids_for fuel ids = Some d →
    d.*1 = str_sorted ids ∧ NoDup d.*2 ∧
    ∀ i n h, d !! i = Some (n, h) →
      0 < h < 0xFFFFFFFF ∧ ∃ salt, 0 <= salt ∧ h = hardware_digest n salt ∧
        ∀ j, 0 <= j < salt →
          hardware_digest n j = 0 ∨ hardware_digest n j = 0xFFFFFFFF ∨ hardware_digest n j ∈ take i d.*2.
Proof.
  intros Hnd. unfold hardware_ids_for. split; [|split].
  - intros ids' Hp. by rewrite (str_sorted_proper ids ids').
  - intros Hs. apply assign_hardware_ids_ends. intros n Hn. rewrite str_sorted_perm in *.
    cbn [length]. by apply Hs.
  - intros d Hd. apply assign_hardware_ids_spec in Hd as (Hk & _ & Hu & Hi).
    + split; [done|]. split; [|done]. by rewrite reverse_Permutation in Hu.
    + cbn. by rewrite str_sorted_perm.
    + split; [done|]. split; [constructor|]. intros i n h Hl. destruct i; discriminate Hl.
Qed.
End hardware.
