(* ===== verification/ProcessLifecycle.v ===== *)
(** * Starting and stopping the firmware processes

    What the supervisor's operations do to each record, and from there what a start,
    a stop and an exit do. *)
From S2P Require Import Prelude PyDict Framing Utf8 ProcessLogs Scenario Processes.

(** What operations do to one record; [stopping] is the supervisor's flag. *)
Inductive rec_step (stopping : bool) (r : ProcessRecord) : ProcessRecord → Prop :=
| rec_drain st d : rec_step stopping r (set_drain st d r)
| rec_exit code : rec_step stopping r (exit_process code r)
| rec_observe p : process r = Some p → returncode p ≠ None → exit_watched r = true →
    rec_step stopping r
      (if stopping then r <| exit_watched := false |>
       else r <| exit_watched := false |> <| pr_state := FAILED |>).

Definition rec_steps (stopping : bool) := rtc (rec_step stopping).

(** Where a record's process lives: fixed when the record is made. *)
Definition place (r : ProcessRecord) : string * Z * Z * string * string * string :=
  (pr_node_id r, hardware_id r, internal_port r, data_directory r, stdout_path r, stderr_path r).

(** A process that was started: it is watched, or was reported as failed. *)
Definition started (r : ProcessRecord) : Prop :=
  ∃ p, process r = Some p ∧
    ((pr_state r = RUNNING ∧ exit_watched r = true) ∨
     (pr_state r = FAILED ∧ exit_watched r = false ∧ returncode p ≠ None)).

(** What no operation of the other tasks changes. *)
Definition fixed (s : Supervisor) :=
  (binary_path s, data_root s, internal_port_base s, log_max_bytes s, archived_logs s, sup_stopping s,
   spawned s, signals s).

Lemma rec_step_place b r r' : rec_step b r r' → place r' = place r.
Proof. destruct 1 as [[] d|code|p]; try done; [|by destruct b]. unfold exit_process. by case_match. Qed.

Lemma rec_step_started r r' : rec_step false r r' → started r → started r'.
Proof.
  intros Hs (p & Hp & Hcase). destruct Hs as [st d|code|q Hq Hr Hw].
  - exists p. by destruct st.
  - unfold exit_process, running. rewrite Hp. case_match eqn:E.
    + exists (p <| returncode := Some code |>). unfold set_field at 1; cbn [process]. rewrite Hp. split; [done|].
      apply bool_decide_eq_true in E. destruct Hcase as [[? ?]|(? & ? & ?)]; [by left|done].
    + by exists p.
  - rewrite Hp in Hq. injection Hq as ->. exists q. split; [done|]. by right.
Qed.

Lemma rec_step_starting r r' :
  rec_step false r r' → process r = None → process r' = None ∧ pr_state r' = pr_state r.
Proof.
  intros Hs Hp. destruct Hs as [st d|code|q Hq]; [by destruct st| |by rewrite Hp in Hq].
  unfold exit_process, running. by rewrite Hp.
Qed.

Lemma rec_steps_place b r r' : rec_steps b r r' → place r' = place r.
Proof. induction 1 as [|r1 r2 r3 Hs _ IH]; [done|]. rewrite IH. by eapply rec_step_place. Qed.

Lemma rec_steps_started r r' : rec_steps false r r' → started r → started r'.
Proof. induction 1; eauto using rec_step_started. Qed.

Lemma rec_steps_starting r r' :
  rec_steps false r r' → process r = None → process r' = None ∧ pr_state r' = pr_state r.
Proof.
  induction 1 as [|r1 r2 r3 Hs _ IH]; [done|]. intros Hp.
  destruct (rec_step_starting _ _ Hs Hp) as [Hp2 <-]. auto.
Qed.

(** Changing one record. *)
Lemma modify_record_spec n f s :
  fixed (modify_record n f s) = fixed s ∧
  (sup_records (modify_record n f s)).*1 = (sup_records s).*1 ∧
  (∀ m, dget m (sup_records (modify_record n f s)) =
    if decide (m = n) then f <$> dget n (sup_records s) else dget m (sup_records s)).
Proof.
  unfold modify_record. destruct (dget n (sup_records s)) as [r|] eqn:E.
  - split; [done|]. unfold set_field; cbn [sup_records]. split; [by apply dset_keys, (dget_key _ r)|].
    intros m. by rewrite dget_dset.
  - split_and!; [done..|]. intros m. by case_decide; subst.
Qed.

Section lifecycle.
Context `{Sha256} {T : Type} (failure_handler : option (string → option Z → T → T)).
Implicit Types (w : Supervisor * T).

(** What a sequence of operations does to the supervisor. *)
Definition evolves w w' : Prop :=
  fixed w'.1 = fixed w.1 ∧ (sup_records w'.1).*1 = (sup_records w.1).*1 ∧
  (∀ n r, dget n (sup_records w.1) = Some r →
    ∃ r', dget n (sup_records w'.1) = Some r' ∧ rec_steps (sup_stopping w.1) r r') ∧
  (sup_stopping w.1 = true → w'.2 = w.2).

Lemma evolves_refl w : evolves w w.
Proof. split_and!; try done. intros n r Hr. by exists r. Qed.

Lemma evolves_trans w1 w2 w3 : evolves w1 w2 → evolves w2 w3 → evolves w1 w3.
Proof.
  intros (Hf & Hk & Hr & Ht) (Hf' & Hk' & Hr' & Ht').
  assert (sup_stopping w2.1 = sup_stopping w1.1) as Hs by (unfold fixed in Hf; congruence).
  rewrite Hs in Hr', Ht'. split_and!; [congruence|congruence| |intros ?; rewrite Ht'; auto].
  intros n r (r2 & Hr2 & H2)%Hr. destruct (Hr' n r2 Hr2) as (r3 & ? & ?). exists r3. split; [done|]. by etrans.
Qed.

(** Changing one record as an operation does. *)
Lemma evolves_modify n f s t t' :
  (∀ r, dget n (sup_records s) = Some r → rec_step (sup_stopping s) r (f r)) →
  (sup_stopping s = true → t' = t) → evolves (s, t) (modify_record n f s, t').
Proof.
  intros Hf Ht. destruct (modify_record_spec n f s) as (H1 & H2 & H3). split_and!; try done.
  intros m r. cbn [fst]. intros Hr. rewrite H3. case_decide; [subst m|by exists r].
  rewrite Hr. exists (f r). split; [done|]. apply rtc_once. auto.
Qed.

Lemma evolves_files s t w' fs : evolves (s <| sup_files := fs |>, t) w' → evolves (s, t) w'.
Proof. done. Qed.

Lemma observe_exit_evolves n w : evolves w (observe_exit failure_handler n w).
Proof.
  unfold observe_exit. destruct (dget n (sup_records w.1)) as [r|] eqn:Hr; [|apply evolves_refl].
  destruct (process r) as [p|] eqn:Hp; [|apply evolves_refl].
  destruct (exit_watched r && _) eqn:Hc; [|apply evolves_refl].
  apply andb_true_iff in Hc as [Hw Hcode%negb_true_iff%bool_decide_eq_false].
  cbv zeta. unfold with_sup; cbn [fst snd].
  destruct (modify_record_spec n (λ r, r <| exit_watched := false |>) w.1) as (Hf & Hk & Hd).
  assert (sup_stopping (modify_record n (λ r, r <| exit_watched := false |>) w.1) = sup_stopping w.1) as Hs
    by (unfold fixed in Hf; congruence).
  rewrite Hs. destruct (sup_stopping w.1) eqn:E.
  - rewrite (surjective_pairing w) at 1. apply evolves_modify; [|done].
    intros r' Hr'. rewrite Hr in Hr'. injection Hr' as <-. rewrite E. by apply (rec_observe true r p).
  - set (s1 := modify_record n (λ r, r <| exit_watched := false |>) w.1) in *.
    destruct (modify_record_spec n (λ r, r <| pr_state := FAILED |>) s1) as (Hf' & Hk' & Hd').
    split_and!; cbn [fst snd]; [congruence|congruence| |by rewrite E].
    intros m r' Hr'. rewrite Hd'. case_decide; [|exists r'; rewrite Hd, decide_False by done; done].
    subst m. rewrite Hr in Hr'. injection Hr' as <-. rewrite Hd, decide_True, Hr by done. eexists. split; [done|].
    apply rtc_once. rewrite E. by apply (rec_observe false r p).
Qed.

Lemma proc_step_evolves op w : evolves w (proc_step failure_handler op w).
Proof.
  destruct op as [n st openable|n st line fault|n code|n]; cbn [proc_step]; [| | |apply observe_exit_evolves];
    destruct w as [s t].
  - unfold with_sup, proc_open. cbn [fst snd]. destruct (dget n (sup_records s)) as [r|] eqn:Hr; [|apply evolves_refl].
    destruct (process r); [|apply evolves_refl]. destruct (stream_drain st r); [apply evolves_refl|].
    destruct (open_drain _ _ _ _) as [d fs]. apply (evolves_files _ _ _ fs).
    apply evolves_modify; [|done].
    intros r' _. constructor.
  - unfold with_sup, proc_line. cbn [fst snd]. destruct (dget n (sup_records s) ≫= stream_drain st) as [d|]; [|apply evolves_refl].
    destruct (drain_line fault line d _) as [d' fs]. apply (evolves_files _ _ _ fs).
    apply evolves_modify; [|done].
    intros r' _. constructor.
  - unfold with_sup. apply evolves_modify; [|done]. intros r' _. constructor.
Qed.

Lemma proc_run_evolves ops w : evolves w (proc_run failure_handler ops w).
Proof.
  unfold proc_run. revert w. induction ops as [|op ops IH]; intros w; [apply evolves_refl|].
  cbn [foldl]. eapply evolves_trans; [apply proc_step_evolves|apply IH].
Qed.
End lifecycle.

(** ** Stopping *)

Lemma dget_map {V W : Type} (f : V → W) (d : dict string V) n :
  dget n ((λ kv, (kv.1, f kv.2)) <$> d) = f <$> dget n d.
Proof. induction d as [|[k v] d IH]; [done|]. cbn. by case_decide. Qed.

(** Every record is stored under its node. *)
Definition keyed (s : Supervisor) : Prop :=
  dict_ok (sup_records s) ∧ ∀ n r, dget n (sup_records s) = Some r → pr_node_id r = n.

Lemma foldl_dset_keys {V : Type} (k : ProcessRecord → string) (v : ProcessRecord → V) l d n :
  n ∉ k <$> l → dget n (foldl (λ d r, dset (k r) (v r) d) d l) = dget n d.
Proof.
  revert d. induction l as [|r l IH]; intros d Hn; [done|]. cbn [foldl]. cbn in Hn.
  apply not_elem_of_cons in Hn as [? ?]. by rewrite IH, dget_dset_ne.
Qed.

Lemma foldl_dset_in {V : Type} (k : ProcessRecord → string) (v : ProcessRecord → V) l d r :
  NoDup (k <$> l) → r ∈ l → dget (k r) (foldl (λ d r, dset (k r) (v r) d) d l) = Some (v r).
Proof.
  revert d. induction l as [|r0 l IH]; intros d Hnd Hr; [by apply elem_of_nil in Hr|].
  cbn [foldl]. cbn in Hnd. apply NoDup_cons in Hnd as [Hn Hnd]. apply elem_of_cons in Hr as [->|Hr].
  - by rewrite foldl_dset_keys, dget_dset_eq.
  - auto.
Qed.

Lemma keyed_nodes s : keyed s → pr_node_id <$> (sup_records s).*2 = (sup_records s).*1.
Proof.
  intros [Hd Hk]. rewrite <-list_fmap_compose. apply list_fmap_ext. intros i [n r] Hi. cbn.
  apply Hk, dget_Some; [done|]. by eapply list_elem_of_lookup_2.
Qed.

Lemma archive_logs_get s n r :
  keyed s → dget n (sup_records s) = Some r →
  dget n (archived_logs (archive_logs s)) = Some (mkArchive (stream_lines STDOUT r) (stream_lines STDERR r)).
Proof.
  intros Hs Hr. pose proof Hs as [Hd Hk]. unfold archive_logs, set_field; cbn [archived_logs].
  rewrite <-(Hk n r Hr). apply (foldl_dset_in pr_node_id (λ r, mkArchive (stream_lines STDOUT r) (stream_lines STDERR r))).
  - rewrite keyed_nodes by done. apply Hd.
  - apply list_elem_of_fmap. exists (n, r). split; [done|]. by apply dget_elem.
Qed.

Lemma fixed_inv s s' : fixed s' = fixed s →
  archived_logs s' = archived_logs s ∧ sup_stopping s' = sup_stopping s ∧ spawned s' = spawned s ∧
  signals s' = signals s.
Proof. unfold fixed. intros Hf. split_and!; congruence. Qed.

Lemma fixed_config s s' : fixed s' = fixed s →
  binary_path s' = binary_path s ∧ data_root s' = data_root s ∧ internal_port_base s' = internal_port_base s.
Proof. unfold fixed. intros Hf. split_and!; congruence. Qed.

Section stopping.
Context `{Sha256} {T : Type} (failure_handler : option (string → option Z → T → T)).
Implicit Types (w : Supervisor * T).

Lemma evolves_keyed w w' : evolves w w' → keyed w.1 → keyed w'.1.
Proof.
  intros (_ & Hk & Hr & _) [Hd Hn]. split; [unfold dict_ok; by rewrite Hk|].
  intros n r' Hr'. assert (is_Some (dget n (sup_records w.1))) as [r Hr0].
  { apply dget_is_Some. rewrite <-Hk. by eapply dget_key. }
  destruct (Hr n r Hr0) as (r2 & Hr2 & Hs). rewrite Hr' in Hr2. injection Hr2 as <-.
  apply rec_steps_place in Hs. rewrite <-(Hn n r Hr0). unfold place in Hs. congruence.
Qed.

Definition op_node (op : proc_op) : string :=
  match op with POpen n _ _ | PLine n _ _ _ | PExit n _ | PObserve n => n end.

(** A process that no operation ends still runs, as the same process. *)
Lemma proc_step_running op w n r p :
  dget n (sup_records w.1) = Some r → process r = Some p → returncode p = None →
  (∀ code, op ≠ PExit n code) →
  ∃ r', dget n (sup_records (proc_step failure_handler op w).1) = Some r' ∧ process r' = Some p.
Proof.
  intros Hr Hp Hc Hop. destruct op as [m st o|m st line fault|m code|m]; cbn [proc_step with_sup fst].
  - unfold proc_open. destruct (dget m _) as [rm|] eqn:Hm; [|by exists r].
    destruct (process rm); [|by exists r]. destruct (stream_drain st rm); [by exists r|].
    destruct (open_drain _ _ _ _) as [d fs].
    destruct (modify_record_spec m (set_drain st d) (w.1 <| sup_files := fs |>)) as (_ & _ & ->).
    cbn [sup_records]. change (sup_records (w.1 <| sup_files := fs |>)) with (sup_records w.1).
    case_decide; [subst m|by exists r]. rewrite Hr. eexists. split; [done|]. by destruct st.
  - unfold proc_line. destruct (dget m _ ≫= _) as [d|]; [|by exists r]. destruct (drain_line _ _ _ _) as [d' fs].
    destruct (modify_record_spec m (set_drain st d') (w.1 <| sup_files := fs |>)) as (_ & _ & ->).
    change (sup_records (w.1 <| sup_files := fs |>)) with (sup_records w.1).
    case_decide; [subst m|by exists r]. rewrite Hr. eexists. split; [done|]. by destruct st.
  - destruct (modify_record_spec m (exit_process code) w.1) as (_ & _ & ->).
    case_decide; [subst m; by destruct (Hop code)|by exists r].
  - unfold observe_exit. destruct (decide (m = n)) as [->|Hne].
    + rewrite Hr, Hp, Hc. rewrite bool_decide_true by done. cbn [negb]. rewrite andb_false_r. by exists r.
    + destruct (dget m _) as [rm|]; [|by exists r]. destruct (process rm) as [q|]; [|by exists r].
      destruct (_ && _); [|by exists r]. cbv zeta. unfold with_sup; cbn [fst snd].
      destruct (modify_record_spec m (λ r, r <| exit_watched := false |>) w.1) as (_ & _ & Hd).
      case_match; cbn [fst]; [by exists r; rewrite Hd, decide_False|].
      match goal with |- context [modify_record m ?f ?s] => destruct (modify_record_spec m f s) as (_ & _ & ->) end.
      exists r. by rewrite decide_False, Hd, decide_False.
Qed.

Lemma proc_run_running ops w n r p :
  dget n (sup_records w.1) = Some r → process r = Some p → returncode p = None →
  (∀ code, PExit n code ∉ ops) →
  ∃ r', dget n (sup_records (proc_run failure_handler ops w).1) = Some r' ∧ process r' = Some p.
Proof.
  unfold proc_run. revert w r. induction ops as [|op ops IH]; intros w r Hr Hp Hc Hops; [by exists r|].
  cbn [foldl]. destruct (proc_step_running op w n r p) as (r' & ? & ?); [done..| |].
  - intros code ->. apply (Hops code). by left.
  - eapply IH; [done..|]. intros code Hin. apply (Hops code). by right.
Qed.

Lemma proc_step_other op w n :
  op_node op ≠ n → dget n (sup_records (proc_step failure_handler op w).1) = dget n (sup_records w.1).
Proof.
  intros Hop. destruct op as [m st o|m st line fault|m code|m]; cbn [proc_step with_sup fst op_node] in *.
  - unfold proc_open. destruct (dget m _) as [rm|] eqn:Hm; [|done].
    destruct (process rm); [|done]. destruct (stream_drain st rm); [done|].
    destruct (open_drain _ _ _ _) as [d fs].
    destruct (modify_record_spec m (set_drain st d) (w.1 <| sup_files := fs |>)) as (_ & _ & ->).
    by rewrite decide_False.
  - unfold proc_line. destruct (dget m _ ≫= _) as [d|]; [|done]. destruct (drain_line _ _ _ _) as [d' fs].
    destruct (modify_record_spec m (set_drain st d') (w.1 <| sup_files := fs |>)) as (_ & _ & ->).
    by rewrite decide_False.
  - destruct (modify_record_spec m (exit_process code) w.1) as (_ & _ & ->). by rewrite decide_False.
  - unfold observe_exit. destruct (dget m _) as [rm|]; [|done]. destruct (process rm) as [q|]; [|done].
    destruct (_ && _); [|done]. cbv zeta. unfold with_sup; cbn [fst snd].
    destruct (modify_record_spec m (λ r, r <| exit_watched := false |>) w.1) as (_ & _ & Hd).
    case_match; cbn [fst]; [by rewrite Hd, decide_False|].
    match goal with |- context [modify_record m ?f ?s] => destruct (modify_record_spec m f s) as (_ & _ & ->) end.
    by rewrite decide_False, Hd, decide_False.
Qed.

Lemma proc_run_other ops w n :
  (∀ op, op ∈ ops → op_node op ≠ n) →
  dget n (sup_records (proc_run failure_handler ops w).1) = dget n (sup_records w.1).
Proof.
  unfold proc_run. revert w. induction ops as [|op ops IH]; intros w Hops; [done|]. cbn [foldl].
  rewrite IH; [apply proc_step_other, Hops; by left|]. intros o Ho. apply Hops. by right.
Qed.

Lemma signal_running_in sig s n r p :
  dget n (sup_records s) = Some r → process r = Some p → returncode p = None →
  (pid p, sig) ∈ signal_running sig s.
Proof.
  intros Hr Hp Hc. unfold signal_running. apply list_elem_of_bind. exists r. split.
  - unfold running. rewrite Hp, bool_decide_true by done. by left.
  - apply list_elem_of_fmap. exists (n, r). split; [done|]. by apply dget_elem.
Qed.

Lemma map_records_get f s n : dget n (sup_records (map_records f s)) = f <$> dget n (sup_records s).
Proof. apply dget_map. Qed.

Lemma map_records_keyed f s : (∀ r, place (f r) = place r) → keyed s → keyed (map_records f s).
Proof.
  intros Hf [Hd Hk]. split.
  - unfold dict_ok, map_records, set_field; cbn [sup_records]. by rewrite <-list_fmap_compose.
  - intros n r. rewrite map_records_get. destruct (dget n (sup_records s)) as [r0|] eqn:Hr; [|done].
    intros [= <-]. rewrite <-(Hk n r0 Hr). specialize (Hf r0). unfold place in Hf. congruence.
Qed.

Lemma terminate_place r : place (terminate_record r) = place r.
Proof. unfold terminate_record. by case_match. Qed.

Lemma kill_place r : place (kill_record r) = place r.
Proof. unfold kill_record, exit_process. by case_match. Qed.

Lemma terminate_drains r : stream_drain STDOUT (terminate_record r) = stream_drain STDOUT r ∧
  stream_drain STDERR (terminate_record r) = stream_drain STDERR r ∧ process (terminate_record r) = process r.
Proof. unfold terminate_record. by case_match. Qed.

Lemma kill_drains r : stream_drain STDOUT (kill_record r) = stream_drain STDOUT r ∧
  stream_drain STDERR (kill_record r) = stream_drain STDERR r.
Proof. unfold kill_record, exit_process. by case_match. Qed.

(** The records and the signals while [stop_unlocked] waits. *)
Definition stop_waits (exiting draining : list proc_op) (w : Supervisor * T) : Supervisor * T :=
  let w := with_sup (λ s, s <| sup_stopping := true |> <| signals ::= λ l, l ++ signal_running SIGTERM s |>) w in
  let w := with_sup (map_records terminate_record) w in
  let w := proc_run failure_handler exiting w in
  let w := with_sup (λ s, s <| signals ::= λ l, l ++ signal_running SIGKILL s |>) w in
  let w := with_sup (map_records kill_record) w in
  proc_run failure_handler draining w.

Lemma stop_unlocked_waits exiting draining w :
  sup_records w.1 ≠ [] →
  stop_unlocked failure_handler exiting draining w =
    with_sup (λ s, (archive_logs s) <| sup_records := [] |> <| sup_stopping := false |>)
      (stop_waits exiting draining w).
Proof. intros Hne. unfold stop_unlocked. by destruct (sup_records w.1). Qed.

Lemma stop_waits_spec exiting draining w :
  keyed w.1 →
  let w' := stop_waits exiting draining w in
  w'.2 = w.2 ∧ keyed w'.1 ∧ (sup_records w'.1).*1 = (sup_records w.1).*1 ∧ spawned w'.1 = spawned w.1 ∧
  (∀ n r p, dget n (sup_records w.1) = Some r → process r = Some p → returncode p = None →
    (pid p, SIGTERM) ∈ signals w'.1 ∧
    ((∀ code, PExit n code ∉ exiting) → (pid p, SIGKILL) ∈ signals w'.1)) ∧
  (∀ n r, dget n (sup_records w.1) = Some r → (∀ op, op ∈ exiting ++ draining → op_node op ≠ n) →
    ∃ r', dget n (sup_records w'.1) = Some r' ∧ stream_lines STDOUT r' = stream_lines STDOUT r ∧
      stream_lines STDERR r' = stream_lines STDERR r).
Proof.
  intros Hk. unfold stop_waits.
  set (w2 := with_sup (map_records terminate_record) _).
  assert (keyed w2.1) as K2 by (apply map_records_keyed; [apply terminate_place|exact Hk]).
  pose proof (proc_run_evolves failure_handler exiting w2) as E3. set (w3 := proc_run _ exiting w2) in *.
  set (w5 := with_sup (map_records kill_record) _).
  assert (keyed w3.1) as K3 by by eapply evolves_keyed.
  assert (keyed w5.1) as K5 by (apply map_records_keyed; [apply kill_place|exact K3]).
  pose proof (proc_run_evolves failure_handler draining w5) as E6. set (w6 := proc_run _ draining w5) in *.
  assert (keyed w6.1) as K6 by by eapply evolves_keyed.
  destruct E3 as (F3 & D3 & _ & T3), E6 as (F6 & D6 & _ & T6).
  assert (sup_stopping w3.1 = true ∧ signals w3.1 = signals w.1 ++ signal_running SIGTERM w.1 ∧
    spawned w3.1 = spawned w.1) as (S3 & G3 & P3).
  { destruct (fixed_inv _ _ F3) as (_ & -> & -> & ->). done. }
  assert (sup_stopping w6.1 = true ∧ spawned w6.1 = spawned w.1 ∧
    signals w6.1 = (signals w.1 ++ signal_running SIGTERM w.1) ++ signal_running SIGKILL w3.1) as (S6 & P6 & G6).
  { destruct (fixed_inv _ _ F6) as (_ & -> & -> & ->). rewrite <-G3, <-P3, <-S3. done. }
  cbv zeta. split; [rewrite T6 by done; unfold w5, with_sup; cbn [snd]; by rewrite T3|].
  split; [done|]. split.
  { rewrite D6. unfold w5, map_records, with_sup, set_field; cbn [fst sup_records].
    rewrite <-list_fmap_compose. change ((sup_records w3.1).*1 = (sup_records w.1).*1).
    rewrite D3. unfold w2, map_records, with_sup, set_field; cbn [fst sup_records].
    by rewrite <-list_fmap_compose. }
  split; [done|]. split.
  - intros n r p Hr Hp Hc. rewrite G6. split.
    + apply elem_of_app. left. apply elem_of_app. right. by eapply signal_running_in.
    + intros Hno. apply elem_of_app. right.
      destruct (proc_run_running exiting w2 n (terminate_record r) p) as (r' & Hr' & Hp'); [| |done..|].
      * unfold w2. cbn [with_sup fst]. rewrite map_records_get.
        change (sup_records _) with (sup_records w.1). by rewrite Hr.
      * by destruct (terminate_drains r) as (_ & _ & ->).
      * by eapply signal_running_in.
  - intros n r Hr Hops. unfold w6. rewrite proc_run_other by (intros op Ho; apply Hops, elem_of_app; by right).
    unfold w5. cbn [with_sup fst]. rewrite map_records_get. change (sup_records _) with (sup_records w3.1).
    unfold w3. rewrite proc_run_other by (intros op Ho; apply Hops, elem_of_app; by left).
    unfold w2. cbn [with_sup fst]. rewrite map_records_get. change (sup_records _) with (sup_records w.1).
    rewrite Hr. eexists. split; [done|]. unfold stream_lines.
    destruct (kill_drains (terminate_record r)) as [-> ->]. by destruct (terminate_drains r) as (-> & -> & _).
Qed.
End stopping.

(** ** Starting *)

Section starting.
Context `{Sha256} {T : Type} (failure_handler : option (string → option Z → T → T)).
Implicit Types (w : Supervisor * T).

(** A node's process, started at its place. *)
Definition placed (s0 : Supervisor) (ids : dict string Z) (s : Supervisor) (index : Z) (n : string) : Prop :=
  ∃ hw r, dget n ids = Some hw ∧ dget n (sup_records s) = Some r ∧ started r ∧
    place r = place (record_for s0 n index hw).

(** The command that starts a numbered node. *)
Definition node_command (s0 : Supervisor) (erase : bool) (ids : dict string Z) (ln : Z * string)
    : list string :=
  command (binary_path s0) erase (record_for s0 ln.2 ln.1 (default 0 (dget ln.2 ids))).

Lemma placed_evolves s0 ids w w' index n :
  evolves w w' → sup_stopping w.1 = false → placed s0 ids w.1 index n → placed s0 ids w'.1 index n.
Proof.
  intros (_ & _ & Hr & _) Hs (hw & r & ? & Hr0 & ? & Hp). destruct (Hr n r Hr0) as (r' & ? & Hsteps).
  rewrite Hs in Hsteps. exists hw, r'. split_and!; [done|done|by eapply rec_steps_started|].
  by rewrite (rec_steps_place _ _ _ Hsteps).
Qed.

Lemma place_data_root s0 s n index hw :
  data_root s = data_root s0 → internal_port_base s = internal_port_base s0 →
  record_for s n index hw = record_for s0 n index hw.
Proof. unfold record_for. by intros -> ->. Qed.

(** What starting node [n] leaves alone: everything but [n]'s record, the files and
    the commands spawned. *)
Definition beside (n : string) w w' : Prop :=
  (sup_records w'.1).*1 = (sup_records w.1).*1 ∧
  (binary_path w'.1, data_root w'.1, internal_port_base w'.1, archived_logs w'.1, sup_stopping w'.1,
    signals w'.1) = (binary_path w.1, data_root w.1, internal_port_base w.1, archived_logs w.1,
    sup_stopping w.1, signals w.1) ∧
  ∀ m r, m ≠ n → dget m (sup_records w.1) = Some r →
    ∃ r', dget m (sup_records w'.1) = Some r' ∧ rec_steps (sup_stopping w.1) r r'.

Lemma beside_refl n w : beside n w w.
Proof. split_and!; try done. intros m r _ Hr. by exists r. Qed.

Lemma beside_trans n w1 w2 w3 : beside n w1 w2 → beside n w2 w3 → beside n w1 w3.
Proof.
  intros (Hk & Hf & Hr) (Hk' & Hf' & Hr'). split_and!; [congruence|congruence|].
  assert (sup_stopping w2.1 = sup_stopping w1.1) as Hs by congruence. rewrite Hs in Hr'.
  intros m r Hm (r2 & Hr2 & H2)%Hr; [|done]. destruct (Hr' m r2 Hm Hr2) as (r3 & ? & ?).
  exists r3. split; [done|]. by etrans.
Qed.

Lemma beside_evolves n w w' : evolves w w' → beside n w w'.
Proof. intros (Hf & Hk & Hr & _). split_and!; [done|unfold fixed in Hf; congruence|]. intros m r _. apply Hr. Qed.

Lemma beside_modify n f s t : beside n (s, t) (modify_record n f s, t).
Proof.
  destruct (modify_record_spec n f s) as (Hf & Hk & Hd). split_and!; [done|unfold fixed in Hf; cbn; congruence|].
  intros m r Hm Hr. exists r. cbn [fst]. by rewrite Hd, decide_False.
Qed.

(** Starting one node whose record was just made. *)
Lemma start_one_spec erase n sp s t r :
  dget n (sup_records s) = Some r → process r = None → sup_stopping s = false →
  let '(w', res) := start_one failure_handler erase n sp (s, t) in
  beside n (s, t) w' ∧
  (res = Ok tt → spawned w'.1 = spawned s ++ [command (binary_path s) erase r] ∧
     ∃ r', dget n (sup_records w'.1) = Some r' ∧ started r' ∧ place r' = place r) ∧
  ∃ r', dget n (sup_records w'.1) = Some r' ∧ place r' = place r.
Proof.
  intros Hr Hp Hs. unfold start_one. cbn [fst]. rewrite Hr.
  set (w0 := if erase then _ else (s, t)).
  assert (∃ fs, w0 = (s <| sup_files := fs |>, t)) as [fs ->].
  { unfold w0. destruct erase; [by eexists|]. exists (sup_files s). by destruct s. }
  set (s0 := s <| sup_files := fs |>).
  assert (beside n (s, t) (s0, t)) as B0 by apply (beside_refl n (s, t)).
  destruct (sp_prepare sp) as [[]|e]; [|split; [done|split; [done|by exists r]]].
  set (f1 := λ r : ProcessRecord, r <| pr_state := STARTING |>).
  set (s1 := modify_record n f1 s0).
  set (s2 := s1 <| spawned ::= λ l, l ++ [command (binary_path s1) erase r] |>).
  change (proc_run failure_handler (sp_meanwhile sp) _) with (proc_run failure_handler (sp_meanwhile sp) (s2, t)).
  assert (dget n (sup_records s2) = Some (f1 r)) as Hr2.
  { change (sup_records s2) with (sup_records s1). unfold s1.
    destruct (modify_record_spec n f1 s0) as (_ & _ & ->). rewrite decide_True by done.
    change (sup_records s0) with (sup_records s). by rewrite Hr. }
  assert (beside n (s0, t) (s2, t)) as B2 by exact (beside_modify n f1 s0 t).
  assert (spawned s2 = spawned s ++ [command (binary_path s) erase r]) as P2.
  { unfold s2, set_field; cbn [spawned].
    destruct (modify_record_spec n f1 s0) as (Hf & _). fold s1 in Hf.
    destruct (fixed_inv _ _ Hf) as (_ & _ & -> & _), (fixed_config _ _ Hf) as (-> & _). done. }
  assert (sup_stopping s2 = false) as S2.
  { change (sup_stopping s2) with (sup_stopping s1).
    destruct (fixed_inv s0 s1) as (_ & -> & _); [by apply modify_record_spec|done]. }
  pose proof (proc_run_evolves failure_handler (sp_meanwhile sp) (s2, t)) as E3.
  destruct (proc_run failure_handler (sp_meanwhile sp) (s2, t)) as [s3 t3].
  pose proof (beside_trans n _ _ _ B0 (beside_trans n _ _ _ B2 (beside_evolves n _ _ E3))) as B3.
  destruct E3 as (F3 & _ & R3 & _). destruct (R3 n _ Hr2) as (r3 & Hr3 & Hsteps). cbn [fst] in *.
  rewrite S2 in Hsteps. pose proof (rec_steps_place _ _ _ Hsteps) as Hplace.
  change (place r3 = place r) in Hplace. destruct (fixed_inv _ _ F3) as (_ & _ & P3 & _). rewrite P2 in P3.
  destruct (sp_process sp) as [[new_pid captured]|e]; [|split; [done|split; [done|by exists r3]]].
  unfold with_sup; cbn [fst snd]. set (f4 := λ r, r <| process := Some (mkProcess new_pid None) |>).
  destruct (modify_record_spec n f4 s3) as (F4 & _ & D4).
  pose proof (beside_trans n _ _ _ B3 (beside_modify n f4 s3 t3)) as B4. set (s4 := modify_record n f4 s3) in *.
  assert (dget n (sup_records s4) = Some (f4 r3)) as Hr4 by by rewrite D4, decide_True, Hr3.
  destruct captured; cbn [negb]; [|split; [done|split; [done|by exists (f4 r3)]]].
  set (f5 := λ r, r <| pr_state := RUNNING |> <| exit_watched := true |>).
  destruct (modify_record_spec n f5 s4) as (F5 & _ & D5).
  pose proof (beside_trans n _ _ _ B4 (beside_modify n f5 s4 t3)) as B5. cbn [fst].
  assert (dget n (sup_records (modify_record n f5 s4)) = Some (f5 (f4 r3))) as Hr5
    by by rewrite D5, decide_True, Hr4.
  split; [done|]. split; [|by exists (f5 (f4 r3))]. intros _.
  destruct (fixed_inv _ _ F4) as (_ & _ & P4 & _), (fixed_inv _ _ F5) as (_ & _ & P5 & _).
  split; [congruence|]. exists (f5 (f4 r3)). split_and!; [done| |done].
  exists (mkProcess new_pid None). split; [done|by left].
Qed.

Lemma beside_inv n w w' : beside n w w' →
  (sup_records w'.1).*1 = (sup_records w.1).*1 ∧ binary_path w'.1 = binary_path w.1 ∧
  data_root w'.1 = data_root w.1 ∧ internal_port_base w'.1 = internal_port_base w.1 ∧
  archived_logs w'.1 = archived_logs w.1 ∧ sup_stopping w'.1 = sup_stopping w.1 ∧ signals w'.1 = signals w.1.
Proof. intros (Hk & Hf & _). split_and!; congruence. Qed.

Lemma keyed_beside n r w w' :
  beside n w w' → keyed w.1 → dget n (sup_records w.1) = Some r →
  (∃ r', dget n (sup_records w'.1) = Some r' ∧ place r' = place r) → keyed w'.1.
Proof.
  intros (Hk & _ & Hrec) [Hd Hn] Hr (r' & Hr' & Hp). split; [unfold dict_ok; by rewrite Hk|].
  intros m rm Hm. destruct (decide (m = n)) as [->|Hne].
  - rewrite Hr' in Hm. injection Hm as <-. rewrite <-(Hn n r Hr). unfold place in Hp. congruence.
  - assert (is_Some (dget m (sup_records w.1))) as [r0 Hr0].
    { apply dget_is_Some. rewrite <-Hk. by eapply dget_key. }
    destruct (Hrec m r0 Hne Hr0) as (r1 & Hr1 & Hs%rec_steps_place). rewrite Hr1 in Hm. injection Hm as <-.
    rewrite <-(Hn m r0 Hr0). unfold place in Hs. congruence.
Qed.

(** Every node of the loop ends up placed, and those placed before stay so. *)
Lemma start_nodes_spec erase ids spawn l s0 w :
  NoDup ((sup_records w.1).*1 ++ l.*2) → sup_stopping w.1 = false → keyed w.1 →
  data_root w.1 = data_root s0 → internal_port_base w.1 = internal_port_base s0 →
  binary_path w.1 = binary_path s0 →
  let '(w', res) := start_nodes failure_handler erase ids spawn l w in
  keyed w'.1 ∧ sup_stopping w'.1 = false ∧ archived_logs w'.1 = archived_logs w.1 ∧
  signals w'.1 = signals w.1 ∧
  (res = Ok tt →
    (sup_records w'.1).*1 = (sup_records w.1).*1 ++ l.*2 ∧
    (∀ index n, placed s0 ids w.1 index n → placed s0 ids w'.1 index n) ∧
    (∀ index n, (index, n) ∈ l → placed s0 ids w'.1 index n) ∧
    spawned w'.1 = spawned w.1 ++ (node_command s0 erase ids <$> l)).
Proof.
  revert w. induction l as [|[index n] l IH]; intros w Hnd Hs Hk Hroot Hbase Hbin; cbn [start_nodes].
  { split_and!; try done. intros _. split_and!; [by rewrite app_nil_r|done| |].
    - by intros ?? ?%elem_of_nil.
    - by rewrite app_nil_r. }
  destruct (dget n ids) as [hw|] eqn:Hid; [|by split_and!].
  destruct w as [s t]. unfold with_sup; cbn [fst snd] in *.
  set (r := record_for s n index hw).
  assert (n ∉ (sup_records s).*1) as Hn.
  { cbn in Hnd. apply NoDup_app in Hnd as (_ & Hdis & _). intros Hin. apply (Hdis n Hin). by left. }
  set (s1 := s <| sup_records ::= dset n r |>).
  assert (sup_records s1 = sup_records s ++ [(n, r)]) as R1 by by apply dset_fresh.
  assert (keyed s1) as K1.
  { destruct Hk as [Hd Hn']. split; [apply dict_ok_dset, Hd|]. intros m r'. unfold s1, set_field; cbn [sup_records].
    rewrite dget_dset. case_decide; [intros [= <-]; by subst|]. apply Hn'. }
  pose proof (start_one_spec erase n (spawn index) s1 t r) as Hone.
  destruct (start_one failure_handler erase n (spawn index) (s1, t)) as [w2 [[]|e]] eqn:E2.
  all: destruct Hone as (B & Hok & Hex); [unfold s1, set_field; cbn [sup_records]; apply dget_dset_eq|done|done|].
  all: pose proof (keyed_beside n r (s1, t) w2 B K1 ltac:(apply dget_dset_eq) Hex) as K2.
  all: destruct (beside_inv _ _ _ B) as (Bk & Bbin & Broot & Bbase & Bar & Bst & Bsig); cbn [fst] in *.
  2: { split_and!; try done. by rewrite Bst. }
  specialize (IH w2). rewrite Bk, R1, fmap_app, <-app_assoc in IH.
  change (data_root s1) with (data_root s) in Broot. change (internal_port_base s1) with (internal_port_base s) in Bbase.
  change (binary_path s1) with (binary_path s) in Bbin. change (sup_stopping s1) with (sup_stopping s) in Bst.
  specialize (IH Hnd ltac:(congruence) K2 ltac:(congruence) ltac:(congruence) ltac:(congruence)).
  destruct (start_nodes failure_handler erase ids spawn l w2) as [w3 res].
  destruct IH as (K3 & S3 & A3 & G3 & H3). split_and!; [done|done|by rewrite A3, Bar|by rewrite G3, Bsig|].
  intros Hres. destruct (H3 Hres) as (Hkeys & Hold & Hnew & Hsp).
  destruct (Hok eq_refl) as (Hspn & r' & Hr' & Hst' & Hpl').
  assert (r = record_for s0 n index hw) as Hr0 by by apply place_data_root.
  split_and!; [by rewrite Hkeys, <-?app_assoc| | |].
  - intros i m Hm. apply Hold. destruct Hm as (hw' & rm & Hhw & Hrm & Hstm & Hplm).
    assert (m ≠ n) as Hmn by (intros ->; apply Hn; by eapply dget_key).
    destruct B as (_ & _ & Brec). destruct (Brec m rm Hmn) as (rm' & Hrm' & Hsteps).
    { cbn [fst]. unfold s1, set_field; cbn [sup_records]. by rewrite dget_dset_ne. }
    cbn [fst] in Hsteps. change (sup_stopping s1) with (sup_stopping s) in Hsteps. rewrite Hs in Hsteps.
    exists hw', rm'. split_and!; [done|done|by eapply rec_steps_started|].
    by rewrite (rec_steps_place _ _ _ Hsteps).
  - intros i m [Heq|Hin]%elem_of_cons; [|by apply Hnew]. injection Heq as -> ->.
    apply Hold. exists hw, r'. split_and!; [done|done|done|]. by rewrite Hpl', Hr0.
  - rewrite Hsp, Hspn, <-app_assoc. cbn [fmap list_fmap app]. unfold node_command at 2. cbn [fst snd].
    rewrite Hid, Hr0. change (binary_path s1) with (binary_path s). by rewrite Hbin.
Qed.

Lemma stop_unlocked_spec exiting draining w :
  keyed w.1 →
  let w' := stop_unlocked failure_handler exiting draining w in
  sup_records w'.1 = [] ∧ w'.2 = w.2 ∧
  (∀ n r p, dget n (sup_records w.1) = Some r → process r = Some p → returncode p = None →
    (pid p, SIGTERM) ∈ signals w'.1 ∧
    ((∀ code, PExit n code ∉ exiting) → (pid p, SIGKILL) ∈ signals w'.1)) ∧
  (∀ n r, dget n (sup_records w.1) = Some r →
    has_logs n w'.1 = true ∧
    ((∀ op, op ∈ exiting ++ draining → op_node op ≠ n) →
     ∀ st limit, recent_logs n st limit w'.1 = recent_logs n st limit w.1)).
Proof.
  intros Hk. destruct (decide (sup_records w.1 = [])) as [E|E].
  { unfold stop_unlocked. rewrite E. split_and!; done. }
  cbv zeta. rewrite stop_unlocked_waits by done.
  destruct (stop_waits_spec failure_handler exiting draining w Hk) as (Ht & Hk' & Hkeys & _ & Hsig & Hlog).
  set (w' := stop_waits failure_handler exiting draining w) in *. unfold with_sup; cbn [fst snd].
  split_and!; [done|done|exact Hsig|]. intros n r Hr.
  assert (is_Some (dget n (sup_records w'.1))) as [r1 Hr1].
  { apply dget_is_Some. rewrite Hkeys. by eapply dget_key. }
  set (s' := (archive_logs w'.1) <| sup_records := [] |> <| sup_stopping := false |>).
  assert (archived_logs s' = archived_logs (archive_logs w'.1) ∧ sup_records s' = []) as [Harch Hrec] by done.
  clearbody s'. split.
  - unfold has_logs. rewrite Harch. apply orb_true_iff. right. apply dmem_spec.
    rewrite (archive_logs_get _ _ _ Hk' Hr1). by eexists.
  - intros Hops st limit. destruct (Hlog n r Hr Hops) as (r' & Hr' & Ho & He).
    unfold recent_logs. rewrite Hr, Harch, Hrec, (archive_logs_get _ _ _ Hk' Hr'). cbn [dget].
    do 2 f_equal. by destruct st.
Qed.

Lemma start_unlocked_spec fuel env sc w :
  keyed w.1 → NoDup (node_ids sc) →
  match start_unlocked failure_handler fuel env sc w with
  | None => hardware_ids_for fuel (node_ids sc) = None
  | Some (w', Ok _) =>
    sup_records w.1 = [] ∧ keyed w'.1 ∧ sup_stopping w'.1 = false ∧ archived_logs w'.1 = [] ∧
    ∃ ids, hardware_ids_for fuel (node_ids sc) = Some ids ∧
      (sup_records w'.1).*1 = node_ids sc ∧
      (∀ i n, node_ids sc !! i = Some n → placed w.1 ids w'.1 (Z.of_nat i) n) ∧
      spawned w'.1 = spawned w.1 ++ (node_command w.1 (fresh_state sc) ids <$> enumerate (node_ids sc))
  | Some (w', Raise e) =>
    (sup_records w.1 ≠ [] ∧ w' = w) ∨
    (sup_records w'.1 = [] ∧ (sup_stopping w.1 = false → sup_stopping w'.1 = false))
  end.
Proof.
  intros Hk Hnd. unfold start_unlocked. destruct (sup_records w.1) as [|kv recs] eqn:E.
  2: { left. split; done. }
  destruct w as [s t]. unfold with_sup; cbn [fst snd] in *.
  destruct (ss_binary_present env); cbn [negb]; [|right; split; done].
  destruct (ss_root env) as [[]|e]; [|right; split; done].
  destruct (hardware_ids_for fuel (node_ids sc)) as [ids|] eqn:Hids; [|done]. cbn [mbind option_bind].
  set (s1 := (clear_archived_logs s) <| sup_stopping := false |>).
  pose proof (start_nodes_spec (fresh_state sc) ids (ss_spawn env) (enumerate (node_ids sc)) s (s1, t)) as Hspec.
  cbn [fst] in Hspec. change (sup_records s1) with (sup_records s) in Hspec. rewrite E in Hspec.
  cbn [fmap list_fmap app] in Hspec. rewrite enumerate_snd in Hspec.
  assert (keyed s1) as K1 by (split; [unfold dict_ok|]; change (sup_records s1) with (sup_records s); rewrite E; [constructor|done]).
  specialize (Hspec Hnd eq_refl K1 eq_refl eq_refl eq_refl).
  destruct (start_nodes _ _ _ _ _ (s1, t)) as [w' [[]|e]]; destruct Hspec as (K' & S' & A' & G' & H').
  - destruct (H' eq_refl) as (Hkeys & _ & Hplaced & Hsp). split_and!; [done..|].
    exists ids. split_and!; [done|done| |done]. intros i n Hi. apply Hplaced, enumerate_elem. by exists i.
  - right. destruct (stop_unlocked_spec (ss_exiting env) (ss_draining env) w' K') as (-> & _). split; [done|].
    intros _. unfold stop_unlocked. destruct (sup_records w'.1) eqn:Er; [done|]. done.
Qed.

End starting.
