(* ===== verification/ProcessExamples.v ===== *)
(** * Worked firmware processes

    A concrete hash and three nodes: the theorems about the processes applied to them. *)
From S2P Require Import Prelude PyDict Framing Utf8 ProcessLogs Scenario Processes ProcessLifecycle.

(** A concrete hash: the last bytes of the text come first. *)
Definition sample_sha256 : Sha256 := λ b, reverse b.

#[local] Existing Instance sample_sha256.

Lemma hardware_ids_correct_witness :
  NoDup ["node-2"; "node-1"]%string ∧
  hardware_ids_for 8 ["node-1"; "node-2"]%string = hardware_ids_for 8 ["node-2"; "node-1"]%string ∧
  is_Some (hardware_ids_for 8 ["node-2"; "node-1"]%string).
Proof.
  assert (NoDup ["node-2"; "node-1"]%string) as Hnd by (apply (bool_decide_unpack _); vm_compute; exact I).
  destruct (hardware_ids_correct 8 ["node-2"; "node-1"]%string Hnd) as (Hp & He & _).
  split; [exact Hnd|]. split.
  - apply Hp. apply Permutation_swap.
  - apply He. intros n Hn.
    assert (Forall (λ n, (2 + 2 < set_size (hardware_digest n <$> seqZ 0 8))%nat) ["node-2"; "node-1"]%string) as Hall
      by (apply (bool_decide_unpack _); vm_compute; exact I).
    rewrite Forall_forall in Hall. exact (Hall n Hn).
Defined.

Definition demo_supervisor : Supervisor :=
  mkSupervisor "/usr/bin/meshtasticd" "/data/nodes" 46001 PERSISTED_LOG_MAX_BYTES [] [] false ∅ [] [].

Definition demo_process_nodes : Scenario :=
  match default_scenario 3 with Ok s => s | Raise _ => mkScenario 1 "" 1 0 default_rf default_channel [] [] true end.

(** Each process starts and is captured; the first then prints a line. *)
Definition demo_supervisor_start : SupervisorStart :=
  mkSupervisorStart true (Ok tt)
    (λ i, mkSpawn (Ok tt)
            (if i =? 1 then [POpen "node-1" STDERR true; PLine "node-1" STDERR [Byte.x61; Byte.x0a] None] else [])
            (Ok (1000 + i, true))) [] [].

