(* ===== verification/Reachability.v ===== *)
(** * Hop-limited reachability ([Scenario.reachable_pairs])

    The breadth-first search of src/backend/app/models/scenario.py, lines
    154-175, with its deque and its visited set. A queue entry is popped at most
    once per push and a node is expanded at most once, so the square of the
    number of nodes bounds the passes ([bfs_terminates]). *)
From Stdlib Require Import Sorting.Sorted.
From S2P Require Import Prelude PyFloat PyDict Scenario.

Abbreviation graph := (gmap string (gset string)).

(** [adjacency]: the targets of each node's enabled links. *)
Definition adjacency (s : Scenario) : res graph :=
  for_each (λ l (adj : graph),
    if enabled l then
      match adj !! from_node l with
      | Some targets => Ok (<[from_node l := {[to_node l]} ∪ targets]> adj)
      | None => Raise (KeyError (from_node l))
      end
    else Ok adj) (links s) (list_to_map ((λ id, (id, ∅)) <$> node_ids s)).

Definition below_max (max_hops : option Z) (hops : Z) : bool :=
  match max_hops with None => true | Some m => hops <? m end.

(** The [while pending] loop for one source. *)
Fixpoint bfs (fuel : nat) (adj : graph) (source : string) (max_hops : option Z)
    (pending : list (string * Z)) (visited : gset string) (reachable : gset (string * string))
    : res (gset (string * string)) :=
  match pending with
  | [] => Ok reachable
  | (target, hops) :: pending =>
    match fuel with
    | O => Raise (RuntimeError "out of fuel")
    | S fuel =>
      if decide (target ∈ visited) then bfs fuel adj source max_hops pending visited reachable
      else
        let visited := {[target]} ∪ visited in
        let reachable := {[(source, target)]} ∪ reachable in
        if below_max max_hops hops then
          match adj !! target with
          | None => Raise (KeyError target)
          | Some neighbors =>
            bfs fuel adj source max_hops
              (pending ++ ((λ n, (n, hops + 1)) <$> elements (neighbors ∖ visited)))
              visited reachable
          end
        else bfs fuel adj source max_hops pending visited reachable
    end
  end.

Definition bfs_from (adj : graph) (max_hops : option Z) (source : string)
    (reachable : gset (string * string)) : res (gset (string * string)) :=
  match adj !! source with
  | None => Raise (KeyError source)
  | Some targets =>
    bfs (size (dom adj) * size (dom adj)) adj source max_hops
      ((λ t, (t, 1)) <$> elements targets) {[source]} reachable
  end.

Definition reachable_pairs (s : Scenario) (max_hops : option Z)
    : res (gset (string * string)) :=
  adj ← adjacency s; for_each (bfs_from adj max_hops) (node_ids s) ∅.

(** ** Specification: walks over enabled links *)

Definition link_on (s : Scenario) (a b : string) : Prop :=
  ∃ l, l ∈ links s ∧ enabled l = true ∧ link_key l = (a, b).

Inductive walk (E : string → string → Prop) : Z → string → string → Prop :=
| walk_nil a : walk E 0 a a
| walk_snoc n a b c : walk E n a b → E b c → walk E (n + 1) a c.

Definition within (max_hops : option Z) (n : Z) : Prop :=
  match max_hops with None => True | Some m => n <= m end.

Lemma walk_nonneg E n a b : walk E n a b → 0 <= n.
Proof. induction 1; lia. Qed.

Lemma within_le mh n k : within mh n → k <= n → within mh k.
Proof. destruct mh; cbn; [lia|done]. Qed.

Lemma below_max_spec mh n : below_max mh n = true ↔ within mh (n + 1).
Proof. destruct mh; cbn; [lia|done]. Qed.

Definition edge (adj : graph) (a b : string) : Prop := ∃ t, adj !! a = Some t ∧ b ∈ t.

(** Every edge stays inside the graph's nodes. *)
Definition closed_graph (adj : graph) : Prop :=
  ∀ a t, adj !! a = Some t → t ⊆ dom adj.

(** ** The search *)
Section search.
Context (adj : graph) (source : string) (mh : option Z) (reach0 : gset (string * string)).
Hypothesis Hclosed : closed_graph adj.
Hypothesis Hone : within mh 1.

(** [d] records the hop count at which each visited node was first popped. *)
Record search_inv (q : list (string * Z)) (d : gmap string Z) (visited : gset string)
    (reach : gset (string * string)) : Prop := mk_search_inv {
  si_dom : visited = dom d;
  si_nodes : visited ⊆ dom adj;
  si_qnodes : ∀ v h, (v, h) ∈ q → v ∈ dom adj;
  si_source : d !! source = Some 0;
  si_dist : ∀ v k, d !! v = Some k → within mh k ∧ walk (edge adj) k source v;
  si_queue : ∀ v h, (v, h) ∈ q → within mh h ∧ walk (edge adj) h source v;
  si_sorted : StronglySorted (λ p p', p.2 <= p'.2) q;
  si_span : ∀ p p', p ∈ q → p' ∈ q → p.2 <= p'.2 + 1;
  si_before : ∀ v k w h, d !! v = Some k → (w, h) ∈ q → k <= h;
  si_closed : ∀ v k w, d !! v = Some k → within mh (k + 1) → edge adj v w →
    (∃ k', d !! w = Some k' ∧ k' <= k + 1) ∨ (w, k + 1) ∈ q;
  si_reach : ∀ p, p ∈ reach ↔ p ∈ reach0 ∨ ∃ v k, p = (source, v) ∧ v ≠ source ∧ d !! v = Some k }.

Lemma StronglySorted_app_bound (q q' : list (string * Z)) b :
  StronglySorted (λ p p', p.2 <= p'.2) q → (∀ p, p ∈ q → p.2 <= b) →
  (∀ p, p ∈ q' → p.2 = b) → StronglySorted (λ p p', p.2 <= p'.2) (q ++ q').
Proof.
  intros Hq Hb Hb'. induction Hq as [|p q Hq IH Hp]; cbn.
  - clear Hb. induction q' as [|p q' IH]; constructor.
    + apply IH. intros; apply Hb'. by constructor.
    + apply Forall_forall. intros p' Hp'. rewrite (Hb' p), (Hb' p'); [lia|by constructor..].
  - constructor; [apply IH; intros; apply Hb; by constructor|].
    apply Forall_app. split; [done|]. apply Forall_forall. intros p' Hp'.
    rewrite (Hb' p') by done. apply Hb. by constructor.
Qed.

(** Popping a node that was already visited. *)
Lemma search_skip t h q d visited reach :
  search_inv ((t, h) :: q) d visited reach → t ∈ visited → search_inv q d visited reach.
Proof.
  intros [] Ht. constructor; [done|done| |done|done| | | | | |done].
  - intros v h' Hin. eapply si_qnodes0. by constructor.
  - intros v h' Hin. apply si_queue0. by constructor.
  - by inversion si_sorted0.
  - intros p p' Hp Hp'. apply si_span0; by constructor.
  - intros v k w h' Hv Hin. eapply si_before0; [done|by constructor].
  - intros v k w Hv Hk Hvw. destruct (si_closed0 v k w Hv Hk Hvw) as [|Hin]; [by left|].
    apply elem_of_cons in Hin as [[= -> <-]|Hin]; [|by right]. left.
    subst visited. apply elem_of_dom in Ht as [kt Hkt]. exists kt. split; [done|].
    eapply si_before0; [done|by constructor].
Qed.

(** Popping a new node and pushing [q'], its unvisited neighbours if allowed. *)
Lemma search_visit t h q q' d visited reach :
  search_inv ((t, h) :: q) d visited reach → t ∉ visited →
  (∀ p, p ∈ q' → p.2 = h + 1 ∧ edge adj t p.1 ∧ within mh (h + 1)) →
  (within mh (h + 1) → ∀ w, edge adj t w → w ∉ {[t]} ∪ visited → (w, h + 1) ∈ q') →
  search_inv (q ++ q') (<[t := h]> d) ({[t]} ∪ visited) ({[(source, t)]} ∪ reach).
Proof.
  intros [] Ht Hq' Hpush.
  assert (d !! t = None) as Hdt by (apply not_elem_of_dom; by subst visited).
  assert (t ≠ source) as Hts by congruence.
  assert (∀ w h', (w, h') ∈ q → h <= h' <= h + 1) as Hspan.
  { intros w h' Hin. split.
    - inversion si_sorted0 as [|?? _ Hall]; subst. rewrite Forall_forall in Hall.
      apply (Hall _ Hin).
    - apply (si_span0 (w, h') (t, h)); by constructor. }
  assert (∀ v k, d !! v = Some k → k <= h) as Hdh
    by (intros v k Hv; eapply si_before0; [done|by constructor]).
  destruct (si_queue0 t h) as [Hwh Hwalk]; [by constructor|].
  assert (∀ w h', (w, h') ∈ q ++ q' → h <= h' <= h + 1) as Hspan'.
  { intros w h' [Hin|Hin]%elem_of_app; [by eapply Hspan|].
    apply Hq' in Hin as (Hin & _). cbn in Hin. lia. }
  constructor.
  - rewrite dom_insert_L. by subst.
  - assert (t ∈ dom adj) by (eapply si_qnodes0; by constructor). set_solver.
  - intros v h' [Hin|Hin]%elem_of_app; [eapply si_qnodes0; by constructor|].
    apply Hq' in Hin as (_ & (tg & Htg & Hin) & _). by apply (Hclosed _ _ Htg).
  - by rewrite lookup_insert_ne.
  - intros v k. rewrite lookup_insert. case_decide; [intros [= <-]; subst; done|by apply si_dist0].
  - intros v h' [Hin|Hin]%elem_of_app; [apply si_queue0; by constructor|].
    apply Hq' in Hin as (Hh & He & Hw). cbn in *. subst h'. split; [done|].
    by apply walk_snoc with t.
  - apply StronglySorted_app_bound with (h + 1); [by inversion si_sorted0| |].
    + intros [w h'] Hin. apply Hspan in Hin. cbn. lia.
    + intros p Hp. by apply Hq' in Hp as [? _].
  - intros [w a] [w' b] Hp Hp'. apply Hspan' in Hp, Hp'. cbn. lia.
  - intros v k w h'. rewrite lookup_insert. intros Hv Hin. apply Hspan' in Hin.
    case_decide; [injection Hv as <-; lia|]. apply Hdh in Hv. lia.
  - intros v k w Hv Hk Hvw. rewrite lookup_insert in Hv. case_decide as Etv.
    + injection Hv as <-. subst v. destruct (decide (w ∈ {[t]} ∪ visited)) as [Hw|Hw].
      * left. rewrite lookup_insert. case_decide; [exists h; split; [done|lia]|].
        assert (w ∈ visited) as Hw' by set_solver. subst visited.
        apply elem_of_dom in Hw' as [k' Hk']. exists k'. split; [done|].
        apply Hdh in Hk'. lia.
      * right. apply elem_of_app. right. by apply Hpush.
    + rewrite lookup_insert. destruct (decide (t = w)) as [->|Hne].
      * left. exists h. split; [done|].
        destruct (si_closed0 v k w Hv Hk Hvw) as [(k' & Hk' & _)|Hin]; [congruence|].
        apply elem_of_cons in Hin as [[= ->]|Hin]; [lia|]. apply Hspan in Hin. lia.
      * destruct (si_closed0 v k w Hv Hk Hvw) as [|Hin]; [by left|]. right.
        apply elem_of_cons in Hin as [[= -> _]|Hin]; [done|]. apply elem_of_app. by left.
  - intros p. rewrite elem_of_union, elem_of_singleton, si_reach0. split.
    + intros [->|[?|(v & k & -> & Hv & Hk)]]; [right|by left|right].
      * exists t, h. by rewrite lookup_insert_eq.
      * exists v, k. rewrite lookup_insert_ne; [done|congruence].
    + intros [?|(v & k & -> & Hv & Hk)]; [naive_solver|].
      rewrite lookup_insert in Hk. case_decide; [left; by subst|]. right. right. by exists v, k.
Qed.

Definition bfs_measure (q : list (string * Z)) (visited : gset string) : nat :=
  length q + size (dom adj) * (size (dom adj) - size visited).

Lemma push_edges t h visited tg :
  adj !! t = Some tg → within mh (h + 1) →
  (∀ p, p ∈ ((λ n, (n, h + 1)) <$> elements (tg ∖ visited)) →
    p.2 = h + 1 ∧ edge adj t p.1 ∧ within mh (h + 1)) ∧
  (∀ w, edge adj t w → w ∉ visited →
    (w, h + 1) ∈ ((λ n, (n, h + 1)) <$> elements (tg ∖ visited))).
Proof.
  intros Ht Hw. split.
  - intros p (w & -> & Hin)%list_elem_of_fmap. apply elem_of_elements in Hin.
    split_and!; [done| |done]. exists tg. set_solver.
  - intros w (tg' & Ht' & Hin) Hv. apply list_elem_of_fmap. exists w. split; [done|].
    apply elem_of_elements. rewrite Ht in Ht'. injection Ht' as <-. set_solver.
Qed.

Lemma measure_visit t q q' visited :
  t ∈ dom adj → visited ⊆ dom adj → t ∉ visited → (length q' <= size (dom adj))%nat →
  (bfs_measure (q ++ q') ({[t]} ∪ visited) < S (bfs_measure q visited))%nat.
Proof.
  intros Hin Hsub Ht Hq'. unfold bfs_measure.
  rewrite length_app, size_union, size_singleton by set_solver.
  assert (size ({[t]} ∪ visited) <= size (dom adj))%nat as Hle
    by (apply subseteq_size; set_solver).
  rewrite size_union, size_singleton in Hle by set_solver. nia.
Qed.

(** With enough fuel the loop ends, in a state with an empty queue. *)
Lemma bfs_terminates fuel q d visited reach :
  search_inv q d visited reach → (bfs_measure q visited <= fuel)%nat →
  ∃ d' visited' reach', bfs fuel adj source mh q visited reach = Ok reach' ∧
    search_inv [] d' visited' reach'.
Proof.
  revert q d visited reach. induction fuel as [|fuel IH]; intros q d visited reach Hinv Hm.
  - destruct q as [|p q]; [by exists d, visited, reach|]. unfold bfs_measure in Hm. cbn in Hm. lia.
  - destruct q as [|[t h] q]; [by exists d, visited, reach|]. cbn [bfs].
    case_decide as Hv.
    { apply (IH _ d); [by eapply search_skip|]. unfold bfs_measure in *. cbn in Hm. lia. }
    assert (t ∈ dom adj) as Ht by (eapply (si_qnodes _ _ _ _ Hinv); by constructor).
    pose proof (si_nodes _ _ _ _ Hinv) as Hsub.
    change (bfs_measure ((t, h) :: q) visited) with (S (bfs_measure q visited)) in Hm.
    destruct (below_max mh h) eqn:Hb.
    + apply below_max_spec in Hb.
      pose proof Ht as [tg Htg]%elem_of_dom. rewrite Htg.
      destruct (push_edges t h ({[t]} ∪ visited) tg Htg Hb) as [Hp1 Hp2].
      apply (IH _ (<[t := h]> d)); [by apply search_visit|].
      apply Nat.lt_succ_r. eapply Nat.lt_le_trans; [|exact Hm].
      apply measure_visit; [done..|]. rewrite length_fmap.
      change (size (tg ∖ ({[t]} ∪ visited)) <= size (dom adj))%nat.
      apply subseteq_size. pose proof (Hclosed _ _ Htg). set_solver.
    + assert (¬ within mh (h + 1)) as Hb' by (rewrite <-below_max_spec; congruence).
      apply (IH _ (<[t := h]> d)).
      * rewrite <-(app_nil_r q). apply search_visit; [done|done|set_solver|naive_solver].
      * apply Nat.lt_succ_r. eapply Nat.lt_le_trans; [|exact Hm].
        rewrite <-(app_nil_r q) at 1. apply measure_visit; [done..|cbn; lia].
Qed.

(** An exhausted search has found every node a short enough walk reaches. *)
Lemma search_complete d visited reach n v :
  search_inv [] d visited reach → walk (edge adj) n source v → within mh n →
  ∃ k, d !! v = Some k ∧ k <= n.
Proof.
  intros Hinv Hw. remember source as a eqn:Ea.
  induction Hw as [a|n a b c Hw IH He]; intros Hn; subst a.
  - exists 0. split; [apply Hinv|lia].
  - destruct IH as (k & Hk & Hkn); [done|apply (within_le _ _ _ Hn); lia|].
    destruct (si_closed _ _ _ _ Hinv b k c Hk) as [(k' & Hk' & Hle)|Hin]; [|done| |].
    + apply (within_le _ _ _ Hn). lia.
    + exists k'. split; [done|lia].
    + by apply elem_of_nil in Hin.
Qed.
End search.

Lemma bfs_from_correct adj mh source reach0 :
  closed_graph adj → within mh 1 → source ∈ dom adj →
  ∃ reach, bfs_from adj mh source reach0 = Ok reach ∧
    ∀ p, p ∈ reach ↔ p ∈ reach0 ∨
      ∃ v n, p = (source, v) ∧ v ≠ source ∧ within mh n ∧ walk (edge adj) n source v.
Proof.
  intros Hclosed Hone Hs. unfold bfs_from. pose proof Hs as [tg Htg]%elem_of_dom. rewrite Htg.
  assert (∀ v, v ∈ tg → edge adj source v) as Hedge by (intros v Hv; by exists tg).
  assert (∀ v h, (v, h) ∈ ((λ t, (t, 1)) <$> elements tg) → v ∈ tg ∧ h = 1) as Hq.
  { intros v h (t & [= -> ->] & Ht)%list_elem_of_fmap. by apply elem_of_elements in Ht. }
  assert (search_inv adj source mh reach0 ((λ t, (t, 1)) <$> elements tg)
            {[source := 0]} {[source]} reach0) as Hinv.
  { constructor.
    - by rewrite dom_singleton_L.
    - set_solver.
    - intros v h [Hv _]%Hq. by apply (Hclosed _ _ Htg).
    - apply lookup_singleton_eq.
    - intros v k [<- <-]%lookup_singleton_Some. split; [by eapply within_le|constructor].
    - intros v h [Hv ->]%Hq. split; [done|].
      apply (walk_snoc _ 0 source source v); [constructor|auto].
    - apply (StronglySorted_app_bound [] _ 1); [constructor|by intros ? ?%elem_of_nil|].
      intros [v h] [_ ->]%Hq. done.
    - intros [v h] [v' h'] [_ ->]%Hq [_ ->]%Hq. cbn. lia.
    - intros v k w h [<- <-]%lookup_singleton_Some [_ ->]%Hq. lia.
    - intros v k w [<- <-]%lookup_singleton_Some _ (tg' & Htg' & Hw). right.
      rewrite Htg in Htg'. injection Htg' as <-. apply list_elem_of_fmap.
      exists w. split; [done|]. by apply elem_of_elements.
    - intros p. split; [by left|]. intros [?|(v & k & _ & Hne & [<- _]%lookup_singleton_Some)]; done. }
  destruct (bfs_terminates adj source mh reach0 Hclosed Hone
    (size (dom adj) * size (dom adj))%nat _ _ _ _ Hinv) as (d & visited & reach & Hb & Hfin).
  - unfold bfs_measure. rewrite length_fmap, size_singleton.
    assert (size tg <= size (dom adj))%nat by (apply subseteq_size, (Hclosed _ _ Htg)).
    assert (1 <= size (dom adj))%nat.
    { rewrite <-(size_singleton (C := gset string) source). apply subseteq_size. set_solver. }
    change (length (elements tg)) with (size tg). nia.
  - exists reach. split; [done|]. intros p. rewrite (si_reach _ _ _ _ _ _ _ _ Hfin). split.
    + intros [?|(v & k & -> & Hv & Hk)]; [by left|]. right. exists v, k.
      by apply (si_dist _ _ _ _ _ _ _ _ Hfin) in Hk as [??].
    + intros [?|(v & n & -> & Hv & Hn & Hw)]; [by left|]. right.
      destruct (search_complete adj source mh reach0 _ _ _ _ _ Hfin Hw Hn) as (k & Hk & _).
      by exists v, k.
Qed.

(** ** The adjacency map of a valid scenario *)

Lemma adjacency_ok s :
  graph_ok s → ∃ adj, adjacency s = Ok adj ∧ dom adj = list_to_set (node_ids s) ∧
    ∀ a b, edge adj a b ↔ link_on s a b.
Proof.
  intros Hok. unfold adjacency.
  assert (∀ l, l ∈ links s → from_node l ∈ node_ids s ∧ to_node l ∈ node_ids s) as Hin.
  { intros l Hl. destruct (graph_complete _ Hok (from_node l) (to_node l)) as [H _].
    destruct H as (? & ? & _); [|done]. apply list_elem_of_fmap. by exists l. }
  set (init := list_to_map _ : graph).
  assert (∀ a, a ∈ node_ids s → init !! a = Some ∅) as Hinit.
  { intros a Ha. unfold init. apply elem_of_list_to_map.
    - rewrite <-list_fmap_compose. unfold compose. cbn. rewrite list_fmap_id. apply Hok.
    - apply list_elem_of_fmap. by exists a. }
  assert (dom init = list_to_set (node_ids s)) as Hdom.
  { apply set_eq. intros a. rewrite elem_of_list_to_set. split.
    - unfold init. rewrite dom_list_to_map_L, elem_of_list_to_set, <-list_fmap_compose.
      unfold compose. cbn. by rewrite list_fmap_id.
    - intros Ha. apply elem_of_dom. rewrite Hinit by done. by eexists. }
  assert (∀ a b, ¬ edge init a b) as Hnone.
  { intros a b (t & Ht & Hb).
    assert (a ∈ node_ids s) as Ha.
    { apply (elem_of_list_to_set (C := gset string)). rewrite <-Hdom. by apply elem_of_dom_2 in Ht. }
    rewrite Hinit in Ht by done. set_solver. }
  clearbody init. unfold link_on.
  assert (∀ ls (adj0 : graph), dom adj0 = list_to_set (node_ids s) →
    (∀ l, l ∈ ls → from_node l ∈ node_ids s) →
    ∃ adj, for_each (λ l (adj : graph), if enabled l then
        match adj !! from_node l with
        | Some targets => Ok (<[from_node l := {[to_node l]} ∪ targets]> adj)
        | None => Raise (KeyError (from_node l)) end else Ok adj) ls adj0 = Ok adj ∧
      dom adj = list_to_set (node_ids s) ∧
      ∀ a b, edge adj a b ↔ edge adj0 a b ∨
        ∃ l, l ∈ ls ∧ enabled l = true ∧ link_key l = (a, b)) as Hloop.
  { induction ls as [|l ls IH]; intros adj0 Hd Hls; cbn [for_each].
    - exists adj0. split_and!; [done..|]. intros a b. split; [by left|].
      intros [?|(l & Hl & _)]; [done|]. by apply elem_of_nil in Hl.
    - destruct (enabled l) eqn:El; cbn [mbind res_bind].
      2:{ destruct (IH adj0 Hd) as (adj & -> & Hd' & He); [intros; apply Hls; by constructor|].
          exists adj. split_and!; [done..|]. intros a b. rewrite He. split.
          - intros [?|(l' & Hl' & H)]; [by left|right]. exists l'. split; [by constructor|done].
          - intros [?|(l' & [->|Hl']%elem_of_cons & H & Hk)]; [by left|congruence|right].
            by exists l'. }
      assert (from_node l ∈ dom adj0) as [t Ht]%elem_of_dom.
      { rewrite Hd, elem_of_list_to_set. apply Hls. by constructor. }
      rewrite Ht. cbn [mbind res_bind].
      destruct (IH (<[from_node l := {[to_node l]} ∪ t]> adj0)) as (adj & -> & Hd' & He).
      { rewrite dom_insert_L. apply elem_of_dom_2 in Ht. set_solver. }
      { intros; apply Hls; by constructor. }
      exists adj. split_and!; [done..|]. intros a b. rewrite He.
      assert (edge (<[from_node l := {[to_node l]} ∪ t]> adj0) a b ↔
              edge adj0 a b ∨ link_key l = (a, b)) as ->.
      { unfold edge, link_key. setoid_rewrite lookup_insert. case_decide as E; split.
        - intros (x & [= <-] & Hb). subst a.
          apply elem_of_union in Hb as [->%elem_of_singleton|Hb]; [by right|left; by exists t].
        - subst a. rewrite Ht. intros [(x & [= <-] & Hb)|[= ->]]; eexists; split; set_solver.
        - intros ?. by left.
        - intros [?|[= ? ?]]; [done|congruence]. }
      split.
      + intros [[?|Hk]|(l' & Hl' & H)]; [by left|right|right].
        * exists l. split_and!; [by constructor|done|done].
        * exists l'. split; [by constructor|done].
      + intros [?|(l' & [->|Hl']%elem_of_cons & H & Hk)]; [by left; left|by left; right|right].
        by exists l'. }
  destruct (Hloop (links s) init Hdom) as (adj & -> & Hd & He).
  { intros l Hl. by apply Hin. }
  exists adj. split_and!; [done..|]. intros a b. rewrite He. split; [|by right].
  intros [H|?]; [by apply Hnone in H|done].
Qed.

(** C22: on a valid scenario [reachable_pairs] terminates without raising, and a
    pair of nodes is in its result exactly when the nodes differ and the target
    is reached from the source over enabled links in at most [max_hops] hops. *)
Theorem reachable_pairs_correct s max_hops :
  graph_ok s → within max_hops 1 →
  ∃ pairs, reachable_pairs s max_hops = Ok pairs ∧
    ∀ a b, (a, b) ∈ pairs ↔
      a ∈ node_ids s ∧ a ≠ b ∧ ∃ n, within max_hops n ∧ walk (link_on s) n a b.
Proof.
  intros Hok Hone. unfold reachable_pairs.
  destruct (adjacency_ok s Hok) as (adj & -> & Hdom & Hedge). cbn [mbind res_bind].
  assert (closed_graph adj) as Hclosed.
  { intros a t Ht b Hb. rewrite Hdom, elem_of_list_to_set.
    assert (link_on s a b) as (l & Hl & _ & Hk) by (apply Hedge; by exists t).
    apply (graph_complete _ Hok a b). apply list_elem_of_fmap. by exists l. }
  assert (∀ n a b, walk (edge adj) n a b ↔ walk (link_on s) n a b) as Hwalk.
  { intros n a b; split; induction 1; econstructor; try done; by apply Hedge. }
  assert (∀ ids reach0, (∀ a, a ∈ ids → a ∈ node_ids s) →
    ∃ reach, for_each (bfs_from adj max_hops) ids reach0 = Ok reach ∧
      ∀ a b, (a, b) ∈ reach ↔ (a, b) ∈ reach0 ∨
        (a ∈ ids ∧ a ≠ b ∧ ∃ n, within max_hops n ∧ walk (link_on s) n a b)) as Hloop.
  { induction ids as [|id ids IH]; intros reach0 Hids; cbn [for_each].
    - exists reach0. split; [done|]. intros a b. split; [by left|].
      intros [?|(H & _)]; [done|]. by apply elem_of_nil in H.
    - destruct (bfs_from_correct adj max_hops id reach0 Hclosed Hone) as (r & -> & Hr).
      { rewrite Hdom, elem_of_list_to_set. apply Hids. by constructor. }
      cbn [mbind res_bind]. destruct (IH r) as (reach & -> & He); [intros; apply Hids; by constructor|].
      exists reach. split; [done|]. intros a b. rewrite He, Hr, elem_of_cons. split.
      + intros [[?|(v & n & [= -> ->] & Hne & Hn & Hw)]|(Ha & Hab & Hw)];
          [by left|right|right; split_and!; [by right|done|done]].
        split_and!; [by left|done|]. exists n. by rewrite <-Hwalk.
      + intros [?|([->|Ha] & Hab & n & Hn & Hw)]; [by left; left| |right].
        * left. right. exists b, n. by rewrite Hwalk.
        * split_and!; [done..|]. by exists n. }
  destruct (Hloop (node_ids s) ∅) as (reach & -> & He); [done|].
  exists reach. split; [done|]. intros a b. rewrite He. set_solver.
Qed.

Lemma reachable_pairs_correct_witness :
  match default_scenario 3 with
  | Ok s => ∃ pairs, reachable_pairs s (Some 4) = Ok pairs ∧
      ∀ a b, (a, b) ∈ pairs ↔
        a ∈ node_ids s ∧ a ≠ b ∧ ∃ n, within (Some 4) n ∧ walk (link_on s) n a b
  | Raise _ => False
  end.
Proof.
  pose proof default_scenario_3_ok as H. destruct (default_scenario 3) as [s|]; [|exact H].
  apply (reachable_pairs_correct s (Some 4)); [exact (proj1 H)|vm_compute; discriminate].
Defined.
