(* ===== verification/Mesh.v ===== *)
(** * Mesh packets

    The protobuf messages the code exchanges with the firmware, with the fields
    it reads or writes ([..._other] stands for the fields it copies untouched).
    The protobuf package is not part of the repository: its enumeration values,
    parsers and serialized sizes are the parameters of [Meshtastic]. *)
From S2P Require Import Prelude PyFloat.

Record Data := mkData {
  portnum : Z;
  data_payload : list byte;
  want_response : bool;
  request_id : Z;
  data_other : list byte }.
#[export] Instance eta_Data : Eta Data := λ r,
  mkData (portnum r) (data_payload r) (want_response r) (request_id r) (data_other r).

(** The [payload_variant] oneof of a packet. *)
Inductive payload_variant :=
| Decoded (d : Data)
| Encrypted (b : list byte)
| NoPayload.

Record MeshPacket := mkPacket {
  p_from : Z;
  p_to : Z;
  p_id : Z;
  p_payload : payload_variant;
  p_want_ack : bool;
  p_hop_limit : Z;
  p_hop_start : Z;
  p_priority : Z;
  rx_time : Z;
  rx_rssi : Z;
  rx_snr : float;
  p_other : list byte }.
#[export] Instance eta_MeshPacket : Eta MeshPacket := λ r,
  mkPacket (p_from r) (p_to r) (p_id r) (p_payload r) (p_want_ack r) (p_hop_limit r)
    (p_hop_start r) (p_priority r) (rx_time r) (rx_rssi r) (rx_snr r) (p_other r).

Record Compressed := mkCompressed { c_portnum : Z; c_data : list byte }.

Record QueueStatus := mkQueueStatus { qs_mesh_packet_id : Z; qs_res : Z }.

(** The [payload_variant] oneof of a message from the radio. *)
Inductive FromRadio :=
| FromPacket (p : MeshPacket)
| FromQueueStatus (q : QueueStatus)
| FromConfigComplete (nonce : Z)
| FromOther (tag : Z).

(** The parts of the protobuf package that are used. *)
Class Meshtastic := {
  UNKNOWN_APP : Z;
  TEXT_MESSAGE_APP : Z;
  NODEINFO_APP : Z;
  ROUTING_APP : Z;
  TELEMETRY_APP : Z;
  SIMULATOR_APP : Z;
  PRIORITY_RELIABLE : Z;
  ROUTING_ERROR_NONE : Z;
  RATE_LIMIT_EXCEEDED : Z;
  routing_error_name : Z → option string;
  parse_compressed : list byte → option Compressed;
  parse_routing : list byte → option Z;
  data_size : Data → Z }.

(** The published values of the enumerations differ where the code tells them apart,
    and a text message takes a few bytes of field tags and lengths besides its
    payload. *)
Class MeshtasticLaws `{Meshtastic} := {
  rate_limit_is_error : RATE_LIMIT_EXCEEDED ≠ ROUTING_ERROR_NONE;
  text_not_routing : TEXT_MESSAGE_APP ≠ ROUTING_APP;
  text_not_simulator : TEXT_MESSAGE_APP ≠ SIMULATOR_APP;
  text_size : ∀ payload,
    0 <= data_size (mkData TEXT_MESSAGE_APP payload false 0 []) <= zlen payload + 16 }.

Definition packet_origin (p : MeshPacket) : Z := p_from p.

(** A concrete package, for witnesses: the published enumeration values; a
    wrapped packet is its port number's byte followed by its data, a routing
    message is the byte of its error reason, and a [Data] message serializes to
    its payload and two bytes of port number. *)
Definition sample_protobuf : Meshtastic := {|
  UNKNOWN_APP := 0;
  TEXT_MESSAGE_APP := 1;
  NODEINFO_APP := 4;
  ROUTING_APP := 5;
  TELEMETRY_APP := 67;
  SIMULATOR_APP := 69;
  PRIORITY_RELIABLE := 70;
  ROUTING_ERROR_NONE := 0;
  RATE_LIMIT_EXCEEDED := 38;
  routing_error_name := λ e,
    if e =? 0 then Some "NONE"%string else if e =? 5 then Some "MAX_RETRANSMIT"%string
    else if e =? 38 then Some "RATE_LIMIT_EXCEEDED"%string else None;
  parse_compressed := λ b, match b with x :: b => Some (mkCompressed (byte_val x) b) | [] => None end;
  parse_routing := λ b, match b with [] => Some 0 | [x] => Some (byte_val x) | _ => None end;
  data_size := λ d, zlen (data_payload d) + 2 |}.


#[export] Instance sample_protobuf_laws : @MeshtasticLaws sample_protobuf.
Proof. split; try done. intros payload. cbn. unfold zlen. lia. Qed.
