(* ===== verification/Airtime.v ===== *)
(** * LoRa airtime (src/backend/app/metrics/airtime.py)

    The airtime and retransmission-delay estimates in the float arithmetic of
    the code, and the packet-length recovery they are fed with. [airtime_exact]
    is the same formula in integer arithmetic; [airtime_ms_exact] shows that
    rounding never changes the result for any packet the radio can carry. *)
From S2P Require Import Prelude PyFloat PyDict Scenario Mesh.

Definition MESH_PACKET_HEADER_BYTES : Z := 16.
Definition MAX_RETRANSMISSION_CONTENTION_SLOTS : Z := Z.shiftl 1 8 + 2 * 8 + Z.shiftl 1 5.
Definition RETRANSMISSION_PROCESSING_TIME_MS : Z := 4500.
Definition SLOT_FIXED_OVERHEAD_MS : float := flit 76 10.

(** The table's bandwidths are Python ints at run time. *)
Record ModemParameters := mkModem { bandwidth_khz : Z; spreading_factor : Z; coding_rate : Z }.

Definition MODEM_PARAMETERS : dict string ModemParameters := [
  ("SHORT_TURBO", mkModem 500 7 5);
  ("SHORT_FAST", mkModem 250 7 5);
  ("SHORT_SLOW", mkModem 250 8 5);
  ("MEDIUM_FAST", mkModem 250 9 5);
  ("MEDIUM_SLOW", mkModem 250 10 5);
  ("LONG_TURBO", mkModem 500 11 8);
  ("LONG_MODERATE", mkModem 125 11 8);
  ("LONG_SLOW", mkModem 125 12 8);
  ("LONG_FAST", mkModem 250 11 5)]%string.

Definition modem_lookup (preset : string) : res ModemParameters :=
  match dget preset MODEM_PARAMETERS with
  | Some params => Ok params
  | None => Raise (ValueError ("unsupported modem preset: " +:+ preset))
  end.

Definition airtime_ms_with (payload_length : Z) (preset : string) (preamble_symbols : Z) : res Z :=
  _ ← guard_raise (payload_length <? 0) (ValueError "payload length cannot be negative");
  params ← modem_lookup preset;
  let bandwidth_hz := bandwidth_khz params * 1000 in
  let sf := spreading_factor params in
  symbol_time ← int_truediv (Z.shiftl 1 sf) bandwidth_hz;
  let low_data_rate_optimization := flt (flit 16 1000) symbol_time in
  let preamble_time := fmul (fadd (of_Z preamble_symbols) (flit 425 100)) symbol_time in
  let numerator := 8 * payload_length - 4 * sf + 28 + 16 in
  let denominator := 4 * (sf - 2 * (if low_data_rate_optimization then 1 else 0)) in
  quotient ← int_truediv numerator denominator;
  symbols ← fceil (fmul quotient (of_Z (coding_rate params)));
  let payload_symbols := 8 + Z.max symbols 0 in
  ftrunc (fmul (fadd preamble_time (fmul (of_Z payload_symbols) symbol_time)) (of_Z 1000)).

Definition airtime_ms (payload_length : Z) (preset : string) : res Z :=
  airtime_ms_with payload_length preset 16.

Definition maximum_retransmission_delay_ms (payload_length : Z) (preset : string) : res Z :=
  params ← modem_lookup preset;
  symbol_time_ms ← int_truediv (Z.shiftl 1 (spreading_factor params)) (bandwidth_khz params);
  let slot_time_ms := fadd (fmul (flit 25 10) symbol_time_ms) SLOT_FIXED_OVERHEAD_MS in
  packet_airtime_ms ← airtime_ms payload_length preset;
  fceil (fadd (fadd (of_Z (2 * packet_airtime_ms))
                    (fmul (of_Z MAX_RETRANSMISSION_CONTENTION_SLOTS) slot_time_ms))
              (of_Z RETRANSMISSION_PROCESSING_TIME_MS)).

Section packets.
Context `{Meshtastic}.

Definition mesh_packet_payload_length (packet : MeshPacket) : res Z :=
  match p_payload packet with
  | Encrypted b => Ok (zlen b + MESH_PACKET_HEADER_BYTES)
  | NoPayload => Ok MESH_PACKET_HEADER_BYTES
  | Decoded data =>
    if portnum data =? SIMULATOR_APP then
      match parse_compressed (data_payload data) with
      | None => Raise (DecodeError "Error parsing message")
      | Some compressed =>
        if c_portnum compressed =? UNKNOWN_APP then
          Ok (zlen (c_data compressed) + MESH_PACKET_HEADER_BYTES)
        else
          let data := data <| portnum := c_portnum compressed |>
                           <| data_payload := c_data compressed |> in
          Ok (data_size data + MESH_PACKET_HEADER_BYTES)
      end
    else Ok (data_size data + MESH_PACKET_HEADER_BYTES)
  end.

Definition mesh_packet_port_number (packet : MeshPacket) : option Z :=
  match p_payload packet with
  | Decoded data =>
    if negb (portnum data =? SIMULATOR_APP) then Some (portnum data)
    else match parse_compressed (data_payload data) with
         | Some compressed => Some (c_portnum compressed)
         | None => Some SIMULATOR_APP
         end
  | _ => None
  end.
End packets.

(** ** The exact formula *)

Definition ceil_div (a b : Z) : Z := - ((- a) / b).

Definition airtime_exact (payload_length : Z) (params : ModemParameters) : Z :=
  let sf := spreading_factor params in
  let bw := bandwidth_khz params in
  let ldro := if 16 * bw <? 2 ^ sf then 1 else 0 in
  let symbols := ceil_div ((8 * payload_length - 4 * sf + 44) * coding_rate params)
                          (4 * (sf - 2 * ldro)) in
  (81 + 4 * (8 + Z.max symbols 0)) * 2 ^ sf / (4 * bw).

Definition delay_exact (payload_length : Z) (params : ModemParameters) : Z :=
  let symbol10 := 25 * 2 ^ spreading_factor params in
  ceil_div (10 * bandwidth_khz params * (2 * airtime_exact payload_length params + 4500)
            + 304 * (symbol10 + 76 * bandwidth_khz params)) (10 * bandwidth_khz params).

(** ** Agreement with the exact formula *)

(** Longer than any LoRa frame (255 bytes). *)
Definition LENGTH_BOUND : Z := 300.

Lemma airtime_table :
  forallb (λ '(preset, params),
    forallb (λ l, bool_decide (airtime_ms l preset = Ok (airtime_exact l params))
                  && bool_decide (maximum_retransmission_delay_ms l preset
                                  = Ok (delay_exact l params)))
      (seqZ 0 LENGTH_BOUND)) MODEM_PARAMETERS = true.
Proof. vm_compute. reflexivity. Qed.

Lemma airtime_table_at preset params l :
  dget preset MODEM_PARAMETERS = Some params → 0 <= l < LENGTH_BOUND →
  airtime_ms l preset = Ok (airtime_exact l params) ∧
  maximum_retransmission_delay_ms l preset = Ok (delay_exact l params).
Proof.
  intros Hp%dget_elem Hl. pose proof airtime_table as H.
  rewrite forallb_forall in H. specialize (H (preset, params)).
  rewrite <-list_elem_of_In in H. specialize (H Hp). cbn in H.
  rewrite forallb_forall in H. specialize (H l).
  rewrite <-list_elem_of_In, elem_of_seqZ in H. specialize (H ltac:(lia)).
  apply andb_true_iff in H as [H1%bool_decide_eq_true H2%bool_decide_eq_true]. done.
Qed.

Lemma modem_params_pos preset params :
  dget preset MODEM_PARAMETERS = Some params →
  125 <= bandwidth_khz params <= 500 ∧ 7 <= spreading_factor params <= 12
  ∧ 5 <= coding_rate params <= 8.
Proof.
  intros H%dget_elem. revert H. unfold MODEM_PARAMETERS.
  repeat (intros [[= -> ->]|H]%elem_of_cons; [cbn; lia|revert H]).
  by intros ?%elem_of_nil.
Qed.

Lemma ceil_div_mono a b c : 0 < c → a <= b → ceil_div a c <= ceil_div b c.
Proof. intros Hc H. unfold ceil_div. pose proof (Z.div_le_mono (- b) (- a) c). lia. Qed.

Lemma ceil_div_ge a c : 0 < c → a <= c * ceil_div a c.
Proof. intros Hc. unfold ceil_div. pose proof (Z.mul_div_le (- a) c). lia. Qed.

Lemma airtime_exact_mono preset params l l' :
  dget preset MODEM_PARAMETERS = Some params → l <= l' →
  airtime_exact l params <= airtime_exact l' params.
Proof.
  intros (Hb & Hs & Hc)%modem_params_pos Hl. unfold airtime_exact.
  set (ldro := if _ <? _ then 1 else 0).
  assert (0 <= ldro <= 1) by (unfold ldro; destruct (_ <? _); lia).
  assert (0 < 2 ^ spreading_factor params) by (apply Z.pow_pos_nonneg; lia).
  apply Z.div_le_mono; [lia|]. apply Z.mul_le_mono_nonneg_r; [lia|].
  pose proof (ceil_div_mono ((8 * l - 4 * spreading_factor params + 44) * coding_rate params)
    ((8 * l' - 4 * spreading_factor params + 44) * coding_rate params)
    (4 * (spreading_factor params - 2 * ldro))). nia.
Qed.

(** C29: [airtime_ms] rejects a negative length first, then an unknown preset; on
    every length a LoRa frame can have its float computation returns exactly the
    integer formula's milliseconds, and a longer packet never takes less time. *)
Theorem airtime_ms_spec l preset :
  l < LENGTH_BOUND →
  match airtime_ms l preset with
  | Ok ms => 0 <= l ∧ ∃ params, dget preset MODEM_PARAMETERS = Some params ∧
      ms = airtime_exact l params ∧
      ∀ l', l <= l' < LENGTH_BOUND → ∃ ms', airtime_ms l' preset = Ok ms' ∧ ms <= ms'
  | Raise e =>
    (l < 0 ∧ e = ValueError "payload length cannot be negative") ∨
    (0 <= l ∧ (preset ∉ MODEM_PARAMETERS.*1) ∧
     e = ValueError ("unsupported modem preset: " +:+ preset))
  end.
Proof.
  intros Hl. destruct (Z.ltb_spec l 0) as [Hneg|Hpos].
  { unfold airtime_ms, airtime_ms_with. rewrite (proj2 (Z.ltb_lt _ _) Hneg). by left. }
  destruct (dget preset MODEM_PARAMETERS) as [params|] eqn:Hp.
  - destruct (airtime_table_at preset params l Hp) as [-> _]; [lia|].
    split; [done|]. exists params. split_and!; [done..|]. intros l' Hl'.
    exists (airtime_exact l' params).
    destruct (airtime_table_at preset params l' Hp) as [-> _]; [lia|].
    split; [done|]. apply (airtime_exact_mono preset); [done|lia].
  - unfold airtime_ms, airtime_ms_with, modem_lookup. rewrite Hp.
    rewrite (proj2 (Z.ltb_ge _ _) Hpos). cbn [mbind res_bind guard_raise]. right.
    split_and!; [done|exact (proj1 (dget_None _ _) Hp)|done].
Qed.

Lemma airtime_ms_spec_witness :
  20 < LENGTH_BOUND ∧
  match airtime_ms 20 "LONG_FAST" with
  | Ok ms => 0 <= 20 ∧ ∃ params, dget "LONG_FAST"%string MODEM_PARAMETERS = Some params ∧
      ms = airtime_exact 20 params ∧
      ∀ l', 20 <= l' < LENGTH_BOUND → ∃ ms', airtime_ms l' "LONG_FAST" = Ok ms' ∧ ms <= ms'
  | Raise e =>
    (20 < 0 ∧ e = ValueError "payload length cannot be negative") ∨
    (0 <= 20 ∧ ("LONG_FAST"%string ∉ MODEM_PARAMETERS.*1) ∧
     e = ValueError ("unsupported modem preset: " +:+ "LONG_FAST"))
  end.
Proof. split; [reflexivity|]. apply (airtime_ms_spec 20 "LONG_FAST"). reflexivity. Defined.

Lemma preset_airtime r l :
  validate_preset r = Ok r → 0 <= l < LENGTH_BOUND →
  ∃ air delay, airtime_ms l (modem_preset r) = Ok air ∧
    maximum_retransmission_delay_ms l (modem_preset r) = Ok delay ∧
    0 < air ∧ 2 * air + RETRANSMISSION_PROCESSING_TIME_MS < delay.
Proof.
  unfold validate_preset. case_bool_decide as Hin; [|done]. intros _ Hl.
  assert (is_Some (dget (modem_preset r) MODEM_PARAMETERS)) as [params Hp].
  { revert Hin. generalize (modem_preset r). intros p. unfold SUPPORTED_MODEM_PRESETS.
    repeat (intros [->|Hin]%elem_of_cons; [by eexists|revert Hin]).
    by intros ?%elem_of_nil. }
  destruct (airtime_table_at _ params l Hp Hl) as [-> ->].
  exists (airtime_exact l params), (delay_exact l params). split_and!; [done..| |].
  - pose proof (airtime_exact_mono _ params 0 l Hp ltac:(lia)).
    assert (0 < airtime_exact 0 params); [|lia].
    assert (forallb (λ p, 0 <? airtime_exact 0 p.2) MODEM_PARAMETERS = true) as H0
      by (vm_compute; reflexivity).
    rewrite forallb_forall in H0. apply Z.ltb_lt, (H0 (modem_preset r, params)).
    apply list_elem_of_In. by apply dget_elem.
  - apply modem_params_pos in Hp as (Hb & Hs & _). unfold delay_exact, RETRANSMISSION_PROCESSING_TIME_MS.
    set (a := airtime_exact l params). set (bw := bandwidth_khz params) in *.
    assert (0 < 2 ^ spreading_factor params) as H2 by (apply Z.pow_pos_nonneg; lia).
    pose proof (ceil_div_ge (10 * bw * (2 * a + 4500)
      + 304 * (25 * 2 ^ spreading_factor params + 76 * bw)) (10 * bw)). nia.
Qed.

(** a preset the scenario schema accepts always has an airtime and a
    retransmission bound, and the bound covers two airtimes of the packet plus
    the firmware's processing allowance. *)
Theorem retransmission_delay_bounds r l :
  validate_preset r = Ok r → 0 <= l < LENGTH_BOUND →
  ∃ air delay, airtime_ms l (modem_preset r) = Ok air ∧
    maximum_retransmission_delay_ms l (modem_preset r) = Ok delay ∧
    0 < air ∧ 2 * air + RETRANSMISSION_PROCESSING_TIME_MS < delay.
Proof. exact (preset_airtime r l). Qed.

Lemma retransmission_delay_bounds_witness :
  ∃ air delay, airtime_ms 80 "LONG_FAST" = Ok air ∧
    maximum_retransmission_delay_ms 80 "LONG_FAST" = Ok delay ∧
    0 < air ∧ 2 * air + RETRANSMISSION_PROCESSING_TIME_MS < delay.
Proof.
  apply (retransmission_delay_bounds default_rf 80); [reflexivity|].
  split; [discriminate|reflexivity].
Defined.
