(* ===== verification/Calculations.v ===== *)
(** * Metric calculations (src/backend/app/metrics/calculations.py)

    Percentiles in the float arithmetic of the code and the metrics record built
    from either complete samples or running totals. *)
From S2P Require Import Prelude PyFloat.

Abbreviation counter := (gmap string Z).

(** [counter[k] += n] *)
Definition count_add (k : string) (n : Z) (c : counter) : counter :=
  <[k := default 0 (c !! k) + n]> c.

(** [Counter(l)] *)
Definition counter_of (l : list string) : counter := foldl (λ c k, count_add k 1 c) ∅ l.

Definition counter_total (c : counter) : Z := map_fold (λ _ n s, n + s) 0 c.

Record Metrics := mkMetrics {
  m_generated_application_messages : Z;
  m_unique_application_messages_delivered : Z;
  m_delivery_ratio : option float;
  m_receiver_deliveries : Z;
  m_receiver_delivery_ratio : option float;
  m_acknowledgment_success_ratio : option float;
  m_median_latency_ms : option float;
  m_p95_latency_ms : option float;
  m_p99_latency_ms : option float;
  m_rf_transmissions : Z;
  m_rf_transmissions_per_delivery : option float;
  m_relay_transmissions : Z;
  m_duplicate_receptions : Z;
  m_failed_receptions : Z;
  m_drops_by_reason : counter;
  m_observed_airtime_ms : Z;
  m_per_node_transmit_counts : counter;
  m_per_node_airtime_ms : counter;
  m_event_loop_lag_ms : option float }.

(** [MetricsSnapshot] adds the per-message detail to the shared fields, which
    alone are a [MetricsSummary]. *)
Record MetricsSnapshot := mkSnapshot {
  snapshot_base : Metrics;
  receivers_per_broadcast : counter }.

(** Python's [l[i]], negative indices from the end. *)
Definition py_index {A} (l : list A) (i : Z) : res A :=
  let j := if i <? 0 then i + zlen l else i in
  if j <? 0 then Raise (IndexError "list index out of range")
  else match l !! Z.to_nat j with
       | Some x => Ok x
       | None => Raise (IndexError "list index out of range")
       end.

Definition percentile_position (n : Z) (proportion : float) : float :=
  fmul (of_Z (n - 1)) proportion.

Definition percentile_ordered (ordered : list float) (proportion : float) (minimum_samples : Z)
    : res (option float) :=
  if zlen ordered <? minimum_samples then Ok None
  else if negb (fle fzero proportion && fle proportion (of_Z 1)) then
    Raise (ValueError "percentile proportion must be between zero and one")
  else if zlen ordered =? 1 then Some <$> py_index ordered 0
  else
    let position := percentile_position (zlen ordered) proportion in
    lower ← ffloor position;
    upper ← fceil position;
    if lower =? upper then Some <$> py_index ordered lower
    else
      let fraction := fsub position (of_Z lower) in
      low ← py_index ordered lower;
      high ← py_index ordered upper;
      Ok (Some (fadd low (fmul (fsub high low) fraction))).

(** [percentile] sorts first; its checks come in the same order. *)
Definition percentile (values : list float) (proportion : float) (minimum_samples : Z)
    : res (option float) :=
  if zlen values <? minimum_samples then Ok None
  else if negb (fle fzero proportion && fle proportion (of_Z 1)) then
    Raise (ValueError "percentile proportion must be between zero and one")
  else
    let ordered := fsorted values in
    if zlen ordered =? 1 then Some <$> py_index ordered 0
    else
      let position := percentile_position (zlen ordered) proportion in
      lower ← ffloor position;
      upper ← fceil position;
      if lower =? upper then Some <$> py_index ordered lower
      else
        let fraction := fsub position (of_Z lower) in
        low ← py_index ordered lower;
        high ← py_index ordered upper;
        Ok (Some (fadd low (fmul (fsub high low) fraction))).

(** The keyword arguments of [calculate_metrics]; the optional ones are options. *)
Record metrics_input := mkMetricsInput {
  generated : Z;
  delivered_ids : gset (string * Z);
  delivered_count : option Z;
  acknowledged : Z;
  acknowledgment_expected : Z;
  latencies_ms : list float;
  rf_transmitters : list string;
  relay_transmissions : Z;
  duplicate_receptions : Z;
  failed_receptions : Z;
  drop_reasons : list string;
  airtimes_ms : list Z;
  event_loop_lag_ms : option float;
  receiver_deliveries : option Z;
  receiver_delivery_opportunities : option Z;
  in_receivers_per_broadcast : option counter;
  rf_transmission_count : option Z;
  observed_airtime_ms : option Z;
  per_node_transmit_counts : option counter;
  per_node_airtime_ms : option counter;
  drops_by_reason : option counter }.

(** [n / d if d else None] *)
Definition ratio (n d : Z) : res (option float) :=
  if d =? 0 then Ok None else Some <$> int_truediv n d.

(** The [zip(..., strict=True)] loop accumulating airtime by transmitter. *)
Fixpoint airtime_by_transmitter (transmitters : list string) (airtimes : list Z) (c : counter)
    : res counter :=
  match transmitters, airtimes with
  | [], [] => Ok c
  | t :: transmitters, a :: airtimes => airtime_by_transmitter transmitters airtimes (count_add t a c)
  | [], _ :: _ => Raise (ValueError "zip() argument 2 is longer than argument 1")
  | _ :: _, [] => Raise (ValueError "zip() argument 2 is shorter than argument 1")
  end.

Definition calculate_metrics (i : metrics_input) : res MetricsSnapshot :=
  let delivered := default (Z.of_nat (size (delivered_ids i))) (delivered_count i) in
  let receiver_count := default delivered (receiver_deliveries i) in
  let receiver_opportunities := default (generated i) (receiver_delivery_opportunities i) in
  let rf_count := default (zlen (rf_transmitters i)) (rf_transmission_count i) in
  per_node_airtime ← match per_node_airtime_ms i with
                     | None => airtime_by_transmitter (rf_transmitters i) (airtimes_ms i) ∅
                     | Some c => Ok c
                     end;
  let ordered_latencies := fsorted (latencies_ms i) in
  delivery_ratio ← ratio delivered (generated i);
  receiver_ratio ← ratio receiver_count receiver_opportunities;
  ack_ratio ← ratio (acknowledged i) (acknowledgment_expected i);
  median ← percentile_ordered ordered_latencies (flit 5 10) 1;
  p95 ← percentile_ordered ordered_latencies (flit 95 100) 20;
  p99 ← percentile_ordered ordered_latencies (flit 99 100) 100;
  per_delivery ← ratio rf_count delivered;
  Ok (mkSnapshot
    (mkMetrics (generated i) delivered delivery_ratio receiver_count receiver_ratio ack_ratio
       median p95 p99 rf_count per_delivery (relay_transmissions i) (duplicate_receptions i)
       (failed_receptions i)
       (default (counter_of (drop_reasons i)) (drops_by_reason i))
       (default (zsum (airtimes_ms i)) (observed_airtime_ms i))
       (default (counter_of (rf_transmitters i)) (per_node_transmit_counts i))
       per_node_airtime (event_loop_lag_ms i))
    (default ∅ (in_receivers_per_broadcast i))).

(** ** Percentiles *)

Lemma percentile_sorts values p m :
  percentile values p m = percentile_ordered (fsorted values) p m.
Proof.
  unfold percentile, percentile_ordered. cbn zeta.
  assert (zlen (fsorted values) = zlen values) as -> by (unfold zlen; by rewrite fsorted_length).
  done.
Qed.

Lemma py_index_ok {A} (l : list A) i :
  0 <= i < zlen l → ∃ x, py_index l i = Ok x ∧ l !! Z.to_nat i = Some x.
Proof.
  intros Hi. unfold py_index. rewrite (proj2 (Z.ltb_ge i 0)) by lia.
  rewrite (proj2 (Z.ltb_ge i 0)) by lia.
  destruct (lookup_lt_is_Some_2 l (Z.to_nat i)) as [x Hx]; [unfold zlen in Hi; lia|].
  rewrite Hx. eauto.
Qed.

(** The size of the live latency sample. *)
Definition SAMPLE_BOUND : Z := 2048.

(** The three proportions the metrics use, as percentages. *)
Definition metric_percentages : list Z := [50; 95; 99].

Definition proportion_of (k : Z) : float := if k =? 50 then flit 5 10 else flit k 100.

Definition ceil_percent (n k : Z) : Z := - ((- ((n - 1) * k)) / 100).

Lemma position_table :
  forallb (λ k,
    fle fzero (proportion_of k) && fle (proportion_of k) (of_Z 1) &&
    forallb (λ n, let q := percentile_position n (proportion_of k) in
      bool_decide (ffloor q = Ok ((n - 1) * k / 100)) &&
      bool_decide (fceil q = Ok (ceil_percent n k))) (seqZ 1 SAMPLE_BOUND))
    metric_percentages = true.
Proof. vm_compute. reflexivity. Qed.

Lemma position_at n k :
  k ∈ metric_percentages → 1 <= n <= SAMPLE_BOUND →
  fle fzero (proportion_of k) && fle (proportion_of k) (of_Z 1) = true ∧
  ffloor (percentile_position n (proportion_of k)) = Ok ((n - 1) * k / 100) ∧
  fceil (percentile_position n (proportion_of k)) = Ok (ceil_percent n k).
Proof.
  intros Hk Hn. pose proof position_table as H.
  rewrite forallb_forall in H. specialize (H k).
  rewrite <-list_elem_of_In in H. specialize (H Hk).
  apply andb_true_iff in H as [H1 H].
  rewrite forallb_forall in H. specialize (H n).
  rewrite <-list_elem_of_In, elem_of_seqZ in H. specialize (H ltac:(lia)).
  apply andb_true_iff in H as [H2%bool_decide_eq_true H3%bool_decide_eq_true]. done.
Qed.

Lemma metric_percentage_range k : k ∈ metric_percentages → 50 <= k <= 99.
Proof.
  unfold metric_percentages.
  intros [->|[->|[->|?%elem_of_nil]%elem_of_cons]%elem_of_cons]%elem_of_cons; lia || done.
Qed.

(** Linear interpolation between neighbouring samples, in float arithmetic. *)
Definition interpolate (low high position : float) (lower : Z) : float :=
  fadd low (fmul (fsub high low) (fsub position (of_Z lower))).

Lemma percentile_value values k m :
  k ∈ metric_percentages → 1 <= m → zlen values <= SAMPLE_BOUND →
  let n := zlen values in
  let ordered := fsorted values in
  let i := (n - 1) * k / 100 in
  percentile values (proportion_of k) m =
    (if n <? m then Ok None
     else match ordered !! Z.to_nat i, ordered !! Z.to_nat (i + 1) with
          | Some low, Some high =>
            Ok (Some (if (n - 1) * k mod 100 =? 0 then low
                      else interpolate low high (percentile_position n (proportion_of k)) i))
          | Some low, None => Ok (Some low)
          | None, _ => Raise (IndexError "unreachable")
          end) ∧
  (m <= n → is_Some (ordered !! Z.to_nat i) ∧
            ((n - 1) * k mod 100 ≠ 0 → is_Some (ordered !! Z.to_nat (i + 1)))).
Proof.
  intros Hk Hm Hn n ordered i. rewrite percentile_sorts. unfold percentile_ordered.
  assert (zlen ordered = n) as Hlen by (unfold ordered, n, zlen; by rewrite fsorted_length).
  fold ordered. rewrite Hlen.
  pose proof (metric_percentage_range k Hk) as Hkr.
  destruct (Z.ltb_spec n m) as [|Hnm]; [split; [done|lia]|].
  destruct (position_at n k Hk ltac:(unfold n in *; lia)) as (-> & Hlow & Hup).
  assert (Hi : i = (n - 1) * k / 100) by done. rewrite <-Hi in Hlow.
  assert (0 <= i < n) as Hin by (subst i; split; [apply Z.div_pos; nia|apply Z.div_lt_upper_bound; nia]).
  destruct (py_index_ok ordered i) as (low & Hpl & Hll); [lia|].
  assert ((n - 1) * k mod 100 ≠ 0 → i + 1 < n) as Hup1.
  { intros Hmod. subst i. pose proof (Z.div_mod ((n - 1) * k) 100). pose proof (Z.mod_pos_bound ((n-1)*k) 100). nia. }
  assert (ceil_percent n k = if (n - 1) * k mod 100 =? 0 then i else i + 1) as Hceil.
  { unfold ceil_percent. subst i. pose proof (Z.div_mod ((n - 1) * k) 100).
    pose proof (Z.mod_pos_bound ((n - 1) * k) 100).
    destruct (Z.eqb_spec ((n - 1) * k mod 100) 0) as [E|E].
    - rewrite Z.div_opp_l_z by lia. lia.
    - rewrite Z.div_opp_l_nz by lia. lia. }
  rewrite Hll. split; [|intros _; split; [done|]; intros Hmod].
  2: { apply lookup_lt_is_Some_2. specialize (Hup1 Hmod). unfold zlen in Hlen. lia. }
  cbn [negb]. destruct (Z.eqb_spec n 1) as [Hn1|Hn1].
  { assert (i = 0) as Hi0 by (subst i; by rewrite Hn1).
    rewrite Hi0 in Hpl. rewrite Hpl. cbn [fmap res_fmap].
    destruct (ordered !! Z.to_nat (i + 1)) as [?|] eqn:E; [|done].
    apply lookup_lt_Some in E. unfold zlen in Hlen. lia. }
  rewrite Hlow, Hup. cbn [mbind res_bind]. rewrite Hceil.
  destruct ((n - 1) * k mod 100 =? 0) eqn:Hmod.
  - rewrite Z.eqb_refl, Hpl. cbn [fmap res_fmap].
    destruct (ordered !! Z.to_nat (i + 1)); reflexivity.
  - rewrite (proj2 (Z.eqb_neq i (i + 1))) by lia. rewrite Hpl. cbn [mbind res_bind].
    apply Z.eqb_neq in Hmod. specialize (Hup1 Hmod).
    destruct (py_index_ok ordered (i + 1)) as (high & Hph & Hlh); [lia|].
    by rewrite Hph, Hlh.
Qed.

(** on a sample of the live sample's size or less, each percentile the
    metrics report is computed without an index error and is exactly the order
    statistic at [(n-1)*k/100] of the sorted sample, or the interpolation of
    that sample and the next when the position is fractional. A sample that is
    too small for the percentile reports none. *)
Theorem percentile_correct values k m :
  k ∈ metric_percentages → 1 <= m → zlen values <= SAMPLE_BOUND →
  let n := zlen values in
  let ordered := fsorted values in
  let i := (n - 1) * k / 100 in
  percentile values (proportion_of k) m =
    (if n <? m then Ok None
     else match ordered !! Z.to_nat i, ordered !! Z.to_nat (i + 1) with
          | Some low, Some high =>
            Ok (Some (if (n - 1) * k mod 100 =? 0 then low
                      else interpolate low high (percentile_position n (proportion_of k)) i))
          | Some low, None => Ok (Some low)
          | None, _ => Raise (IndexError "unreachable")
          end) ∧
  (m <= n → is_Some (ordered !! Z.to_nat i) ∧
            ((n - 1) * k mod 100 ≠ 0 → is_Some (ordered !! Z.to_nat (i + 1)))).
Proof. exact (percentile_value values k m). Qed.

Lemma percentile_correct_witness :
  (95 ∈ metric_percentages) ∧ zlen (repeat (of_Z 7) 20) <= SAMPLE_BOUND ∧
  percentile (repeat (of_Z 7) 20) (proportion_of 95) 20 = Ok (Some (of_Z 7)).
Proof.
  split; [vm_compute; right; left|]. split; [vm_compute; discriminate|].
  rewrite (proj1 (percentile_correct (repeat (of_Z 7) 20) 95 20
    ltac:(vm_compute; right; left) ltac:(lia) ltac:(vm_compute; discriminate))).
  vm_compute. reflexivity.
Defined.

(** ** Counters *)

Lemma counter_total_empty : counter_total ∅ = 0.
Proof. reflexivity. Qed.

Lemma counter_total_insert_fresh k n (c : counter) :
  c !! k = None → counter_total (<[k := n]> c) = n + counter_total c.
Proof.
  intros H. unfold counter_total. rewrite map_fold_insert_L; [done| |done]. intros; lia.
Qed.

Lemma counter_total_add k n c : counter_total (count_add k n c) = counter_total c + n.
Proof.
  unfold count_add. destruct (c !! k) as [v|] eqn:E.
  - rewrite <-insert_delete_eq, counter_total_insert_fresh by apply lookup_delete_eq.
    rewrite <-(insert_delete_id c k v E) at 2.
    rewrite counter_total_insert_fresh by apply lookup_delete_eq.
    change (default 0 (Some v)) with v. lia.
  - rewrite counter_total_insert_fresh by done.
    change (default 0 None) with 0. lia.
Qed.

Lemma count_add_lookup k n c j :
  default 0 (count_add k n c !! j) = default 0 (c !! j) + if decide (j = k) then n else 0.
Proof.
  unfold count_add. destruct (decide (j = k)) as [->|].
  - by rewrite lookup_insert_eq.
  - rewrite lookup_insert_ne by done. lia.
Qed.

(** How often a string occurs. *)
Definition occurrences (k : string) (l : list string) : Z :=
  zlen (filter (λ x, x = k) l).

Lemma counter_of_snoc l k : counter_of (l ++ [k]) = count_add k 1 (counter_of l).
Proof. unfold counter_of. by rewrite foldl_app. Qed.

Lemma counter_of_spec l :
  counter_total (counter_of l) = zlen l ∧
  ∀ k, default 0 (counter_of l !! k) = occurrences k l.
Proof.
  induction l as [|x l IH] using rev_ind; [split; [done|intros k; reflexivity]|].
  destruct IH as [IH1 IH2]. rewrite counter_of_snoc. split.
  - rewrite counter_total_add. zlen_lia.
  - intros k. rewrite count_add_lookup, IH2. unfold occurrences.
    rewrite filter_app, zlen_app, filter_cons, filter_nil.
    repeat case_decide; subst; try done; cbn; lia.
Qed.

(** The airtime of one transmitter. *)
Definition airtime_of (k : string) (txs : list string) (airtimes : list Z) : Z :=
  zsum (filter (λ p, p.1 = k) (zip txs airtimes)).*2.

Lemma airtime_of_cons k t txs a airs :
  airtime_of k (t :: txs) (a :: airs) =
  (if decide (k = t) then a else 0) + airtime_of k txs airs.
Proof.
  unfold airtime_of. cbn [zip zip_with]. rewrite filter_cons. cbn [fst].
  repeat case_decide; subst; done.
Qed.

Lemma airtime_by_transmitter_spec txs airs c :
  match airtime_by_transmitter txs airs c with
  | Ok c' => length txs = length airs ∧ counter_total c' = counter_total c + zsum airs ∧
      ∀ k, default 0 (c' !! k) = default 0 (c !! k) + airtime_of k txs airs
  | Raise e => length txs ≠ length airs ∧ ∃ msg, e = ValueError msg
  end.
Proof.
  revert airs c. induction txs as [|t txs IH]; intros [|a airs] c; cbn [airtime_by_transmitter length zsum].
  - split_and!; [done|lia|]. intros k. unfold airtime_of. cbn [zip zip_with].
    rewrite filter_nil. cbn [zsum fmap list_fmap]. lia.
  - eauto.
  - eauto.
  - specialize (IH airs (count_add t a c)).
    destruct (airtime_by_transmitter txs airs (count_add t a c)) as [c'|e].
    + destruct IH as (Hl & Ht & Hk). rewrite counter_total_add in Ht.
      split_and!; [lia..|]. intros k. rewrite Hk, count_add_lookup.
      rewrite airtime_of_cons. lia.
    + destruct IH as [? ?]. split; [lia|done].
Qed.

(** The input carries samples only, no running totals. *)
Definition samples_only (i : metrics_input) : Prop :=
  rf_transmission_count i = None ∧ observed_airtime_ms i = None ∧
  per_node_transmit_counts i = None ∧ per_node_airtime_ms i = None ∧
  drops_by_reason i = None.

(** No index error, and no other, on a sample of this size. *)
Lemma percentile_ok values k m :
  k ∈ metric_percentages → 1 <= m → zlen values <= SAMPLE_BOUND →
  ∃ o, percentile values (proportion_of k) m = Ok o.
Proof.
  intros Hk Hm Hn. destruct (percentile_value values k m Hk Hm Hn) as [-> Hin].
  destruct (Z.ltb_spec (zlen values) m); [by eexists|].
  destruct (Hin ltac:(lia)) as [[low ->] _].
  match goal with |- context [fsorted values !! ?j] => destruct (fsorted values !! j) end;
    eexists; reflexivity.
Qed.

Lemma ratio_ok n d : is_ok (ratio n d) = true.
Proof. unfold ratio, int_truediv. by destruct (d =? 0). Qed.

Lemma calculate_metrics_airtime i s :
  calculate_metrics i = Ok s →
  ∃ air, match per_node_airtime_ms i with
         | None => airtime_by_transmitter (rf_transmitters i) (airtimes_ms i) ∅
         | Some c => Ok c
         end = Ok air ∧
    let m := snapshot_base s in
    m_per_node_airtime_ms m = air ∧
    m_rf_transmissions m = default (zlen (rf_transmitters i)) (rf_transmission_count i) ∧
    m_observed_airtime_ms m = default (zsum (airtimes_ms i)) (observed_airtime_ms i) ∧
    m_per_node_transmit_counts m =
      default (counter_of (rf_transmitters i)) (per_node_transmit_counts i) ∧
    m_drops_by_reason m = default (counter_of (drop_reasons i)) (drops_by_reason i).
Proof.
  unfold calculate_metrics. cbn zeta. intros H. inv_bind H. exists a. split; [exact Ha|].
  do 7 inv_bind H. injection H as <-. done.
Qed.

(** from samples alone, the metrics exist only when every transmission has
    an airtime, and then the per-node tables are the exact breakdown of the
    totals: per-node transmissions sum to the transmission count, per-node
    airtime to the observed airtime, drops by reason to the number of drops. *)
Theorem calculate_metrics_breakdown i :
  samples_only i →
  match calculate_metrics i with
  | Ok s =>
    let m := snapshot_base s in
    length (rf_transmitters i) = length (airtimes_ms i) ∧
    m_rf_transmissions m = zlen (rf_transmitters i) ∧
    counter_total (m_per_node_transmit_counts m) = m_rf_transmissions m ∧
    counter_total (m_per_node_airtime_ms m) = m_observed_airtime_ms m ∧
    counter_total (m_drops_by_reason m) = zlen (drop_reasons i) ∧
    ∀ node,
      default 0 (m_per_node_transmit_counts m !! node) = occurrences node (rf_transmitters i) ∧
      default 0 (m_per_node_airtime_ms m !! node) =
        airtime_of node (rf_transmitters i) (airtimes_ms i)
  | Raise _ => length (rf_transmitters i) ≠ length (airtimes_ms i) ∨
               SAMPLE_BOUND < zlen (latencies_ms i)
  end.
Proof.
  intros (H1 & H2 & H3 & H4 & H5).
  pose proof (airtime_by_transmitter_spec (rf_transmitters i) (airtimes_ms i) ∅) as Hair.
  destruct (calculate_metrics i) as [s|e] eqn:E.
  - apply calculate_metrics_airtime in E as (air & Ha & E). rewrite H4 in Ha. rewrite Ha in Hair.
    cbn zeta in E. destruct E as (E1 & E2 & E3 & E4 & E5).
    cbn zeta. rewrite E1, E2, E3, E4, E5, H1, H2, H3, H5. cbn [default from_option id].
    destruct Hair as (Hl & Ht & Hk). rewrite !(proj1 (counter_of_spec _)), Ht.
    split_and!; [done..|]. intros node. rewrite (proj2 (counter_of_spec _)), Hk. done.
  - destruct (Z.le_gt_cases (zlen (latencies_ms i)) SAMPLE_BOUND) as [Hs|]; [left|right; lia].
    intros Hlen. revert E. unfold calculate_metrics. rewrite H4.
    destruct (airtime_by_transmitter _ _ _) as [air|e'] eqn:Ea; [|by destruct Hair as [? _]].
    assert (∀ k m, k ∈ metric_percentages → 1 <= m →
      ∃ o, percentile_ordered (fsorted (latencies_ms i)) (proportion_of k) m = Ok o) as Hp.
    { intros k m Hk Hm. rewrite <-percentile_sorts. by apply percentile_ok. }
    destruct (Hp 50 1) as [o1 E1]; [vm_compute; left|lia|].
    destruct (Hp 95 20) as [o2 E2]; [vm_compute; right; left|lia|].
    destruct (Hp 99 100) as [o3 E3]; [vm_compute; right; right; left|lia|].
    change (proportion_of 50) with (flit 5 10) in E1.
    change (proportion_of 95) with (flit 95 100) in E2.
    change (proportion_of 99) with (flit 99 100) in E3.
    cbn [mbind res_bind]. cbn zeta. rewrite E1, E2, E3.
    destruct (is_ok_inv _ (ratio_ok (default (Z.of_nat (size (delivered_ids i))) (delivered_count i))
      (generated i))) as [? ->].
    match goal with |- context [ratio ?a ?b] => destruct (is_ok_inv _ (ratio_ok a b)) as [? ->] end.
    match goal with |- context [ratio ?a ?b] => destruct (is_ok_inv _ (ratio_ok a b)) as [? ->] end.
    match goal with |- context [ratio ?a ?b] => destruct (is_ok_inv _ (ratio_ok a b)) as [? ->] end.
    done.
Qed.

Definition sample_input : metrics_input :=
  mkMetricsInput 2 ∅ (Some 1) 0 0 [of_Z 120] ["node-1"%string; "node-2"%string] 1 0 0
    ["link-disabled"%string] [50; 60] None (Some 1) (Some 2) None None None None None None.

Lemma calculate_metrics_breakdown_witness :
  samples_only sample_input ∧
  ∃ s, calculate_metrics sample_input = Ok s ∧
    counter_total (m_per_node_airtime_ms (snapshot_base s)) =
    m_observed_airtime_ms (snapshot_base s).
Proof.
  assert (samples_only sample_input) as H by (repeat split).
  split; [exact H|]. pose proof (calculate_metrics_breakdown sample_input H) as E.
  destruct (calculate_metrics sample_input) as [s|e] eqn:Es.
  - exists s. split; [reflexivity|]. exact (proj1 (proj2 (proj2 (proj2 E)))).
  - vm_compute in Es. discriminate Es.
Defined.
