(* ===== verification/Events.v ===== *)
(** * Event history and subscriptions (src/backend/app/metrics/events.py)

    The event record, the bounded subscription queue of one client, and the
    broker that numbers events, keeps the recent ones and fans them out.  The
    broker's set of subscription objects is a map from object identities.  Wall
    clock stamps, which nothing reads, are left out; monotonic times and new
    stream ids (uuids) are arguments of the operations that read them. *)
From Stdlib Require Import Sorting.Sorted.
From S2P Require Import Prelude PyDict PyFloat.

Inductive EventType :=
| RF_TRANSMIT | LINK_DISABLED | RX_INJECTED | APPLICATION_RECEIVE | ACKNOWLEDGMENT
| ROUTING_ERROR | LINK_UPDATED | COLLISION | NODE_STATE | LIFECYCLE | TRAFFIC | METRICS
| UI_EVENTS_DROPPED.

#[export] Instance EventType_eq_dec : EqDecision EventType.
Proof. solve_decision. Defined.

(** The values of [metricUpdate]: [int | float | dict[str, int] | None]. *)
Inductive metric_value :=
| MInt (n : Z)
| MFloat (x : float)
| MCounts (c : gmap string Z)
| MNone.

Record PacketEvent := mkEvent {
  e_stream_id : string;
  e_sequence : Z;
  monotonic_seconds : float;
  event_type : EventType;
  e_transmitter : option string;
  intended_destination : option string;
  e_receiver : option string;
  receiver_set : list string;
  mesh_packet_id : option Z;
  traffic_run_id : option string;
  traffic_sequence : option Z;
  e_hop_limit : option Z;
  e_hop_start : option Z;
  e_rssi_dbm : option Z;
  e_snr_db : option float;
  port_number : option Z;
  packet_length : option Z;
  e_airtime_ms : option Z;
  metric_update : dict string metric_value;
  e_result : option string;
  e_detail : option string }.
#[export] Instance eta_PacketEvent : Eta PacketEvent := λ r,
  mkEvent (e_stream_id r) (e_sequence r) (monotonic_seconds r) (event_type r) (e_transmitter r)
    (intended_destination r) (e_receiver r) (receiver_set r) (mesh_packet_id r) (traffic_run_id r)
    (traffic_sequence r) (e_hop_limit r) (e_hop_start r) (e_rssi_dbm r) (e_snr_db r)
    (port_number r) (packet_length r) (e_airtime_ms r) (metric_update r) (e_result r) (e_detail r).

(** [PacketEvent(monotonicSeconds=now, eventType=t)], every other field default. *)
Definition new_event (now : float) (t : EventType) : PacketEvent :=
  mkEvent "" 0 now t None None None [] None None None None None None None None None None [] None None.

Record EventHistoryPage := mkHistoryPage {
  page_stream_id : string;
  stream_changed : bool;
  page_events : list PacketEvent;
  first_available_sequence : option Z;
  latest_sequence : Z;
  history_gap : bool;
  has_more : bool }.

(** ** Subscriptions *)

(** [queue] is an asyncio.Queue; a [maxsize] of zero or less is unbounded. *)
Record EventSubscription := mkSubscription {
  queue : list PacketEvent;
  queue_maxsize : Z;
  sub_stream_id : string;
  dropped : Z;
  delivered_drop_notice_last : bool }.
#[export] Instance eta_EventSubscription : Eta EventSubscription := λ r,
  mkSubscription (queue r) (queue_maxsize r) (sub_stream_id r) (dropped r)
    (delivered_drop_notice_last r).

Definition new_subscription (buffer_size : Z) (stream_id : string) : EventSubscription :=
  mkSubscription [] buffer_size stream_id 0 false.

Definition queue_full (s : EventSubscription) : bool :=
  (0 <? queue_maxsize s) && (queue_maxsize s <=? zlen (queue s)).

(** On a full queue the oldest event makes room for the new one. *)
Definition sub_publish (event : PacketEvent) (s : EventSubscription) : EventSubscription :=
  if queue_full s then
    s <| dropped := dropped s + 1 |> <| queue := tail (queue s) ++ [event] |>
  else s <| queue := queue s ++ [event] |>.

Definition reset_event (stream_id : string) (now : float) (detail : string) : PacketEvent :=
  (new_event now UI_EVENTS_DROPPED) <| e_stream_id := stream_id |>
    <| e_result := Some "stream-reset"%string |> <| e_detail := Some detail |>.

Definition sub_restart (stream_id : string) (now : float) (s : EventSubscription)
    : EventSubscription :=
  s <| sub_stream_id := stream_id |> <| dropped := 0 |>
    <| delivered_drop_notice_last := false |>
    <| queue := [reset_event stream_id now
                   "packet evidence was cleared by simulation reset"] |>.

(** [None]: the queue is empty and the caller waits. *)
Definition sub_next (now : float) (s : EventSubscription)
    : option (PacketEvent * EventSubscription) :=
  if negb (dropped s =? 0) && negb (delivered_drop_notice_last s) then
    Some ((new_event now UI_EVENTS_DROPPED) <| e_stream_id := sub_stream_id s |>
            <| e_result := Some "dropped"%string |>
            <| e_detail := Some (pretty (dropped s) +:+
                 " UI events dropped because the client was slow")%string |>,
          s <| dropped := 0 |> <| delivered_drop_notice_last := true |>)
  else match queue s with
       | [] => None
       | event :: rest =>
         Some (event, s <| queue := rest |> <| delivered_drop_notice_last := false |>)
       end.

(** ** The broker *)

(** [history] is a deque of at most [history_maxlen] events. *)
Record EventBroker := mkBroker {
  history : list PacketEvent;
  history_maxlen : Z;
  subscribers : gmap nat EventSubscription;
  b_stream_id : string;
  b_sequence : Z;
  history_evictions : Z;
  subscriber_buffer_size : Z }.
#[export] Instance eta_EventBroker : Eta EventBroker := λ r,
  mkBroker (history r) (history_maxlen r) (subscribers r) (b_stream_id r) (b_sequence r)
    (history_evictions r) (subscriber_buffer_size r).

Definition new_broker (history_size buffer_size : Z) (stream_id : string) : EventBroker :=
  mkBroker [] history_size ∅ stream_id 0 0 buffer_size.

(** [deque.append] on a deque with a maximum length. *)
Definition deque_append {A} (maxlen : Z) (l : list A) (x : A) : list A :=
  let l' := l ++ [x] in drop (Z.to_nat (zlen l' - maxlen)) l'.

Definition publish (event : PacketEvent) (b : EventBroker) : PacketEvent * EventBroker :=
  let sequenced := event <| e_sequence := b_sequence b + 1 |> <| e_stream_id := b_stream_id b |> in
  (sequenced,
   b <| b_sequence := b_sequence b + 1 |>
     <| history_evictions := if zlen (history b) =? history_maxlen b
                             then history_evictions b + 1 else history_evictions b |>
     <| history := deque_append (history_maxlen b) (history b) sequenced |>
     <| subscribers := sub_publish sequenced <$> subscribers b |>).

Definition clear (stream_id : string) (now : float) (b : EventBroker) : EventBroker :=
  b <| history := [] |> <| b_sequence := 0 |> <| history_evictions := 0 |>
    <| b_stream_id := stream_id |>
    <| subscribers := sub_restart stream_id now <$> subscribers b |>.

(** [node_id in {event.transmitter, event.receiver, *event.receiver_set}] *)
Definition event_nodes (event : PacketEvent) (node_id : string) : bool :=
  bool_decide (e_transmitter event = Some node_id) ||
  bool_decide (e_receiver event = Some node_id) ||
  bool_decide (node_id ∈ receiver_set event).

Definition event_matches (node_id : option string) (type : option EventType)
    (event : PacketEvent) : bool :=
  match node_id with Some n => event_nodes event n | None => true end &&
  match type with Some t => bool_decide (event_type event = t) | None => true end.

(** The loop over the reversed history; [result] grows at its end. *)
Fixpoint recent_loop (limit : Z) (node_id : option string) (type : option EventType)
    (events result : list PacketEvent) : list PacketEvent :=
  match events with
  | [] => result
  | event :: events =>
    if event_matches node_id type event then
      let result := result ++ [event] in
      if zlen result =? limit then result else recent_loop limit node_id type events result
    else recent_loop limit node_id type events result
  end.

Definition recent (limit : Z) (node_id : option string) (type : option EventType)
    (b : EventBroker) : list PacketEvent :=
  reverse (recent_loop limit node_id type (reverse (history b)) []).

(** Python's [l[:n]]. *)
Definition py_prefix {A} (n : Z) (l : list A) : list A :=
  take (Z.to_nat (if n <? 0 then zlen l + n else n)) l.

Definition history_page (after_sequence limit : Z) (stream_id : option string)
    (b : EventBroker) : EventHistoryPage :=
  let retained := history b in
  let first_available := e_sequence <$> head retained in
  let changed := match stream_id with
                 | Some s => negb (bool_decide (s = b_stream_id b))
                 | None => false
                 end in
  let effective_after_sequence := if changed then 0 else after_sequence in
  let gap := negb changed && (0 <? after_sequence) &&
             match first_available with Some f => after_sequence <? f - 1 | None => false end in
  let events := py_prefix limit
                  (filter (λ e, effective_after_sequence < e_sequence e) retained) in
  mkHistoryPage (b_stream_id b) changed events first_available (b_sequence b) gap
    match last events with Some e => e_sequence e <? b_sequence b | None => false end.

(** Entering and leaving the [subscribe] context manager. *)
Definition subscribe (id : nat) (b : EventBroker) : EventBroker :=
  b <| subscribers ::= <[id := new_subscription (subscriber_buffer_size b) (b_stream_id b)]> |>.

Definition unsubscribe (id : nat) (b : EventBroker) : EventBroker :=
  b <| subscribers ::= delete id |>.

(** [subscription.next()] of the subscription with identity [id], when it does not wait. *)
Definition next_of (id : nat) (now : float) (b : EventBroker) : option (PacketEvent * EventBroker) :=
  s ← subscribers b !! id;
  '(event, s) ← sub_next now s;
  Some (event, b <| subscribers ::= <[id := s]> |>).

(** ** The broker's invariant *)

Inductive broker_op :=
| OPublish (event : PacketEvent)
| OClear (stream_id : string) (now : float)
| OSubscribe (id : nat)
| OUnsubscribe (id : nat)
| ONext (id : nat) (now : float).

Definition broker_step (b : EventBroker) (op : broker_op) : EventBroker :=
  match op with
  | OPublish event => (publish event b).2
  | OClear stream_id now => clear stream_id now b
  | OSubscribe id => subscribe id b
  | OUnsubscribe id => unsubscribe id b
  | ONext id now => match next_of id now b with Some (_, b') => b' | None => b end
  end.

(** Queued events carry the current stream's id, in sequence order. *)
Record sub_ok (stream_id : string) (seq : Z) (s : EventSubscription) : Prop := {
  so_stream : sub_stream_id s = stream_id;
  so_bound : zlen (queue s) <= queue_maxsize s;
  so_size : 1 <= queue_maxsize s;
  so_dropped : 0 <= dropped s;
  so_events : Forall (λ e, e_stream_id e = stream_id ∧ 0 <= e_sequence e <= seq) (queue s);
  so_sorted : StronglySorted Z.lt (e_sequence <$> queue s) }.

(** The history is the last [min(sequence, maxlen)] events of the stream, in
    order and without gaps; every earlier one is counted as evicted. *)
Record broker_ok (b : EventBroker) : Prop := {
  bo_seq : 0 <= b_sequence b;
  bo_len : zlen (history b) = Z.min (b_sequence b) (history_maxlen b);
  bo_evictions : history_evictions b = b_sequence b - zlen (history b);
  bo_history : ∀ i e, history b !! i = Some e →
    e_sequence e = b_sequence b - zlen (history b) + 1 + Z.of_nat i ∧
    e_stream_id e = b_stream_id b;
  bo_subs : ∀ id s, subscribers b !! id = Some s →
    sub_ok (b_stream_id b) (b_sequence b) s ∧ queue_maxsize s = subscriber_buffer_size b }.

Lemma StronglySorted_snoc {A} (R : A → A → Prop) l x :
  StronglySorted R l → Forall (λ y, R y x) l → StronglySorted R (l ++ [x]).
Proof.
  induction 1 as [|y l Hl IH Hy]; intros H; cbn; [repeat constructor|].
  apply Forall_cons in H as [Hyx H]. constructor; [by apply IH|].
  apply Forall_app. split; [done|by constructor].
Qed.

Lemma StronglySorted_tail {A} (R : A → A → Prop) l :
  StronglySorted R l → StronglySorted R (tail l).
Proof. destruct 1; cbn; [constructor|done]. Qed.

Lemma Forall_tail {A} (P : A → Prop) l : Forall P l → Forall P (tail l).
Proof. destruct 1; cbn; [constructor|done]. Qed.

Lemma queue_full_ok s : 1 <= queue_maxsize s → queue_full s = (queue_maxsize s <=? zlen (queue s)).
Proof. intros H. unfold queue_full. by rewrite (proj2 (Z.ltb_lt 0 _)) by lia. Qed.

Lemma sub_ok_publish sid seq s e :
  sub_ok sid seq s → e_stream_id e = sid → e_sequence e = seq + 1 → 0 <= seq →
  sub_ok sid (seq + 1) (sub_publish e s).
Proof.
  intros [H1 H2 H3 H4 H5 H6] He1 He2 Hs.
  assert (∀ q, Forall (λ e, e_stream_id e = sid ∧ 0 <= e_sequence e <= seq) q →
    StronglySorted Z.lt (e_sequence <$> q) →
    Forall (λ e, e_stream_id e = sid ∧ 0 <= e_sequence e <= seq + 1) (q ++ [e]) ∧
    StronglySorted Z.lt (e_sequence <$> (q ++ [e]))) as Hq.
  { intros q Hq Hss. split.
    - apply Forall_app. split; [eapply Forall_impl; [exact Hq|]; cbn; intros ? [??]; split; [done|lia]|].
      apply Forall_singleton. split; [done|lia].
    - rewrite fmap_app. apply StronglySorted_snoc; [done|].
      apply Forall_fmap. eapply Forall_impl; [exact Hq|]. cbn. intros ? [_ ?]. lia. }
  unfold sub_publish. rewrite queue_full_ok by done.
  destruct (Z.leb_spec (queue_maxsize s) (zlen (queue s))) as [Hf|Hf].
  - destruct (queue s) as [|e0 q] eqn:Eq; [unfold zlen in Hf; cbn in Hf; lia|].
    destruct (Hq q) as [Hq1 Hq2]; [by apply Forall_tail in H5|by apply StronglySorted_tail in H6|].
    unfold set_field. split; cbn; try done; [|lia]. zlen_lia.
  - destruct (Hq (queue s)) as [Hq1 Hq2]; [done..|].
    unfold set_field. split; cbn; try done. zlen_lia.
Qed.

Lemma sub_ok_restart sid sid' seq now s :
  sub_ok sid seq s → sub_ok sid' 0 (sub_restart sid' now s).
Proof.
  intros [H1 H2 H3 H4 H5 H6]. unfold sub_restart, set_field.
  split; cbn; try done; [by apply Forall_singleton|by repeat constructor].
Qed.

Lemma sub_ok_next sid seq now s e s' :
  sub_ok sid seq s → sub_next now s = Some (e, s') → sub_ok sid seq s'.
Proof.
  intros [H1 H2 H3 H4 H5 H6]. unfold sub_next.
  destruct (negb _ && negb _).
  { intros [= <- <-]. unfold set_field. by split. }
  destruct (queue s) as [|e0 q] eqn:Eq; [done|]. intros [= <- <-].
  unfold set_field. split; cbn; try done; [zlen_lia|by apply Forall_tail in H5|].
  by apply StronglySorted_tail in H6.
Qed.

Lemma sub_ok_new sid seq buf : 1 <= buf → sub_ok sid seq (new_subscription buf sid).
Proof. intros H. split; cbn; try done; [zlen_lia|constructor]. Qed.

Lemma deque_append_lookup {A} maxlen (l : list A) x :
  zlen l <= maxlen → 
  zlen (deque_append maxlen l x) = Z.min (zlen l + 1) maxlen ∧
  ∀ i, deque_append maxlen l x !! i =
       (l ++ [x]) !! (i + Z.to_nat (zlen l + 1 - maxlen))%nat.
Proof.
  intros H. unfold deque_append. rewrite zlen_app. change (zlen [x]) with 1. split.
  - unfold zlen in *. rewrite length_drop, length_app. cbn [length]. lia.
  - intros i. rewrite lookup_drop. f_equal. lia.
Qed.

Lemma broker_ok_publish b e : 0 <= history_maxlen b → broker_ok b → broker_ok (publish e b).2.
Proof.
  intros Hmax [H1 H2 H3 H4 H5]. unfold publish. cbn [snd].
  set (ev := e <| e_sequence := _ |> <| e_stream_id := _ |>).
  assert (e_sequence ev = b_sequence b + 1 ∧ e_stream_id ev = b_stream_id b) as [E1 E2] by done.
  destruct (deque_append_lookup (history_maxlen b) (history b) ev ltac:(lia)) as [Hl Hi].
  unfold set_field. split; cbn.
  - lia.
  - lia.
  - destruct (Z.eqb_spec (zlen (history b)) (history_maxlen b)); lia.
  - intros i e'. rewrite Hi, Hl. intros [He|[He Hx]]%lookup_app_Some.
    + apply H4 in He as [-> ->]. split; [lia|done].
    + assert (i + Z.to_nat (zlen (history b) + 1 - history_maxlen b) - length (history b) = 0)%nat as Hz
        by (apply lookup_lt_Some in Hx; cbn in Hx; lia).
      rewrite Hz in Hx. injection Hx as <-. rewrite E1, E2. split; [|done]. unfold zlen in *. lia.
  - intros id s. rewrite lookup_fmap. destruct (subscribers b !! id) as [s0|] eqn:Es; [|done].
    intros [= <-]. apply H5 in Es as [Es1 Es2]. split; [by apply sub_ok_publish|].
    unfold sub_publish, set_field. by destruct (queue_full s0).
Qed.

Lemma sub_next_maxsize now s e s' :
  sub_next now s = Some (e, s') → queue_maxsize s' = queue_maxsize s.
Proof.
  unfold sub_next. destruct (negb _ && negb _); [by intros [= <- <-]|].
  destruct (queue s); [done|]. by intros [= <- <-].
Qed.

Lemma broker_ok_step b op :
  0 <= history_maxlen b → 1 <= subscriber_buffer_size b → broker_ok b → broker_ok (broker_step b op).
Proof.
  intros Hmax Hbuf Hok. destruct op as [e|sid now|id|id|id now]; cbn [broker_step].
  - by apply broker_ok_publish.
  - destruct Hok as [H1 H2 H3 H4 H5]. unfold clear, set_field. split; cbn; [lia|zlen_lia|zlen_lia|intros i e; by rewrite lookup_nil|].
    intros id s. rewrite lookup_fmap. destruct (subscribers b !! id) eqn:Es; [|done].
    intros [= <-]. apply H5 in Es as [Es1 Es2]. split; [by eapply sub_ok_restart|done].
  - destruct Hok as [H1 H2 H3 H4 H5]. unfold subscribe, set_field. split; cbn; try done.
    intros id' s. destruct (decide (id = id')) as [->|].
    + rewrite lookup_insert_eq. intros [= <-]. split; [by apply sub_ok_new|done].
    + rewrite lookup_insert_ne by done. apply H5.
  - destruct Hok as [H1 H2 H3 H4 H5]. unfold unsubscribe, set_field. split; cbn; try done.
    intros id' s [_ Hs]%lookup_delete_Some. by apply H5 in Hs.
  - unfold next_of. destruct (subscribers b !! id) as [s|] eqn:Es; [|done].
    cbn [mbind option_bind]. destruct (sub_next now s) as [[e s']|] eqn:En; [|done].
    destruct Hok as [H1 H2 H3 H4 H5]. cbn. unfold set_field. split; cbn; try done.
    intros id' s''. destruct (decide (id = id')) as [<-|].
    + rewrite lookup_insert_eq. intros [= <-]. apply H5 in Es as [Es1 Es2].
      split; [by eapply sub_ok_next|]. rewrite <-Es2. by eapply sub_next_maxsize.
    + rewrite lookup_insert_ne by done. apply H5.
Qed.

Lemma broker_step_sizes b op :
  history_maxlen (broker_step b op) = history_maxlen b ∧
  subscriber_buffer_size (broker_step b op) = subscriber_buffer_size b.
Proof.
  destruct op as [e|sid now|id|id|id now]; [done..|]. cbn. unfold next_of.
  destruct (subscribers b !! id) as [s|]; [|done].
  cbn [mbind option_bind]. by destruct (sub_next now s) as [[e s']|].
Qed.

Lemma broker_ok_run b ops :
  0 <= history_maxlen b → 1 <= subscriber_buffer_size b → broker_ok b →
  broker_ok (foldl broker_step b ops).
Proof.
  revert b. induction ops as [|op ops IH]; intros b H1 H2 Hok; cbn; [done|].
  destruct (broker_step_sizes b op) as [E1 E2].
  apply IH; [lia..|]. by apply broker_ok_step.
Qed.

Lemma broker_ok_new h buf sid : 0 <= h → broker_ok (new_broker h buf sid).
Proof. intros H. split; cbn; try done. change (@zlen PacketEvent []) with 0. lia. Qed.

Lemma foldl_sizes ops b :
  (history_maxlen b, subscriber_buffer_size b) =
  (history_maxlen (foldl broker_step b ops), subscriber_buffer_size (foldl broker_step b ops)).
Proof.
  revert b. induction ops as [|op ops IH]; intros b; cbn; [done|]. rewrite <-IH.
  destruct (broker_step_sizes b op) as [-> ->]. done.
Qed.

(** C13: whatever clients and producers do, the history holds exactly the last
    [maxlen] events of the stream, numbered without gaps up to the broker's
    sequence and labelled with its stream; every earlier event is counted as
    evicted; no client's queue exceeds its bound, and each holds current events
    in increasing order. *)
Theorem broker_invariant h buf sid ops :
  0 <= h → 1 <= buf →
  let b := foldl broker_step (new_broker h buf sid) ops in
  0 <= b_sequence b ∧
  (e_sequence <$> history b) = seqZ (history_evictions b + 1) (zlen (history b)) ∧
  Forall (λ e, e_stream_id e = b_stream_id b) (history b) ∧
  zlen (history b) = Z.min (b_sequence b) h ∧
  history_evictions b = b_sequence b - zlen (history b) ∧
  ∀ id s, subscribers b !! id = Some s →
    zlen (queue s) <= buf ∧ sub_stream_id s = b_stream_id b ∧
    StronglySorted Z.lt (e_sequence <$> queue s) ∧
    Forall (λ e, e_stream_id e = b_stream_id b ∧ 0 <= e_sequence e <= b_sequence b) (queue s).
Proof.
  intros Hh Hbuf b.
  assert (broker_ok b) as [H1 H2 H3 H4 H5] by (apply broker_ok_run, broker_ok_new; done).
  assert (history_maxlen b = h ∧ subscriber_buffer_size b = buf) as [Eh Eb].
  { pose proof (foldl_sizes ops (new_broker h buf sid)) as E. fold b in E. by injection E. }
  rewrite Eh in H2. split_and!; [done| | |done|done|].
  - apply list_eq. intros i. rewrite list_lookup_fmap.
    destruct (history b !! i) as [e|] eqn:E; cbn.
    + apply H4 in E as Ee. destruct Ee as [-> _]. symmetry. apply lookup_seqZ.
      apply lookup_lt_Some in E. unfold zlen in *. lia.
    + symmetry. apply lookup_seqZ_ge. apply lookup_ge_None in E. unfold zlen. lia.
  - apply Forall_lookup. intros i e He. by apply H4 in He as [_ ?].
  - intros id s Hs. apply H5 in Hs as [[A1 A2 A3 A4 A5 A6] As]. rewrite Eb in As.
    split_and!; [lia|done..].
Qed.

Definition demo_event : PacketEvent := new_event fzero NODE_STATE.

Lemma broker_invariant_witness :
  let b := foldl broker_step (new_broker 2 1 "s")
             [OSubscribe 7; OPublish demo_event; OPublish demo_event; OPublish demo_event] in
  history_evictions b = 1 ∧ (e_sequence <$> history b) = [2; 3].
Proof.
  pose proof (broker_invariant 2 1 "s"
    [OSubscribe 7; OPublish demo_event; OPublish demo_event; OPublish demo_event]
    ltac:(lia) ltac:(lia)) as (_ & H & _ & _ & He & _).
  split; [exact He|exact H].
Defined.

(** ** Replay *)

Lemma filter_contiguous (h : list PacketEvent) base after :
  (∀ i e, h !! i = Some e → e_sequence e = base + 1 + Z.of_nat i) →
  filter (λ e, after < e_sequence e) h = drop (Z.to_nat (after - base)) h.
Proof.
  revert base. induction h as [|e h IH]; intros base H; [by rewrite filter_nil, drop_nil|].
  assert (e_sequence e = base + 1) as He by (rewrite (H 0%nat e) by done; lia).
  assert (∀ i e', h !! i = Some e' → e_sequence e' = (base + 1) + 1 + Z.of_nat i) as Hh.
  { intros i e' Hi. rewrite (H (S i) e') by done. lia. }
  rewrite filter_cons, (IH (base + 1)) by done. case_decide as Hd.
  - replace (Z.to_nat (after - base)) with 0%nat by lia.
    replace (Z.to_nat (after - (base + 1))) with 0%nat by lia. done.
  - replace (Z.to_nat (after - base)) with (S (Z.to_nat (after - (base + 1)))) by lia. done.
Qed.

(** The retained events after a cursor. *)
Definition retained_after (after : Z) (b : EventBroker) : list PacketEvent :=
  filter (λ e, after < e_sequence e) (history b).

Lemma retained_after_drop b after :
  broker_ok b →
  retained_after after b = drop (Z.to_nat (after - (b_sequence b - zlen (history b)))) (history b).
Proof.
  intros Hok. apply filter_contiguous. intros i e He. apply (bo_history b Hok) in He. lia.
Qed.

Lemma retained_after_last b after limit e :
  broker_ok b → last (take limit (retained_after after b)) = Some e →
  retained_after (e_sequence e) b = drop limit (retained_after after b) ∧
  e_sequence e = b_sequence b - zlen (drop limit (retained_after after b)).
Proof.
  intros Hok. rewrite !retained_after_drop by done.
  set (base := b_sequence b - zlen (history b)). set (k := Z.to_nat (after - base)).
  rewrite last_lookup, length_take, length_drop. intros He.
  assert (is_Some (take limit (drop k (history b)) !! Init.Nat.pred (limit `min` (length (history b) - k))))
    as Hl by (by eexists).
  apply lookup_lt_is_Some in Hl. rewrite length_take, length_drop in Hl.
  rewrite lookup_take_lt, lookup_drop in He by lia.
  apply (bo_history b Hok) in He as [He _]. fold base in He. rewrite He, drop_drop.
  unfold zlen. rewrite length_drop. unfold base, zlen. split.
  - destruct (decide (limit <= length (history b) - k)%nat).
    + f_equal. lia.
    + rewrite !drop_ge; [done|lia..].
  - lia.
Qed.

(** a page holds the first [limit] retained events after the client's
    cursor (all of the stream when the client names another stream), in order;
    [hasMore] says exactly whether events remain, and a request from the page's
    last event continues with exactly the remaining ones, so that following
    [hasMore] replays every retained event once. [historyGap] is set exactly
    when an event the client has not seen was evicted. *)
Theorem history_page_correct b after limit stream :
  broker_ok b → 1 <= history_maxlen b → 0 <= after → 1 <= limit →
  let p := history_page after limit stream b in
  let changed := stream_changed p in
  let rest := retained_after (if changed then 0 else after) b in
  (changed = true ↔ ∃ s, stream = Some s ∧ s ≠ b_stream_id b) ∧
  page_events p = take (Z.to_nat limit) rest ∧
  has_more p = (limit <? zlen rest) ∧
  (∀ e, last (page_events p) = Some e →
    retained_after (e_sequence e) b = drop (Z.to_nat limit) rest) ∧
  (history_gap p = true ↔ changed = false ∧ 0 < after < history_evictions b).
Proof.
  intros Hok Hmax Hafter Hlimit. cbn zeta.
  set (p := history_page after limit stream b).
  assert (page_events p = take (Z.to_nat limit)
    (retained_after (if stream_changed p then 0 else after) b)) as Hev.
  { unfold p, history_page. cbn. unfold py_prefix, retained_after.
    by rewrite (proj2 (Z.ltb_ge limit 0)) by lia. }
  split_and!.
  - unfold p, history_page. cbn. destruct stream as [s|]; [|naive_solver].
    rewrite negb_true_iff, bool_decide_eq_false. naive_solver.
  - done.
  - assert (has_more p = match last (page_events p) with
      | Some e => e_sequence e <? b_sequence b | None => false end) as -> by done.
    rewrite Hev. set (rest := retained_after _ b).
    destruct (last (take (Z.to_nat limit) rest)) as [e|] eqn:El.
    + apply retained_after_last in El as [_ ->]; [|done]. unfold zlen. rewrite length_drop.
      fold rest. apply eq_bool_prop_intro.
      rewrite !Is_true_true, !Z.ltb_lt. lia.
    + apply last_None in El. symmetry. apply Z.ltb_ge.
      destruct rest as [|x rest]; [zlen_lia|].
      destruct (Z.to_nat limit) eqn:E; [lia|done].
  - rewrite Hev. intros e He. by apply retained_after_last in He as [-> _].
  - unfold p, history_page. cbn. destruct (match stream with Some s => _ | None => _ end); cbn;
      [naive_solver|].
    rewrite andb_true_iff, Z.ltb_lt. rewrite (bo_evictions b Hok).
    destruct (history b) as [|e0 h] eqn:Eh; cbn.
    + pose proof (bo_len b Hok) as Hl. rewrite Eh in Hl. change (zlen []) with 0 in *.
      pose proof (bo_seq b Hok). split; [by intros []|]. lia.
    + pose proof (bo_history b Hok 0%nat e0) as H0. rewrite Eh in H0. destruct (H0 eq_refl) as [-> _].
      rewrite Z.ltb_lt. lia.
Qed.

Definition demo_broker : EventBroker :=
  foldl broker_step (new_broker 2 4 "s")
    [OSubscribe 7; OPublish demo_event; OPublish demo_event; OPublish demo_event].

Lemma history_page_correct_witness :
  broker_ok demo_broker ∧ 1 <= history_maxlen demo_broker ∧
  has_more (history_page 1 1 None demo_broker) = true ∧
  e_sequence <$> page_events (history_page 1 1 None demo_broker) = [2].
Proof.
  assert (broker_ok demo_broker) as H
    by (apply broker_ok_run; [cbn; lia..|apply broker_ok_new; lia]).
  split; [exact H|]. split; [cbn; lia|].
  pose proof (history_page_correct demo_broker 1 1 None H ltac:(cbn; lia) ltac:(lia) ltac:(lia))
    as (_ & He & Hm & _). rewrite Hm, He. split; reflexivity.
Defined.

(** ** Recent events *)

Lemma recent_loop_spec limit node type events result :
  zlen result < limit ∨ limit <= 0 →
  recent_loop limit node type events result =
  result ++ (if limit <=? 0 then id else take (Z.to_nat (limit - zlen result)))
              (filter (λ e, event_matches node type e = true) events).
Proof.
  revert result. induction events as [|e events IH]; intros result Hr; cbn [recent_loop].
  - rewrite filter_nil. destruct (limit <=? 0); cbn; [by rewrite app_nil_r|].
    by rewrite take_nil, app_nil_r.
  - rewrite filter_cons. destruct (event_matches node type e) eqn:E.
    + rewrite decide_True by done. rewrite zlen_app. change (zlen [e]) with 1.
      destruct (Z.eqb_spec (zlen result + 1) limit) as [El|El].
      * rewrite (proj2 (Z.leb_gt limit 0)) by (pose proof (zlen_nonneg result); lia).
        by replace (Z.to_nat (limit - zlen result)) with 1%nat by lia.
      * rewrite IH by (rewrite zlen_app; change (zlen [e]) with 1; lia).
        rewrite <-app_assoc, zlen_app. change (zlen [e]) with 1. f_equal.
        destruct (Z.leb_spec limit 0); [done|].
        replace (Z.to_nat (limit - zlen result)) with (S (Z.to_nat (limit - (zlen result + 1))))
          by lia. done.
    + rewrite decide_False by congruence. by apply IH.
Qed.

(** [recent] returns the latest [limit] retained events that name the node
    (as transmitter, receiver or in the receiver set) and have the type, in
    their order of publication. *)
Theorem recent_correct limit node type b :
  1 <= limit →
  let matching := filter (λ e, event_matches node type e = true) (history b) in
  recent limit node type b = drop (length matching - Z.to_nat limit) matching.
Proof.
  intros Hlimit. cbn zeta. set (matching := filter _ _). unfold recent.
  rewrite recent_loop_spec by (change (@zlen PacketEvent []) with 0; lia).
  rewrite (proj2 (Z.leb_gt limit 0)) by lia. change (@zlen PacketEvent []) with 0.
  rewrite Z.sub_0_r. cbn [app].
  rewrite filter_reverse. fold matching. by rewrite take_reverse, reverse_involutive.
Qed.

Lemma recent_correct_witness :
  1 <= 1 ∧ e_sequence <$> recent 1 None (Some NODE_STATE) demo_broker = [3].
Proof.
  split; [lia|]. rewrite (recent_correct 1 None (Some NODE_STATE) demo_broker); [|lia].
  reflexivity.
Defined.

(** ** One client's view *)

Inductive sub_op := SPublish (event : PacketEvent) | SNext (now : float).

(** What was published to a subscription, what its client received, and how
    many lost events the notices it received announced. *)
Record sub_trace := mkTrace {
  t_sub : EventSubscription;
  t_published : list PacketEvent;
  t_received : list PacketEvent;
  t_announced : Z }.

Definition sub_step (t : sub_trace) (op : sub_op) : sub_trace :=
  match op with
  | SPublish e => mkTrace (sub_publish e (t_sub t)) (t_published t ++ [e]) (t_received t) (t_announced t)
  | SNext now =>
    match sub_next now (t_sub t) with
    | None => t
    | Some (e, s) =>
      if dropped s =? dropped (t_sub t) then
        mkTrace s (t_published t) (t_received t ++ [e]) (t_announced t)
      else mkTrace s (t_published t) (t_received t)
             (t_announced t + (dropped (t_sub t) - dropped s))
    end
  end.

Definition sub_run (buffer_size : Z) (stream_id : string) (ops : list sub_op) : sub_trace :=
  foldl sub_step (mkTrace (new_subscription buffer_size stream_id) [] [] 0) ops.

Record trace_ok (buf : Z) (t : sub_trace) : Prop := {
  to_size : queue_maxsize (t_sub t) = buf;
  to_bound : zlen (queue (t_sub t)) <= buf;
  to_dropped : 0 <= dropped (t_sub t);
  to_announced : 0 <= t_announced t;
  to_count : zlen (t_published t) =
    zlen (t_received t) + zlen (queue (t_sub t)) + dropped (t_sub t) + t_announced t;
  to_order : ∃ earlier, t_published t = earlier ++ queue (t_sub t) ∧
    t_received t `sublist_of` earlier }.

Lemma trace_ok_step buf t op : 1 <= buf → trace_ok buf t → trace_ok buf (sub_step t op).
Proof.
  intros Hbuf [H1 H2 H3 H4 H5 (earlier & H6 & H7)]. destruct op as [e|now]; cbn [sub_step].
  - unfold sub_publish. rewrite queue_full_ok by lia. rewrite H1.
    destruct (Z.leb_spec buf (zlen (queue (t_sub t)))) as [Hf|Hf]; unfold set_field.
    + destruct (queue (t_sub t)) as [|e0 q] eqn:Eq; [zlen_lia|].
      split; cbn; rewrite ?zlen_app, ?zlen_cons in *; try (zlen_lia || done).
      exists (earlier ++ [e0]). rewrite H6, <-!app_assoc. split; [done|].
      by apply sublist_inserts_r.
    + split; cbn; rewrite ?zlen_app in *; try (zlen_lia || done).
      exists earlier. by rewrite H6, <-app_assoc.
  - unfold sub_next. destruct (negb (dropped (t_sub t) =? 0) && negb _) eqn:En.
    + apply andb_true_iff in En as [En _]. apply negb_true_iff, Z.eqb_neq in En.
      unfold set_field. cbn [dropped]. rewrite (proj2 (Z.eqb_neq 0 (dropped (t_sub t)))) by lia.
      split; cbn; try (lia || done). by exists earlier.
    + destruct (queue (t_sub t)) as [|e0 q] eqn:Eq.
      * split; rewrite ?Eq; try done. by exists earlier.
      * unfold set_field. cbn [dropped]. rewrite Z.eqb_refl.
        split; cbn; rewrite ?zlen_app, ?zlen_cons in *; try (zlen_lia || done).
        exists (earlier ++ [e0]). rewrite H6, <-app_assoc. split; [done|]. by apply sublist_app.
Qed.

Lemma trace_ok_run buf sid ops : 1 <= buf → trace_ok buf (sub_run buf sid ops).
Proof.
  intros Hbuf. unfold sub_run.
  assert (trace_ok buf (mkTrace (new_subscription buf sid) [] [] 0)) as H.
  { split; cbn; try (zlen_lia || done). by exists []. }
  revert H. generalize (mkTrace (new_subscription buf sid) [] [] 0).
  induction ops as [|op ops IH]; intros t Ht; cbn; [done|]. by apply IH, trace_ok_step.
Qed.

(** a slow client never blocks the producer nor exceeds its buffer; it
    receives events in the order they were published, each at most once; every
    published event was received, is queued, or is counted as lost, in the
    pending count or in a notice it received; and when nothing was lost, what it
    received and what is queued are exactly what was published. *)
Theorem subscription_accounting buf sid ops :
  1 <= buf →
  let t := sub_run buf sid ops in
  let lost := dropped (t_sub t) + t_announced t in
  zlen (queue (t_sub t)) <= buf ∧ 0 <= lost ∧
  zlen (t_published t) = zlen (t_received t) + zlen (queue (t_sub t)) + lost ∧
  (t_received t ++ queue (t_sub t)) `sublist_of` t_published t ∧
  (lost = 0 → t_received t ++ queue (t_sub t) = t_published t).
Proof.
  intros Hbuf t lost. destruct (trace_ok_run buf sid ops Hbuf) as [H1 H2 H3 H4 H5 (earlier & H6 & H7)].
  fold t in H1, H2, H3, H4, H5, H6, H7. unfold lost.
  split_and!; [done|lia|lia| |].
  - rewrite H6. by apply sublist_app.
  - intros Hz. rewrite H6. f_equal. apply sublist_length_eq; [done|].
    rewrite H6, zlen_app in H5. unfold zlen in H5. lia.
Qed.

Lemma subscription_accounting_witness :
  let t := sub_run 1 "s" [SPublish demo_event; SPublish demo_event; SNext fzero; SNext fzero] in
  1 <= 1 ∧ zlen (t_received t) = 1 ∧ t_announced t = 1 ∧
  zlen (t_published t) = zlen (t_received t) + zlen (queue (t_sub t)) + (dropped (t_sub t) + t_announced t).
Proof.
  split; [lia|]. split; [reflexivity|]. split; [reflexivity|].
  exact (proj1 (proj2 (proj2 (subscription_accounting 1 "s"
    [SPublish demo_event; SPublish demo_event; SNext fzero; SNext fzero] ltac:(lia))))).
Defined.

(** ** The interface producers publish through

    The medium, the traffic controller and the service only publish events and
    read the current stream id.  Their models are over any such sink: the broker,
    or the unbounded log [event_log] their theorems count events with. *)
Class EventSink (B : Type) := {
  sink_publish : PacketEvent → B → PacketEvent * B;
  sink_stream_id : B → string }.

#[export] Instance broker_sink : EventSink EventBroker := {|
  sink_publish := publish;
  sink_stream_id := b_stream_id |}.

Record event_log := mkLog { log_events : list PacketEvent; log_stream : string }.

#[export] Instance log_sink : EventSink event_log := {|
  sink_publish e l :=
    let e := e <| e_sequence := zlen (log_events l) + 1 |> <| e_stream_id := log_stream l |> in
    (e, mkLog (log_events l ++ [e]) (log_stream l));
  sink_stream_id := log_stream |}.

(** Publishing several events in order. *)
Definition publish_all {B} `{EventSink B} (es : list PacketEvent) (b : B) : B :=
  foldl (λ b e, (sink_publish e b).2) b es.

(** The broker is the log cut to its last [history_maxlen] events. *)
Definition log_of_broker (b : EventBroker) (l : event_log) : Prop :=
  log_stream l = b_stream_id b ∧ zlen (log_events l) = b_sequence b ∧
  history b = drop (length (log_events l) - Z.to_nat (history_maxlen b)) (log_events l).

Lemma deque_append_tail {A} m (l : list A) x :
  0 <= m →
  deque_append m (drop (length l - Z.to_nat m) l) x =
  drop (length (l ++ [x]) - Z.to_nat m) (l ++ [x]).
Proof.
  intros Hm. unfold deque_append.
  assert (drop (length l - Z.to_nat m) l ++ [x] = drop (length l - Z.to_nat m) (l ++ [x])) as ->.
  { symmetry. apply drop_app_le. lia. }
  rewrite drop_drop. f_equal. unfold zlen. rewrite length_drop, length_app. cbn [length]. lia.
Qed.

(** C30: publishing to the broker refines publishing to an unbounded log: it
    returns the same numbered event, and the broker's history stays the log's
    last [history_maxlen] events. *)
Theorem broker_refines_log b l e :
  0 <= history_maxlen b → log_of_broker b l →
  (sink_publish e b).1 = (sink_publish e l).1 ∧
  log_of_broker (sink_publish e b).2 (sink_publish e l).2.
Proof.
  intros Hmax (H1 & H2 & H3). cbn [sink_publish broker_sink log_sink].
  unfold publish. cbn [fst snd]. rewrite H1, H2. split; [done|].
  unfold log_of_broker, set_field. cbn. split_and!; [done|zlen_lia|].
  rewrite H3. by apply deque_append_tail.
Qed.

Lemma broker_refines_log_witness :
  let b := new_broker 2 1 "s" in let l := mkLog [] "s" in
  log_of_broker b l ∧ (sink_publish demo_event b).1 = (sink_publish demo_event l).1.
Proof.
  assert (log_of_broker (new_broker 2 1 "s") (mkLog [] "s")) as H by (split_and!; reflexivity).
  split; [exact H|].
  exact (proj1 (broker_refines_log (new_broker 2 1 "s") (mkLog [] "s") demo_event ltac:(cbn; lia) H)).
Defined.
