(* ===== verification/EventStream.v ===== *)
(** * The event websocket (src/backend/app/main.py, event_stream)

    One client connection over a broker that other tasks keep publishing to,
    clearing and subscribing to: the replay sent on connection, and the loop that
    forwards the subscription while discarding what was already sent. Everything
    the client is sent is kept in [w_sent]. *)
From Stdlib Require Import Sorting.Sorted.
From S2P Require Import Prelude PyDict PyFloat Events.

Record ws_state := mkWs {
  w_broker : EventBroker;
  sent_stream_id : string;
  sent_sequence : Z;
  w_sent : list PacketEvent }.
#[export] Instance eta_ws_state : Eta ws_state := λ r,
  mkWs (w_broker r) (sent_stream_id r) (sent_sequence r) (w_sent r).

(** Subscribing, reading the history page (no await in between) and sending the
    notice and the page. *)
Definition ws_connect (id : nat) (after_sequence : Z) (stream_id : option string) (now : float)
    (b : EventBroker) : ws_state :=
  let b := subscribe id b in
  let page := history_page after_sequence 5000 stream_id b in
  let notice result detail :=
    (new_event now UI_EVENTS_DROPPED) <| e_stream_id := page_stream_id page |>
      <| e_result := Some result |> <| e_detail := Some detail |> in
  let notices :=
    if stream_changed page then
      [notice "stream-reset" "the event stream restarted; replaying retained history"]
    else if history_gap page then
      [notice "history-gap" ("event history before sequence " +:+
         match first_available_sequence page with Some n => pretty n | None => "None" end +:+
         " is no longer available")]
    else [] in
  mkWs b (page_stream_id page) (latest_sequence page) (notices ++ page_events page).

(** The body of the loop for one event taken from the subscription. *)
Definition ws_forward (event : PacketEvent) (w : ws_state) : ws_state :=
  let w := if bool_decide (e_stream_id event = sent_stream_id w) then w
           else w <| sent_stream_id := e_stream_id event |> <| sent_sequence := 0 |> in
  if negb (e_sequence event =? 0) && (e_sequence event <=? sent_sequence w) then w
  else w <| w_sent ::= (λ l, l ++ [event]) |>
         <| sent_sequence ::= (λ n, Z.max n (e_sequence event)) |>.

Inductive ws_op :=
| WDeliver (now : float)
| WBroker (op : broker_op).

(** [WBroker]: what the rest of the program does to the broker meanwhile. *)
Definition ws_step (id : nat) (w : ws_state) (op : ws_op) : ws_state :=
  match op with
  | WDeliver now =>
    match next_of id now (w_broker w) with
    | None => w
    | Some (event, b) => ws_forward event (w <| w_broker := b |>)
    end
  | WBroker op => w <| w_broker ::= (λ b, broker_step b op) |>
  end.

(** ** The client can detect every gap *)

(** Other tasks do not use this client's subscription. *)
Definition foreign (id : nat) (op : ws_op) : bool :=
  match op with
  | WBroker (OSubscribe id') | WBroker (OUnsubscribe id') | WBroker (ONext id' _) =>
    negb (Nat.eqb id id')
  | _ => true
  end.

(** The uuids of the streams a run goes through. *)
Definition cleared (ops : list ws_op) : list string :=
  ops ≫= λ op, match op with WBroker (OClear sid _) => [sid] | _ => [] end.

(** Numbered events, as opposed to notices. *)
Definition numbered (e : PacketEvent) : Prop := e_sequence e ≠ 0.

(** Numbered events sent one directly after the other are consecutive. *)
Definition gaps_announced (sent : list PacketEvent) : Prop :=
  ∀ i e1 e2, sent !! i = Some e1 → sent !! S i = Some e2 → numbered e1 → numbered e2 →
    e_stream_id e1 = e_stream_id e2 ∧ e_sequence e2 = e_sequence e1 + 1.

(** Numbered events of a stream are sent in increasing order. *)
Definition increasing (sent : list PacketEvent) : Prop :=
  ∀ i j e1 e2, (i < j)%nat → sent !! i = Some e1 → sent !! j = Some e2 →
    numbered e1 → numbered e2 → e_stream_id e1 = e_stream_id e2 → e_sequence e1 < e_sequence e2.

(** A queue whose numbered events run without gaps up to [seq]. *)
Definition queue_run (stream : string) (seq : Z) (pre evs : list PacketEvent) : Prop :=
  (∀ e, e ∈ pre ++ evs → e_stream_id e = stream) ∧
  (∀ e, e ∈ pre → e_sequence e = 0) ∧
  (∀ i e, evs !! i = Some e → e_sequence e = seq - zlen evs + 1 + Z.of_nat i) ∧
  zlen evs <= seq.

Record ws_ok (id : nat) (used : list string) (w : ws_state) : Prop := {
  wo_used : sent_stream_id w ∈ used ∧ b_stream_id (w_broker w) ∈ used ∧
    ∀ e, e ∈ w_sent w → e_stream_id e ∈ used;
  wo_nonneg : 0 <= sent_sequence w ∧ ∀ e, e ∈ w_sent w → 0 <= e_sequence e;
  wo_sub : ∃ s pre evs, subscribers (w_broker w) !! id = Some s ∧ queue s = pre ++ evs ∧
    1 <= queue_maxsize s ∧ zlen (queue s) <= queue_maxsize s ∧
    sub_stream_id s = b_stream_id (w_broker w) ∧ 0 <= dropped s ∧
    queue_run (b_stream_id (w_broker w)) (b_sequence (w_broker w)) pre evs ∧
    (sent_stream_id w = b_stream_id (w_broker w) →
      pre = [] ∧ sent_sequence w <= b_sequence (w_broker w) - zlen evs ∧
      (∀ e, e ∈ w_sent w → e_stream_id e = sent_stream_id w → e_sequence e <= sent_sequence w) ∧
      (∀ e, last (w_sent w) = Some e → numbered e →
        e_stream_id e = sent_stream_id w ∧ e_sequence e = sent_sequence w ∧
        delivered_drop_notice_last s = false ∧
        (dropped s = 0 → sent_sequence w = b_sequence (w_broker w) - zlen evs))) ∧
    (sent_stream_id w ≠ b_stream_id (w_broker w) →
      delivered_drop_notice_last s = false ∧
      ((∃ e, pre = [e] ∧ dropped s = 0) ∨ (pre = [] ∧ 0 < dropped s)) ∧
      ∀ e, e ∈ w_sent w → e_stream_id e ≠ b_stream_id (w_broker w));
  wo_gaps : gaps_announced (w_sent w);
  wo_increasing : increasing (w_sent w) }.

Lemma snoc_pairs {A} (P : A → A → Prop) (l : list A) x i a b :
  (l ++ [x]) !! i = Some a → (l ++ [x]) !! S i = Some b →
  (l !! i = Some a ∧ l !! S i = Some b) ∨ (last l = Some a ∧ b = x).
Proof.
  intros Ha Hb. apply lookup_lt_Some in Hb as Hlt. rewrite length_app in Hlt. cbn in Hlt.
  destruct (decide (S i < length l)%nat) as [Hi|Hi].
  - rewrite lookup_app_l in Ha, Hb by lia. by left.
  - rewrite lookup_app_l in Ha by lia. rewrite lookup_app_r in Hb by lia.
    replace (S i - length l)%nat with 0%nat in Hb by lia. injection Hb as <-.
    right. split; [|done]. rewrite last_lookup. by replace (Init.Nat.pred (length l)) with i by lia.
Qed.

Lemma gaps_snoc l e :
  gaps_announced l →
  (∀ e1, last l = Some e1 → numbered e1 → numbered e →
    e_stream_id e1 = e_stream_id e ∧ e_sequence e = e_sequence e1 + 1) →
  gaps_announced (l ++ [e]).
Proof.
  intros Hl He i e1 e2 H1 H2. destruct (snoc_pairs (λ _ _, True) l e i e1 e2 H1 H2) as [[? ?]|[? ->]].
  - by apply (Hl i).
  - by apply He.
Qed.

Lemma increasing_snoc l e :
  increasing l →
  (numbered e → ∀ e1, e1 ∈ l → e_stream_id e1 = e_stream_id e → e_sequence e1 < e_sequence e) →
  increasing (l ++ [e]).
Proof.
  intros Hl He i j e1 e2 Hij H1 H2 N1 N2 Hs.
  apply lookup_lt_Some in H2 as Hlt. rewrite length_app in Hlt. cbn in Hlt.
  rewrite lookup_app_l in H1 by lia.
  destruct (decide (j < length l)%nat).
  - rewrite lookup_app_l in H2 by lia. by apply (Hl i j).
  - rewrite lookup_app_r in H2 by lia. replace (j - length l)%nat with 0%nat in H2 by lia.
    injection H2 as <-. apply He; [done| |done]. by eapply list_elem_of_lookup_2.
Qed.

Lemma ws_forward_eq e b w :
  e_sequence e = 0 ∨ (e_stream_id e = sent_stream_id w ∧ sent_sequence w < e_sequence e) →
  ws_forward e (w <| w_broker := b |>) =
  mkWs b (e_stream_id e)
    (Z.max (if bool_decide (e_stream_id e = sent_stream_id w) then sent_sequence w else 0) (e_sequence e))
    (w_sent w ++ [e]).
Proof.
  intros H. unfold ws_forward, set_field. cbn [sent_stream_id sent_sequence w_broker w_sent].
  case_bool_decide as Hs; cbn [sent_stream_id sent_sequence w_broker w_sent].
  - rewrite Hs. destruct H as [->|[_ H]]; [done|].
    rewrite (proj2 (Z.leb_gt _ _) H), andb_false_r. done.
  - destruct H as [->|[? _]]; [done|congruence].
Qed.

Lemma queue_run_push sid seq pre evs e :
  queue_run sid seq pre evs → e_stream_id e = sid → e_sequence e = seq + 1 → 0 <= seq →
  queue_run sid (seq + 1) pre (evs ++ [e]).
Proof.
  intros (H1 & H2 & H3 & H4) He1 He2 Hs. split_and!.
  - intros e'. rewrite app_assoc. intros [?|He]%elem_of_app; [by apply H1|].
    apply list_elem_of_singleton in He. by subst.
  - done.
  - intros i e'. rewrite zlen_app. change (zlen [e]) with 1. intros [He|[Hi He]]%lookup_app_Some.
    + apply H3 in He. lia.
    + assert (i - length evs = 0)%nat as Hz by (apply lookup_lt_Some in He; cbn in He; lia).
      rewrite Hz in He. injection He as <-. unfold zlen in *. lia.
  - zlen_lia.
Qed.

Lemma queue_run_tail_pre sid seq x pre evs :
  queue_run sid seq (x :: pre) evs → queue_run sid seq pre evs.
Proof.
  intros (H1 & H2 & H3 & H4). split_and!; [|intros e He; apply H2; by right|done|done].
  intros e He. apply H1. by right.
Qed.

Lemma queue_run_tail sid seq x evs :
  queue_run sid seq [] (x :: evs) → queue_run sid seq [] evs ∧
    e_stream_id x = sid ∧ e_sequence x = seq - zlen evs.
Proof.
  intros (H1 & H2 & H3 & H4). split_and!.
  - split_and!; [intros e He; apply H1; by right|done| |zlen_lia].
    intros i e He. rewrite (H3 (S i) e) by done. zlen_lia.
  - apply H1. by left.
  - rewrite (H3 0%nat x) by done. zlen_lia.
Qed.

Lemma sub_publish_ok e q mx sid d fl :
  1 <= mx →
  sub_publish e (mkSubscription q mx sid d fl) =
  if mx <=? zlen q then mkSubscription (tail q ++ [e]) mx sid (d + 1) fl
  else mkSubscription (q ++ [e]) mx sid d fl.
Proof. intros H. unfold sub_publish. by rewrite queue_full_ok. Qed.

Lemma ws_ok_publish id used w e :
  0 <= b_sequence (w_broker w) → ws_ok id used w →
  ws_ok id used (w <| w_broker ::= (λ b, (publish e b).2) |>).
Proof.
  intros Hseq [Hu Hn (s & pre & evs & Hs & Hq & Hm & Hb & Hsid & Hd & Hrun & Hsame & Hdiff) Hg Hi].
  split; [done|done| |done|done]. unfold set_field. cbn [w_broker w_sent sent_stream_id sent_sequence].
  set (ev := (publish e (w_broker w)).1).
  assert (e_stream_id ev = b_stream_id (w_broker w) ∧ e_sequence ev = b_sequence (w_broker w) + 1)
    as [E1 E2] by done.
  assert (subscribers (publish e (w_broker w)).2 !! id = Some (sub_publish ev s)) as Hlook.
  { cbn. unfold ev, publish, set_field. cbn. by rewrite lookup_fmap, Hs. }
  change (b_stream_id (publish e (w_broker w)).2) with (b_stream_id (w_broker w)).
  change (b_sequence (publish e (w_broker w)).2) with (b_sequence (w_broker w) + 1).
  clearbody ev. destruct s as [q mx sid d fl].
  cbn [queue queue_maxsize sub_stream_id dropped delivered_drop_notice_last] in *. subst q.
  rewrite sub_publish_ok in Hlook by done.
  destruct (Z.leb_spec mx (zlen (pre ++ evs))) as [Hf|Hf].
  - destruct pre as [|x pre]; [destruct evs as [|x evs]|]; cbn [app tail] in *.
    + zlen_lia.
    + apply queue_run_tail in Hrun as [Hrun _].
      eexists _, [], (evs ++ [ev]). split; [exact Hlook|]. cbn [queue queue_maxsize sub_stream_id dropped delivered_drop_notice_last].
      split_and!; [done|done|zlen_lia|done|lia|by apply queue_run_push| |].
      * intros Heq. specialize (Hsame Heq) as (_ & H1 & H2 & H3). split_and!; [done|zlen_lia|done|].
        intros e' Hl Hnum. destruct (H3 e' Hl Hnum) as (A1 & A2 & A3 & _).
        split_and!; [done..|lia].
      * intros Hne. destruct (Hdiff Hne) as (A1 & _ & A3). split_and!; [done|right; split; [done|lia]|done].
    + eexists _, pre, (evs ++ [ev]). split; [exact Hlook|]. cbn [queue queue_maxsize sub_stream_id dropped delivered_drop_notice_last].
      apply queue_run_tail_pre in Hrun.
      split_and!; [by rewrite <-app_assoc|done|zlen_lia|done|lia|by apply queue_run_push| |].
      * intros Heq. specialize (Hsame Heq) as (? & _). done.
      * intros Hne. destruct (Hdiff Hne) as (A1 & [(y & [= -> ->] & _)|[[=] _]] & A3).
        split_and!; [done|right; split; [done|lia]|done].
  - eexists _, pre, (evs ++ [ev]). split; [exact Hlook|]. cbn [queue queue_maxsize sub_stream_id dropped delivered_drop_notice_last].
    split_and!; [by rewrite <-app_assoc|done|zlen_lia|done|done|by apply queue_run_push| |done].
    intros Heq. specialize (Hsame Heq) as (-> & H1 & H2 & H3). split_and!; [done|zlen_lia|done|].
    intros e' Hl Hnum. destruct (H3 e' Hl Hnum) as (A1 & A2 & A3 & A4).
    split_and!; [done..|]. intros Hz. specialize (A4 Hz). zlen_lia.
Qed.

(** Sending [e] from the current stream, leaving [evs] queued. *)
Lemma ws_ok_send id used b sent e n' q mx d fl :
  b_stream_id b ∈ used → (∀ e0, e0 ∈ sent → e_stream_id e0 ∈ used) →
  (∀ e0, e0 ∈ sent → 0 <= e_sequence e0) →
  gaps_announced sent → increasing sent →
  e_stream_id e = b_stream_id b → 0 <= e_sequence e <= n' →
  1 <= mx → zlen q <= mx → 0 <= d →
  queue_run (b_stream_id b) (b_sequence b) [] q →
  n' <= b_sequence b - zlen q → 
  (∀ e0, e0 ∈ sent → e_stream_id e0 = b_stream_id b →
    e_sequence e0 <= n' ∧ (numbered e → e_sequence e0 < e_sequence e)) →
  (∀ e1, last sent = Some e1 → numbered e1 → numbered e →
    e_stream_id e1 = e_stream_id e ∧ e_sequence e = e_sequence e1 + 1) →
  (numbered e → e_sequence e = n' ∧ fl = false ∧ (d = 0 → n' = b_sequence b - zlen q)) →
  ws_ok id used (mkWs (b <| subscribers ::= <[id := mkSubscription q mx (b_stream_id b) d fl]> |>)
                   (b_stream_id b) n' (sent ++ [e])).
Proof.
  intros U2 U3 P Hg Hi Es [E0 E1] Hm Hb Hd Hrun Hn' Hold Hgap Hnum.
  unfold set_field. split; cbn [w_broker w_sent sent_stream_id sent_sequence b_stream_id b_sequence subscribers].
  - split_and!; [done..|]. intros e0 [?|He]%elem_of_app; [by apply U3|].
    apply list_elem_of_singleton in He as ->. by rewrite Es.
  - split; [lia|]. intros e0 [?|He]%elem_of_app; [by apply P|].
    by apply list_elem_of_singleton in He as ->.
  - eexists _, [], q. split; [apply lookup_insert_eq|].
    cbn [queue queue_maxsize sub_stream_id dropped delivered_drop_notice_last app].
    split_and!; [done..| |done]. intros _. split_and!; [done|done| |].
    + intros e0 [He|He]%elem_of_app; [intros ?; by apply Hold|].
      by apply list_elem_of_singleton in He as ->.
    + intros e0. rewrite last_snoc. intros [= <-] Hne. destruct (Hnum Hne) as (-> & -> & ?).
      by split_and!.
  - by apply gaps_snoc.
  - apply increasing_snoc; [done|]. intros Hne e1 He1. rewrite Es. intros Hs1.
    by apply (Hold e1 He1 Hs1).
Qed.

Lemma next_of_some id now b s e s' :
  subscribers b !! id = Some s → sub_next now s = Some (e, s') →
  next_of id now b = Some (e, b <| subscribers ::= <[id := s']> |>).
Proof. intros Hs Hn. unfold next_of. rewrite Hs. cbn [mbind option_bind]. by rewrite Hn. Qed.

Lemma next_of_none id now b s :
  subscribers b !! id = Some s → sub_next now s = None → next_of id now b = None.
Proof. intros Hs Hn. unfold next_of. rewrite Hs. cbn [mbind option_bind]. by rewrite Hn. Qed.

Lemma sub_next_cases now q mx sid d fl e s' :
  sub_next now (mkSubscription q mx sid d fl) = Some (e, s') →
  (d ≠ 0 ∧ e_sequence e = 0 ∧ e_stream_id e = sid ∧ s' = mkSubscription q mx sid 0 true) ∨
  ((d = 0 ∨ fl = true) ∧ ∃ rest, q = e :: rest ∧ s' = mkSubscription rest mx sid d false).
Proof.
  unfold sub_next. cbn [queue dropped delivered_drop_notice_last sub_stream_id].
  destruct (Z.eqb_spec d 0), fl; cbn [negb andb]; destruct q as [|x q]; try done;
    intros [= <- <-]; unfold set_field; cbn [e_sequence e_stream_id new_event];
    first [by left | right; split; [auto|by eexists]].
Qed.

Lemma ws_ok_deliver id used w now : ws_ok id used w → ws_ok id used (ws_step id w (WDeliver now)).
Proof.
  intros Hok. pose proof Hok as
    [(U1 & U2 & U3) [P1 P2] (s & pre & evs & Hs & Hq & Hm & Hb & Hsid & Hd & Hrun & Hsame & Hdiff) Hg Hi].
  destruct s as [q mx sid d fl].
  cbn [queue queue_maxsize sub_stream_id dropped delivered_drop_notice_last] in *. subst q sid.
  assert (zlen evs <= b_sequence (w_broker w)) as Hevs by apply Hrun.
  assert (∀ e, e_sequence e = 0 → ¬ numbered e) as Hnotice by (unfold numbered; auto).
  cbn [ws_step]. destruct (sub_next now (mkSubscription (pre ++ evs) mx (b_stream_id (w_broker w)) d fl))
    as [[e s']|] eqn:En.
  2: { by rewrite (next_of_none _ _ _ _ Hs En). }
  rewrite (next_of_some _ _ _ _ _ _ Hs En).
  set (n0 := if bool_decide (b_stream_id (w_broker w) = sent_stream_id w) then sent_sequence w else 0).
  assert (0 <= n0 <= b_sequence (w_broker w) - zlen evs ∧
    ∀ e0, e0 ∈ w_sent w → e_stream_id e0 = b_stream_id (w_broker w) → e_sequence e0 <= n0) as [Hn0 Hmax].
  { unfold n0. case_bool_decide as Heq; [destruct (Hsame (eq_sym Heq)) as (_ & ? & H & _) |
      destruct (Hdiff (λ E, Heq (eq_sym E))) as (_ & _ & H)].
    - split; [lia|]. intros e0 He0 Hst. apply H; [done|congruence].
    - split; [lia|]. intros e0 He0 Hst. by destruct (H e0 He0). }
  apply sub_next_cases in En as [(Hd0 & He & Hst & ->)|(Hd0 & rest & Hq & ->)].
  - assert (pre = []) as ->.
    { destruct (decide (sent_stream_id w = b_stream_id (w_broker w))) as [Heq|Hne]; [by apply Hsame|].
      destruct (Hdiff Hne) as (_ & [(y & _ & ?)|[? _]] & _); [lia|done]. }
    rewrite ws_forward_eq by by left. 
    rewrite Hst. fold n0. rewrite He, Z.max_l by lia. cbn [app] in *.
    apply ws_ok_send; try done; [lia|lia|..].
    intros e0 He0 Hs0. split; [by apply Hmax|]. intros []. done.
  - destruct pre as [|x pre]; cbn [app] in Hq.
    + subst evs. apply queue_run_tail in Hrun as (Hrun & Hst & He).
      rewrite zlen_cons in Hn0, Hevs. pose proof (zlen_nonneg rest).
      assert (sent_stream_id w = b_stream_id (w_broker w)) as Heq.
      { destruct (decide (sent_stream_id w = b_stream_id (w_broker w))) as [Heq|Hne]; [done|].
        destruct (Hdiff Hne) as (-> & [(y & [=] & _)|[_ ?]] & _). destruct Hd0; [lia|done]. }
      assert (n0 = sent_sequence w) as En0 by (unfold n0; by rewrite bool_decide_true).
      destruct (Hsame Heq) as (_ & _ & _ & Hlast).
      rewrite ws_forward_eq by (right; split; [congruence|lia]).
      rewrite Hst. fold n0. rewrite Z.max_r by lia.
      apply ws_ok_send; try done; [lia|cbn [app] in Hb; zlen_lia|lia| |].
      * intros e0 He0 Hs0. specialize (Hmax e0 He0 Hs0). split; [lia|]. intros _. lia.
      * intros e1 Hl1 N1 _. destruct (Hlast e1 Hl1 N1) as (A1 & A2 & A3 & A4).
        rewrite A3 in Hd0. destruct Hd0 as [Hd0|]; [|done]. specialize (A4 Hd0).
        rewrite zlen_cons in A4. split; [congruence|lia].
    + injection Hq as -> <-.
      destruct (decide (sent_stream_id w = b_stream_id (w_broker w))) as [Heq|Hne];
        [by destruct (Hsame Heq)|].
      destruct (Hdiff Hne) as (-> & [(y & [= -> ->] & _)|[[=] _]] & _).
      assert (e_stream_id y = b_stream_id (w_broker w)) as Hst by (apply Hrun; left).
      assert (e_sequence y = 0) as He by (apply Hrun; left).
      rewrite ws_forward_eq by by left. 
      rewrite Hst. fold n0. rewrite He, Z.max_l by lia. cbn [app] in *.
      apply ws_ok_send; try done; [lia|zlen_lia|by eapply queue_run_tail_pre|lia|].
      intros e0 He0 Hs0. split; [by apply Hmax|]. by intros ?%Hnotice.
Qed.

Lemma ws_ok_clear id used w sid now :
  ws_ok id used w → sid ∉ used →
  ws_ok id (sid :: used) (w <| w_broker ::= (λ b, clear sid now b) |>).
Proof.
  intros [(U1 & U2 & U3) P (s & pre & evs & Hs & Hq & Hm & Hb & Hsid & Hd & Hrun & Hsame & Hdiff) Hg Hi] Hnew.
  split; [|done| |done|done].
  - split_and!; [by right|by left|]. intros e He. right. by apply U3.
  - unfold set_field. cbn [w_broker w_sent sent_stream_id sent_sequence].
    set (notice := reset_event sid now "packet evidence was cleared by simulation reset").
    exists (sub_restart sid now s), [notice], [].
    split; [unfold clear, set_field; cbn; by rewrite lookup_fmap, Hs|].
    assert (∀ e, e ∈ [notice] → e = notice) as Hone by (intros e; apply list_elem_of_singleton).
    split_and!; try done.
    + split_and!; [intros e ->%Hone|intros e ->%Hone|intros i e; by rewrite lookup_nil|]; done.
    + intros Heq. destruct Hnew. by rewrite <-(Heq : _ = sid).
    + intros Hne. split_and!; [done|left; by exists notice|].
      intros e He Hst. apply Hnew. rewrite <-(Hst : _ = sid). by apply U3.
Qed.

Lemma ws_ok_other id used w w' :
  ws_ok id used w →
  sent_stream_id w' = sent_stream_id w → sent_sequence w' = sent_sequence w →
  w_sent w' = w_sent w → b_stream_id (w_broker w') = b_stream_id (w_broker w) →
  b_sequence (w_broker w') = b_sequence (w_broker w) →
  subscribers (w_broker w') !! id = subscribers (w_broker w) !! id →
  ws_ok id used w'.
Proof.
  intros [H1 H2 H3 H4 H5] E1 E2 E3 E4 E5 E6.
  split; rewrite ?E1, ?E2, ?E3, ?E4, ?E5, ?E6; done.
Qed.

Lemma next_of_inv id now b e b' :
  next_of id now b = Some (e, b') → ∃ s', b' = b <| subscribers ::= <[id := s']> |>.
Proof.
  unfold next_of. destruct (subscribers b !! id) as [s|]; cbn [mbind option_bind]; [|done].
  destruct (sub_next now s) as [[e0 s']|]; cbn [mbind option_bind]; [|done].
  intros [= _ <-]. by eexists.
Qed.

Lemma ws_ok_step id used w op :
  broker_ok (w_broker w) → ws_ok id used w → foreign id op = true →
  NoDup (cleared [op] ++ used) → ws_ok id (cleared [op] ++ used) (ws_step id w op).
Proof.
  intros Hb Hok Hfor Hnd. destruct op as [now|[e|sid now|id'|id'|id' now]].
  - by apply ws_ok_deliver.
  - apply ws_ok_publish; [apply Hb|done].
  - apply NoDup_cons in Hnd as [Hnew _]. by apply ws_ok_clear.
  - apply negb_true_iff, Nat.eqb_neq in Hfor. eapply ws_ok_other; [exact Hok|done..|].
    cbn. by rewrite lookup_insert_ne.
  - apply negb_true_iff, Nat.eqb_neq in Hfor. eapply ws_ok_other; [exact Hok|done..|].
    cbn. by rewrite lookup_delete_ne.
  - apply negb_true_iff, Nat.eqb_neq in Hfor. cbn [ws_step broker_step].
    destruct (next_of id' now (w_broker w)) as [[e b']|] eqn:En.
    + apply next_of_inv in En as E'. destruct E' as [s' ->]. eapply ws_ok_other; [exact Hok|unfold set_field; cbn; rewrite ?En; done..|].
      unfold set_field; cbn. rewrite En. cbn. by rewrite lookup_insert_ne.
    + eapply ws_ok_other; [exact Hok|unfold set_field; cbn; rewrite ?En; done..|].
      unfold set_field; cbn. by rewrite En.
Qed.

Lemma ws_step_broker id w op :
  0 <= history_maxlen (w_broker w) → 1 <= subscriber_buffer_size (w_broker w) →
  broker_ok (w_broker w) →
  broker_ok (w_broker (ws_step id w op)) ∧
  history_maxlen (w_broker (ws_step id w op)) = history_maxlen (w_broker w) ∧
  subscriber_buffer_size (w_broker (ws_step id w op)) = subscriber_buffer_size (w_broker w).
Proof.
  intros H1 H2 Hok.
  assert (∃ op', w_broker (ws_step id w op) = broker_step (w_broker w) op') as [op' ->].
  { destruct op as [now|op]; [exists (ONext id now)|by exists op].
    cbn [ws_step broker_step]. destruct (next_of id now (w_broker w)) as [[e b]|]; [|done].
    unfold ws_forward, set_field. cbn. by case_bool_decide; cbn; destruct (negb _ && _). }
  split; [by apply broker_ok_step|]. apply broker_step_sizes.
Qed.

Lemma ws_ok_run id used w ops :
  0 <= history_maxlen (w_broker w) → 1 <= subscriber_buffer_size (w_broker w) →
  broker_ok (w_broker w) → ws_ok id used w → forallb (foreign id) ops = true →
  NoDup (cleared ops ++ used) →
  ∃ used', ws_ok id used' (foldl (ws_step id) w ops).
Proof.
  revert used w. induction ops as [|op ops IH]; intros used w H1 H2 Hb Hok Hf Hnd; cbn; [eauto|].
  cbn in Hf. apply andb_true_iff in Hf as [Hf1 Hf2].
  destruct (ws_step_broker id w op H1 H2 Hb) as (Hb' & E1 & E2).
  assert (cleared (op :: ops) = cleared [op] ++ cleared ops) as Hc
    by (unfold cleared; cbn; by rewrite app_nil_r).
  rewrite Hc in Hnd.
  apply (IH (cleared [op] ++ used)); [lia..|done| |done|].
  - apply ws_ok_step; [done..|]. rewrite <-app_assoc in Hnd. eapply sublist_NoDup; [exact Hnd|].
    apply sublist_app; [done|]. by apply sublist_inserts_l.
  - by rewrite Permutation_app_swap_app, app_assoc.
Qed.

Lemma ws_ok_connect id after stream now b :
  broker_ok b → 0 <= history_maxlen b <= 5000 → 1 <= subscriber_buffer_size b → 0 <= after →
  ws_ok id [b_stream_id b] (ws_connect id after stream now b).
Proof.
  intros Hb Hmax Hbuf Hafter.
  assert (broker_ok (subscribe id b)) as Hb'
    by (apply (broker_ok_step b (OSubscribe id)); [lia|lia|done]).
  unfold ws_connect. cbn zeta. set (b' := subscribe id b) in *.
  set (page := history_page after 5000 stream b').
  set (start := if stream_changed page then 0 else after).
  assert (page_events page = retained_after start b') as Hev.
  { unfold page, history_page, start. cbn [page_events stream_changed]. unfold py_prefix.
    change (5000 <? 0) with false. cbv iota. apply take_ge. etransitivity; [apply length_filter|].
    pose proof (bo_len b' Hb') as Hl. change (history_maxlen b') with (history_maxlen b) in Hl.
    unfold zlen in Hl. lia. }
  rewrite Hev.
  assert (∀ i e, retained_after start b' !! i = Some e → e_stream_id e = b_stream_id b ∧
    e_sequence e = b_sequence b - zlen (retained_after start b') + 1 + Z.of_nat i ∧
    0 < e_sequence e <= b_sequence b) as Hret.
  { intros i e. rewrite retained_after_drop by done. set (k := Z.to_nat _).
    rewrite lookup_drop. intros He. apply lookup_lt_Some in He as Hlt.
    apply (bo_history b' Hb') in He as [He Hs].
    change (b_sequence b') with (b_sequence b) in *. change (b_stream_id b') with (b_stream_id b) in *.
    pose proof (bo_len b' Hb') as Hl. change (b_sequence b') with (b_sequence b) in Hl.
    change (history b') with (history b) in *. unfold zlen in *. rewrite length_drop.
    split_and!; [done|lia..]. }
  assert (∀ l, (∀ e, e ∈ l → e_sequence e = 0 ∧ e_stream_id e = b_stream_id b) →
    ws_ok id [b_stream_id b] (mkWs b' (b_stream_id b) (b_sequence b) (l ++ retained_after start b'))) as H.
  { intros l Hl. set (rest := retained_after start b') in *.
    assert (∀ e, e ∈ l ++ rest → e_stream_id e = b_stream_id b ∧ 0 <= e_sequence e <= b_sequence b)
      as Hall.
    { intros e [He|[i He]%list_elem_of_lookup]%elem_of_app.
      - apply Hl in He as [-> ->]. pose proof (bo_seq b Hb). split; [done|lia].
      - apply Hret in He as (-> & _ & ?). split; [done|lia]. }
    assert (∀ i e, (l ++ rest) !! i = Some e → numbered e →
      ∃ j, i = (length l + j)%nat ∧ rest !! j = Some e) as Hnum.
    { intros i e [He|[Hi He]]%lookup_app_Some Hn; [|exists (i - length l)%nat; split; [lia|done]].
      apply list_elem_of_lookup_2, Hl in He as [He _]. done. }
    split; cbn [w_broker w_sent sent_stream_id sent_sequence].
    - split_and!; [by left..|]. intros e He. apply Hall in He as [-> _]. by left.
    - split; [apply Hb|]. intros e He. apply Hall in He. lia.
    - exists (new_subscription (subscriber_buffer_size b) (b_stream_id b)), [], [].
      split; [apply lookup_insert_eq|]. split_and!; try done; [cbn [queue queue_maxsize new_subscription]; zlen_lia| |].
      + split_and!; [by intros e ?%elem_of_nil..|by intros i e; rewrite lookup_nil|].
        exact (bo_seq b Hb).
      + intros _. split_and!; [done|change (b_sequence b') with (b_sequence b); zlen_lia|intros e He _; apply Hall in He as [_ ?]; lia|].
        intros e He Hn. rewrite last_lookup in He. destruct (Hnum _ _ He Hn) as (j & Hj & Hej).
        apply lookup_lt_Some in Hej as Hlt. apply Hret in Hej as (-> & Hs & _).
        rewrite length_app in Hj. split_and!; [done| |done|].
        * rewrite Hs. unfold zlen. lia.
        * intros _. change (b_sequence b') with (b_sequence b). zlen_lia.
    - intros i e1 e2 H1 H2 N1 N2. destruct (Hnum _ _ H1 N1) as (j1 & E1 & R1).
      destruct (Hnum _ _ H2 N2) as (j2 & E2 & R2). apply Hret in R1 as (-> & -> & _).
      apply Hret in R2 as (-> & -> & _). split; [done|lia].
    - intros i k e1 e2 Hik H1 H2 N1 N2 _. destruct (Hnum _ _ H1 N1) as (j1 & E1 & R1).
      destruct (Hnum _ _ H2 N2) as (j2 & E2 & R2). apply Hret in R1 as (_ & -> & _).
      apply Hret in R2 as (_ & -> & _). lia. }
  apply H. destruct (stream_changed page), (history_gap page); intros e;
    try (by intros ?%elem_of_nil); intros ->%list_elem_of_singleton; done.
Qed.


Definition demo_ops : list ws_op :=
  [WBroker (OPublish demo_event); WBroker (OPublish demo_event); WDeliver fzero; WDeliver fzero;
   WBroker (OClear "t" fzero); WDeliver fzero; WBroker (OPublish demo_event); WDeliver fzero].

