(* ===== verification/Medium.v ===== *)
(** * The directed medium (src/backend/app/simulator/medium.py)

    RF frames a node's firmware transmits are forwarded along the enabled links
    of a directed graph that can be edited while it runs. The callbacks into the
    traffic controller act on its state [T] and on the event sink [B]. An
    injection is a task of its own: [transmit] returns the injections it starts,
    and [inject_done] is what one does once the gateway has taken the packet. *)
From S2P Require Import Prelude PyDict PyFloat Scenario Mesh Airtime Events.

(** [f"{n:08x}"] *)
Definition hex_digit (n : Z) : string :=
  default "" (["0"; "1"; "2"; "3"; "4"; "5"; "6"; "7"; "8"; "9"; "a"; "b"; "c"; "d"; "e"; "f"]%string
                !! Z.to_nat n).

Fixpoint hex_digits (fuel : nat) (n : Z) : string :=
  match fuel with
  | O => ""
  | S fuel => hex_digits fuel (n / 16) +:+ hex_digit (n mod 16)
  end.

Definition hex8 (n : Z) : string := hex_digits 8 n.

Definition BROADCAST_NUMBER : Z := 0xFFFFFFFF.

(** [DirectedMedium._destination_node] *)
Definition destination_node (hardware_ids : dict string Z) (node_number : Z) : option string :=
  if node_number =? BROADCAST_NUMBER then Some "broadcast"%string
  else match list_find (λ kv, kv.2 = node_number) hardware_ids with
       | Some (_, kv) => Some kv.1
       | None => if negb (node_number =? 0) then Some ("!" +:+ hex8 node_number) else None
       end.

Section medium.
Context `{Meshtastic} {T B : Type} `{EventSink B}.

Record handlers := mkHandlers {
  transmission_handler : option (string → MeshPacket → Z → T * B → (T * B) * res (option (string * Z)));
  drop_handler : option (string → MeshPacket → string → T * B → T * B) }.

Record DirectedMedium := mkMedium {
  md_scenario : Scenario;
  md_gateways : list string;
  md_hardware_ids : dict string Z;
  md_handlers : handlers;
  md_links : dict (string * string) DirectedLink;
  md_tasks : list string }.
#[export] Instance eta_DirectedMedium : Eta DirectedMedium := λ r,
  mkMedium (md_scenario r) (md_gateways r) (md_hardware_ids r) (md_handlers r) (md_links r)
    (md_tasks r).

Definition new_medium (scenario : Scenario) (gateways : list string)
    (hardware_ids : dict string Z) (hs : handlers) : DirectedMedium :=
  mkMedium scenario gateways hardware_ids hs (link_map scenario) [].

(** One supervised loop per gateway, started once. *)
Definition medium_start (m : DirectedMedium) : DirectedMedium :=
  match md_tasks m with [] => m <| md_tasks := md_gateways m |> | _ => m end.

Definition medium_stop (m : DirectedMedium) : DirectedMedium := m <| md_tasks := [] |>.

Definition link_update_event (now : float) (link : DirectedLink) : PacketEvent :=
  (new_event now LINK_UPDATED) <| e_transmitter := Some (from_node link) |>
    <| e_receiver := Some (to_node link) |>
    <| e_result := Some (if enabled link then "enabled" else "disabled")%string |>
    <| e_rssi_dbm := Some (rssi_dbm link) |> <| e_snr_db := Some (snr_db link) |>.

Definition update_link (link : DirectedLink) (now : float) (m : DirectedMedium) (b : B)
    : res (DirectedMedium * (PacketEvent * B)) :=
  let key := link_key link in
  _ ← guard_raise (negb (dmem key (md_links m)))
        (KeyError ("unknown directed link: " +:+ from_node link +:+ " -> " +:+ to_node link));
  Ok (m <| md_links ::= dset key link |>, sink_publish (link_update_event now link) b).

(** Publishing a list of events, collecting the numbered ones. *)
Fixpoint publish_each (es : list PacketEvent) (b : B) : list PacketEvent * B :=
  match es with
  | [] => ([], b)
  | e :: es => let (e, b) := sink_publish e b in
               let (es, b) := publish_each es b in (e :: es, b)
  end.

(** [replacement.keys() != self._links.keys()] *)
Definition same_keys (a b : dict (string * string) DirectedLink) : bool :=
  forallb (λ k, dmem k b) a.*1 && forallb (λ k, dmem k a) b.*1.

(** [self._links[key] != link]; the keys were just compared. *)
Definition link_changed (links : dict (string * string) DirectedLink) (link : DirectedLink) : bool :=
  match dget (link_key link) links with
  | Some old => negb (link_eqb old link)
  | None => true
  end.

Definition changed_links (replacement links : dict (string * string) DirectedLink)
    : list DirectedLink :=
  filter (λ link, link_changed links link = true) replacement.*2.

Definition apply_links (ls : list DirectedLink) (now : float) (m : DirectedMedium) (b : B)
    : res (DirectedMedium * (list PacketEvent * B)) :=
  let replacement := dict_of ((λ l, (link_key l, l)) <$> ls) in
  _ ← guard_raise (negb (same_keys replacement (md_links m)))
        (ValueError "runtime topology must contain the existing directed link set");
  let changed := changed_links replacement (md_links m) in
  Ok (m <| md_links := replacement |>, publish_each (link_update_event now <$> changed) b).

(** ** Transmission *)

Definition rf_event (m : DirectedMedium) (transmitter : string) (packet : MeshPacket) (now : float)
    (receivers : list string) (length air : Z) (port : option Z) (run : option (string * Z))
    : PacketEvent :=
  (new_event now RF_TRANSMIT) <| e_transmitter := Some transmitter |>
    <| intended_destination := destination_node (md_hardware_ids m) (p_to packet) |>
    <| receiver_set := receivers |> <| mesh_packet_id := Some (p_id packet) |>
    <| traffic_run_id := fst <$> run |> <| traffic_sequence := snd <$> run |>
    <| port_number := port |> <| e_hop_limit := Some (p_hop_limit packet) |>
    <| e_hop_start := Some (p_hop_start packet) |> <| packet_length := Some length |>
    <| e_airtime_ms := Some air |> <| e_result := Some "transmitted"%string |>.

Definition link_disabled_event (transmitter : string) (packet : MeshPacket) (now : float)
    (port : option Z) (run : option (string * Z)) (link : DirectedLink) : PacketEvent :=
  (new_event now LINK_DISABLED) <| e_transmitter := Some transmitter |>
    <| e_receiver := Some (to_node link) |> <| mesh_packet_id := Some (p_id packet) |>
    <| traffic_run_id := fst <$> run |> <| traffic_sequence := snd <$> run |>
    <| port_number := port |> <| e_result := Some "link-disabled"%string |>.

(** The copy a receiver gets. *)
Definition received_copy (packet : MeshPacket) (link : DirectedLink) : MeshPacket :=
  packet <| rx_rssi := rssi_dbm link |> <| rx_snr := snr_db link |>.

Record injection := mkInjection {
  inj_link : DirectedLink;
  inj_packet : MeshPacket;
  inj_now : float;
  inj_run : option (string * Z) }.

(** The loop over the transmitter's links. *)
Fixpoint forward_links (m : DirectedMedium) (transmitter : string) (packet : MeshPacket)
    (now : float) (port : option Z) (run : option (string * Z)) (ls : list DirectedLink)
    (w : T * B) (injections : list injection) : (T * B) * list injection :=
  match ls with
  | [] => (w, injections)
  | link :: ls =>
    if negb (enabled link) then
      let w := (w.1, (sink_publish (link_disabled_event transmitter packet now port run link) w.2).2) in
      let w := match drop_handler (md_handlers m) with
               | Some h => h transmitter packet "link-disabled"%string w
               | None => w
               end in
      forward_links m transmitter packet now port run ls w injections
    else
      forward_links m transmitter packet now port run ls w
        (injections ++ [mkInjection link (received_copy packet link) now run])
  end.

Definition links_from (m : DirectedMedium) (transmitter : string) : list DirectedLink :=
  (filter (λ kl, kl.1.1 = transmitter) (md_links m)).*2.

(** [transmit] up to the point where it waits for its injections. *)
Definition transmit (m : DirectedMedium) (transmitter : string) (packet : MeshPacket) (now : float)
    (w : T * B) : (T * B) * res (list injection) :=
  let ls := links_from m transmitter in
  let enabled_links := filter (λ l, enabled l = true) ls in
  match mesh_packet_payload_length packet with
  | Raise e => (w, Raise e)
  | Ok length =>
    let port := mesh_packet_port_number packet in
    match airtime_ms length (modem_preset (rf (md_scenario m))) with
    | Raise e => (w, Raise e)
    | Ok air =>
      match match transmission_handler (md_handlers m) with
            | Some h => h transmitter packet air w
            | None => (w, Ok None)
            end with
      | (w, Raise e) => (w, Raise e)
      | (w, Ok run) =>
        let w := (w.1, (sink_publish (rf_event m transmitter packet now (to_node <$> enabled_links)
                                        length air port run) w.2).2) in
        let (w, injections) := forward_links m transmitter packet now port run ls w [] in
        (w, Ok injections)
      end
    end
  end.

(** An injection whose [inject_simulated_packet] returned. *)
Definition inject_done (i : injection) (b : B) : B :=
  (sink_publish
    ((new_event (inj_now i) RX_INJECTED) <| e_transmitter := Some (from_node (inj_link i)) |>
      <| e_receiver := Some (to_node (inj_link i)) |>
      <| mesh_packet_id := Some (p_id (inj_packet i)) |>
      <| traffic_run_id := fst <$> inj_run i |> <| traffic_sequence := snd <$> inj_run i |>
      <| port_number := mesh_packet_port_number (inj_packet i) |>
      <| e_hop_limit := Some (p_hop_limit (inj_packet i)) |>
      <| e_hop_start := Some (p_hop_start (inj_packet i)) |>
      <| e_rssi_dbm := Some (rssi_dbm (inj_link i)) |> <| e_snr_db := Some (snr_db (inj_link i)) |>
      <| e_result := Some "injected-to-firmware"%string |>) b).2.

(** ** Supervised workers *)

(** The injection tasks of one transmission, in the order in which they end;
    [None] is a success. [gather] raises the first failure and leaves the other
    tasks running. *)
Fixpoint gather_injections (ended : list (injection * option exn)) (b : B) : B * option exn :=
  match ended with
  | [] => (b, None)
  | (i, None) :: ended => gather_injections ended (inject_done i b)
  | (_, Some e) :: ended => let (b, _) := gather_injections ended b in (b, Some e)
  end.

(** The frames one node's loop takes from its gateway, each with the time it is
    taken and how its injections end. The loop runs until a transmission fails;
    the supervisor then reports the failure. *)
Record frame := mkFrame {
  f_packet : MeshPacket;
  f_now : float;
  f_outcome : list injection → list (injection * option exn) }.

Fixpoint node_loop (m : DirectedMedium) (node : string) (frames : list frame) (w : T * B)
    : (T * B) * option exn :=
  match frames with
  | [] => (w, None)
  | f :: frames =>
    match transmit m node (f_packet f) (f_now f) w with
    | (w, Raise e) => (w, Some e)
    | (w, Ok injections) =>
      match gather_injections (f_outcome f injections) w.2 with
      | (b, Some e) => ((w.1, b), Some e)
      | (b, None) => node_loop m node frames (w.1, b)
      end
    end
  end.

(** What the failure handler is called with. *)
Definition supervised_node_loop (m : DirectedMedium) (node : string) (frames : list frame)
    (w : T * B) : (T * B) * option (string * exn) :=
  let '(w, failure) := node_loop m node frames w in (w, (λ e, (node, e)) <$> failure).
End medium.
Arguments handlers : clear implicits.
Arguments DirectedMedium : clear implicits.

(** ** The link table *)

Section medium_theorems.
Context `{Meshtastic} {T B : Type} `{EventSink B}.
Implicit Types (m : DirectedMedium T B).

(** Every link is stored under its own end points. *)
Definition links_ok (d : dict (string * string) DirectedLink) : Prop :=
  dict_ok d ∧ ∀ k l, (k, l) ∈ d → link_key l = k.

Lemma dict_of_links_ok ls : links_ok (dict_of ((λ l, (link_key l, l)) <$> ls)).
Proof.
  split; [apply dict_of_ok|]. unfold dict_of.
  assert (∀ d, (∀ k l, (k, l) ∈ d → link_key l = k) →
    ∀ k l, (k, l) ∈ foldl (λ d kv, dset kv.1 kv.2 d) d ((λ l, (link_key l, l)) <$> ls) →
      link_key l = k) as Hf.
  { induction ls as [|l0 ls IH]; intros d Hd; cbn; [exact Hd|]. apply IH.
    intros k l Hin. apply dset_elem in Hin as [[-> ->]|Hin]; [done|by apply Hd]. }
  apply Hf. by intros k l ?%elem_of_nil.
Qed.

Lemma links_ok_dset l d : links_ok d → links_ok (dset (link_key l) l d).
Proof.
  intros [H1 H2]. split; [by apply dict_ok_dset|].
  intros k l' Hin. apply dset_elem in Hin as [[-> ->]|Hin]; [done|by apply H2].
Qed.

Lemma new_medium_ok scenario gateways ids hs : links_ok (md_links (new_medium (T:=T) (B:=B) scenario gateways ids hs)).
Proof. apply dict_of_links_ok. Qed.

Lemma links_keys d : links_ok d → link_key <$> d.*2 = d.*1.
Proof.
  intros [_ Hk]. rewrite <-list_fmap_compose. apply list_fmap_ext.
  intros i [k l] Hi. apply Hk. by apply list_elem_of_lookup_2 in Hi.
Qed.

Lemma links_values d l : links_ok d → l ∈ d.*2 ↔ dget (link_key l) d = Some l.
Proof.
  intros [Hd Hk]. rewrite dget_Some by done. rewrite list_elem_of_fmap. split.
  - intros ([k l0] & -> & Hin). cbn [snd]. by rewrite (Hk _ _ Hin).
  - intros Hin. by exists (link_key l, l).
Qed.

Lemma dget_dict_of_last ls k :
  dget k (dict_of ((λ l, (link_key l, l)) <$> ls)) = last (filter (λ l, link_key l = k) ls).
Proof.
  rewrite dget_dict_of. induction ls as [|l ls IH] using rev_ind; [done|].
  rewrite fmap_app, !filter_app. cbn [fmap list_fmap]. rewrite !filter_cons, !filter_nil. cbn [fst].
  case_decide; [by rewrite !last_snoc|]. by rewrite !app_nil_r.
Qed.

Lemma same_keys_spec a b : same_keys a b = true ↔ ∀ k, k ∈ a.*1 ↔ k ∈ b.*1.
Proof.
  unfold same_keys. rewrite andb_true_iff, !forallb_forall.
  assert (∀ k (d : dict (string * string) DirectedLink), dmem k d = true ↔ k ∈ d.*1) as Hm.
  { intros k d. unfold dmem. apply bool_decide_eq_true. }
  setoid_rewrite <-list_elem_of_In. setoid_rewrite Hm. naive_solver.
Qed.

(** an edit of a link outside the graph is rejected; an accepted one changes
    that link only and announces it once. Replacing the topology is rejected
    unless it names exactly the existing links; then the table holds, under each
    pair, the link last given for it, and exactly the links whose value differs
    are announced, in order. Neither operation adds or removes a link. *)
Theorem link_edits_correct m link ls now b :
  links_ok (md_links m) →
  match update_link link now m b with
  | Raise e => (link_key link ∉ (md_links m).*1) ∧ ∃ msg, e = KeyError msg
  | Ok (m', r) =>
    (link_key link ∈ (md_links m).*1) ∧ links_ok (md_links m') ∧
    (md_links m').*1 = (md_links m).*1 ∧
    (∀ k, dget k (md_links m') = if decide (k = link_key link) then Some link else dget k (md_links m)) ∧
    r = sink_publish (link_update_event now link) b
  end ∧
  match apply_links ls now m b with
  | Raise e => ¬ (∀ k, k ∈ link_key <$> ls ↔ k ∈ (md_links m).*1) ∧ ∃ msg, e = ValueError msg
  | Ok (m', r) =>
    links_ok (md_links m') ∧ (∀ k, k ∈ (md_links m').*1 ↔ k ∈ (md_links m).*1) ∧
    (∀ k, dget k (md_links m') = last (filter (λ l, link_key l = k) ls)) ∧
    ∃ changed, r = publish_each (link_update_event now <$> changed) b ∧ NoDup changed ∧
      ∀ l, l ∈ changed ↔ dget (link_key l) (md_links m') = Some l ∧
        ∃ old, dget (link_key l) (md_links m) = Some old ∧ link_eqb old l = false
  end.
Proof.
  intros [Hd Hk]. split.
  - unfold update_link. destruct (dmem (link_key link) (md_links m)) eqn:Em; cbn [negb guard_raise mbind res_bind].
    + unfold dmem in Em. apply bool_decide_eq_true in Em. unfold set_field. cbn [md_links].
      split_and!; [done|by apply links_ok_dset|by apply dset_keys| |done].
      intros k. apply dget_dset.
    + unfold dmem in Em. apply bool_decide_eq_false in Em. eauto.
  - unfold apply_links. set (rep := dict_of _).
    destruct (dict_of_links_ok ls) as [Rd Rk]. fold rep in Rd, Rk.
    destruct (same_keys rep (md_links m)) eqn:Es; cbn [negb guard_raise mbind res_bind].
    + pose proof (proj1 (same_keys_spec _ _) Es) as Hkeys. cbn [md_links set_field].
      split_and!; [done|done|apply dget_dict_of_last|].
      exists (changed_links rep (md_links m)). split; [done|]. unfold changed_links. split.
      * apply NoDup_filter, (NoDup_fmap_1 link_key). rewrite (links_keys rep); [done|by split].
      * intros l. rewrite list_elem_of_filter. unfold link_changed.
        rewrite (links_values rep) by by split. split.
        { intros [Hc Hl]. split; [done|]. apply dget_key, Hkeys in Hl as Hin.
          apply dget_is_Some in Hin as [old Ho]. rewrite Ho in Hc. exists old.
          by apply negb_true_iff in Hc. }
        { intros (Hl & old & Ho & Hne). rewrite Ho, Hne. done. }
    + split; [|eauto]. intros Hkeys.
      assert (same_keys rep (md_links m) = true) as Et; [|congruence].
      apply (proj2 (same_keys_spec _ _)). intros k. rewrite <-Hkeys. unfold rep. rewrite dict_of_keys.
      by rewrite <-list_fmap_compose.
Qed.
(** What a disabled link does to the world. *)
Definition drop_at m transmitter packet now port run (w : T * B) (link : DirectedLink) : T * B :=
  let w := (w.1, (sink_publish (link_disabled_event transmitter packet now port run link) w.2).2) in
  match drop_handler (md_handlers m) with
  | Some h => h transmitter packet "link-disabled"%string w
  | None => w
  end.

Lemma forward_links_spec m transmitter packet now port run ls w injs :
  forward_links m transmitter packet now port run ls w injs =
  (foldl (drop_at m transmitter packet now port run) w (filter (λ l, enabled l = false) ls),
   injs ++ ((λ l, mkInjection l (received_copy packet l) now run) <$>
              filter (λ l, enabled l = true) ls)).
Proof.
  revert w injs. induction ls as [|l ls IH]; intros w injs; [by rewrite app_nil_r|].
  rewrite !filter_cons. cbn [forward_links]. destruct (enabled l) eqn:E; cbn [negb].
  - rewrite decide_False, decide_True by done. rewrite IH, <-app_assoc. done.
  - rewrite decide_True, decide_False by done. rewrite IH. done.
Qed.

Lemma links_from_elem m transmitter l :
  links_ok (md_links m) →
  l ∈ links_from m transmitter ↔
  from_node l = transmitter ∧ dget (link_key l) (md_links m) = Some l.
Proof.
  intros Hok. rewrite <-(links_values (md_links m) l Hok). unfold links_from.
  rewrite !list_elem_of_fmap. setoid_rewrite list_elem_of_filter. destruct Hok as [_ Hk]. split.
  - intros ([k l0] & -> & Ht & Hin). cbn in *. rewrite <-(Hk _ _ Hin) in Ht. split; [done|].
    by exists (k, l0).
  - intros [Ht ([k l0] & -> & Hin)]. cbn in *. exists (k, l0). split_and!; [done| |done].
    by rewrite <-(Hk _ _ Hin).
Qed.

Lemma links_from_receivers m transmitter :
  links_ok (md_links m) → NoDup (to_node <$> links_from m transmitter).
Proof.
  intros Hok. apply (NoDup_fmap_1 (λ t, (transmitter, t))). rewrite <-list_fmap_compose.
  assert (((λ t, (transmitter, t)) ∘ to_node) <$> links_from m transmitter =
    link_key <$> links_from m transmitter) as ->.
  { apply list_fmap_ext. intros i l Hl. apply list_elem_of_lookup_2, links_from_elem in Hl as [<- _]; done. }
  unfold links_from. destruct Hok as [Hd Hk].
  rewrite (links_keys (filter _ (md_links m))).
  - eapply sublist_NoDup; [exact Hd|]. apply fmap_sublist, sublist_filter.
  - split; [eapply sublist_NoDup; [exact Hd|apply fmap_sublist, sublist_filter]|].
    intros k l [_ Hin]%list_elem_of_filter. by apply Hk.
Qed.

(** C19: a transmission reaches exactly the nodes the transmitter has an enabled
    link to, each once: each gets the packet itself with only the signal strength
    and quality of its own link written in. The transmission is published once,
    with those receivers, its length, airtime and traffic run; after it, every
    disabled link is published and counted as a drop, once each. *)
Theorem transmit_correct m transmitter packet now w w' injections :
  links_ok (md_links m) →
  transmit m transmitter packet now w = (w', Ok injections) →
  let receivers := (λ i, to_node (inj_link i)) <$> injections in
  NoDup receivers ∧
  (∀ n, n ∈ receivers ↔
    ∃ l, dget (transmitter, n) (md_links m) = Some l ∧ enabled l = true) ∧
  Forall (λ i, dget (transmitter, to_node (inj_link i)) (md_links m) = Some (inj_link i) ∧
    inj_packet i = packet <| rx_rssi := rssi_dbm (inj_link i) |> <| rx_snr := snr_db (inj_link i) |>)
    injections ∧
  ∃ length air run w0,
    mesh_packet_payload_length packet = Ok length ∧
    airtime_ms length (modem_preset (rf (md_scenario m))) = Ok air ∧
    match transmission_handler (md_handlers m) with
    | Some h => h transmitter packet air w = (w0, Ok run)
    | None => w0 = w ∧ run = None
    end ∧
    let port := mesh_packet_port_number packet in
    w' = foldl (drop_at m transmitter packet now port run)
           (w0.1, (sink_publish (rf_event m transmitter packet now receivers length air port run) w0.2).2)
           (filter (λ l, enabled l = false) (links_from m transmitter)).
Proof.
  intros Hok. unfold transmit. cbn zeta.
  destruct (mesh_packet_payload_length packet) as [len|] eqn:El; [|done].
  destruct (airtime_ms len (modem_preset (rf (md_scenario m)))) as [air|] eqn:Ea; [|done].
  destruct (match transmission_handler (md_handlers m) with Some h => _ | None => _ end)
    as [w0 [run|]] eqn:Eh; [|done].
  rewrite forward_links_spec. cbn [app]. intros [= <- <-].
  set (out := filter (λ l, enabled l = true) (links_from m transmitter)).
  rewrite <-list_fmap_compose. cbn [compose].
  change ((λ x, to_node (inj_link (mkInjection x (received_copy packet x) now run))) <$> out)
    with (to_node <$> out).
  assert (∀ l, l ∈ out → dget (transmitter, to_node l) (md_links m) = Some l ∧ enabled l = true) as Hout.
  { intros l [He Hl]%list_elem_of_filter. apply links_from_elem in Hl as [<- Hl]; done. }
  split_and!.
  - eapply sublist_NoDup; [by apply links_from_receivers|]. apply fmap_sublist, sublist_filter.
  - intros n. rewrite list_elem_of_fmap. split.
    + intros (l & -> & Hl). exists l. by apply Hout.
    + intros (l & Hl & He). destruct Hok as [Hd Hk].
      assert (link_key l = (transmitter, n)) as Hkey by by apply Hk, dget_elem.
      injection Hkey as Hf Ht.
      exists l. split; [done|]. apply list_elem_of_filter. split; [done|].
      apply links_from_elem; [by split|]. unfold link_key. by rewrite Hf, Ht.
  - apply Forall_fmap, Forall_forall. intros l Hl. split; [by apply Hout|done].
  - exists len, air, run, w0. split_and!; [done|done| |done].
    destruct (transmission_handler (md_handlers m)); [done|]. by injection Eh as <- <-.
Qed.
End medium_theorems.

Definition demo_scenario : Scenario :=
  mkScenario 1 "pair" 1 2 default_rf default_channel
    [mkNode "a" "A" CLIENT 4404; mkNode "b" "B" CLIENT 4405]
    [mkLink "a" "b" true (-80) (of_Z 6); mkLink "b" "a" false (-90) (of_Z 2)] true.

Definition demo_medium : DirectedMedium unit event_log :=
  new_medium demo_scenario ["a"; "b"]%string [("a", 11); ("b", 12)]%string (mkHandlers None None).

Definition demo_packet : MeshPacket :=
  mkPacket 11 BROADCAST_NUMBER 77 (Encrypted [Byte.x01; Byte.x02]) false 3 3 0 0 0 fzero [].

Lemma link_edits_correct_witness :
  links_ok (md_links demo_medium) ∧
  is_ok (update_link (mkLink "b" "a" true (-70) (of_Z 3)) fzero demo_medium (mkLog [] "s")) = true ∧
  match apply_links [mkLink "a" "b" true (-80) (of_Z 6)] fzero demo_medium (mkLog [] "s") with
  | Raise e => ∃ msg, e = ValueError msg
  | Ok _ => False
  end.
Proof.
  split; [apply new_medium_ok|]. split; [vm_compute; reflexivity|].
  pose proof (proj2 (link_edits_correct demo_medium (mkLink "b" "a" true (-70) (of_Z 3))
    [mkLink "a" "b" true (-80) (of_Z 6)] fzero (mkLog [] "s")
    (new_medium_ok demo_scenario ["a"; "b"]%string [("a", 11); ("b", 12)]%string (mkHandlers None None)))) as H0.
  destruct (apply_links [mkLink "a" "b" true (-80) (of_Z 6)] fzero demo_medium (mkLog [] "s")) as [[m' r]|e] eqn:E.
  - vm_compute in E. discriminate E.
  - vm_compute in E. injection E as <-. exact (proj2 H0).
Defined.

Lemma transmit_correct_witness :
  let '(w, r) := @transmit sample_protobuf unit event_log log_sink demo_medium "a" demo_packet fzero
                   (tt, mkLog [] "s") in
  length (log_events w.2) = 1%nat ∧
  ∃ injections, r = Ok injections ∧ NoDup ((λ i, to_node (inj_link i)) <$> injections) ∧
    ((λ i, to_node (inj_link i)) <$> injections) = ["b"%string].
Proof.
  destruct (@transmit sample_protobuf unit event_log log_sink demo_medium "a" demo_packet fzero (tt, mkLog [] "s"))
    as [w [injections|e]] eqn:E.
  - pose proof (@transmit_correct sample_protobuf unit event_log log_sink demo_medium "a" demo_packet fzero
      (tt, mkLog [] "s") w injections (new_medium_ok demo_scenario _ _ (mkHandlers None None)) E)
      as (Hnd & _).
    vm_compute in E. injection E as <- <-. split; [reflexivity|]. eexists.
    split; [reflexivity|]. split; [exact Hnd|reflexivity].
  - vm_compute in E. discriminate E.
Defined.
