(* ===== verification/PyDecimal.v ===== *)
(** * Decimal arithmetic of message counts

    [Decimal(str(x))] of a positive float, and products and quotients in the
    default context (28 significant digits, ties to even). [str] of a float is
    the shortest decimal that reads back as the float. *)
From Stdlib Require Import Floats.SpecFloat.
From S2P Require Import Prelude PyFloat.

(** The value [coef * 10^exp]; all decimals here are non-negative. *)
Record decimal := mkDecimal { coef : Z; exp : Z }.

(** The number of decimal digits of a positive integer. *)
Fixpoint digits_go (fuel : nat) (n : Z) : Z :=
  match fuel with
  | O => 0
  | S fuel => if n <? 10 then 1 else 1 + digits_go fuel (n / 10)
  end.
Definition digits (n : Z) : Z := digits_go (S (Z.to_nat (Z.log2 n))) n.

(** ** The shortest representation of a float *)

(** The float a decimal reads as. *)
Definition read_float (d : decimal) : float :=
  if 0 <=? exp d then of_Z (coef d * 10 ^ exp d)
  else fdiv (exact_Z (coef d)) (exact_Z (10 ^ (- exp d))).

(** The best [k]-digit decimal for [num/den], whose leading digit is at 10^lead. *)
Definition repr_digits (x : float) (num den lead k : Z) : option decimal :=
  let s := lead - k + 1 in
  let n := if s <? 0 then num * 10 ^ (- s) else num in
  let d := if s <? 0 then den else den * 10 ^ s in
  let low := mkDecimal (n / d) s in
  let high := mkDecimal (n / d + 1) s in
  let rest := 2 * (n mod d) in
  let near := if (rest <? d) || ((rest =? d) && Z.even (n / d)) then low else high in
  if feq (read_float near) x then Some near
  else if feq (read_float low) x then Some low
  else if feq (read_float high) x then Some high
  else None.

Fixpoint repr_search (fuel : nat) (x : float) (num den lead k : Z) : decimal :=
  match repr_digits x num den lead k, fuel with
  | Some d, _ => d
  | None, S fuel => repr_search fuel x num den lead (k + 1)
  | None, O => mkDecimal 0 0
  end.

(** Seventeen digits always suffice for a binary64 float. *)
Definition float_repr (x : float) : decimal :=
  match x with
  | S754_finite false m e =>
    let num := if 0 <=? e then Z.pos m * 2 ^ e else Z.pos m in
    let den := if 0 <=? e then 1 else 2 ^ (- e) in
    let guess := digits num - digits den in
    let above := if 0 <=? guess then den * 10 ^ guess <=? num else den <=? num * 10 ^ (- guess) in
    repr_search 17 x num den (if above then guess else guess - 1) 1
  | _ => mkDecimal 0 0
  end.

(** ** Arithmetic *)
Definition DECIMAL_PREC : Z := 28.

Definition half_even (n d : Z) : Z :=
  let q := n / d in
  let r := 2 * (n mod d) in
  if (r <? d) || ((r =? d) && Z.even q) then q else q + 1.

(** [n/d * 10^e] rounded to the context's precision. *)
Definition dec_round (n d e : Z) : decimal :=
  let t0 := DECIMAL_PREC - (digits n - digits d) in
  let scaled t := if 0 <=? t then (n * 10 ^ t, d) else (n, d * 10 ^ (- t)) in
  let '(a, b) := scaled t0 in
  let t := if 10 ^ DECIMAL_PREC * b <=? a then t0 - 1 else t0 in
  let '(a, b) := scaled t in
  mkDecimal (half_even a b) (e - t).

Definition dec_mul (a b : decimal) : decimal :=
  let c := coef a * coef b in
  if c <? 10 ^ DECIMAL_PREC then mkDecimal c (exp a + exp b)
  else dec_round c 1 (exp a + exp b).

Definition dec_div (a : decimal) (n : Z) : decimal := dec_round (coef a) n (exp a).

(** [to_integral_value(rounding=ROUND_CEILING)] *)
Definition dec_ceiling (a : decimal) : Z :=
  if 0 <=? exp a then coef a * 10 ^ exp a else - ((- coef a) / 10 ^ (- exp a)).

Definition messages_per_source (duration_seconds messages_per_minute : float) : Z :=
  Z.max 1 (dec_ceiling (dec_div (dec_mul (float_repr duration_seconds) (float_repr messages_per_minute)) 60)).

(** ** Exactness *)

Lemma digits_go_spec fuel n :
  0 < n < 2 ^ Z.of_nat fuel → 
  1 <= digits_go fuel n ∧ 10 ^ (digits_go fuel n - 1) <= n < 10 ^ digits_go fuel n.
Proof.
  revert n. induction fuel as [|fuel IH]; intros n Hn; [change (2 ^ Z.of_nat 0) with 1 in Hn; lia|].
  cbn [digits_go]. destruct (Z.ltb_spec n 10) as [Hs|Hs]; [cbn; lia|].
  rewrite Nat2Z.inj_succ, Z.pow_succ_r in Hn by lia.
  assert (0 < n / 10) by (apply Z.div_str_pos; lia).
  assert (n / 10 < 2 ^ Z.of_nat fuel) by (apply Z.div_lt_upper_bound; lia).
  destruct (IH (n / 10)) as (H1 & H2 & H3); [done|].
  pose proof (Z.div_mod n 10). pose proof (Z.mod_pos_bound n 10).
  replace (1 + digits_go fuel (n / 10) - 1) with (Z.succ (digits_go fuel (n / 10) - 1)) by lia.
  replace (1 + digits_go fuel (n / 10)) with (Z.succ (digits_go fuel (n / 10))) by lia.
  rewrite !Z.pow_succ_r by lia. lia.
Qed.

Lemma digits_spec n : 0 < n → 1 <= digits n ∧ 10 ^ (digits n - 1) <= n < 10 ^ digits n.
Proof.
  intros Hn. apply digits_go_spec. split; [done|].
  rewrite Nat2Z.inj_succ, Z2Nat.id by apply Z.log2_nonneg. by apply Z.log2_spec.
Qed.

Lemma digits_le n k : 0 < n < 10 ^ k → digits n <= k.
Proof.
  intros [Hn Hk]. destruct (digits_spec n Hn) as (H1 & H2 & _).
  assert (10 ^ (digits n - 1) < 10 ^ k) as H by lia.
  apply Z.pow_lt_mono_r_iff in H; [lia|lia|].
  destruct (Z.le_gt_cases 0 k); [done|]. rewrite (Z.pow_neg_r 10 k) in Hk by lia. lia.
Qed.

Lemma half_even_close n d : 0 < d → - d <= 2 * (d * half_even n d - n) <= d.
Proof.
  intros Hd. unfold half_even. pose proof (Z.div_mod n d). pose proof (Z.mod_pos_bound n d Hd).
  destruct (_ || _) eqn:E; [|apply orb_false_iff in E as [E _]; apply Z.ltb_ge in E; nia].
  apply orb_true_iff in E as [E%Z.ltb_lt|E]; [nia|].
  apply andb_true_iff in E as [E%Z.eqb_eq _]. nia.
Qed.

(** [ceil(c * 10^e / 60)] in integers. *)
Definition ceil_sixtieth (c e : Z) : Z :=
  - ((- (c * 10 ^ Z.max e 0)) / (60 * 10 ^ Z.max (- e) 0)).

Lemma neg_div_ceil a b k : 0 < b → b * (k - 1) < a <= b * k → - ((- a) / b) = k.
Proof.
  intros Hb H. assert ((- a) / b = - k) as ->; [|lia].
  symmetry. apply (Z.div_unique (- a) b (- k) (b * k - a)); lia.
Qed.

Lemma neg_div_bounds a b : 0 < b → b * (- ((- a) / b) - 1) < a <= b * (- ((- a) / b)).
Proof.
  intros Hb. pose proof (Z.div_mod (- a) b). pose proof (Z.mod_pos_bound (- a) b Hb). lia.
Qed.

Lemma dec_round_exponent c e :
  0 < c → c * 10 ^ Z.max e 0 < 10 ^ 24 →
  ∃ t, 5 <= t ∧ 5 <= t - e ∧
    dec_round c 60 e = mkDecimal (half_even (c * 10 ^ t) 60) (e - t).
Proof.
  intros Hc Hbound.
  assert (1 <= 10 ^ Z.max e 0) by (pose proof (Z.pow_pos_nonneg 10 (Z.max e 0)); lia).
  assert (digits c + Z.max e 0 <= 24) as Hd.
  { destruct (digits_spec c Hc) as (H1 & H2 & _).
    assert (10 ^ (digits c - 1 + Z.max e 0) < 10 ^ 24) as Hlt
      by (rewrite Z.pow_add_r by lia; nia).
    apply Z.pow_lt_mono_r_iff in Hlt; lia. }
  unfold dec_round. change (digits 60) with 2. unfold DECIMAL_PREC.
  set (t0 := 28 - (digits c - 2)).
  rewrite (proj2 (Z.leb_le 0 t0)) by lia. cbn zeta.
  destruct (10 ^ 28 * 60 <=? c * 10 ^ t0).
  - exists (t0 - 1). rewrite (proj2 (Z.leb_le 0 (t0 - 1))) by lia. split_and!; [lia|lia|done].
  - exists t0. rewrite (proj2 (Z.leb_le 0 t0)) by lia. split_and!; [lia|lia|done].
Qed.

Lemma dec_div_exact c e :
  0 < c → c * 10 ^ Z.max e 0 < 10 ^ 24 →
  dec_ceiling (dec_div (mkDecimal c e) 60) = ceil_sixtieth c e.
Proof.
  intros Hc Hbound. unfold dec_div. cbn [coef exp].
  destruct (dec_round_exponent c e Hc Hbound) as (t & Ht & Hte & ->).
  unfold dec_ceiling. cbn [coef exp]. rewrite (proj2 (Z.leb_gt 0 (e - t))) by lia.
  set (K := ceil_sixtieth c e). set (M := Z.max e 0). set (N := Z.max (- e) 0).
  assert (0 < 10 ^ N) as HN by (apply Z.pow_pos_nonneg; lia).
  assert (60 * 10 ^ N * (K - 1) < c * 10 ^ M <= 60 * 10 ^ N * K) as [K1 K2]
    by (apply neg_div_bounds; lia).
  assert (10 ^ 5 <= 10 ^ (t - M)) as HW by (apply Z.pow_le_mono_r; lia).
  assert (10 ^ t = 10 ^ M * 10 ^ (t - M)) as Et by (rewrite <-Z.pow_add_r by lia; f_equal; lia).
  assert (10 ^ (- (e - t)) = 10 ^ N * 10 ^ (t - M)) as Ef by (rewrite <-Z.pow_add_r by lia; f_equal; lia).
  set (W := 10 ^ (t - M)) in *. change (10 ^ 5) with 100000 in HW.
  pose proof (half_even_close (c * 10 ^ t) 60 ltac:(lia)) as Hh.
  set (C := half_even _ _) in *. rewrite Et in Hh. rewrite Ef.
  replace (c * (10 ^ M * W)) with (c * 10 ^ M * W) in Hh by ring. clear Et Ef Ht Hte Hbound Hc.
  set (P := c * 10 ^ M) in *. set (Q := 10 ^ N) in *. clearbody P Q W C K.
  assert (60 * (Q * W * K) = W * (60 * Q * K)) by ring.
  assert (60 * (Q * W * (K - 1)) = W * (60 * Q * (K - 1))) by ring.
  assert (W * (60 * Q * (K - 1) + 1) <= W * P) by (apply Z.mul_le_mono_nonneg_l; lia).
  assert (W * P <= W * (60 * Q * K)) by (apply Z.mul_le_mono_nonneg_l; lia).
  apply neg_div_ceil; [apply Z.mul_pos_pos; lia|]. lia.
Qed.


