(* ===== verification/TrafficRequest.v ===== *)
(** * Traffic requests (src/backend/app/traffic/controller.py, first part)

    The request and flow models with their validators, the number of messages a
    run schedules, source offsets, destination choice and the identifier carried
    in each payload. [random.Random] and [hashlib.sha256] appear as the interface
    [PyRandom]; only the range of what they return matters here. *)
From Stdlib Require Import Floats.SpecFloat.
From S2P Require Import Prelude PyDict PyFloat PyDecimal Scenario.

Definition TRAFFIC_PREFIX : string := "ML1".
Definition MAX_TRAFFIC_MESSAGES_PER_RUN : Z := 10000.
Definition PACKET_ID_RNG_SALT : Z := 0x4D4C5F5041434B4554.
Definition SOURCE_TIMING_RNG_SALT : Z := 0x4D4C5F534F55524345.
Definition FLOW_DESTINATION_RNG_SALT : Z := 0x4D4C5F464C4F575F.

Inductive TrafficKind := BROADCAST_TEXT | DIRECT_TEXT.
Inductive DestinationStrategy := FIXED | ROUND_ROBIN | DETERMINISTIC_RANDOM.
Inductive SourceTiming := ALIGNED | EVENLY_STAGGERED | DETERMINISTIC_JITTER.

#[export] Instance TrafficKind_eq_dec : EqDecision TrafficKind.
Proof. solve_decision. Defined.
#[export] Instance DestinationStrategy_eq_dec : EqDecision DestinationStrategy.
Proof. solve_decision. Defined.
#[export] Instance SourceTiming_eq_dec : EqDecision SourceTiming.
Proof. solve_decision. Defined.

(** Pseudo-random generators. [rng_index n] is the index [choice] picks in a
    sequence of length [n]; [name_seed] the first eight bytes of a name's SHA-256. *)
Class PyRandom := {
  rng : Type;
  rng_new : Z → rng;
  rng_random : rng → float * rng;
  rng_randrange : Z → Z → rng → Z * rng;
  rng_index : Z → rng → Z * rng;
  name_seed : string → Z }.

(** The documented ranges. *)
Class PyRandomLaws `{PyRandom} := {
  randrange_range : ∀ a b g, a < b → a <= (rng_randrange a b g).1 < b;
  index_range : ∀ n g, 0 < n → 0 <= (rng_index n g).1 < n }.

Record TrafficFlow := mkFlow {
  flow_name : string;
  flow_source_nodes : list string;
  flow_destination_strategy : DestinationStrategy;
  flow_fixed_destination : option string;
  flow_messages_per_minute : float;
  flow_source_timing : SourceTiming }.

Record TrafficRunRequest := mkRequest {
  kind : TrafficKind;
  source_nodes : list string;
  destination_strategy : DestinationStrategy;
  fixed_destination : option string;
  messages_per_minute : float;
  payload_bytes : Z;
  duration_seconds : float;
  acknowledgment_requested : bool;
  source_timing : SourceTiming;
  flows : list TrafficFlow;
  req_seed : Z }.

(** [Field(gt=0, le=hi)] *)
Definition positive_upto (hi : Z) (x : float) : bool := flt fzero x && fle x (of_Z hi).

Definition flow_fields_ok (f : TrafficFlow) : bool :=
  matches_id 31 (flow_name f) &&
  (1 <=? zlen (flow_source_nodes f)) && (zlen (flow_source_nodes f) <=? 10) &&
  positive_upto 600 (flow_messages_per_minute f).

Definition request_fields_ok (r : TrafficRunRequest) : bool :=
  (zlen (source_nodes r) <=? 10) && positive_upto 600 (messages_per_minute r) &&
  (16 <=? payload_bytes r) && (payload_bytes r <=? 233) &&
  positive_upto 3600 (duration_seconds r) &&
  (zlen (flows r) <=? 10) && forallb flow_fields_ok (flows r).

(** The accumulated rate of every source over the flows. *)
Definition source_rates (fs : list TrafficFlow) : dict string float :=
  foldl (λ d f, foldl (λ d source,
      dset source (fadd (default fzero (dget source d)) (flow_messages_per_minute f)) d)
    d (flow_source_nodes f)) [] fs.

Definition overloaded_sources (fs : list TrafficFlow) : list string :=
  str_sorted (filter (λ kv, flt (of_Z 600) kv.2 = true) (source_rates fs)).*1.

Definition fixed_without_destination (name : string) (strategy : DestinationStrategy)
    (destination : option string) : list string :=
  match strategy, destination with FIXED, None => [name] | _, _ => [] end.

Definition missing_destinations (r : TrafficRunRequest) : list string :=
  match flows r with
  | [] => fixed_without_destination "default" (destination_strategy r) (fixed_destination r)
  | fs => fs ≫= λ f,
      fixed_without_destination (flow_name f) (flow_destination_strategy f) (flow_fixed_destination f)
  end.

Definition nonempty {A} (l : list A) : bool := match l with [] => false | _ => true end.

Definition validate_request (r : TrafficRunRequest) : res TrafficRunRequest :=
  _ ← guard_raise (nonempty (flows r) && nonempty (source_nodes r))
        (ValueError "use either flows or sourceNodes, not both");
  _ ← guard_raise (negb (nonempty (flows r)) && negb (nonempty (source_nodes r)))
        (ValueError "at least one traffic source or flow is required");
  _ ← guard_raise (negb (bool_decide (NoDup (flow_name <$> flows r))))
        (ValueError "traffic flow names must be unique");
  _ ← match overloaded_sources (flows r) with
      | source :: _ => Raise (ValueError
          ("combined traffic flow rate exceeds 600 messages per minute for source: " +:+ source))
      | [] => Ok tt
      end;
  _ ← match kind r, missing_destinations r with
      | DIRECT_TEXT, name :: _ => Raise (ValueError
          ("fixedDestination is required for fixed direct traffic flow: " +:+ name))
      | _, _ => Ok tt
      end;
  Ok r.

Definition request_valid (r : TrafficRunRequest) : bool :=
  request_fields_ok r && is_ok (validate_request r).

Definition default_flow (r : TrafficRunRequest) : TrafficFlow :=
  mkFlow "default" (source_nodes r) (destination_strategy r) (fixed_destination r)
    (messages_per_minute r) (source_timing r).

Definition scheduling_flows (r : TrafficRunRequest) : list TrafficFlow :=
  match flows r with [] => [default_flow r] | fs => fs end.

Definition messages_per_flow (r : TrafficRunRequest) (f : TrafficFlow) : Z :=
  messages_per_source (duration_seconds r) (flow_messages_per_minute f).

Definition maximum_sequence (r : TrafficRunRequest) : Z :=
  zsum ((λ f, zlen (flow_source_nodes f) * messages_per_flow r f) <$> scheduling_flows r).

(** ['a', 'b'], for names without quotes. *)
Definition list_repr (l : list string) : string :=
  "[" +:+ String.concat ", " ((λ s, "'" +:+ s +:+ "'") <$> l) +:+ "]".

Definition validate_flow_nodes (kd : TrafficKind) (known : list string) (f : TrafficFlow) : res unit :=
  let unknown := filter (λ s, s ∉ known) (remove_dups (flow_source_nodes f)) in
  _ ← guard_raise (nonempty unknown)
        (ValueError ("unknown traffic sources in flow " +:+ flow_name f +:+ ": "
                       +:+ list_repr (str_sorted unknown)));
  _ ← guard_raise (negb (bool_decide (NoDup (flow_source_nodes f))))
        (ValueError ("traffic source nodes in flow " +:+ flow_name f +:+ " must be unique"));
  match kd, flow_destination_strategy f, flow_fixed_destination f with
  | DIRECT_TEXT, FIXED, Some d =>
    _ ← guard_raise (negb (bool_decide (d ∈ known)))
          (ValueError ("unknown fixed destination in flow " +:+ flow_name f +:+ ": " +:+ d));
    guard_raise (bool_decide (d ∈ flow_source_nodes f))
      (ValueError ("direct traffic destination cannot be one of its source nodes in flow "
                     +:+ flow_name f))
  | _, _, _ => Ok tt
  end.

Definition validate_request_nodes (r : TrafficRunRequest) (s : Scenario) : res unit :=
  for_each (λ f _, validate_flow_nodes (kind r) (node_ids s) f) (scheduling_flows r) tt.

(** ** Timing and destinations *)
Section random.
Context `{PyRandom}.

Fixpoint jitter_offsets (g : rng) (interval : float) (sources : list string)
    : list (string * float) :=
  match sources with
  | [] => []
  | s :: sources => let (x, g) := rng_random g in (s, fmul x interval) :: jitter_offsets g interval sources
  end.

(** [_source_offsets_for] *)
Definition source_offsets_for (sources : list string) (timing : SourceTiming) (interval : float)
    (seed : Z) : dict string float :=
  match timing with
  | ALIGNED => dict_of ((λ s, (s, fzero)) <$> sources)
  | EVENLY_STAGGERED =>
    dict_of ((λ '(index, s), (s, fdiv (fmul (of_Z index) interval) (of_Z (zlen sources))))
               <$> enumerate sources)
  | DETERMINISTIC_JITTER => dict_of (jitter_offsets (rng_new seed) interval sources)
  end.

Definition flow_seed (run_seed : Z) (name : string) (salt : Z) : Z :=
  Z.lxor (Z.lxor run_seed salt) (name_seed name).

Definition flow_source_offsets (f : TrafficFlow) (interval : float) (seed : Z) : dict string float :=
  source_offsets_for (flow_source_nodes f) (flow_source_timing f) interval seed.

(** [_choose_destination]; the counters and the generator are updated in place. *)
Definition choose_destination (kd : TrafficKind) (strategy : DestinationStrategy)
    (fixed : option string) (source : string) (scenario : Scenario)
    (g : rng) (round_robin : dict string Z) : res (string * (rng * dict string Z)) :=
  match kd with
  | BROADCAST_TEXT => Ok ("broadcast"%string, (g, round_robin))
  | DIRECT_TEXT =>
    let candidates := filter (λ n, n ≠ source) (node_ids scenario) in
    match strategy with
    | FIXED => match fixed with
               | None => Raise (RuntimeError "fixed destination was not validated")
               | Some d => Ok (d, (g, round_robin))
               end
    | ROUND_ROBIN =>
      match dget source round_robin with
      | None => Raise (KeyError source)
      | Some index =>
        if zlen candidates =? 0 then Raise (ZeroDivisionError "integer modulo by zero")
        else match candidates !! Z.to_nat (index mod zlen candidates) with
             | Some d => Ok (d, (g, dset source (index + 1) round_robin))
             | None => Raise (IndexError "list index out of range")
             end
      end
    | DETERMINISTIC_RANDOM =>
      if zlen candidates =? 0 then Raise (IndexError "Cannot choose from an empty sequence")
      else let (i, g) := rng_index (zlen candidates) g in
           match candidates !! Z.to_nat i with
           | Some d => Ok (d, (g, round_robin))
           | None => Raise (IndexError "list index out of range")
           end
    end
  end.
End random.

(** ** Properties of the request *)

Lemma valid_request_fixed r f :
  validate_request r = Ok r → kind r = DIRECT_TEXT → f ∈ scheduling_flows r →
  flow_destination_strategy f = FIXED → flow_fixed_destination f ≠ None.
Proof.
  unfold validate_request. intros Hv Hk Hf Hs Hn. do 5 inv_bind Hv. rewrite Hk in Ha3.
  assert (missing_destinations r = []) as Hm by (by destruct (missing_destinations r)).
  revert Hm. unfold missing_destinations, scheduling_flows in *. destruct (flows r) as [|f0 fs].
  - apply list_elem_of_singleton in Hf as ->. cbn in Hs, Hn. by rewrite Hs, Hn.
  - revert Hf. generalize (f0 :: fs). intros l Hin Hm.
    assert (flow_name f ∈ (@nil string)) as Hx; [|by apply elem_of_nil in Hx].
    rewrite <-Hm. apply list_elem_of_bind. exists f. split; [|done]. rewrite Hs, Hn. by left.
Qed.

Lemma validate_flow_nodes_ok kd known f :
  validate_flow_nodes kd known f = Ok tt →
  (∀ s, s ∈ flow_source_nodes f → s ∈ known) ∧ NoDup (flow_source_nodes f) ∧
  (∀ d, kd = DIRECT_TEXT → flow_destination_strategy f = FIXED → flow_fixed_destination f = Some d →
    d ∈ known ∧ (d ∉ flow_source_nodes f)).
Proof.
  unfold validate_flow_nodes. set (unknown := filter _ _). intros Hv.
  inv_bind Hv. inv_bind Hv. apply guard_raise_ok in Ha, Ha0.
  apply negb_false_iff, bool_decide_eq_true in Ha0. split_and!; [|done|].
  - intros s Hs. destruct (decide (s ∈ known)) as [|Hn]; [done|].
    assert (s ∈ unknown) as Hu by (apply list_elem_of_filter; by rewrite elem_of_remove_dups).
    by destruct unknown; [apply elem_of_nil in Hu|].
  - intros d -> Hst Hd. rewrite Hst, Hd in Hv. inv_bind Hv.
    apply guard_raise_ok in Ha1, Hv. apply negb_false_iff, bool_decide_eq_true in Ha1.
    by apply bool_decide_eq_false in Hv.
Qed.

Section destinations.
Context `{PyRandomLaws}.

Lemma candidates_nonempty source (ids : list string) :
  NoDup ids → 2 <= zlen ids → 0 < zlen (filter (λ n, n ≠ source) ids).
Proof.
  intros Hnd Hlen. destruct ids as [|a [|b ids]]; [zlen_lia|zlen_lia|].
  apply NoDup_cons in Hnd as [Ha _]. rewrite filter_cons.
  destruct (decide (a ≠ source)) as [|Hs]; [rewrite zlen_cons; pose proof (zlen_nonneg (filter (λ n, n ≠ source) (b :: ids))); lia|].
  apply dec_stable in Hs as ->. rewrite filter_cons, decide_True by set_solver.
  rewrite zlen_cons. pose proof (zlen_nonneg (filter (λ n, n ≠ source) ids)). lia.
Qed.

Lemma lookup_in_range {A} (l : list A) i :
  0 <= i < zlen l → ∃ x, l !! Z.to_nat i = Some x ∧ x ∈ l.
Proof.
  intros Hi. destruct (lookup_lt_is_Some_2 l (Z.to_nat i)) as [x Hx]; [unfold zlen in Hi; lia|].
  exists x. split; [done|]. by eapply list_elem_of_lookup_2.
Qed.

Lemma choose_destination_facts kd s f source g rr i :
  validate_flow_nodes kd (node_ids s) f = Ok tt → source ∈ flow_source_nodes f →
  (kd = DIRECT_TEXT → flow_destination_strategy f = FIXED → flow_fixed_destination f ≠ None) →
  NoDup (node_ids s) → 2 <= zlen (node_ids s) → dget source rr = Some i →
  let candidates := filter (λ n, n ≠ source) (node_ids s) in
  ∃ d g' rr',
    choose_destination kd (flow_destination_strategy f) (flow_fixed_destination f) source s g rr
      = Ok (d, (g', rr')) ∧
    match kd with
    | BROADCAST_TEXT => d = "broadcast"%string ∧ g' = g ∧ rr' = rr
    | DIRECT_TEXT =>
      (d ∈ node_ids s) ∧ d ≠ source ∧
      match flow_destination_strategy f with
      | FIXED => flow_fixed_destination f = Some d ∧ g' = g ∧ rr' = rr
      | ROUND_ROBIN => candidates !! Z.to_nat (i mod zlen candidates) = Some d ∧ g' = g ∧
                       rr' = dset source (i + 1) rr
      | DETERMINISTIC_RANDOM => (d ∈ candidates) ∧ rr' = rr
      end
    end.
Proof.
  intros Hv Hs Hfix Hnd Hlen Hrr candidates. apply validate_flow_nodes_ok in Hv as (Hk & _ & Hd).
  pose proof (candidates_nonempty source (node_ids s) Hnd Hlen) as Hc. fold candidates in Hc.
  unfold choose_destination. fold candidates. destruct kd; [by eauto 10|].
  assert (∀ d, d ∈ candidates → d ∈ node_ids s ∧ d ≠ source) as Hin
    by (intros d [? ?]%list_elem_of_filter; done).
  destruct (flow_destination_strategy f).
  - specialize (Hfix eq_refl eq_refl). destruct (flow_fixed_destination f) as [d|]; [|done].
    destruct (Hd d eq_refl eq_refl eq_refl) as [Hd1 Hd2]. exists d, g, rr. split; [done|].
    split_and!; try done. by intros ->.
  - rewrite Hrr. rewrite (proj2 (Z.eqb_neq (zlen candidates) 0)) by lia.
    destruct (lookup_in_range candidates (i mod zlen candidates)) as (d & Hl & Hdc);
      [apply Z.mod_pos_bound; lia|]. rewrite Hl. apply Hin in Hdc as [? ?]. by eauto 10.
  - rewrite (proj2 (Z.eqb_neq (zlen candidates) 0)) by lia.
    pose proof (index_range (zlen candidates) g Hc) as Hr.
    destruct (rng_index (zlen candidates) g) as [j g']. cbn [fst] in Hr.
    destruct (lookup_in_range candidates j) as (d & Hl & Hdc); [lia|]. rewrite Hl.
    destruct (Hin d Hdc). by eauto 10.
Qed.

(** For a validated flow, choosing a destination never fails: a broadcast
    run addresses everyone and consumes no randomness; a direct run addresses a
    node of the scenario other than the source, by the flow's strategy: the fixed
    one, the next candidate in turn, or a random candidate. *)
Theorem choose_destination_ok kd s f source g rr i :
  validate_flow_nodes kd (node_ids s) f = Ok tt → source ∈ flow_source_nodes f →
  (kd = DIRECT_TEXT → flow_destination_strategy f = FIXED → flow_fixed_destination f ≠ None) →
  NoDup (node_ids s) → 2 <= zlen (node_ids s) → dget source rr = Some i →
  let candidates := filter (λ n, n ≠ source) (node_ids s) in
  ∃ d g' rr',
    choose_destination kd (flow_destination_strategy f) (flow_fixed_destination f) source s g rr
      = Ok (d, (g', rr')) ∧
    match kd with
    | BROADCAST_TEXT => d = "broadcast"%string ∧ g' = g ∧ rr' = rr
    | DIRECT_TEXT =>
      (d ∈ node_ids s) ∧ d ≠ source ∧
      match flow_destination_strategy f with
      | FIXED => flow_fixed_destination f = Some d ∧ g' = g ∧ rr' = rr
      | ROUND_ROBIN => candidates !! Z.to_nat (i mod zlen candidates) = Some d ∧ g' = g ∧
                       rr' = dset source (i + 1) rr
      | DETERMINISTIC_RANDOM => (d ∈ candidates) ∧ rr' = rr
      end
    end.
Proof. exact (choose_destination_facts kd s f source g rr i). Qed.
End destinations.

(** A linear congruential generator, for witnesses. *)
Definition sample_random : PyRandom := {|
  rng := Z;
  rng_new := λ s, s mod 2 ^ 32;
  rng_random := λ g, let g := (1103515245 * g + 12345) mod 2 ^ 32 in (fdiv (of_Z g) (of_Z (2 ^ 32)), g);
  rng_randrange := λ a b g, let g := (1103515245 * g + 12345) mod 2 ^ 32 in (a + g mod (b - a), g);
  rng_index := λ n g, let g := (1103515245 * g + 12345) mod 2 ^ 32 in (g mod n, g);
  name_seed := λ s, zlen (String.list_byte_of_string s) |}.

#[export] Instance sample_random_laws : @PyRandomLaws sample_random.
Proof.
  split.
  - intros a b g Hab. cbn [rng_randrange sample_random fst].
    pose proof (Z.mod_pos_bound ((1103515245 * g + 12345) mod 2 ^ 32) (b - a)). lia.
  - intros n g Hn. cbn [rng_index sample_random fst]. apply Z.mod_pos_bound. lia.
Qed.

Definition demo_flow : TrafficFlow :=
  mkFlow "default" ["a"%string] ROUND_ROBIN None (of_Z 6) ALIGNED.

Definition demo_nodes_scenario : Scenario :=
  mkScenario 1 "three" 1 3 default_rf default_channel
    [mkNode "a" "A" CLIENT 4404; mkNode "b" "B" CLIENT 4405; mkNode "c" "C" CLIENT 4406] [] true.

Lemma choose_destination_ok_witness :
  ∃ d g' rr', @choose_destination sample_random DIRECT_TEXT ROUND_ROBIN None "a" demo_nodes_scenario 5
      [("a"%string, 1)] = Ok (d, (g', rr')) ∧ d ≠ "a"%string.
Proof.
  destruct (@choose_destination_ok sample_random sample_random_laws DIRECT_TEXT demo_nodes_scenario
    demo_flow "a" 5 [("a"%string, 1)] 1) as (d & g' & rr' & Hd & _ & Hne & _).
  - reflexivity.
  - left.
  - discriminate.
  - apply (bool_decide_unpack _). vm_compute. exact I.
  - vm_compute. discriminate.
  - reflexivity.
  - exists d, g', rr'. split; [exact Hd|exact Hne].
Defined.
