(* ===== verification/Identifier.v ===== *)
(** * The traffic identifier (src/backend/app/traffic/controller.py)

    Each payload starts with [ML1:<run id>:<sequence>:] and is padded with x. The
    receiving side decodes the payload as UTF-8, splits it and reads the sequence
    with [int]; both are modelled on bytes. [int] of text with non-ASCII
    characters, which may be digits of other scripts, is the parameter
    [int_of_text]. *)
From S2P Require Import Prelude PyFloat PyDecimal Mesh TrafficRequest.
From Stdlib Require Import Ascii.

Definition str_bytes (s : string) : list byte := String.list_byte_of_string s.
Definition bytes_str (l : list byte) : string := String.string_of_list_byte l.

Definition COLON : byte := Byte.x3a.

(** [f"{TRAFFIC_PREFIX}:{run_id}:{sequence}:".encode()] *)
Definition marker (run_id : string) (sequence : Z) : list byte :=
  str_bytes (TRAFFIC_PREFIX +:+ ":" +:+ run_id +:+ ":" +:+ pretty sequence +:+ ":").

(** [marker + b"x" * (size - len(marker))] *)
Definition padded (m : list byte) (size : Z) : list byte :=
  m ++ repeat Byte.x78 (Z.to_nat (size - zlen m)).

Definition in_range (lo hi : Z) (b : byte) : bool := (lo <=? byte_val b) && (byte_val b <=? hi).
Definition continuation (b : byte) : bool := in_range 0x80 0xBF b.

(** Strict UTF-8: no overlong forms, no surrogates, nothing above U+10FFFF. *)
Fixpoint utf8_valid (l : list byte) : bool :=
  match l with
  | [] => true
  | b :: l =>
    if in_range 0 0x7F b then utf8_valid l
    else match l with
    | [] => false
    | b1 :: l =>
      if in_range 0xC2 0xDF b then continuation b1 && utf8_valid l
      else match l with
      | [] => false
      | b2 :: l =>
        if in_range 0xE0 0xEF b then
          (if byte_val b =? 0xE0 then in_range 0xA0 0xBF b1
           else if byte_val b =? 0xED then in_range 0x80 0x9F b1 else continuation b1)
          && continuation b2 && utf8_valid l
        else match l with
        | [] => false
        | b3 :: l =>
          in_range 0xF0 0xF4 b &&
          (if byte_val b =? 0xF0 then in_range 0x90 0xBF b1
           else if byte_val b =? 0xF4 then in_range 0x80 0x8F b1 else continuation b1)
          && continuation b2 && continuation b3 && utf8_valid l
        end
      end
    end
  end.

(** [split(":", n)] *)
Fixpoint split_colon (n : nat) (l : list byte) : list (list byte) :=
  match l with
  | [] => [[]]
  | b :: l =>
    match n with
    | O => [b :: l]
    | S n' =>
      if decide (b = COLON) then [] :: split_colon n' l
      else match split_colon n l with
           | p :: ps => (b :: p) :: ps
           | [] => [[b]]
           end
    end
  end.

Definition is_space (b : byte) : bool := in_range 9 13 b || in_range 28 32 b.
Definition is_digit (b : byte) : bool := in_range 48 57 b.
Definition digit_val (b : byte) : Z := byte_val b - 48.

Fixpoint lstrip (l : list byte) : list byte :=
  match l with
  | [] => []
  | b :: l' => if is_space b then lstrip l' else l
  end.
Definition strip (l : list byte) : list byte := reverse (lstrip (reverse (lstrip l))).

(** Digits with single underscores between them. *)
Fixpoint int_tail (acc : Z) (l : list byte) : option Z :=
  match l with
  | [] => Some acc
  | b :: l =>
    if is_digit b then int_tail (10 * acc + digit_val b) l
    else if decide (b = Byte.x5f) then
      match l with
      | b' :: l => if is_digit b' then int_tail (10 * acc + digit_val b') l else None
      | [] => None
      end
    else None
  end.

Definition int_body (l : list byte) : option Z :=
  match l with
  | b :: l => if is_digit b then int_tail (digit_val b) l else None
  | [] => None
  end.

Definition ascii_int (l : list byte) : option Z :=
  match strip l with
  | b :: l' => if decide (b = Byte.x2d) then Z.opp <$> int_body l'
               else if decide (b = Byte.x2b) then int_body l' else int_body (b :: l')
  | [] => None
  end.

Class PyText := { int_of_text : list byte → option Z }.

Section text.
Context `{PyText}.

Definition py_int (l : list byte) : option Z :=
  if forallb (in_range 0 0x7F) l then ascii_int l else int_of_text l.

(** [_parse_identifier]: a [ValueError] of any step gives [None]. *)
Definition parse_identifier (payload : list byte) : option (string * Z) :=
  if utf8_valid payload then
    match split_colon 3 payload with
    | [prefix; run_id; sequence; _] =>
      if decide (prefix = str_bytes TRAFFIC_PREFIX) then
        n ← py_int sequence; Some (bytes_str run_id, n)
      else None
    | _ => None
    end
  else None.

Definition traffic_identifier_from_packet `{Meshtastic} (packet : MeshPacket) : option (string * Z) :=
  match p_payload packet with
  | Decoded data =>
    if portnum data =? TEXT_MESSAGE_APP then parse_identifier (data_payload data)
    else if portnum data =? SIMULATOR_APP then
      match parse_compressed (data_payload data) with
      | None => None
      | Some compressed =>
        if c_portnum compressed =? TEXT_MESSAGE_APP then parse_identifier (c_data compressed)
        else None
      end
    else None
  | _ => None
  end.
End text.

(** ** Decimal text of numbers *)

Lemma str_bytes_cons c s : str_bytes (String c s) = byte_of_ascii c :: str_bytes s.
Proof. done. Qed.

Lemma str_bytes_app s t : str_bytes (s +:+ t) = str_bytes s ++ str_bytes t.
Proof.
  induction s as [|c s IH]; [done|].
  change (String c s +:+ t) with (String c (s +:+ t)). by rewrite !str_bytes_cons, IH.
Qed.

Lemma digit_char_spec x :
  (x < 10)%N →
  let b := byte_of_ascii (pretty_N_char x) in
  is_digit b = true ∧ digit_val b = Z.of_N x ∧ in_range 0 0x7F b = true.
Proof.
  intros Hx. assert (x = 0 ∨ x = 1 ∨ x = 2 ∨ x = 3 ∨ x = 4 ∨ x = 5 ∨ x = 6 ∨ x = 7 ∨ x = 8 ∨ x = 9)%N
    as Hc by lia.
  repeat (destruct Hc as [->|Hc]; [by vm_compute|]). subst. by vm_compute.
Qed.

(** Reading back the digits [pretty_N_go] puts in front of [s]. *)
Lemma int_tail_pretty x s acc :
  ∃ k, int_tail acc (str_bytes (pretty_N_go x s)) = int_tail (acc * 10 ^ k + Z.of_N x) (str_bytes s)
       ∧ 0 <= k.
Proof.
  revert s acc. induction (N.lt_wf_0 x) as [x _ IH]; intros s acc.
  assert (x = 0 ∨ 0 < x)%N as [->|Hx] by lia.
  { exists 0. rewrite pretty_N_go_0. split; [|lia]. f_equal. lia. }
  rewrite pretty_N_go_step by done.
  destruct (IH (x `div` 10)%N (N.div_lt x 10 Hx eq_refl) (String (pretty_N_char (x `mod` 10)) s) acc)
    as (k & -> & Hk).
  exists (k + 1). split; [|lia]. rewrite str_bytes_cons. cbn [int_tail].
  destruct (digit_char_spec (x `mod` 10) ltac:(by apply N.mod_lt)) as (-> & -> & _).
  f_equal. rewrite Z.pow_add_r, N2Z.inj_mod, N2Z.inj_div by lia.
  pose proof (Z.div_mod (Z.of_N x) 10). nia.
Qed.

Lemma pretty_bytes_ascii x s :
  forallb (λ b, is_digit b && in_range 0 0x7F b) (str_bytes s) = true →
  forallb (λ b, is_digit b && in_range 0 0x7F b) (str_bytes (pretty_N_go x s)) = true.
Proof.
  revert s. induction (N.lt_wf_0 x) as [x _ IH]; intros s Hs.
  assert (x = 0 ∨ 0 < x)%N as [->|Hx] by lia; [by rewrite pretty_N_go_0|].
  rewrite pretty_N_go_step by done. apply IH; [by apply N.div_lt|].
  rewrite str_bytes_cons. cbn [forallb].
  destruct (digit_char_spec (x `mod` 10) ltac:(by apply N.mod_lt)) as (-> & _ & ->). done.
Qed.

Lemma pretty_Z_nonneg n : 0 < n → pretty n = pretty_N_go (Z.to_N n) "".
Proof. destruct n; try done. Qed.

(** The decimal text of a natural number is digits only, is not empty, and reads
    back. *)
Lemma pretty_digits n :
  0 <= n →
  let l := str_bytes (pretty n) in
  forallb (λ b, is_digit b && in_range 0 0x7F b) l = true ∧ int_body l = Some n.
Proof.
  intros Hn. destruct (Z.eq_dec n 0) as [->|Hn0]; [by vm_compute|].
  rewrite pretty_Z_nonneg by lia. cbn zeta. split; [by apply pretty_bytes_ascii|].
  pose proof (pretty_bytes_ascii (Z.to_N n) "" eq_refl) as Hd.
  destruct (int_tail_pretty (Z.to_N n) "" 0) as (k & Hk & _).
  rewrite Z.mul_0_l, Z.add_0_l, Z2N.id in Hk by lia.
  change (str_bytes "") with (@nil byte) in Hk. change (int_tail n []) with (Some n) in Hk.
  destruct (str_bytes (pretty_N_go (Z.to_N n) "")) as [|b l]; [cbn in *; congruence|].
  cbn [forallb] in Hd. apply andb_true_iff in Hd as [[Hb _]%andb_true_iff _].
  cbn [int_body]. rewrite Hb. cbn [int_tail] in Hk. rewrite Hb in Hk.
  rewrite Z.mul_0_r, Z.add_0_l in Hk. exact Hk.
Qed.

Lemma pretty_N_go_length x s :
  (0 < x)%N →
  let L := zlen (str_bytes (pretty_N_go x s)) - zlen (str_bytes s) in
  1 <= L ∧ 10 ^ (L - 1) <= Z.of_N x < 10 ^ L.
Proof.
  revert s. induction (N.lt_wf_0 x) as [x _ IH]; intros s Hx. cbn zeta.
  rewrite pretty_N_go_step by done.
  set (s' := String (pretty_N_char (x `mod` 10)) s).
  assert (zlen (str_bytes s') = zlen (str_bytes s) + 1) as Hs'
    by (unfold s'; rewrite str_bytes_cons; apply zlen_cons).
  pose proof (Z.div_mod (Z.of_N x) 10). pose proof (Z.mod_pos_bound (Z.of_N x) 10).
  assert (Z.of_N (x `div` 10) = Z.of_N x / 10) as Hdiv by (rewrite N2Z.inj_div; done).
  assert (x `div` 10 = 0 ∨ 0 < x `div` 10)%N as [Hz|Hp] by lia.
  - rewrite Hz in *. rewrite pretty_N_go_0. replace (zlen (str_bytes s') - zlen (str_bytes s)) with 1 by lia.
    cbn. lia.
  - destruct (IH (x `div` 10)%N (N.div_lt x 10 Hx eq_refl) s' Hp) as (H1 & H2 & H3).
    set (L' := zlen (str_bytes (pretty_N_go (x `div` 10) s')) - zlen (str_bytes s')) in *.
    replace (zlen (str_bytes (pretty_N_go (x `div` 10) s')) - zlen (str_bytes s)) with (Z.succ L')
      by (unfold L'; lia).
    replace (Z.succ L' - 1) with (Z.succ (L' - 1)) by lia. rewrite !Z.pow_succ_r by lia. lia.
Qed.

Lemma pretty_length_mono a b :
  0 <= a <= b → zlen (str_bytes (pretty a)) <= zlen (str_bytes (pretty b)).
Proof.
  intros Hab. destruct (Z.eq_dec b 0) as [->|Hb]; [by replace a with 0 by lia|].
  rewrite (pretty_Z_nonneg b) by lia.
  destruct (pretty_N_go_length (Z.to_N b) "" ltac:(lia)) as (B1 & B2 & B3).
  change (str_bytes "") with (@nil byte) in *. change (@zlen byte []) with 0 in *.
  rewrite Z.sub_0_r in *. rewrite Z2N.id in * by lia.
  destruct (Z.eq_dec a 0) as [->|Ha].
  { change (zlen (str_bytes (pretty 0))) with 1. lia. }
  rewrite (pretty_Z_nonneg a) by lia.
  destruct (pretty_N_go_length (Z.to_N a) "" ltac:(lia)) as (A1 & A2 & A3).
  change (str_bytes "") with (@nil byte) in *. change (@zlen byte []) with 0 in *.
  rewrite Z.sub_0_r in *. rewrite Z2N.id in * by lia.
  revert B1 B2 B3 A1 A2 A3. generalize (zlen (str_bytes (pretty_N_go (Z.to_N a) ""))) as la.
  generalize (zlen (str_bytes (pretty_N_go (Z.to_N b) ""))) as lb. intros lb la B1 B2 B3 A1 A2 A3.
  assert (10 ^ (la - 1) < 10 ^ lb) as Hlt by lia.
  apply Z.pow_lt_mono_r_iff in Hlt; lia.
Qed.

(** ** Round trip *)

(** An identifier without colons or non-ASCII characters, as a uuid is. *)
Definition plain (run_id : string) : bool :=
  forallb (λ b, in_range 0 0x7F b && negb (bool_decide (b = COLON))) (str_bytes run_id).

Lemma split_colon_app n p rest :
  COLON ∉ p → split_colon (S n) (p ++ COLON :: rest) = p :: split_colon n rest.
Proof.
  induction p as [|b p IH]; intros Hp.
  - cbn [app split_colon]. by rewrite decide_True.
  - apply not_elem_of_cons in Hp as [Hb Hp]. cbn [app split_colon].
    rewrite decide_False by done. by rewrite IH.
Qed.

Lemma utf8_valid_ascii l : forallb (in_range 0 0x7F) l = true → utf8_valid l = true.
Proof.
  induction l as [|b l IH]; [done|]. cbn [forallb]. intros [Hb Hl]%andb_true_iff.
  cbn [utf8_valid]. rewrite Hb. by apply IH.
Qed.

Lemma lstrip_nospace l : forallb (λ b, negb (is_space b)) l = true → lstrip l = l.
Proof.
  destruct l as [|b l]; [done|]. cbn [forallb lstrip]. intros H.
  destruct (is_space b); [discriminate H|reflexivity].
Qed.

Lemma strip_nospace l : forallb (λ b, negb (is_space b)) l = true → strip l = l.
Proof.
  intros H. unfold strip. rewrite (lstrip_nospace l) by done.
  rewrite lstrip_nospace; [apply reverse_involutive|].
  rewrite forallb_forall in *. intros x. rewrite <-list_elem_of_In, elem_of_reverse, list_elem_of_In. apply H.
Qed.

Lemma digit_not b : is_digit b = true →
  is_space b = false ∧ b ≠ Byte.x2d ∧ b ≠ Byte.x2b ∧ b ≠ COLON.
Proof.
  unfold is_digit, is_space, in_range. rewrite andb_true_iff, !Z.leb_le. intros Hb.
  split_and!; [|intros ->; cbn in Hb; lia..].
  rewrite orb_false_iff, !andb_false_iff, !Z.leb_gt. lia.
Qed.

Lemma ascii_int_digits l n :
  forallb (λ b, is_digit b && in_range 0 0x7F b) l = true → int_body l = Some n → ascii_int l = Some n.
Proof.
  intros Hl Hn. unfold ascii_int. rewrite strip_nospace.
  2: { rewrite forallb_forall in *. intros x Hx. apply Hl, andb_true_iff in Hx as [Hx _].
       apply digit_not in Hx as [-> _]. done. }
  destruct l as [|b l]; [done|]. cbn [forallb] in Hl.
  apply andb_true_iff in Hl as [[Hb _]%andb_true_iff _]. apply digit_not in Hb as (_ & H1 & H2 & _).
  by rewrite !decide_False.
Qed.

Lemma forallb_elem {A} (f : A → bool) l x : forallb f l = true → x ∈ l → f x = true.
Proof. rewrite forallb_forall. intros H Hx. apply H. by apply list_elem_of_In. Qed.

Lemma forallb_weaken {A} (f g : A → bool) l :
  (∀ x, f x = true → g x = true) → forallb f l = true → forallb g l = true.
Proof. rewrite !forallb_forall. auto. Qed.

(** C31: the payload of a generated message identifies it: whatever the padding,
    the receiving side reads back the run and the sequence number. *)
Theorem identifier_roundtrip `{PyText} run_id sequence size :
  plain run_id = true → 0 <= sequence →
  parse_identifier (padded (marker run_id sequence) size) = Some (run_id, sequence).
Proof.
  intros Hplain Hseq. destruct (pretty_digits sequence Hseq) as [Hd Hv]. cbn zeta in Hd, Hv.
  set (fill := repeat Byte.x78 (Z.to_nat (size - zlen (marker run_id sequence)))).
  set (sb := str_bytes (pretty sequence)) in *. set (rb := str_bytes run_id) in *.
  assert (padded (marker run_id sequence) size =
    str_bytes TRAFFIC_PREFIX ++ COLON :: rb ++ COLON :: sb ++ COLON :: fill) as ->.
  { unfold padded. fold fill. unfold marker. rewrite !str_bytes_app. fold sb rb.
    change (str_bytes ":") with [COLON]. rewrite <-!app_assoc. done. }
  assert (forallb (in_range 0 0x7F) sb = true) as Hsa.
  { eapply forallb_weaken; [|exact Hd]. by intros b [_ ?]%andb_true_iff. }
  assert (forallb (in_range 0 0x7F) rb = true) as Hra.
  { eapply forallb_weaken; [|exact Hplain]. by intros b [? _]%andb_true_iff. }
  assert (forallb (in_range 0 0x7F) fill = true) as Hfa.
  { unfold fill. rewrite forallb_forall. by intros x ->%repeat_spec. }
  unfold parse_identifier. rewrite utf8_valid_ascii.
  2: { rewrite forallb_app. cbn [forallb]. rewrite forallb_app. cbn [forallb].
       rewrite forallb_app. cbn [forallb]. rewrite Hsa, Hra, Hfa. reflexivity. }
  rewrite split_colon_app by (apply (bool_decide_unpack _); vm_compute; exact I).
  rewrite split_colon_app.
  2: { intros Hin. eapply forallb_elem in Hin; [|exact Hplain].
       cbv beta in Hin. by rewrite bool_decide_true, andb_false_r in Hin. }
  rewrite split_colon_app.
  2: { intros Hin. eapply forallb_elem in Hin; [|exact Hd]. by vm_compute in Hin. }
  replace (split_colon 0 fill) with [fill] by by destruct fill.
  rewrite decide_True by done. unfold py_int. rewrite Hsa, (ascii_int_digits sb sequence) by done.
  cbn [mbind option_bind]. unfold rb, bytes_str, str_bytes.
  by rewrite String.string_of_list_byte_of_string.
Qed.

(** A concrete [int] for text beyond ASCII: no such text is a number. *)
Definition sample_text : PyText := {| int_of_text := λ _, None |}.

Definition sample_run_id : string := "0f8fad5b-d9cb-469f-a165-70867728950e".

Lemma identifier_roundtrip_witness :
  plain sample_run_id = true ∧
  @parse_identifier sample_text (padded (marker sample_run_id 42) 64) = Some (sample_run_id, 42).
Proof.
  split; [reflexivity|].
  apply (@identifier_roundtrip sample_text sample_run_id 42 64); [reflexivity|lia].
Defined.
