(* ===== verification/PacketIds.v ===== *)
(** * Packet identifiers (src/backend/app/traffic/controller.py)

    Each run draws a random packet id for every message; ids of finished runs
    stay in quarantine for five minutes so that a late acknowledgment cannot be
    taken for one of a new run. [time.monotonic()] readings are arguments. The
    drawing loop has no bound of its own: [fuel] bounds the draws modelled. *)
From Stdlib Require Import Floats.SpecFloat.
From S2P Require Import Prelude PyDict PyFloat TrafficRequest.

Definition PACKET_ID_QUARANTINE_SECONDS : Z := 5 * 60.
Definition MAX_QUARANTINED_PACKET_IDS_PER_SOURCE : Z := 600 * 60.

Record PacketIds := mkPacketIds {
  packet_ids_by_source : dict string (dict Z float);
  packet_id_quarantine : gmap string (list (float * Z));
  quarantined_packet_ids : gmap string (gset Z) }.
#[export] Instance eta_PacketIds : Eta PacketIds := λ r,
  mkPacketIds (packet_ids_by_source r) (packet_id_quarantine r) (quarantined_packet_ids r).

Definition no_packet_ids : PacketIds := mkPacketIds [] ∅ ∅.

Definition used_of (source : string) (p : PacketIds) : dict Z float :=
  default [] (dget source (packet_ids_by_source p)).
Definition quarantine_of (source : string) (p : PacketIds) : list (float * Z) :=
  default [] (packet_id_quarantine p !! source).
Definition quarantined_of (source : string) (p : PacketIds) : gset Z :=
  default ∅ (quarantined_packet_ids p !! source).

Fixpoint purge_loop (now : float) (q : list (float * Z)) (ids : gset Z) : list (float * Z) * gset Z :=
  match q with
  | (expiry, packet_id) :: q' =>
    if fle expiry now then purge_loop now q' (ids ∖ {[packet_id]}) else (q, ids)
  | [] => (q, ids)
  end.

Definition purge_packet_id_quarantine (source : string) (now : float) (p : PacketIds) : PacketIds :=
  let (q, ids) := purge_loop now (quarantine_of source p) (quarantined_of source p) in
  p <| packet_id_quarantine ::= <[source := q]> |> <| quarantined_packet_ids ::= <[source := ids]> |>.

Section draw.
Context `{PyRandom}.

(** The [while True] loop; [None] when [fuel] draws all gave an id in use. *)
Fixpoint draw_packet_id (fuel : nat) (used : dict Z float) (quarantined : gset Z) (g : rng)
    : option (Z * rng) :=
  match fuel with
  | O => None
  | S fuel =>
    let (packet_id, g) := rng_randrange 1 0xFFFFFFFF g in
    if negb (dmem packet_id used) && negb (bool_decide (packet_id ∈ quarantined))
    then Some (packet_id, g)
    else draw_packet_id fuel used quarantined g
  end.

Definition allocate_packet_id (fuel : nat) (source : string) (now : float) (g : rng) (p : PacketIds)
    : option (Z * rng * PacketIds) :=
  let p := purge_packet_id_quarantine source now p in
  let used := used_of source p in
  '(packet_id, g) ← draw_packet_id fuel used (quarantined_of source p) g;
  Some (packet_id, g, p <| packet_ids_by_source ::= dset source (dset packet_id now used) |>).
End draw.

Definition expiry_of (allocated_at : float) : float :=
  fadd allocated_at (of_Z PACKET_ID_QUARANTINE_SECONDS).

(** The body of the loop of [_retire_packet_ids]. *)
Definition retire_source (now : float) (entry : string * dict Z float) (p : PacketIds) : res PacketIds :=
  let (source, packet_ids) := entry in
  let p := purge_packet_id_quarantine source now p in
  let retained := (λ kv, (expiry_of kv.2, kv.1)) <$>
                    filter (λ kv, flt now (expiry_of kv.2) = true) packet_ids in
  _ ← guard_raise (MAX_QUARANTINED_PACKET_IDS_PER_SOURCE <?
                     zlen (quarantine_of source p) + zlen retained)
        (PacketIdQuarantineCapacityError
           "packet ID quarantine capacity is too small for the configured late-acknowledgment window");
  Ok (p <| packet_id_quarantine ::= <[source := quarantine_of source p ++ retained]> |>
        <| quarantined_packet_ids ::=
             <[source := quarantined_of source p ∪ list_to_set retained.*2]> |>).

(** The state is kept when the loop raises part way. *)
Fixpoint retire_loop (now : float) (entries : list (string * dict Z float)) (p : PacketIds)
    : PacketIds * res unit :=
  match entries with
  | [] => (p <| packet_ids_by_source := [] |>, Ok tt)
  | entry :: entries =>
    match retire_source now entry p with
    | Ok p => retire_loop now entries p
    | Raise e => (purge_packet_id_quarantine entry.1 now p, Raise e)
    end
  end.

Definition retire_packet_ids (now : float) (p : PacketIds) : PacketIds * res unit :=
  retire_loop now (packet_ids_by_source p) p.

(** ** Quarantine invariant *)

Record quarantine_ok (p : PacketIds) : Prop := {
  qo_set : ∀ s, quarantined_of s p = list_to_set (quarantine_of s p).*2;
  qo_nodup : ∀ s, NoDup (quarantine_of s p).*2;
  qo_size : ∀ s, zlen (quarantine_of s p) <= MAX_QUARANTINED_PACKET_IDS_PER_SOURCE }.

Record ids_ok (p : PacketIds) : Prop := {
  io_sources : dict_ok (packet_ids_by_source p);
  io_used : ∀ s, dict_ok (used_of s p);
  io_quarantine : quarantine_ok p;
  io_disjoint : ∀ s id, id ∈ (used_of s p).*1 → id ∉ quarantined_of s p }.

Lemma purge_loop_spec now q ids q' ids' :
  purge_loop now q ids = (q', ids') → NoDup q.*2 → ids = list_to_set q.*2 →
  ids' = list_to_set q'.*2 ∧ ∃ gone, q = gone ++ q' ∧ Forall (λ e, fle e.1 now = true) gone.
Proof.
  revert ids. induction q as [|[e id] q IH]; intros ids; cbn [purge_loop].
  - intros [= <- <-] _ ->. split; [done|]. by exists [].
  - destruct (fle e now) eqn:Ee.
    + intros H Hnd ->. cbn in Hnd. apply NoDup_cons in Hnd as [Hid Hnd].
      apply IH in H as (H & gone & -> & Hg); [|done|].
      * split; [done|]. exists ((e, id) :: gone). split; [done|]. by constructor.
      * cbn. apply leibniz_equiv. intros x. rewrite elem_of_difference, elem_of_union, !elem_of_singleton.
        rewrite elem_of_list_to_set. split; [naive_solver|]. intros Hx. split; [by right|].
        intros ->. done.
    + intros [= <- <-] _ ->. split; [done|]. by exists [].
Qed.

Lemma purge_quarantine s now p :
  quarantine_ok p →
  let p' := purge_packet_id_quarantine s now p in
  quarantine_ok p' ∧ packet_ids_by_source p' = packet_ids_by_source p ∧
  (∃ gone, quarantine_of s p = gone ++ quarantine_of s p' ∧ Forall (λ e, fle e.1 now = true) gone) ∧
  (∀ s', s' ≠ s → quarantine_of s' p' = quarantine_of s' p) ∧
  ∀ s', quarantined_of s' p' ⊆ quarantined_of s' p.
Proof.
  intros [H3 H4 H6]. unfold purge_packet_id_quarantine.
  destruct (purge_loop now (quarantine_of s p) (quarantined_of s p)) as [q ids] eqn:E.
  apply purge_loop_spec in E as (Hids & gone & Hq & Hg); [|done|done]. cbn zeta.
  assert (∀ s', quarantine_of s' (p <| packet_id_quarantine ::= <[s:=q]> |>
      <| quarantined_packet_ids ::= <[s:=ids]> |>) = if decide (s' = s) then q else quarantine_of s' p) as Eq.
  { intros s'. unfold quarantine_of, set_field. cbn [packet_id_quarantine]. case_decide as Hs.
    - by rewrite Hs, lookup_insert_eq.
    - by rewrite lookup_insert_ne. }
  assert (∀ s', quarantined_of s' (p <| packet_id_quarantine ::= <[s:=q]> |>
      <| quarantined_packet_ids ::= <[s:=ids]> |>) = if decide (s' = s) then ids else quarantined_of s' p) as Es.
  { intros s'. unfold quarantined_of, set_field. cbn [quarantined_packet_ids]. case_decide as Hs.
    - by rewrite Hs, lookup_insert_eq.
    - by rewrite lookup_insert_ne. }
  set (p' := _ <| quarantined_packet_ids ::= _ |>) in *. split_and!.
  - split; intros s'; rewrite ?Eq, ?Es; case_decide; try done; specialize (H4 s); specialize (H6 s);
      rewrite Hq in *.
    + rewrite fmap_app in H4. by apply NoDup_app in H4 as (_ & _ & ?).
    + rewrite zlen_app in H6. pose proof (zlen_nonneg gone). lia.
  - done.
  - exists gone. rewrite Eq. by rewrite decide_True.
  - intros s' Hs. rewrite Eq. by rewrite decide_False.
  - intros s'. rewrite Es. case_decide as Hs; [|done]. subst s'.
    rewrite Hids, H3, Hq, fmap_app, list_to_set_app_L. set_solver.
Qed.

Lemma purge_spec s now p :
  ids_ok p →
  let p' := purge_packet_id_quarantine s now p in
  ids_ok p' ∧ packet_ids_by_source p' = packet_ids_by_source p ∧
  (∃ gone, quarantine_of s p = gone ++ quarantine_of s p' ∧ Forall (λ e, fle e.1 now = true) gone) ∧
  (∀ s', s' ≠ s → quarantine_of s' p' = quarantine_of s' p).
Proof.
  intros [H1 H2 Hq H5]. cbn zeta.
  destruct (purge_quarantine s now p Hq) as (A1 & A2 & A3 & A4 & A5). split_and!; [|done..].
  split; [by rewrite A2|intros s'; unfold used_of; rewrite A2; apply H2|done|].
  intros s' id. unfold used_of. rewrite A2. intros Hid Hin. apply (H5 s' id Hid). by apply A5.
Qed.

Section allocation.
Context `{PyRandomLaws}.

Lemma draw_packet_id_spec fuel used quarantined g id g' :
  draw_packet_id fuel used quarantined g = Some (id, g') →
  1 <= id < 0xFFFFFFFF ∧ (id ∉ used.*1) ∧ id ∉ quarantined.
Proof.
  revert g. induction fuel as [|fuel IH]; intros g; cbn [draw_packet_id]; [done|].
  pose proof (randrange_range 1 0xFFFFFFFF g ltac:(lia)) as Hr.
  destruct (rng_randrange 1 0xFFFFFFFF g) as [x g1]. cbn [fst] in Hr.
  destruct (negb (dmem x used) && negb (bool_decide (x ∈ quarantined))) eqn:E; [|apply IH].
  intros [= <- <-]. apply andb_true_iff in E as [E1 E2].
  apply negb_true_iff, bool_decide_eq_false in E1. apply negb_true_iff, bool_decide_eq_false in E2.
  done.
Qed.

(** The [n]-th id the generator draws. *)
Fixpoint nth_draw (n : nat) (g : rng) : Z :=
  let (x, g) := rng_randrange 1 0xFFFFFFFF g in
  match n with O => x | S n => nth_draw n g end.

Lemma draw_packet_id_returns fuel used quarantined g n :
  (n < fuel)%nat → (nth_draw n g ∉ used.*1) → nth_draw n g ∉ quarantined →
  is_Some (draw_packet_id fuel used quarantined g).
Proof.
  revert n g. induction fuel as [|fuel IH]; intros n g Hn Hu Hq; [lia|].
  cbn [draw_packet_id]. destruct n as [|n]; cbn [nth_draw] in Hu, Hq;
    destruct (rng_randrange 1 0xFFFFFFFF g) as [x g1].
  - unfold dmem. rewrite !bool_decide_false by done. by eexists.
  - destruct (negb _ && negb _); [by eexists|]. apply (IH n); [lia|done|done].
Qed.

Lemma allocate_packet_id_facts_aux fuel source now g p n :
  ids_ok p →
  let p0 := purge_packet_id_quarantine source now p in
  (n < fuel)%nat → (nth_draw n g ∉ (used_of source p).*1) → nth_draw n g ∉ quarantined_of source p0 →
  ∃ id g' p',
    allocate_packet_id fuel source now g p = Some (id, g', p') ∧ ids_ok p' ∧
    1 <= id < 0xFFFFFFFF ∧ (id ∉ (used_of source p).*1) ∧ (id ∉ (quarantine_of source p0).*2) ∧
    dget id (used_of source p') = Some now ∧
    (∀ s i, (s, i) ≠ (source, id) → dget i (used_of s p') = dget i (used_of s p)) ∧
    ∀ s e, e ∈ quarantine_of s p → e ∈ quarantine_of s p' ∨ (s = source ∧ fle e.1 now = true).
Proof.
  intros Hok p0 Hn Hu Hq. destruct (purge_spec source now p Hok) as (Hok0 & Hby & (gone & Hg & Hexp) & Hoth).
  fold p0 in Hok0, Hby, Hg, Hoth.
  assert (∀ s, used_of s p0 = used_of s p) as Hused by (intros s; unfold used_of; by rewrite Hby).
  destruct (draw_packet_id_returns fuel (used_of source p0) (quarantined_of source p0) g n Hn)
    as [[id g'] Hd]; [by rewrite Hused|done|].
  apply draw_packet_id_spec in Hd as Hspec. destruct Hspec as (Hr & Hfu & Hfq).
  exists id, g', (p0 <| packet_ids_by_source ::= dset source (dset id now (used_of source p0)) |>).
  split; [unfold allocate_packet_id; fold p0; by rewrite Hd|].
  set (p' := p0 <| packet_ids_by_source ::= _ |>).
  assert (∀ s, used_of s p' = if decide (s = source) then dset id now (used_of source p0) else used_of s p) as Hu'.
  { intros s. unfold used_of at 1, p', set_field. cbn [packet_ids_by_source]. rewrite dget_dset.
    case_decide; [done|]. by rewrite <-Hused. }
  destruct Hok0 as [I1 I2 IQ I5]. pose proof (qo_set p0 IQ) as I3.
  split_and!.
  - split; [by apply dict_ok_dset| |by split; apply IQ|].
    + intros s. rewrite Hu'. case_decide; [by apply dict_ok_dset|]. rewrite <-Hused. apply I2.
    + intros s i. rewrite Hu'. case_decide as Hs; [|rewrite <-Hused; apply I5].
      subst s. intros [->|Hi]%dset_key_in; [exact Hfq|by apply I5].
  - lia.
  - lia.
  - by rewrite <-Hused.
  - rewrite I3, elem_of_list_to_set in Hfq. exact Hfq.
  - rewrite Hu', decide_True by done. apply dget_dset_eq.
  - intros s i Hne. rewrite Hu'. case_decide as Hs; [|done]. subst s.
    rewrite dget_dset_ne, Hused by congruence. done.
  - intros s e He. destruct (decide (s = source)) as [->|Hs]; [|left; change (e ∈ quarantine_of s p0); by rewrite Hoth].
    rewrite Hg in He. apply elem_of_app in He as [He|He]; [|by left].
    right. split; [done|]. rewrite Forall_forall in Hexp. by apply Hexp.
Qed.

(** Allocating an id returns as soon as the generator draws one that is
    neither used in this run nor in quarantine; the id is a valid non-zero packet
    id, new for its source in both respects, and is recorded as used. Ids of other
    sources, and every quarantined id that has not expired, are left alone. *)
Theorem allocate_packet_id_correct fuel source now g p n :
  ids_ok p →
  let p0 := purge_packet_id_quarantine source now p in
  (n < fuel)%nat → (nth_draw n g ∉ (used_of source p).*1) → nth_draw n g ∉ quarantined_of source p0 →
  ∃ id g' p',
    allocate_packet_id fuel source now g p = Some (id, g', p') ∧ ids_ok p' ∧
    1 <= id < 0xFFFFFFFF ∧ (id ∉ (used_of source p).*1) ∧ (id ∉ (quarantine_of source p0).*2) ∧
    dget id (used_of source p') = Some now ∧
    (∀ s i, (s, i) ≠ (source, id) → dget i (used_of s p') = dget i (used_of s p)) ∧
    ∀ s e, e ∈ quarantine_of s p → e ∈ quarantine_of s p' ∨ (s = source ∧ fle e.1 now = true).
Proof. exact (allocate_packet_id_facts_aux fuel source now g p n). Qed.
End allocation.

(** ** Retiring a run's ids *)

Lemma retire_source_spec now s ids p p' :
  quarantine_ok p → dict_ok ids → (∀ id, id ∈ ids.*1 → id ∉ quarantined_of s p) →
  retire_source now (s, ids) p = Ok p' →
  quarantine_ok p' ∧
  (∀ s', s' ≠ s → quarantine_of s' p' = quarantine_of s' p ∧ quarantined_of s' p' = quarantined_of s' p) ∧
  (∀ e, e ∈ quarantine_of s p → e ∈ quarantine_of s p' ∨ fle e.1 now = true) ∧
  (∀ id a, (id, a) ∈ ids → (expiry_of a, id) ∈ quarantine_of s p' ∨ flt now (expiry_of a) = false).
Proof.
  intros Hq Hids Hdis. unfold retire_source.
  destruct (purge_quarantine s now p Hq) as ([A1 A2 A3] & _ & (gone & Hg & Hexp) & Hoth & Hsub).
  set (p0 := purge_packet_id_quarantine s now p) in *.
  set (retained := (λ kv, (expiry_of kv.2, kv.1)) <$> filter (λ kv, flt now (expiry_of kv.2) = true) ids).
  intros H. inv_bind H. apply guard_raise_ok in Ha. apply Z.ltb_ge in Ha. injection H as <-.
  assert (retained.*2 = (filter (λ kv, flt now (expiry_of kv.2) = true) ids).*1) as Hr2
    by (unfold retained; by rewrite <-list_fmap_compose).
  assert (NoDup retained.*2) as Hrn.
  { rewrite Hr2. eapply sublist_NoDup; [exact Hids|]. apply fmap_sublist, sublist_filter. }
  assert (∀ id, id ∈ retained.*2 → id ∉ quarantined_of s p) as Hrd.
  { intros id. rewrite Hr2. intros Hid. apply Hdis. revert Hid.
    rewrite !list_elem_of_fmap. intros (kv & -> & [_ Hkv]%list_elem_of_filter). by exists kv. }
  set (p' := _ <| quarantined_packet_ids ::= _ |>).
  assert (∀ s', quarantine_of s' p' = if decide (s' = s) then quarantine_of s p0 ++ retained
                                      else quarantine_of s' p0) as Eq.
  { intros s'. unfold quarantine_of at 1, p', set_field. cbn [packet_id_quarantine]. case_decide as Hs.
    - by rewrite Hs, lookup_insert_eq.
    - by rewrite lookup_insert_ne. }
  assert (∀ s', quarantined_of s' p' = if decide (s' = s) then quarantined_of s p0 ∪ list_to_set retained.*2
                                       else quarantined_of s' p0) as Es.
  { intros s'. unfold quarantined_of at 1, p', set_field. cbn [quarantined_packet_ids]. case_decide as Hs.
    - by rewrite Hs, lookup_insert_eq.
    - by rewrite lookup_insert_ne. }
  split_and!.
  - split; intros s'; rewrite ?Eq, ?Es; case_decide; try done.
    + by rewrite fmap_app, list_to_set_app_L, A1.
    + rewrite fmap_app. apply NoDup_app. split_and!; [done| |done].
      intros id Hid Hin. apply (Hrd id Hin), Hsub. rewrite A1. by apply elem_of_list_to_set.
    + rewrite zlen_app. lia.
  - intros s' Hs. rewrite Eq, Es, !decide_False by done. split; [by apply Hoth|].
    rewrite A1, (qo_set p Hq). by rewrite Hoth.
  - intros e. rewrite Eq, decide_True, Hg by done. intros [He|He]%elem_of_app.
    + right. rewrite Forall_forall in Hexp. by apply Hexp.
    + left. apply elem_of_app. by left.
  - intros id t Hin. rewrite Eq, decide_True by done.
    destruct (flt now (expiry_of t)) eqn:E; [left|by right].
    apply elem_of_app. right. apply list_elem_of_fmap. exists (id, t). split; [done|].
    by apply list_elem_of_filter.
Qed.

Lemma retire_loop_spec now entries p p' :
  quarantine_ok p → NoDup entries.*1 → (∀ s ids, (s, ids) ∈ entries → dict_ok ids) →
  (∀ s ids id, (s, ids) ∈ entries → id ∈ ids.*1 → id ∉ quarantined_of s p) →
  retire_loop now entries p = (p', Ok tt) →
  quarantine_ok p' ∧ packet_ids_by_source p' = [] ∧
  (∀ s e, e ∈ quarantine_of s p → e ∈ quarantine_of s p' ∨ fle e.1 now = true) ∧
  (∀ s ids id a, (s, ids) ∈ entries → (id, a) ∈ ids →
    (expiry_of a, id) ∈ quarantine_of s p' ∨ fle (expiry_of a) now = true ∨ flt now (expiry_of a) = false).
Proof.
  revert p. induction entries as [|[s ids] entries IH]; intros p Hq Hnd Hids Hdis; cbn [retire_loop].
  { intros [= <-]. destruct Hq. split_and!; [by split|done|by left|by intros ??? ? ?%elem_of_nil]. }
  destruct (retire_source now (s, ids) p) as [p1|e] eqn:E; [|done]. intros H.
  cbn in Hnd. apply NoDup_cons in Hnd as [Hs Hnd].
  apply retire_source_spec in E as (Q1 & Q2 & Q3 & Q4);
    [|done|by apply (Hids s); left|intros id; apply (Hdis s ids id); by left].
  assert (∀ s' ids', (s', ids') ∈ entries → s' ≠ s) as Hne.
  { intros s' ids' Hin ->. apply Hs, list_elem_of_fmap. by exists (s, ids'). }
  apply IH in H as (R1 & R2 & R3 & R4); [| |done| |].
  - split_and!; [done|done| |].
    + intros s' e He. destruct (decide (s' = s)) as [->|Hn].
      * destruct (Q3 e He) as [He'|?]; [by apply R3|by right].
      * apply R3. by rewrite (proj1 (Q2 s' Hn)).
    + intros s' ids' id a [[= -> ->]|Hin]%elem_of_cons Ha; [|by apply (R4 s' ids')].
      destruct (Q4 id a Ha) as [Hq4|?]; [|auto]. destruct (R3 s _ Hq4) as [?|?]; auto.
  - done.
  - intros s' ids' Hin. apply (Hids s'). by right.
  - intros s' ids' id Hin Hid. rewrite (proj2 (Q2 s' (Hne s' ids' Hin))).
    apply (Hdis s' ids'); [by right|done].
Qed.

(** ** No reuse within five minutes *)

Inductive id_op `{PyRandom} := IAllocate (fuel : nat) (source : string) (g : rng) | IRetire.

Lemma retire_packet_ids_spec now p p' :
  ids_ok p → retire_packet_ids now p = (p', Ok tt) →
  ids_ok p' ∧ (∀ s, used_of s p' = []) ∧
  (∀ s e, e ∈ quarantine_of s p → e ∈ quarantine_of s p' ∨ fle e.1 now = true) ∧
  ∀ s id a, dget id (used_of s p) = Some a →
    (expiry_of a, id) ∈ quarantine_of s p' ∨ fle (expiry_of a) now = true ∨ flt now (expiry_of a) = false.
Proof.
  intros [I1 I2 I3 I4] Er.
  assert (∀ s ids, (s, ids) ∈ packet_ids_by_source p → ids = used_of s p) as Hent.
  { intros s ids Hin. unfold used_of. by rewrite (proj2 (dget_Some s ids _ I1) Hin). }
  apply retire_loop_spec in Er as (R1 & R2 & R3 & R4);
    [|done|done|intros s ids Hin; rewrite (Hent s ids Hin); apply I2|
      intros s ids i Hin; rewrite (Hent s ids Hin); apply I4].
  assert (∀ s, used_of s p' = []) as Hnil by (intros s; unfold used_of; by rewrite R2).
  split_and!; [|done|done|].
  - split; [rewrite R2; apply dict_ok_nil|intros s; rewrite Hnil; apply dict_ok_nil|done|].
    intros s i. rewrite Hnil. by intros ?%elem_of_nil.
  - intros s id a Hd. apply (R4 s (used_of s p)); [|by apply dget_elem].
    apply dget_Some; [done|]. unfold used_of in *. by destruct (dget s _).
Qed.

Record allocation := mkAllocation { al_source : string; al_id : Z; al_time : float }.

Section reuse.
Context `{PyRandomLaws}.

(** One operation at a time; the run ends where the code raises or keeps drawing. *)
Definition id_step (timed : float * id_op) (st : PacketIds * list allocation)
    : option (PacketIds * list allocation) :=
  let (now, op) := timed in
  match op with
  | IAllocate fuel source g =>
    '(id, _, p) ← allocate_packet_id fuel source now g st.1;
    Some (p, st.2 ++ [mkAllocation source id now])
  | IRetire =>
    match retire_packet_ids now st.1 with
    | (p, Ok _) => Some (p, st.2)
    | (_, Raise _) => None
    end
  end.

Fixpoint id_run (ops : list (float * id_op)) (st : PacketIds * list allocation)
    : option (PacketIds * list allocation) :=
  match ops with
  | [] => Some st
  | op :: ops => st ← id_step op st; id_run ops st
  end.

(** Clock readings never decrease, and they and the expiries are numbers. *)
Fixpoint clock_ok (last : float) (times : list float) : Prop :=
  match times with
  | [] => True
  | t :: times => fle last t = true ∧ is_nan t = false ∧ is_nan (expiry_of t) = false ∧ clock_ok t times
  end.

(** Where a logged allocation still is at time [last]. *)
Definition logged (p : PacketIds) (last : float) (a : allocation) : Prop :=
  is_nan (expiry_of (al_time a)) = false ∧
  (dget (al_id a) (used_of (al_source a) p) = Some (al_time a) ∨
   (expiry_of (al_time a), al_id a) ∈ quarantine_of (al_source a) p ∨
   fle (expiry_of (al_time a)) last = true).

Definition no_early_reuse (log : list allocation) : Prop :=
  ∀ i j a b, (i < j)%nat → log !! i = Some a → log !! j = Some b →
    al_source a = al_source b → al_id a = al_id b → fle (expiry_of (al_time a)) (al_time b) = true.

Definition ids_run_ok (st : PacketIds * list allocation) (last : float) : Prop :=
  ids_ok st.1 ∧ Forall (logged st.1 last) st.2 ∧ no_early_reuse st.2.

Lemma no_early_reuse_snoc log b :
  no_early_reuse log →
  (∀ a, a ∈ log → al_source a = al_source b → al_id a = al_id b →
    fle (expiry_of (al_time a)) (al_time b) = true) →
  no_early_reuse (log ++ [b]).
Proof.
  intros Hl Hb i j x y Hij Hx Hy Es Ei.
  apply lookup_lt_Some in Hy as Hlt. rewrite length_app in Hlt. cbn in Hlt.
  rewrite lookup_app_l in Hx by lia. destruct (decide (j < length log)%nat).
  - rewrite lookup_app_l in Hy by lia. by apply (Hl i j).
  - rewrite lookup_app_r in Hy by lia. replace (j - length log)%nat with 0%nat in Hy by lia.
    injection Hy as <-. apply Hb; [|done|done]. by eapply list_elem_of_lookup_2.
Qed.

Lemma allocate_packet_id_facts fuel source now g p id g' p' :
  ids_ok p → allocate_packet_id fuel source now g p = Some (id, g', p') →
  ids_ok p' ∧ (id ∉ (used_of source p).*1) ∧
  (id ∉ (quarantine_of source (purge_packet_id_quarantine source now p)).*2) ∧
  dget id (used_of source p') = Some now ∧
  (∀ s i, (s, i) ≠ (source, id) → dget i (used_of s p') = dget i (used_of s p)) ∧
  ∀ s e, e ∈ quarantine_of s p → e ∈ quarantine_of s p' ∨ (s = source ∧ fle e.1 now = true).
Proof.
  intros Hok Ha. unfold allocate_packet_id in Ha.
  destruct (draw_packet_id _ _ _ _) as [[i gi]|] eqn:Ed; [|done].
  assert (∃ n, (n < fuel)%nat ∧
    (nth_draw n g ∉ (used_of source (purge_packet_id_quarantine source now p)).*1) ∧
    nth_draw n g ∉ quarantined_of source (purge_packet_id_quarantine source now p)) as (n & Hn & Hu & Hq).
  { clear Ha. revert g Ed. induction fuel as [|fuel IH]; intros g; cbn [draw_packet_id]; [done|].
    destruct (rng_randrange 1 0xFFFFFFFF g) as [x g1] eqn:Er.
    destruct (negb _ && negb _) eqn:E.
    - intros _. exists 0%nat. cbn [nth_draw]. rewrite Er. apply andb_true_iff in E as [E1 E2].
      apply negb_true_iff, bool_decide_eq_false in E1. apply negb_true_iff, bool_decide_eq_false in E2.
      split_and!; [lia|done|done].
    - intros Hd. destruct (IH g1 Hd) as (n & Hn & ?). exists (S n). cbn [nth_draw]. rewrite Er.
      split; [lia|done]. }
  destruct (purge_spec source now p Hok) as (_ & Hby & _).
  assert (used_of source (purge_packet_id_quarantine source now p) = used_of source p) as Hus
    by (unfold used_of; by rewrite Hby).
  rewrite Hus in Hu.
  destruct (allocate_packet_id_facts_aux fuel source now g p n Hok Hn Hu Hq)
    as (id1 & g1 & p1 & E1 & H1 & _ & H2 & H3 & H4 & H5 & H6).
  unfold allocate_packet_id in E1. rewrite Ed in E1. cbn [mbind option_bind] in Ha, E1.
  rewrite E1 in Ha. injection Ha as -> -> ->. by split_and!.
Qed.

Lemma ids_run_ok_step now op st st' last :
  ids_run_ok st last → fle last now = true → is_nan last = false → is_nan now = false →
  is_nan (expiry_of now) = false → id_step (now, op) st = Some st' → ids_run_ok st' now.
Proof.
  intros (Hok & Hlog & Hre) Hle Hn1 Hn2 Hn3. destruct st as [p log]. cbn [fst snd] in *.
  assert (∀ e, is_nan e = false → fle e last = true → fle e now = true) as Htr
    by (intros e He Hel; by apply (fle_trans e last now)).
  destruct op as [fuel source g|]; cbn [id_step fst snd].
  - destruct (allocate_packet_id fuel source now g p) as [[[id g'] p']|] eqn:Ea; [|done].
    cbn [mbind option_bind]. intros [= <-].
    apply allocate_packet_id_facts in Ea as (Hok' & Hu & Hq & Hnow & Hoth & Hquar); [|done].
    destruct (purge_spec source now p Hok) as (_ & _ & (gone & Hg & Hexp) & _).
    assert (∀ a, logged p last a → al_source a = source → al_id a = id →
      fle (expiry_of (al_time a)) now = true) as Hold.
    { intros a (Hnan & [Hd|[Hd|Hd]]) <- <-.
      - by apply dget_key in Hd.
      - rewrite Hg in Hd. apply elem_of_app in Hd as [Hd|Hd].
        + rewrite Forall_forall in Hexp. by apply (Hexp _ Hd).
        + destruct Hq. apply list_elem_of_fmap. by exists (expiry_of (al_time a), al_id a).
      - by apply Htr. }
    split_and!; [done| |].
    + apply Forall_app. split; [|apply Forall_singleton; split; [done|by left]].
      eapply Forall_impl; [exact Hlog|]. intros a Ha. split; [apply Ha|].
      destruct (decide ((al_source a, al_id a) = (source, id))) as [[= E1 E2]|Hne].
      * right; right. by apply Hold.
      * destruct Ha as (Hnan & [Hd|[Hd|Hd]]).
        -- left. by rewrite Hoth.
        -- right. destruct (Hquar _ _ Hd) as [?|[_ ?]]; [by left|by right].
        -- right; right. by apply Htr.
    + apply no_early_reuse_snoc; [done|]. intros a Ha. rewrite Forall_forall in Hlog.
      apply Hold. by apply Hlog.
  - destruct (retire_packet_ids now p) as [p' [[]|e]] eqn:Er; [|done]. intros [= <-].
    apply retire_packet_ids_spec in Er as (Hok' & Hnil & R3 & R4); [|done].
    split_and!; cbn [fst snd]; [done| |done].
    + eapply Forall_impl; [exact Hlog|]. intros a (Hnan & Ha). split; [done|]. right.
      destruct Ha as [Hd|[Hd|Hd]]; [|by apply R3|right; by apply Htr].
      destruct (R4 _ _ _ Hd) as [?|[?|Hlt]]; [by left|by right|].
      right. rewrite fle_flt by done. by rewrite Hlt.
Qed.

(** C16: over any sequence of runs, an id a source has used is given to that
    source again only when at least five minutes have passed since it was first
    allocated, by the code's own clock arithmetic, and all the while no source's
    quarantine exceeds its capacity. *)
Theorem packet_id_not_reused_early ops p log start :
  is_nan start = false → clock_ok start ops.*1 →
  id_run ops (no_packet_ids, []) = Some (p, log) →
  no_early_reuse log ∧
  ∀ s, zlen (quarantine_of s p) <= MAX_QUARANTINED_PACKET_IDS_PER_SOURCE.
Proof.
  intros Hstart Hclock Hrun.
  assert (∀ st last, ids_run_ok st last → is_nan last = false → clock_ok last ops.*1 →
    id_run ops st = Some (p, log) → ∃ last', ids_run_ok (p, log) last') as Hgen.
  { clear Hrun Hclock. induction ops as [|[now op] ops IH]; intros st last Hst Hl Hc; cbn [id_run].
    - intros [= ->]. by exists last.
    - destruct Hc as (C1 & C2 & C3 & C4). intros Hr.
      destruct (id_step (now, op) st) as [st1|] eqn:Es; [|discriminate Hr].
      cbn [mbind option_bind] in Hr.
      apply (IH st1 now); [|done|done|done]. by apply (ids_run_ok_step now op st st1 last). }
  destruct (Hgen (no_packet_ids, []) start) as (last & H1 & H2 & H3); [|done..|].
  - split_and!; [|by apply Forall_nil|intros i j a b _; cbn [snd]; by rewrite lookup_nil]; cbn [fst].
    assert (∀ s, quarantine_of s no_packet_ids = []) as Hq by (intros s; reflexivity).
    split; [apply dict_ok_nil|intros s; apply dict_ok_nil| |intros s i; by intros ?%elem_of_nil].
    split; intros s; rewrite ?Hq; [done|constructor|].
    vm_compute. discriminate.
  - split; [exact H3|]. intros s. apply (qo_size _ (io_quarantine _ H1)).
Qed.
End reuse.

Definition demo_ids_run (g : Z) : list (float * @id_op sample_random) :=
  [(of_Z 1, @IAllocate sample_random 5 "a" g); (of_Z 2, @IAllocate sample_random 5 "a" (g + 1));
   (of_Z 10, @IRetire sample_random); (of_Z 400, @IAllocate sample_random 5 "a" g)].

Lemma packet_id_not_reused_early_witness :
  ∃ p log, @id_run sample_random (demo_ids_run 9) (no_packet_ids, []) = Some (p, log) ∧
    length log = 3%nat ∧ no_early_reuse log.
Proof.
  destruct (@id_run sample_random (demo_ids_run 9) (no_packet_ids, [])) as [[p log]|] eqn:E.
  - exists p, log. split; [reflexivity|].
    pose proof (@packet_id_not_reused_early sample_random sample_random_laws (demo_ids_run 9) p log (of_Z 0)
      eq_refl ltac:(vm_compute; repeat split) E) as [H _].
    split; [|exact H]. vm_compute in E. injection E as _ <-. reflexivity.
  - vm_compute in E. discriminate E.
Defined.

Lemma allocate_packet_id_correct_witness :
  ∃ id g' p', @allocate_packet_id sample_random 1 "a" (of_Z 5) 9 no_packet_ids = Some (id, g', p') ∧
    1 <= id < 0xFFFFFFFF ∧ dget id (used_of "a" p') = Some (of_Z 5).
Proof.
  assert (ids_ok no_packet_ids) as Hok.
  { split; [apply dict_ok_nil|intros s; apply dict_ok_nil| |intros s i; by intros ?%elem_of_nil].
    split; intros s; [reflexivity|constructor|vm_compute; discriminate]. }
  destruct (@allocate_packet_id_correct sample_random sample_random_laws 1 "a" (of_Z 5) 9 no_packet_ids 0 Hok)
    as (id & g' & p' & H1 & _ & H2 & _ & _ & H3 & _).
  - lia.
  - by intros ?%elem_of_nil.
  - by intros ?%elem_of_empty.
  - exists id, g', p'. split; [exact H1|]. split; [exact H2|exact H3].
Defined.
