(* ===== verification/TrafficState.v ===== *)
(** * The traffic controller's state (src/backend/app/traffic/controller.py)

    The records of a run and of the controller. [GeneratedMessage] objects are
    shared by the run's list and by the controller's tables; the list is the
    store, and the tables hold sequence numbers, which identify the run's messages.
    The fields of [TrafficController] that [_reset_accumulators]
    clears are grouped in [Accumulators]. *)
From Stdlib Require Import Floats.SpecFloat.
From S2P Require Import Prelude PyDict PyFloat Scenario Mesh Airtime Events Calculations.
From S2P Require Import TrafficRequest Identifier PacketIds.

Definition MAX_TOPOLOGY_CHANGES_PER_RUN : Z := 10000.
Definition LIVE_LATENCY_SAMPLE_SIZE : Z := 2048.
Definition INTERMEDIATE_TRANSMISSION_ATTEMPTS : Z := 2.
Definition RELIABLE_UNICAST_ATTEMPTS : Z := 3.
Definition MAX_DRAIN_SECONDS : float := of_Z 300.

Inductive TrafficRunState := IDLE | RUNNING | STOPPING | COMPLETED | CANCELLED | FAILED.
Inductive TrafficRunPhase := GENERATING | DRAINING | FINALIZING | TERMINAL.

#[export] Instance TrafficRunState_eq_dec : EqDecision TrafficRunState.
Proof. solve_decision. Defined.
#[export] Instance TrafficRunPhase_eq_dec : EqDecision TrafficRunPhase.
Proof. solve_decision. Defined.

Record GeneratedMessage := mkMessage {
  g_sequence : Z;
  g_flow : string;
  g_source : string;
  g_destination : string;
  g_packet_id : Z;
  g_generated : float;
  g_submitted : bool;
  g_error : option string;
  g_transmitted : bool;
  g_delivered_to : list string;
  g_acknowledged : bool;
  g_latency : option float }.
#[export] Instance eta_GeneratedMessage : Eta GeneratedMessage := λ r,
  mkMessage (g_sequence r) (g_flow r) (g_source r) (g_destination r) (g_packet_id r)
    (g_generated r) (g_submitted r) (g_error r) (g_transmitted r) (g_delivered_to r)
    (g_acknowledged r) (g_latency r).

Record TopologyChange := mkChange {
  tc_event_sequence : Z;
  tc_monotonic_seconds : float;
  tc_link : DirectedLink }.

Record BuildMetadata := mkBuild {
  firmware_commit : string;
  collision_patch_sha256 : string;
  firmware_binary_sha256 : string;
  build_architecture : string;
  upstream_base_image_digest : string;
  meshtasticator_commit : string;
  client_library_version : string }.

Record TrafficRunResult := mkResult {
  r_build : BuildMetadata;
  r_run_id : string;
  r_state : TrafficRunState;
  r_request : TrafficRunRequest;
  r_scenario : Scenario;
  r_finished : bool;
  r_random_seed : Z;
  r_requested : Z;
  r_submitted : Z;
  r_submission_failed : Z;
  r_transmitted : Z;
  r_delivered : Z;
  r_complete : bool;
  r_missing_nodes : list string;
  r_messages : list GeneratedMessage;
  r_topology_changes : list TopologyChange;
  r_metrics : MetricsSnapshot;
  r_failure : option string }.
#[export] Instance eta_TrafficRunResult : Eta TrafficRunResult := λ r,
  mkResult (r_build r) (r_run_id r) (r_state r) (r_request r) (r_scenario r) (r_finished r)
    (r_random_seed r) (r_requested r) (r_submitted r) (r_submission_failed r) (r_transmitted r)
    (r_delivered r) (r_complete r) (r_missing_nodes r) (r_messages r) (r_topology_changes r)
    (r_metrics r) (r_failure r).

Record Accumulators := mkAccumulators {
  a_sequence : Z;
  messages_by_packet : gmap (Z * Z) Z;
  messages_by_key : gmap (string * Z) Z;
  pending_submissions : dict (string * Z) Z;
  routing_terminal_sequences : gset Z;
  delivered_sequences : gset Z;
  a_latencies_ms : list float;
  live_latencies_ms : list float;
  a_rf_transmitters : list string;
  a_airtimes_ms : list Z;
  a_relay_transmissions : Z;
  a_duplicates : Z;
  a_failed_receptions : Z;
  latest_failed_receptions : gmap string Z;
  latest_duplicate_receptions : gmap string Z;
  a_drop_reasons : list string;
  a_drop_counts : counter;
  a_event_loop_lag_ms : option float;
  generated_count : Z;
  submitted_count : Z;
  submission_failed_count : Z;
  transmitted_count : Z;
  a_unique_deliveries : Z;
  a_receiver_deliveries : Z;
  a_receiver_opportunities : Z;
  a_acknowledgments : Z;
  a_rf_transmission_count : Z;
  a_observed_airtime_ms : Z;
  a_per_node_transmit_counts : counter;
  a_per_node_airtime_ms : counter;
  maximum_packet_airtime_ms : Z;
  a_maximum_retransmission_delay_ms : Z;
  last_activity_monotonic : float;
  activity_changed : bool;
  a_metrics : option MetricsSnapshot }.
#[export] Instance eta_Accumulators : Eta Accumulators := λ r,
  mkAccumulators (a_sequence r) (messages_by_packet r) (messages_by_key r) (pending_submissions r)
    (routing_terminal_sequences r) (delivered_sequences r) (a_latencies_ms r) (live_latencies_ms r)
    (a_rf_transmitters r) (a_airtimes_ms r) (a_relay_transmissions r) (a_duplicates r)
    (a_failed_receptions r) (latest_failed_receptions r) (latest_duplicate_receptions r)
    (a_drop_reasons r) (a_drop_counts r) (a_event_loop_lag_ms r) (generated_count r)
    (submitted_count r) (submission_failed_count r) (transmitted_count r) (a_unique_deliveries r)
    (a_receiver_deliveries r) (a_receiver_opportunities r) (a_acknowledgments r)
    (a_rf_transmission_count r) (a_observed_airtime_ms r) (a_per_node_transmit_counts r)
    (a_per_node_airtime_ms r) (maximum_packet_airtime_ms r) (a_maximum_retransmission_delay_ms r)
    (last_activity_monotonic r) (activity_changed r) (a_metrics r).

(** What [_reset_accumulators] leaves, at time [now]. *)
Definition fresh_accumulators (now : float) : Accumulators :=
  mkAccumulators 0 ∅ ∅ [] ∅ ∅ [] [] [] [] 0 0 0 ∅ ∅ [] ∅ None 0 0 0 0 0 0 0 0 0 0 ∅ ∅ 0 0 now false None.

(** The constructor's arguments ([config]) and the mutable rest. [task_active]
    says that the run's task exists and is not done. *)
Record Config := mkConfig {
  c_scenario : Scenario;
  c_gateways : list string;
  c_hardware_ids : dict string Z;
  c_build : BuildMetadata;
  c_settle_seconds : option float;
  c_finalization_wait_seconds : float;
  c_has_sampler : bool }.

Record Controller := mkController {
  config : Config;
  c_state : TrafficRunState;
  c_current : option TrafficRunResult;
  c_frozen : option TrafficRunResult;
  task_active : bool;
  finalization_done : bool;
  finalization_wait_timed_out : bool;
  c_phase : TrafficRunPhase;
  drain_deadline : option float;
  c_event_stream_id : option string;
  run_scenario : Scenario;
  c_packet_ids : PacketIds;
  acc : Accumulators }.
#[export] Instance eta_Controller : Eta Controller := λ r,
  mkController (config r) (c_state r) (c_current r) (c_frozen r) (task_active r)
    (finalization_done r) (finalization_wait_timed_out r) (c_phase r) (drain_deadline r)
    (c_event_stream_id r) (run_scenario r) (c_packet_ids r) (acc r).

Definition new_controller (cfg : Config) (now : float) : res Controller :=
  _ ← guard_raise (fle (c_finalization_wait_seconds cfg) fzero)
        (ValueError "finalization wait must be positive");
  Ok (mkController cfg IDLE None None false true false TERMINAL None None (c_scenario cfg)
        no_packet_ids (fresh_accumulators now)).

(** ** Messages as references *)

Definition find_message (seq : Z) (ms : list GeneratedMessage) : option GeneratedMessage :=
  snd <$> list_find (λ g, g_sequence g = seq) ms.
Definition modify_message (seq : Z) (f : GeneratedMessage → GeneratedMessage)
    (ms : list GeneratedMessage) : list GeneratedMessage :=
  (λ g, if decide (g_sequence g = seq) then f g else g) <$> ms.

Definition message_at (seq : Z) (cur : TrafficRunResult) : option GeneratedMessage :=
  find_message seq (r_messages cur).

(** Mutating message [seq] in place. *)
Definition update_message (seq : Z) (f : GeneratedMessage → GeneratedMessage)
    (cur : TrafficRunResult) : TrafficRunResult :=
  cur <| r_messages ::= modify_message seq f |>.

Definition accepts_run_events (allow_failed : bool) (c : Controller) : bool :=
  match c_phase c with GENERATING | DRAINING => true | _ => false end &&
  match c_state c with
  | RUNNING | STOPPING => true
  | FAILED => allow_failed
  | _ => false
  end.

Definition note_activity (now : float) (a : Accumulators) : Accumulators :=
  a <| last_activity_monotonic := now |> <| activity_changed := true |>.

Section state.
Context {B : Type} `{EventSink B}.

Definition publish_metric_update (values : dict string metric_value) (result : string) (now : float)
    (w : Controller * B) : Controller * B :=
  let (c, b) := w in
  match c_current c with
  | None => w
  | Some cur =>
    if decide (c_event_stream_id c = Some (sink_stream_id b)) then
      (c, (sink_publish ((new_event now METRICS) <| traffic_run_id := Some (r_run_id cur) |>
             <| metric_update := values |> <| e_result := Some result |>) b).2)
    else w
  end.

Definition publish_event (e : PacketEvent) (w : Controller * B) : Controller * B :=
  (w.1, (sink_publish e w.2).2).
End state.
