(* ===== verification/TrafficHandlers.v ===== *)
(** * Recording a run (src/backend/app/traffic/controller.py)

    The controller's synchronous handlers: what the medium, the gateways and the
    sampler report while a run is active, submitting a message and resolving its
    admission. A handler that can raise returns the state it leaves behind with
    its result. [now] is the clock reading of the handler. *)
From Stdlib Require Import Floats.SpecFloat.
From S2P Require Import Prelude PyDict PyFloat Scenario Mesh Airtime Events Calculations.
From S2P Require Import TrafficRequest Identifier PacketIds TrafficState.

Section handlers.
Context `{Meshtastic} `{PyText} `{PyRandom} {B : Type} `{EventSink B}.
Implicit Types (w : Controller * B) (c : Controller).

Definition with_acc (f : Accumulators → Accumulators) (w : Controller * B) : Controller * B :=
  (w.1 <| acc ::= f |>, w.2).
(** Once a run is frozen, [current] and [_frozen_result] are one object. *)
Definition with_current (f : TrafficRunResult → TrafficRunResult) (w : Controller * B)
    : Controller * B :=
  (w.1 <| c_current ::= fmap f |> <| c_frozen ::= fmap f |>, w.2).

(** ** Correlation *)

Definition decoded_request_id (packet : MeshPacket) : Z :=
  match p_payload packet with Decoded d => request_id d | _ => 0 end.

(** The message a packet belongs to, as a sequence number; a response is
    remembered under its own identity. *)
Definition message_for_packet_identity (packet : MeshPacket) (transmitter : option string)
    (c : Controller) : option Z * Controller :=
  let port := mesh_packet_port_number packet in
  let request :=
    if bool_decide (port = Some ROUTING_APP) && negb (decoded_request_id packet =? 0)
    then Some (decoded_request_id packet)
    else if bool_decide (port = Some UNKNOWN_APP) && negb (rx_time packet =? 0) &&
            match transmitter with
            | Some t => bool_decide (dget t (c_hardware_ids (config c)) = Some (packet_origin packet))
            | None => false
            end
    then Some (rx_time packet) else None in
  let key := (packet_origin packet, p_id packet) in
  match request ≫= λ id, messages_by_packet (acc c) !! (p_to packet, id) with
  | Some seq => (Some seq, c <| acc ::= (λ a, a <| messages_by_packet ::= <[key := seq]> |>) |>)
  | None => (messages_by_packet (acc c) !! key, c)
  end.

Definition correlated_delivery_message (packet : MeshPacket) (c : Controller)
    : option Z * Controller :=
  match c_current c, traffic_identifier_from_packet packet with
  | Some cur, Some (run_id, n) =>
    if decide (run_id = r_run_id cur) then
      let (message, c) := message_for_packet_identity packet None c in
      match message with
      | Some seq => (if seq =? n then Some seq else None, c)
      | None => (None, c)
      end
    else (None, c)
  | _, _ => (None, c)
  end.

(** ** Reports from the medium *)

Definition record_rf_transmission (transmitter : string) (packet : MeshPacket)
    (packet_airtime_ms : Z) (now : float) (w : Controller * B)
    : (Controller * B) * res (option (string * Z)) :=
  match c_current w.1 with
  | Some cur =>
    if negb (accepts_run_events false w.1) then (w, Ok None)
    else
      let (found, c) := message_for_packet_identity packet (Some transmitter) w.1 in
      let w := (c, w.2) in
      match found ≫= λ seq, message ← message_at seq cur; Some (seq, message) with
      | None => (w, Ok None)
      | Some (seq, message) =>
        if negb (g_submitted message) then (w, Ok None)
        else
          let w := if g_transmitted message then w
                   else with_acc (λ a, a <| transmitted_count := transmitted_count a + 1 |>)
                          (with_current (update_message seq (λ g, g <| g_transmitted := true |>)) w) in
          let w := with_acc (λ a, a
              <| a_rf_transmitters := a_rf_transmitters a ++ [transmitter] |>
              <| a_airtimes_ms := a_airtimes_ms a ++ [packet_airtime_ms] |>
              <| a_rf_transmission_count := a_rf_transmission_count a + 1 |>
              <| a_observed_airtime_ms := a_observed_airtime_ms a + packet_airtime_ms |>
              <| a_per_node_transmit_counts := count_add transmitter 1 (a_per_node_transmit_counts a) |>
              <| a_per_node_airtime_ms := count_add transmitter packet_airtime_ms (a_per_node_airtime_ms a) |>) w in
          match dget transmitter (c_hardware_ids (config w.1)) with
          | None => (w, Raise (KeyError transmitter))
          | Some hardware_id =>
            let w := if negb (packet_origin packet =? hardware_id)
                     then with_acc (λ a, a <| a_relay_transmissions := a_relay_transmissions a + 1 |>) w
                     else w in
            let w := with_acc (note_activity now) w in
            let a := acc w.1 in
            (publish_metric_update
               [("rfTransmissions", MInt (a_rf_transmission_count a));
                ("observedAirtimeMs", MInt (a_observed_airtime_ms a));
                ("relayTransmissions", MInt (a_relay_transmissions a));
                ("perNodeTransmitCounts", MCounts (a_per_node_transmit_counts a));
                ("perNodeAirtimeMs", MCounts (a_per_node_airtime_ms a))]%string "update" now w,
             Ok (Some (r_run_id cur, seq)))
          end
      end
  | None => (w, Ok None)
  end.

Definition count_drop (reason : string) (a : Accumulators) : Accumulators :=
  a <| a_drop_reasons := a_drop_reasons a ++ [reason] |>
    <| a_drop_counts := count_add reason 1 (a_drop_counts a) |>.

Definition publish_drops (now : float) (w : Controller * B) : Controller * B :=
  publish_metric_update [("dropsByReason"%string, MCounts (a_drop_counts (acc w.1)))] "update" now w.

Definition record_drop (transmitter : string) (packet : MeshPacket) (reason : string) (now : float)
    (w : Controller * B) : Controller * B :=
  match c_current w.1 with
  | Some cur =>
    if negb (accepts_run_events false w.1) then w
    else
      let (found, c) := message_for_packet_identity packet (Some transmitter) w.1 in
      let w := (c, w.2) in
      match found ≫= λ seq, message_at seq cur with
      | None => w
      | Some message =>
        if negb (g_submitted message) then w
        else publish_drops now (with_acc (note_activity now) (with_acc (count_drop reason) w))
      end
  | None => w
  end.

(** ** Cumulative counters sampled from the firmware *)

Definition record_failed_receptions (node_id : string) (total : Z) (now : float)
    (w : Controller * B) : Controller * B :=
  match c_current w.1 with
  | Some _ =>
    if negb (accepts_run_events true w.1) then w
    else
      let previous := latest_failed_receptions (acc w.1) !! node_id in
      let w := with_acc (λ a, a <| latest_failed_receptions ::= <[node_id := total]> |>) w in
      match previous with
      | None => w
      | Some previous =>
        let delta := Z.max 0 (total - previous) in
        let w := with_acc (λ a, a <| a_failed_receptions := a_failed_receptions a + delta |>) w in
        if delta =? 0 then w
        else publish_metric_update [("failedReceptions"%string, MInt (a_failed_receptions (acc w.1)))]
               "update" now w
      end
  | None => w
  end.

Definition publish_duplicates (now : float) (w : Controller * B) : Controller * B :=
  publish_metric_update [("duplicateReceptions"%string, MInt (a_duplicates (acc w.1)))] "update" now w.

Definition record_duplicate_receptions (node_id : string) (total : Z) (now : float)
    (w : Controller * B) : Controller * B :=
  match c_current w.1 with
  | Some _ =>
    if negb (accepts_run_events true w.1) then w
    else
      let previous := latest_duplicate_receptions (acc w.1) !! node_id in
      let w := with_acc (λ a, a <| latest_duplicate_receptions ::= <[node_id := total]> |>) w in
      match previous with
      | None => w
      | Some previous =>
        let delta := Z.max 0 (total - previous) in
        let w := with_acc (λ a, a <| a_duplicates := a_duplicates a + delta |>) w in
        if delta =? 0 then w else publish_duplicates now w
      end
  | None => w
  end.

(** ** Topology changes and event-loop lag *)

Definition topology_limit_error : exn :=
  RuntimeError ("traffic run cannot record more than " +:+ pretty MAX_TOPOLOGY_CHANGES_PER_RUN
                  +:+ " topology changes").

Definition ensure_topology_change_capacity (additional_changes : Z) (c : Controller) : res unit :=
  match c_current c with
  | Some cur =>
    if negb (accepts_run_events false c) then Ok tt
    else guard_raise (MAX_TOPOLOGY_CHANGES_PER_RUN <? zlen (r_topology_changes cur) + additional_changes)
           topology_limit_error
  | None => Ok tt
  end.

Definition record_topology_change (event : PacketEvent) (link : DirectedLink) (w : Controller * B)
    : (Controller * B) * res unit :=
  match c_current w.1 with
  | Some cur =>
    if negb (accepts_run_events false w.1) then (w, Ok tt)
    else match ensure_topology_change_capacity 1 w.1 with
         | Raise e => (w, Raise e)
         | Ok _ => (with_current (λ cur, cur <| r_topology_changes := r_topology_changes cur ++
                        [mkChange (e_sequence event) (monotonic_seconds event) link] |>) w, Ok tt)
         end
  | None => (w, Ok tt)
  end.

Definition set_event_loop_lag (lag_ms : float) (now : float) (w : Controller * B) : Controller * B :=
  match c_current w.1 with
  | Some _ =>
    if accepts_run_events false w.1 then
      publish_metric_update [("eventLoopLagMs"%string, MFloat lag_ms)] "update" now
        (with_acc (λ a, a <| a_event_loop_lag_ms := Some lag_ms |>) w)
    else w
  | None => w
  end.

(** ** Admission *)

Definition submission_counts (w : Controller * B) : dict string metric_value :=
  [("submitted", MInt (submitted_count (acc w.1)));
   ("submissionFailed", MInt (submission_failed_count (acc w.1)))]%string.

Definition traffic_event (now : float) (source : string) (g : GeneratedMessage) (run_id : string)
    (result : string) (detail : option string) : PacketEvent :=
  (new_event now TRAFFIC) <| e_transmitter := Some source |>
    <| intended_destination := Some (g_destination g) |> <| mesh_packet_id := Some (g_packet_id g) |>
    <| traffic_run_id := Some run_id |> <| traffic_sequence := Some (g_sequence g) |>
    <| port_number := Some TEXT_MESSAGE_APP |> <| e_result := Some result |> <| e_detail := detail |>.

Definition mark_submitted (seq : Z) (w : Controller * B) : Controller * B :=
  let w := with_acc (λ a, a <| submitted_count := submitted_count a + 1 |>)
             (with_current (update_message seq (λ g, g <| g_submitted := true |>)) w) in
  with_current (λ cur, cur <| r_submitted := submitted_count (acc w.1) |>) w.

Definition mark_failed (seq : Z) (error : string) (w : Controller * B) : Controller * B :=
  let w := with_acc (λ a, a <| submission_failed_count := submission_failed_count a + 1 |>)
             (with_current (update_message seq (λ g, g <| g_error := Some error |>)) w) in
  with_current (λ cur, cur <| r_submission_failed := submission_failed_count (acc w.1) |>) w.

Definition resolve_submission (source : string) (seq : Z) (error : option string) (now : float)
    (w : Controller * B) : Controller * B :=
  match c_current w.1 with
  | Some cur =>
    match message_at seq cur with
    | None => w
    | Some g =>
      if g_submitted g || bool_decide (g_error g ≠ None) then w
      else
        let w := match error with
                 | None => mark_submitted seq w
                 | Some error => mark_failed seq error w
                 end in
        let result := match error with None => "submitted" | Some _ => "submission-failed" end%string in
        let w := with_acc (note_activity now) w in
        let w := publish_metric_update (submission_counts w) "update" now w in
        publish_event (traffic_event now source g (r_run_id cur) result error) w
    end
  | None => w
  end.

(** [_record_pretransmission_rejection] *)
Definition record_pretransmission_rejection (source : string) (seq : Z) (reason : string)
    (now : float) (w : Controller * B) : Controller * B :=
  match c_current w.1 with
  | Some cur =>
    match message_at seq cur with
    | None => w
    | Some g =>
      if bool_decide (g_error g ≠ None) then w
      else
        let w := with_acc (λ a, a <| pending_submissions ::= ddel (source, g_packet_id g) |>) w in
        let w := if g_submitted g then
                   let w := with_acc (λ a, a <| submitted_count := submitted_count a - 1 |>)
                     (with_current (update_message seq (λ g, g <| g_submitted := false |>)) w) in
                   with_current (λ cur, cur <| r_submitted := submitted_count (acc w.1) |>) w
                 else w in
        let w := mark_failed seq reason w in
        let w := with_acc (note_activity now) w in
        let w := publish_metric_update (submission_counts w) "update" now w in
        publish_event (traffic_event now source g (r_run_id cur) "submission-failed" (Some reason)) w
    end
  | None => w
  end.

(** [name.lower().replace("_", "-")] on ASCII names *)
Definition kebab_char (c : Ascii.ascii) : Ascii.ascii :=
  let n := Z.of_N (Ascii.N_of_ascii c) in
  if (65 <=? n) && (n <=? 90) then Ascii.ascii_of_N (Z.to_N (n + 32))
  else if n =? 95 then Ascii.ascii_of_N 45 else c.
Fixpoint kebab (s : string) : string :=
  match s with EmptyString => EmptyString | String c s => String (kebab_char c) (kebab s) end.

Definition firmware_queue_error (result : Z) : string :=
  let name :=
    if result =? 32 then "queue-full-or-unknown"%string
    else if result =? 33 then "no-interface"%string
    else if result =? 34 then "radio-disabled"%string
    else match routing_error_name result with Some n => kebab n | None => "unknown"%string end in
  "firmware queue rejected packet: " +:+ name +:+ " (res=" +:+ pretty result +:+ ")".

Definition record_queue_status (node_id : string) (status : QueueStatus) (now : float)
    (w : Controller * B) : Controller * B :=
  let packet_id := qs_mesh_packet_id status in
  if packet_id =? 0 then w
  else match dget (node_id, packet_id) (pending_submissions (acc w.1)) with
       | None => w
       | Some seq =>
         let w := with_acc (λ a, a <| pending_submissions ::= ddel (node_id, packet_id) |>) w in
         if (qs_res status =? 0) || (qs_res status =? 35)
         then resolve_submission node_id seq None now w
         else resolve_submission node_id seq (Some (firmware_queue_error (qs_res status))) now w
       end.

Definition finalize_pending_submissions (now : float) (w : Controller * B) : Controller * B :=
  let w := foldl (λ w entry,
      resolve_submission entry.1.1 entry.2 (Some "firmware queue admission timed out"%string) now w)
    w (pending_submissions (acc w.1)) in
  with_acc (λ a, a <| pending_submissions := [] |>) w.

(** ** Messages from the radio *)

Definition application_receive_event (now : float) (g : GeneratedMessage) (node_id run_id : string)
    (packet_id : Z) : PacketEvent :=
  (new_event now APPLICATION_RECEIVE) <| e_transmitter := Some (g_source g) |>
    <| intended_destination := Some (g_destination g) |> <| e_receiver := Some node_id |>
    <| mesh_packet_id := Some packet_id |> <| traffic_run_id := Some run_id |>
    <| traffic_sequence := Some (g_sequence g) |> <| port_number := Some TEXT_MESSAGE_APP |>
    <| e_result := Some "delivered"%string |>.

Definition applicable_receiver (kd : TrafficKind) (node_id : string) (g : GeneratedMessage) : bool :=
  match kd with
  | DIRECT_TEXT => bool_decide (node_id = g_destination g)
  | BROADCAST_TEXT => negb (bool_decide (node_id = g_source g))
  end.

(** [(time.monotonic() - generated.generated_monotonic) * 1000] *)
Definition latency_of (now : float) (g : GeneratedMessage) : float :=
  fmul (fsub now (g_generated g)) (of_Z 1000).

(** A first delivery of message [seq] to [node_id]. *)
Definition record_delivery (node_id : string) (seq : Z) (g : GeneratedMessage) (now : float)
    (w : Controller * B) : Controller * B :=
  let latency := latency_of now g in
  let w := with_current (update_message seq (λ g,
      g <| g_delivered_to := g_delivered_to g ++ [node_id] |>
        <| g_latency := match g_latency g with None => Some latency | l => l end |>)) w in
  with_acc (λ a, a
      <| a_receiver_deliveries := a_receiver_deliveries a + 1 |>
      <| a_unique_deliveries := if bool_decide (seq ∈ delivered_sequences a) then a_unique_deliveries a
                                else a_unique_deliveries a + 1 |>
      <| delivered_sequences ::= union {[seq]} |>
      <| a_latencies_ms := a_latencies_ms a ++ [latency] |>
      <| live_latencies_ms := deque_append LIVE_LATENCY_SAMPLE_SIZE (live_latencies_ms a) latency |>) w.

Definition handle_text (node_id : string) (packet : MeshPacket) (now : float) (w : Controller * B)
    : Controller * B :=
  let (found, c) := correlated_delivery_message packet w.1 in
  let w := (c, w.2) in
  match c_current c with
  | None => w
  | Some cur =>
    match found ≫= λ seq, g ← message_at seq cur; Some (seq, g) with
    | None => w
    | Some (seq, g) =>
      if negb (g_submitted g) || negb (applicable_receiver (kind (r_request cur)) node_id g) then w
      else if bool_decide (node_id ∈ g_delivered_to g) then
        if c_has_sampler (config c) then w
        else publish_duplicates now (with_acc (λ a, a <| a_duplicates := a_duplicates a + 1 |>) w)
      else
        let w := with_acc (note_activity now) (record_delivery node_id seq g now w) in
        let a := acc w.1 in
        let w := publish_metric_update
          [("uniqueApplicationMessagesDelivered", MInt (a_unique_deliveries a));
           ("receiverDeliveries", MInt (a_receiver_deliveries a));
           ("latestLatencyMs", MFloat (latency_of now g))]%string "update" now w in
        publish_event (application_receive_event now g node_id (r_run_id cur) (p_id packet)) w
    end
  end.

Definition routing_event (now : float) (t : EventType) (node_id run_id : string) (packet_id seq : Z)
    (result : string) : PacketEvent :=
  (new_event now t) <| e_receiver := Some node_id |> <| mesh_packet_id := Some packet_id |>
    <| traffic_run_id := Some run_id |> <| traffic_sequence := Some seq |>
    <| port_number := Some ROUTING_APP |> <| e_result := Some result |>.

(** An acknowledgment of message [seq], first or repeated. *)
Definition record_acknowledgment (seq : Z) (g : GeneratedMessage) (now : float) (w : Controller * B)
    : Controller * B :=
  if g_acknowledged g then w
  else
    let w := with_acc (λ a, a <| a_acknowledgments := a_acknowledgments a + 1 |>)
               (with_current (update_message seq (λ g, g <| g_acknowledged := true |>)) w) in
    publish_metric_update [("acknowledgments"%string, MInt (a_acknowledgments (acc w.1)))]
      "update" now w.

Definition record_routing_error (seq : Z) (name : string) (now : float) (w : Controller * B)
    : Controller * B :=
  let w := with_acc (λ a, count_drop name (a <| routing_terminal_sequences ::= union {[seq]} |>)) w in
  publish_drops now w.

(** Whether an error-free response counts as the acknowledgment. *)
Definition acknowledgment_origin_ok (cur : TrafficRunResult) (c : Controller) (g : GeneratedMessage)
    (acknowledgment_origin response_origin : Z) : res bool :=
  match kind (r_request cur) with
  | DIRECT_TEXT =>
    match dget (g_destination g) (c_hardware_ids (config c)) with
    | None => Raise (KeyError (g_destination g))
    | Some destination => Ok (response_origin =? destination)
    end
  | BROADCAST_TEXT => Ok (negb (response_origin =? acknowledgment_origin))
  end.

Definition handle_routing (node_id : string) (packet : MeshPacket) (d : Data) (now : float)
    (w : Controller * B) : (Controller * B) * res unit :=
  match c_current w.1, dget node_id (c_hardware_ids (config w.1)) with
  | Some cur, Some origin =>
    match messages_by_packet (acc w.1) !! (origin, request_id d) with
    | None => (w, Ok tt)
    | Some seq =>
      match message_at seq cur, parse_routing (data_payload d) with
      | None, _ => (w, Ok tt)
      | _, None => (w, Raise (DecodeError "Error parsing message"))
      | Some g, Some error =>
        let rejected := (error =? RATE_LIMIT_EXCEEDED) && negb (g_transmitted g) in
        if negb rejected && negb (g_transmitted g) then (w, Ok tt)
        else
          let w := if rejected
                   then record_pretransmission_rejection node_id seq
                          "firmware text-message rate limit exceeded" now w
                   else w in
          let finish t result w :=
            (publish_event (routing_event now t node_id (r_run_id cur) (p_id packet) seq result)
               (with_acc (note_activity now) w), Ok tt) in
          if error =? ROUTING_ERROR_NONE then
            match acknowledgment_origin_ok cur w.1 g origin (packet_origin packet) with
            | Raise e => (w, Raise e)
            | Ok false => (w, Ok tt)
            | Ok true => finish ACKNOWLEDGMENT "acknowledged"%string (record_acknowledgment seq g now w)
            end
          else
            match routing_error_name error with
            | None => (w, Raise (ValueError ("Enum Error has no name defined for value " +:+ pretty error)))
            | Some name => finish ROUTING_ERROR name (record_routing_error seq name now w)
            end
      end
    end
  | _, _ => (w, Ok tt)
  end.

Definition handle_from_radio (node_id : string) (message : FromRadio) (now : float)
    (w : Controller * B) : (Controller * B) * res unit :=
  match c_current w.1 with
  | None => (w, Ok tt)
  | Some _ =>
    if negb (accepts_run_events false w.1) then (w, Ok tt)
    else match message with
    | FromQueueStatus status => (record_queue_status node_id status now w, Ok tt)
    | FromPacket packet =>
      match p_payload packet with
      | Decoded d =>
        if portnum d =? TEXT_MESSAGE_APP then (handle_text node_id packet now w, Ok tt)
        else if (portnum d =? ROUTING_APP) && negb (request_id d =? 0)
        then handle_routing node_id packet d now w
        else (w, Ok tt)
      | _ => (w, Ok tt)
      end
    | _ => (w, Ok tt)
    end
  end.

(** ** Submission *)

Definition submission_packet (cur : TrafficRunResult) (s : Scenario) (packet_id to from : Z)
    (payload : list byte) : MeshPacket :=
  mkPacket from to packet_id (Decoded (mkData TEXT_MESSAGE_APP payload false 0 []))
    (match kind (r_request cur) with
     | DIRECT_TEXT => acknowledgment_requested (r_request cur)
     | BROADCAST_TEXT => false
     end)
    (hop_limit (rf s)) 0 PRIORITY_RELIABLE 0 0 fzero [].

(** Everything [_submit] records about the new message before it is sent. *)
Definition register_message (g : GeneratedMessage) (hardware_id : Z) (now : float)
    (w : Controller * B) : Controller * B :=
  let seq := g_sequence g in
  let w := with_current (λ cur, cur <| r_messages := r_messages cur ++ [g] |>) w in
  let opportunities :=
    match c_current w.1 with
    | Some cur => match kind (r_request cur) with
                  | BROADCAST_TEXT => zlen (nodes (run_scenario w.1)) - 1
                  | DIRECT_TEXT => 1
                  end
    | None => 0
    end in
  let w := with_acc (λ a, a
      <| generated_count := generated_count a + 1 |>
      <| a_receiver_opportunities := a_receiver_opportunities a + opportunities |>) w in
  let w := with_current (λ cur, cur <| r_requested := generated_count (acc w.1) |>) w in
  let w := publish_metric_update
    [("generatedApplicationMessages"%string, MInt (generated_count (acc w.1)))] "update" now w in
  let run_id := match c_current w.1 with Some cur => r_run_id cur | None => EmptyString end in
  with_acc (λ a, a
      <| messages_by_packet ::= <[(hardware_id, g_packet_id g) := seq]> |>
      <| messages_by_key ::= <[(run_id, seq) := seq]> |>
      <| pending_submissions ::= dset (g_source g, g_packet_id g) seq |>) w.

(** The airtime bookkeeping of a submission; it raises for an unknown preset. *)
Definition note_packet_size (packet : MeshPacket) (preset : string) (w : Controller * B)
    : (Controller * B) * res unit :=
  match mesh_packet_payload_length packet with
  | Raise e => (w, Raise e)
  | Ok length =>
    match airtime_ms length preset with
    | Raise e => (w, Raise e)
    | Ok air =>
      let w := with_acc (λ a, a <| maximum_packet_airtime_ms ::= λ m, Z.max m air |>) w in
      match maximum_retransmission_delay_ms length preset with
      | Raise e => (w, Raise e)
      | Ok delay =>
        (with_acc (λ a, a <| a_maximum_retransmission_delay_ms ::= λ m, Z.max m delay |>) w, Ok tt)
      end
    end
  end.

(** [_submit] up to sending: the packet to send, the generator and the message.
    [None]: the drawing loop went past [fuel]. *)
Definition submit (fuel : nat) (source destination flow : string) (g : rng) (now : float)
    (w : Controller * B) : option ((Controller * B) * res (option (MeshPacket * Z) * rng)) :=
  match c_current w.1 with
  | None => Some (w, Ok (None, g))
  | Some cur =>
    let w := with_acc (λ a, a <| a_sequence := a_sequence a + 1 |>) w in
    let seq := a_sequence (acc w.1) in
    let m := marker (r_run_id cur) seq in
    let size := payload_bytes (r_request cur) in
    if size <? zlen m then
      Some (w, Raise (ValueError ("payloadBytes " +:+ pretty size +:+
        " is smaller than encoded traffic identifier " +:+ pretty (zlen m))))
    else
      '(packet_id, g, ids) ← allocate_packet_id fuel source now g (c_packet_ids w.1);
      let w := (w.1 <| c_packet_ids := ids |>, w.2) in
      let ids := c_hardware_ids (config w.1) in
      match (if decide (destination = "broadcast"%string) then Some 0xFFFFFFFF else dget destination ids),
            dget source ids with
      | None, _ => Some (w, Raise (KeyError destination))
      | _, None => Some (w, Raise (KeyError source))
      | Some to, Some hardware_id =>
        let packet := submission_packet cur (run_scenario w.1) packet_id to hardware_id (padded m size) in
        let message := mkMessage seq flow source destination packet_id now false None false [] false None in
        let w := register_message message hardware_id now w in
        match note_packet_size packet (modem_preset (rf (run_scenario w.1))) w with
        | (w, Raise e) => Some (w, Raise e)
        | (w, Ok _) => Some (with_acc (note_activity now) w, Ok (Some (packet, seq), g))
        end
      end
  end.

(** The gateway raised while sending. *)
Definition submit_failed (source : string) (packet_id seq : Z) (error : string) (now : float)
    (w : Controller * B) : Controller * B :=
  let w := with_acc (λ a, a <| pending_submissions ::= ddel (source, packet_id) |>) w in
  resolve_submission source seq (Some ("gateway submission failed: " +:+ error)) now w.
End handlers.
