(* ===== verification/RunInvariant.v ===== *)
(** * The accounting of a run

    What the controller's counters, tables and lists say about its messages, and
    that every handler keeps it so. *)
From Stdlib Require Import Floats.SpecFloat.
From S2P Require Import Prelude PyDict PyFloat Scenario Mesh Airtime Events Calculations.
From S2P Require Import TrafficRequest Identifier PacketIds TrafficState TrafficHandlers.

(** ** Messages in the store *)
Section store.
Implicit Types (g : GeneratedMessage) (ms : list GeneratedMessage).

Lemma find_message_elem seq ms g : find_message seq ms = Some g → g ∈ ms ∧ g_sequence g = seq.
Proof.
  unfold find_message. destruct (list_find _ ms) as [[i g0]|] eqn:E; [|done].
  intros [= <-]. apply list_find_Some in E as (Hi & Hs & _). cbn.
  split; [by eapply list_elem_of_lookup_2|done].
Qed.

Lemma find_message_unique seq ms g :
  NoDup (g_sequence <$> ms) → g ∈ ms → g_sequence g = seq → find_message seq ms = Some g.
Proof.
  intros Hnd Hin Hs. destruct (find_message seq ms) as [g'|] eqn:E.
  - apply find_message_elem in E as [Hin' Hs'].
    apply list_elem_of_lookup in Hin as [i Hi], Hin' as [j Hj].
    assert (i = j) as ->; [|congruence].
    apply (NoDup_lookup (g_sequence <$> ms) i j seq Hnd); rewrite list_lookup_fmap.
    + rewrite Hi. cbn. congruence.
    + rewrite Hj. cbn. congruence.
  - unfold find_message in E. destruct (list_find _ ms) as [[? ?]|] eqn:E'; [done|].
    apply list_find_None in E'. rewrite Forall_forall in E'. by destruct (E' g Hin).
Qed.

Lemma modify_message_elem seq f ms g g' :
  NoDup (g_sequence <$> ms) → find_message seq ms = Some g →
  g' ∈ modify_message seq f ms ↔ g' = f g ∨ (g' ∈ ms ∧ g_sequence g' ≠ seq).
Proof.
  intros Hnd Hf. apply find_message_elem in Hf as Hg. destruct Hg as [Hin Hs].
  unfold modify_message. rewrite list_elem_of_fmap. split.
  - intros (g0 & -> & Hg0). case_decide as Hd; [|by right]. left.
    apply (find_message_unique seq) in Hg0; [|done|done]. congruence.
  - intros [->|[Hg' Hne]].
    + exists g. by rewrite decide_True.
    + exists g'. by rewrite decide_False.
Qed.

(** Sums over the messages. *)
Definition zcount (p : GeneratedMessage → bool) ms : Z := zsum ((λ g, if p g then 1 else 0) <$> ms).

Lemma zsum_modify (h : GeneratedMessage → Z) seq f ms g :
  NoDup (g_sequence <$> ms) → find_message seq ms = Some g →
  zsum (h <$> modify_message seq f ms) = zsum (h <$> ms) - h g + h (f g).
Proof.
  intros Hnd Hf.
  assert (∀ l, seq ∉ (g_sequence <$> l) → modify_message seq f l = l) as Hid.
  { intros l Hl. unfold modify_message. rewrite <-(list_fmap_id l) at 2.
    apply list_fmap_ext. intros i x Hi. rewrite decide_False; [done|].
    intros Hx. apply Hl, list_elem_of_fmap. exists x. split; [done|].
    by eapply list_elem_of_lookup_2. }
  induction ms as [|x ms IH]; [done|]. cbn in Hnd. apply NoDup_cons in Hnd as [Hx Hnd].
  unfold find_message in *. cbn [list_find] in Hf. destruct (decide (g_sequence x = seq)) as [Hs|Hs].
  - cbn in Hf. injection Hf as <-. unfold modify_message in *. cbn [fmap list_fmap].
    rewrite decide_True by done. rewrite Hid by (by rewrite <-Hs). cbn [zsum]. lia.
  - destruct (list_find _ ms) as [[i y]|] eqn:E; [|done]. cbn in Hf. injection Hf as <-.
    unfold modify_message in *. cbn [fmap list_fmap zsum]. rewrite decide_False by done.
    rewrite IH by done. lia.
Qed.

Lemma zcount_modify p seq f ms g :
  NoDup (g_sequence <$> ms) → find_message seq ms = Some g →
  zcount p (modify_message seq f ms) =
  zcount p ms - (if p g then 1 else 0) + (if p (f g) then 1 else 0).
Proof. apply (zsum_modify (λ g, if p g then 1 else 0)). Qed.

Lemma modify_message_fmap {A} (h : GeneratedMessage → A) seq f ms :
  (∀ g, h (f g) = h g) → h <$> modify_message seq f ms = h <$> ms.
Proof.
  intros Hh. unfold modify_message. rewrite <-list_fmap_compose. apply list_fmap_ext.
  intros i g _. cbn. by case_decide.
Qed.

Lemma modify_message_twice seq f h ms :
  (∀ g, g_sequence (f g) = g_sequence g) →
  modify_message seq h (modify_message seq f ms) = modify_message seq (λ g, h (f g)) ms.
Proof.
  intros Hf. unfold modify_message. rewrite <-list_fmap_compose. apply list_fmap_ext.
  intros i g _. cbn. destruct (decide (g_sequence g = seq)).
  - by rewrite decide_True by (by rewrite Hf).
  - by rewrite decide_False.
Qed.

Lemma zlen_modify seq f ms : zlen (modify_message seq f ms) = zlen ms.
Proof. unfold zlen, modify_message. by rewrite length_fmap. Qed.

Lemma zcount_app p ms ms' : zcount p (ms ++ ms') = zcount p ms + zcount p ms'.
Proof. unfold zcount. by rewrite fmap_app, zsum_app. Qed.

Lemma zcount_singleton p g : zcount p [g] = if p g then 1 else 0.
Proof. unfold zcount. cbn [fmap list_fmap zsum]. by destruct (p g). Qed.

Lemma zcount_le p q ms : (∀ g, g ∈ ms → p g = true → q g = true) → zcount p ms <= zcount q ms.
Proof.
  unfold zcount. induction ms as [|g ms IH]; cbn [fmap list_fmap zsum]; intros H; [lia|].
  specialize (IH ltac:(intros; apply H; [by right|done])).
  destruct (p g) eqn:E; [rewrite (H g) by (by left || done); lia|]. destruct (q g); lia.
Qed.

Lemma zcount_filter p ms : zcount p ms = zlen (filter (λ g, p g = true) ms).
Proof.
  unfold zcount. induction ms as [|g ms IH]; cbn [fmap list_fmap zsum]; [done|].
  rewrite filter_cons. destruct (p g); [rewrite decide_True by done|rewrite decide_False by done];
    rewrite IH; zlen_lia.
Qed.
End store.

(** ** The invariant *)

(** Reduces the projections of updated accumulators. *)
Ltac acc_cbn :=
  unfold note_activity, count_drop;
  cbn [set_field a_sequence messages_by_packet messages_by_key pending_submissions routing_terminal_sequences
    delivered_sequences a_latencies_ms live_latencies_ms a_rf_transmitters a_airtimes_ms
    a_relay_transmissions a_duplicates a_failed_receptions latest_failed_receptions
    latest_duplicate_receptions a_drop_reasons a_drop_counts a_event_loop_lag_ms generated_count
    submitted_count submission_failed_count transmitted_count a_unique_deliveries
    a_receiver_deliveries a_receiver_opportunities a_acknowledgments a_rf_transmission_count
    a_observed_airtime_ms a_per_node_transmit_counts a_per_node_airtime_ms
    maximum_packet_airtime_ms a_maximum_retransmission_delay_ms last_activity_monotonic
    activity_changed a_metrics].

#[local] Opaque count_add counter_of airtime_by_transmitter zcount drop take.

Definition msg_key (g : GeneratedMessage) : string * Z := (g_source g, g_packet_id g).
Definition has_error (g : GeneratedMessage) : bool := bool_decide (g_error g ≠ None).
Definition unresolved (g : GeneratedMessage) : bool := negb (g_submitted g) && negb (has_error g).
Definition has_delivery (g : GeneratedMessage) : bool := bool_decide (g_delivered_to g ≠ []).

(** Every counter of the accumulators, in terms of the messages and samples. *)
Record acc_ok (kd : TrafficKind) (ms : list GeneratedMessage) (a : Accumulators) : Prop := {
  ao_seqs : NoDup (g_sequence <$> ms);
  ao_range : ∀ g, g ∈ ms → 1 <= g_sequence g <= a_sequence a;
  ao_keys : NoDup (msg_key <$> ms);
  ao_generated : generated_count a = zlen ms;
  ao_submitted : submitted_count a = zcount g_submitted ms;
  ao_failed : submission_failed_count a = zcount has_error ms;
  ao_exclusive : ∀ g, g ∈ ms → g_submitted g = true → has_error g = false;
  ao_pending_ok : dict_ok (pending_submissions a);
  ao_pending : ∀ k seq, dget k (pending_submissions a) = Some seq ↔
    ∃ g, g ∈ ms ∧ g_sequence g = seq ∧ msg_key g = k ∧ unresolved g = true;
  ao_transmitted : transmitted_count a = zcount g_transmitted ms;
  ao_transmitted_sub : ∀ g, g ∈ ms → g_transmitted g = true → g_submitted g = true;
  ao_acks : a_acknowledgments a = zcount g_acknowledged ms;
  ao_acks_trans : ∀ g, g ∈ ms → g_acknowledged g = true → g_transmitted g = true;
  ao_receivers : ∀ g, g ∈ ms → NoDup (g_delivered_to g) ∧
    ∀ n, n ∈ g_delivered_to g → applicable_receiver kd n g = true;
  ao_deliveries : a_receiver_deliveries a = zsum ((λ g, zlen (g_delivered_to g)) <$> ms);
  ao_delivered : ∀ seq, seq ∈ delivered_sequences a ↔
    ∃ g, g ∈ ms ∧ g_sequence g = seq ∧ has_delivery g = true;
  ao_unique : a_unique_deliveries a = zcount has_delivery ms;
  ao_latencies : zlen (a_latencies_ms a) = a_receiver_deliveries a;
  ao_live : live_latencies_ms a =
    drop (length (a_latencies_ms a) - Z.to_nat LIVE_LATENCY_SAMPLE_SIZE) (a_latencies_ms a);
  ao_rf_count : a_rf_transmission_count a = zlen (a_rf_transmitters a);
  ao_rf_airtime : a_observed_airtime_ms a = zsum (a_airtimes_ms a);
  ao_rf_nodes : a_per_node_transmit_counts a = counter_of (a_rf_transmitters a);
  ao_rf_node_airtime :
    airtime_by_transmitter (a_rf_transmitters a) (a_airtimes_ms a) ∅ = Ok (a_per_node_airtime_ms a);
  ao_drops : a_drop_counts a = counter_of (a_drop_reasons a) }.

Lemma acc_ok_fresh kd now : acc_ok kd [] (fresh_accumulators now).
Proof.
  split; unfold fresh_accumulators; acc_cbn; try done; try (by intros g ?%elem_of_nil); try apply NoDup_nil_2.
  - intros k seq. split; [done|]. by intros (g & ?%elem_of_nil & _).
  - intros seq. split; [by intros ?%elem_of_empty|]. by intros (g & ?%elem_of_nil & _).
Qed.

(** Updates that touch no counted field. *)
Lemma acc_ok_activity kd ms a now : acc_ok kd ms a → acc_ok kd ms (note_activity now a).
Proof. intros []. split; acc_cbn; assumption. Qed.

Lemma acc_ok_sequence kd ms a :
  acc_ok kd ms a → acc_ok kd ms (a <| a_sequence := a_sequence a + 1 |>).
Proof.
  intros []. split; acc_cbn; try assumption. intros g Hg. apply ao_range0 in Hg. lia.
Qed.

Lemma airtime_by_transmitter_snoc txs airs c c' t a :
  airtime_by_transmitter txs airs c = Ok c' →
  airtime_by_transmitter (txs ++ [t]) (airs ++ [a]) c = Ok (count_add t a c').
Proof.
  revert airs c. induction txs as [|x txs IH]; intros [|y airs] c; cbn [airtime_by_transmitter app];
    try done; [by intros [= <-]|by apply IH].
Qed.

Lemma acc_ok_rf kd ms a t air :
  acc_ok kd ms a →
  acc_ok kd ms (a <| a_rf_transmitters := a_rf_transmitters a ++ [t] |>
    <| a_airtimes_ms := a_airtimes_ms a ++ [air] |>
    <| a_rf_transmission_count := a_rf_transmission_count a + 1 |>
    <| a_observed_airtime_ms := a_observed_airtime_ms a + air |>
    <| a_per_node_transmit_counts := count_add t 1 (a_per_node_transmit_counts a) |>
    <| a_per_node_airtime_ms := count_add t air (a_per_node_airtime_ms a) |>).
Proof.
  intros []. split; acc_cbn; try assumption.
  - rewrite ao_rf_count0. zlen_lia.
  - rewrite ao_rf_airtime0, zsum_app. cbn [zsum]. lia.
  - by rewrite ao_rf_nodes0, counter_of_snoc.
  - by apply airtime_by_transmitter_snoc.
Qed.

Lemma acc_ok_drop kd ms a reason : acc_ok kd ms a → acc_ok kd ms (count_drop reason a).
Proof.
  intros []. split; acc_cbn; try assumption.
  by rewrite ao_drops0, counter_of_snoc.
Qed.

(** Deleting an absent entry. *)
Lemma acc_ok_unpended kd ms a k :
  acc_ok kd ms a → dget k (pending_submissions a) = None →
  acc_ok kd ms (a <| pending_submissions ::= ddel k |>).
Proof.
  intros [] Hk. split; acc_cbn; try assumption.
  - by apply dict_ok_ddel.
  - intros k' n. rewrite dget_ddel by done. case_decide as Hd; [|apply ao_pending0].
    subst k'. rewrite <-ao_pending0, Hk. done.
Qed.

(** Two messages with the same key are one. *)
Lemma msg_key_unique kd ms a g g' :
  acc_ok kd ms a → g ∈ ms → g' ∈ ms → msg_key g = msg_key g' → g = g'.
Proof.
  intros Hok [i Hi]%list_elem_of_lookup [j Hj]%list_elem_of_lookup Hk.
  assert (i = j) as ->; [|congruence].
  apply (NoDup_lookup (msg_key <$> ms) i j (msg_key g)); [apply Hok| |];
    rewrite list_lookup_fmap, ?Hi, ?Hj; cbn; congruence.
Qed.

Section update.
Context (kd : TrafficKind) (ms : list GeneratedMessage) (a : Accumulators) (seq : Z) (g : GeneratedMessage).
Context (Hok : acc_ok kd ms a) (Hg : find_message seq ms = Some g).

Lemma found_in : g ∈ ms ∧ g_sequence g = seq.
Proof using Hg. by apply find_message_elem. Qed.

Lemma in_modified f g' :
  g' ∈ modify_message seq f ms ↔ g' = f g ∨ (g' ∈ ms ∧ g_sequence g' ≠ seq).
Proof using Hok Hg. apply modify_message_elem; [apply Hok|done]. Qed.

(** A property of all messages survives if the changed one has it. *)
Lemma modified_all (P : GeneratedMessage → Prop) f :
  (∀ g', g' ∈ ms → P g') → (P g → P (f g)) → ∀ g', g' ∈ modify_message seq f ms → P g'.
Proof using Hok Hg.
  intros H1 H2 g' [->|[Hin _]]%in_modified; [|by apply H1]. apply H2, H1, found_in.
Qed.

(** So does the correspondence of a table with a property of messages that the
    change does not affect. *)
Lemma modified_exists f (P : GeneratedMessage → Prop) :
  (P (f g) ↔ P g) →
  (∃ g', g' ∈ modify_message seq f ms ∧ P g') ↔ (∃ g', g' ∈ ms ∧ P g').
Proof using Hok Hg.
  intros HP. split.
  - intros (g' & [->|[Hin _]]%in_modified & H); [|by exists g'].
    exists g. split; [apply found_in|by apply HP].
  - intros (g' & Hin & H). destruct (decide (g_sequence g' = seq)) as [Hs|Hs].
    + assert (g' = g) as ->.
      { apply (find_message_unique seq) in Hin; [congruence|apply Hok|done]. }
      exists (f g). split; [apply in_modified; by left|by apply HP].
    + exists g'. split; [apply in_modified; by right|done].
Qed.
End update.

(** The parts of the invariant that only concern the messages' identity survive
    any change of one message that keeps it. *)
Record same_identity (f : GeneratedMessage → GeneratedMessage) : Prop := {
  si_sequence : ∀ g, g_sequence (f g) = g_sequence g;
  si_key : ∀ g, msg_key (f g) = msg_key g;
  si_destination : ∀ g, g_destination (f g) = g_destination g }.

Lemma acc_ok_identity kd ms a seq f :
  acc_ok kd ms a → same_identity f →
  NoDup (g_sequence <$> modify_message seq f ms) ∧
  NoDup (msg_key <$> modify_message seq f ms) ∧
  generated_count a = zlen (modify_message seq f ms).
Proof.
  intros Hok Hf. rewrite !modify_message_fmap, zlen_modify by apply Hf. by split_and!; apply Hok.
Qed.

Lemma applicable_same kd n f g :
  same_identity f → applicable_receiver kd n (f g) = applicable_receiver kd n g.
Proof.
  intros Hf. unfold applicable_receiver. destruct kd.
  - pose proof (si_key f Hf g) as [= E _]. by rewrite E.
  - by rewrite (si_destination f Hf).
Qed.

Ltac identity := split; intros []; reflexivity.

Ltac identities f :=
  match goal with
  | Hok : acc_ok ?kd ?ms ?a, Hg : find_message ?seq ?ms = Some ?g |- _ =>
    destruct (acc_ok_identity kd ms a seq f Hok ltac:(identity)) as (?I1 & ?I2 & ?I3)
  end.

(** Counting after the change of message [g]. *)
Ltac recount :=
  match goal with
  | Hok : acc_ok _ ?ms _, Hg : find_message ?seq ?ms = Some ?g |- context [zcount ?p (modify_message ?seq ?f ?ms)] =>
    rewrite (zcount_modify p seq f ms g (ao_seqs _ _ _ Hok) Hg);
    let t := eval cbv beta in (p (f g)) in try change t with (p g);
    cbn [set_field g_submitted g_error g_transmitted g_delivered_to g_acknowledged]
  | Hok : acc_ok _ ?ms _, Hg : find_message ?seq ?ms = Some ?g |- context [zsum (?h <$> modify_message ?seq ?f ?ms)] =>
    rewrite (zsum_modify h seq f ms g (ao_seqs _ _ _ Hok) Hg);
    cbn [set_field g_submitted g_error g_transmitted g_delivered_to g_acknowledged]
  end.

(** A property of every message; the changed one is left to prove. *)
Ltac each :=
  match goal with
  | Hok : acc_ok ?kd ?ms ?a, Hg : find_message ?seq ?ms = Some ?g
    |- ∀ g', g' ∈ modify_message ?seq ?f ?ms → @?P g' =>
    apply (modified_all kd ms a seq g Hok Hg P f); cbv beta; [assumption|];
    try (exact (λ x, x));
    cbn [set_field g_submitted g_error g_transmitted g_delivered_to g_acknowledged]
  end.

(** A table that the change does not affect. *)
Ltac same_table H :=
  match goal with
  | Hok : acc_ok ?kd ?ms ?a, Hg : find_message ?seq ?ms = Some ?g
    |- context [∃ g', g' ∈ modify_message ?seq ?f ?ms ∧ @?P g'] =>
    rewrite H; symmetry; apply (modified_exists kd ms a seq g Hok Hg f P)
  end.

Section changes.
Context (kd : TrafficKind) (ms : list GeneratedMessage) (a : Accumulators) (seq : Z) (g : GeneratedMessage).
Context (Hok : acc_ok kd ms a) (Hg : find_message seq ms = Some g).

Lemma acc_ok_transmitted :
  g_submitted g = true → g_transmitted g = false →
  acc_ok kd (modify_message seq (λ g, g <| g_transmitted := true |>) ms)
    (a <| transmitted_count := transmitted_count a + 1 |>).
Proof using Hok Hg.
  intros Hs Ht. identities (λ g, g <| g_transmitted := true |>).
  destruct Hok. split; acc_cbn; try assumption.
  - each.
  - recount. lia.
  - recount. lia.
  - each.
  - intros k n. by same_table ao_pending0.
  - recount. rewrite Ht. cbv iota. lia.
  - each. intros _ _. exact Hs.
  - recount. lia.
  - each. done.
  - each.
  - recount. lia.
  - intros n. by same_table ao_delivered0.
  - recount. lia.
Qed.
(** Resolving the message removes exactly its own pending entry. *)
Lemma pending_resolved f :
  same_identity f → unresolved (f g) = false →
  ∀ k n, dget k (ddel (msg_key g) (pending_submissions a)) = Some n ↔
    ∃ g', g' ∈ modify_message seq f ms ∧ g_sequence g' = n ∧ msg_key g' = k ∧ unresolved g' = true.
Proof using Hok Hg.
  intros Hf Hr k n. rewrite dget_ddel by apply Hok.
  assert (∀ g', g' ∈ ms → msg_key g' = msg_key g → g_sequence g' = seq) as Hkey.
  { intros g' Hin Hk. destruct (found_in ms seq g Hg) as [Hgin Hs].
    by rewrite (msg_key_unique kd ms a g' g Hok Hin Hgin Hk). }
  case_decide as Hk.
  - split; [done|]. intros (g' & [->|[Hin Hne]]%(in_modified kd ms a seq g Hok Hg) & _ & Hk' & Hu).
    + congruence.
    + destruct Hne. apply Hkey; congruence.
  - rewrite (ao_pending _ _ _ Hok). split.
    + intros (g' & Hin & Hs & Hk' & Hu). exists g'. split; [|done].
      apply (in_modified kd ms a seq g Hok Hg). right. split; [done|]. intros Hseq.
      apply (find_message_unique seq) in Hin; [|apply Hok|done]. congruence.
    + intros (g' & [->|[Hin Hne]]%(in_modified kd ms a seq g Hok Hg) & Hs & Hk' & Hu).
      * congruence.
      * by exists g'.
Qed.

Lemma acc_ok_admitted :
  unresolved g = true →
  acc_ok kd (modify_message seq (λ g, g <| g_submitted := true |>) ms)
    (a <| pending_submissions ::= ddel (msg_key g) |>
       <| submitted_count := submitted_count a + 1 |>).
Proof using Hok Hg.
  intros Hu. identities (λ g, g <| g_submitted := true |>).
  pose proof (pending_resolved (λ g, g <| g_submitted := true |>) ltac:(identity) eq_refl) as Hp.
  apply andb_true_iff in Hu as [Hu1%negb_true_iff Hu2%negb_true_iff].
  destruct Hok. split; acc_cbn; try assumption.
  - each.
  - recount. rewrite Hu1. cbv iota. lia.
  - recount. lia.
  - each. by intros _ _.
  - by apply dict_ok_ddel.
  - recount. lia.
  - each. by intros _ _.
  - recount. lia.
  - each.
  - each.
  - recount. lia.
  - intros n. by same_table ao_delivered0.
  - recount. lia.
Qed.

Lemma acc_ok_failed e :
  unresolved g = true →
  acc_ok kd (modify_message seq (λ g, g <| g_error := Some e |>) ms)
    (a <| pending_submissions ::= ddel (msg_key g) |>
       <| submission_failed_count := submission_failed_count a + 1 |>).
Proof using Hok Hg.
  intros Hu.  identities (λ g, g <| g_error := Some e |>).
  assert (unresolved (g <| g_error := Some e |>) = false) as Hr by apply andb_false_r.
  pose proof (pending_resolved (λ g, g <| g_error := Some e |>) ltac:(identity) Hr) as Hp.
  apply andb_true_iff in Hu as [Hu1%negb_true_iff Hu2%negb_true_iff].
  destruct Hok. split; acc_cbn; try assumption.
  - each.
  - recount. lia.
  - recount. rewrite Hu2. change (has_error (g <| g_error := Some e |>)) with true. cbv iota. lia.
  - each. intros _. by rewrite Hu1.
  - by apply dict_ok_ddel.
  - recount. lia.
  - each.
  - recount. lia.
  - each.
  - each.
  - recount. lia.
  - intros n. by same_table ao_delivered0.
  - recount. lia.
Qed.

(** A rejection of a message the firmware had accepted but not transmitted. *)
Lemma acc_ok_rejected e :
  g_submitted g = true → g_transmitted g = false →
  acc_ok kd (modify_message seq (λ g, g <| g_submitted := false |> <| g_error := Some e |>) ms)
    (a <| pending_submissions ::= ddel (msg_key g) |>
       <| submitted_count := submitted_count a - 1 |>
       <| submission_failed_count := submission_failed_count a + 1 |>).
Proof using Hok Hg.
  intros Hs Ht. identities (λ g, g <| g_submitted := false |> <| g_error := Some e |>).
  set (f := λ g, g <| g_submitted := false |> <| g_error := Some e |>) in *.
  assert (unresolved (f g) = false) as Hr by reflexivity.
  pose proof (pending_resolved f ltac:(identity) Hr) as Hp.
  assert (has_error g = false) as He by (apply (ao_exclusive _ _ _ Hok); [apply (found_in ms seq g Hg)|done]).
  subst f. destruct Hok. split; acc_cbn; try assumption.
  - each.
  - recount. rewrite Hs. cbv iota. lia.
  - recount. rewrite He. change (has_error (g <| g_submitted := false |> <| g_error := Some e |>)) with true. cbv iota. lia.
  - each. by intros _ [=].
  - by apply dict_ok_ddel.
  - recount. lia.
  - each. intros _. by rewrite Ht.
  - recount. lia.
  - each.
  - each.
  - recount. lia.
  - intros n. by same_table ao_delivered0.
  - recount. lia.
Qed.

Lemma acc_ok_acknowledged :
  g_acknowledged g = false → g_transmitted g = true →
  acc_ok kd (modify_message seq (λ g, g <| g_acknowledged := true |>) ms)
    (a <| a_acknowledgments := a_acknowledgments a + 1 |>).
Proof using Hok Hg.
  intros Ha Ht. identities (λ g, g <| g_acknowledged := true |>).
  destruct Hok. split; acc_cbn; try assumption.
  - each.
  - recount. lia.
  - recount. lia.
  - each.
  - intros k n. by same_table ao_pending0.
  - recount. lia.
  - each.
  - recount. rewrite Ha. cbv iota. lia.
  - each. by intros _ _.
  - each.
  - recount. lia.
  - intros n. by same_table ao_delivered0.
  - recount. lia.
Qed.
Lemma acc_ok_delivered n lat :
  applicable_receiver kd n g = true → (n ∉ g_delivered_to g) →
  acc_ok kd
    (modify_message seq (λ g,
       g <| g_delivered_to := g_delivered_to g ++ [n] |>
         <| g_latency := match g_latency g with None => Some lat | l => l end |>) ms)
    (a <| a_receiver_deliveries := a_receiver_deliveries a + 1 |>
       <| a_unique_deliveries := if bool_decide (seq ∈ delivered_sequences a) then a_unique_deliveries a
                                 else a_unique_deliveries a + 1 |>
       <| delivered_sequences ::= union {[seq]} |>
       <| a_latencies_ms := a_latencies_ms a ++ [lat] |>
       <| live_latencies_ms := deque_append LIVE_LATENCY_SAMPLE_SIZE (live_latencies_ms a) lat |>).
Proof using Hok Hg.
  intros Happ Hn.
  identities (λ g, g <| g_delivered_to := g_delivered_to g ++ [n] |>
                     <| g_latency := match g_latency g with None => Some lat | l => l end |>).
  assert (seq ∈ delivered_sequences a ↔ has_delivery g = true) as Hseq.
  { rewrite (ao_delivered _ _ _ Hok). split.
    - intros (g' & Hin & Hs & Hd). apply (find_message_unique seq) in Hin; [congruence|apply Hok|done].
    - intros Hd. exists g. by destruct (found_in ms seq g Hg). }
  assert (∀ g', g' ∈ ms → g_sequence g' = seq → g' = g) as Huniq.
  { intros g' Hin Hs. apply (find_message_unique seq) in Hin; [congruence|apply Hok|done]. }
  assert (∀ l : option float, has_delivery (g <| g_delivered_to := g_delivered_to g ++ [n] |>
                                <| g_latency := l |>) = true) as Hdel.
  { intros l. apply bool_decide_eq_true. cbn. by destruct (g_delivered_to g). }
  destruct (ao_receivers _ _ _ Hok g (proj1 (found_in ms seq g Hg))) as [Hnd Hall].
  destruct Hok. split; acc_cbn; try assumption.
  - each.
  - recount. lia.
  - recount. lia.
  - each.
  - intros k m. by same_table ao_pending0.
  - recount. lia.
  - each.
  - recount. lia.
  - each.
  - each. intros _. split.
    + apply NoDup_app. split_and!; [done| |apply NoDup_singleton].
      intros x Hx Hs. apply list_elem_of_singleton in Hs as ->. done.
    + intros x [Hx|Hx]%elem_of_app; [by apply Hall|]. by apply list_elem_of_singleton in Hx as ->.
  - recount. rewrite zlen_app. change (zlen [n]) with 1. lia.
  - intros m. rewrite elem_of_union, elem_of_singleton, ao_delivered0. split.
    + intros [->|(g' & Hin & Hs & Hd)].
      * eexists. split; [apply (in_modified kd ms a seq g Hok Hg); by left|].
        split; [apply (found_in ms seq g Hg)|apply Hdel].
      * destruct (decide (g_sequence g' = seq)) as [Hq|Hq].
        -- eexists. split; [apply (in_modified kd ms a seq g Hok Hg); by left|].
           apply Huniq in Hq as ->; [|done]. split; [done|apply Hdel].
        -- exists g'. split; [apply (in_modified kd ms a seq g Hok Hg); by right|done].
    + intros (g' & [->|[Hin Hne]]%(in_modified kd ms a seq g Hok Hg) & Hs & Hd).
      * left. rewrite <-Hs. exact (proj2 (found_in ms seq g Hg)).
      * right. by exists g'.
  - recount. rewrite Hdel. cbv iota. case_bool_decide as Hb.
    + rewrite (proj1 Hseq Hb). cbv iota. lia.
    + destruct (has_delivery g); [by destruct Hb; apply Hseq|]. cbv iota. lia.
  - rewrite zlen_app. change (zlen [lat]) with 1. lia.
  - rewrite ao_live0. by apply deque_append_tail.
Qed.
End changes.

(** ** A new message *)

(** As [_submit] creates it. *)
Definition pristine (g : GeneratedMessage) : Prop :=
  g_submitted g = false ∧ g_error g = None ∧ g_transmitted g = false ∧
  g_delivered_to g = [] ∧ g_acknowledged g = false.

(** A property of the old messages and the new one. *)
Ltac extended :=
  intros g Hg; apply elem_of_app in Hg as [Hg|Hg]; [|apply list_elem_of_singleton in Hg as ->].

Lemma acc_ok_registered kd ms a m hp hk opp :
  acc_ok kd ms a → pristine m → g_sequence m = a_sequence a → 1 <= a_sequence a →
  (∀ g, g ∈ ms → g_sequence g < a_sequence a) → (msg_key m ∉ (msg_key <$> ms)) →
  acc_ok kd (ms ++ [m])
    (a <| generated_count := generated_count a + 1 |>
       <| a_receiver_opportunities := opp |> <| messages_by_packet ::= hp |>
       <| messages_by_key ::= hk |> <| pending_submissions ::= dset (msg_key m) (g_sequence m) |>).
Proof.
  intros Hok (P1 & P2 & P3 & P4 & P5) Hseq Hnn Hlast Hkey.
  assert (has_error m = false ∧ has_delivery m = false ∧ unresolved m = true) as (Q1 & Q2 & Q3).
  { unfold has_error, has_delivery, unresolved, has_error. by rewrite P1, P2, P4. }
  assert (∀ p, zcount p (ms ++ [m]) = zcount p ms + if p m then 1 else 0) as Hcount.
  { intros p. by rewrite zcount_app, zcount_singleton. }
  destruct Hok. split; acc_cbn; rewrite ?Hcount, ?P1, ?P3, ?P5, ?Q1, ?Q2; cbv iota; try assumption; try lia.
  - rewrite fmap_app. apply NoDup_app. split_and!; [done| |apply NoDup_singleton].
    intros x (g & -> & Hg)%list_elem_of_fmap Hx%list_elem_of_singleton.
    apply Hlast in Hg. lia.
  - extended; [by apply ao_range0|lia].
  - rewrite fmap_app. apply NoDup_app. split_and!; [done| |apply NoDup_singleton].
    intros x Hx Hs. apply list_elem_of_singleton in Hs as ->. done.
  - rewrite zlen_app. change (zlen [m]) with 1. lia.
  - extended; [by apply ao_exclusive0|]. by rewrite P1.
  - by apply dict_ok_dset.
  - intros k n. rewrite dget_dset. case_decide as Hk.
    + split.
      * intros [= <-]. exists m. split; [apply elem_of_app; right; by left|done].
      * intros (g & [Hg|Hg]%elem_of_app & Hs & Hgk & Hu);
          [|apply list_elem_of_singleton in Hg; congruence].
        destruct Hkey. rewrite <-Hk, <-Hgk. apply list_elem_of_fmap. by exists g.
    + rewrite ao_pending0. split.
      * intros (g & Hg & H). exists g. split; [apply elem_of_app; by left|done].
      * intros (g & [Hg|Hg]%elem_of_app & Hs & Hgk & Hu); [by exists g|].
        apply list_elem_of_singleton in Hg. congruence.
  - extended; [by apply ao_transmitted_sub0|]. by rewrite P3.
  - extended; [by apply ao_acks_trans0|]. by rewrite P5.
  - extended; [by apply ao_receivers0|]. rewrite P4. split; [apply NoDup_nil_2|by intros n ?%elem_of_nil].
  - rewrite fmap_app, zsum_app. cbn [fmap list_fmap zsum]. rewrite P4.
    change (zlen (@nil string)) with 0. lia.
  - intros n. rewrite ao_delivered0. split.
    + intros (g & Hg & H). exists g. split; [apply elem_of_app; by left|done].
    + intros (g & [Hg|Hg]%elem_of_app & Hs & Hd); [by exists g|].
      apply list_elem_of_singleton in Hg. congruence.
Qed.
