(* ===== verification/RunAccounting.v ===== *)
(** * Every handler keeps a run's accounting

    The controller-level invariant [run_ok], its preservation by each handler of
    TrafficHandlers, and the sequences of handler calls of a run ([run_step]). *)
From Stdlib Require Import Floats.SpecFloat.
From S2P Require Import Prelude PyDict PyFloat Scenario Mesh Airtime Events Calculations.
From S2P Require Import TrafficRequest Identifier PacketIds TrafficState TrafficHandlers RunInvariant.

#[local] Opaque count_add counter_of airtime_by_transmitter zcount drop take.

(** Receivers one message can reach. *)
Definition opportunities (c : Controller) (cur : TrafficRunResult) : Z :=
  match kind (r_request cur) with
  | BROADCAST_TEXT => zlen (nodes (run_scenario c)) - 1
  | DIRECT_TEXT => 1
  end.

(** The controller [c] is running [cur]. *)
Record run_ok (c : Controller) (cur : TrafficRunResult) : Prop := {
  ro_current : c_current c = Some cur;
  ro_live : c_frozen c = None;
  ro_acc : acc_ok (kind (r_request cur)) (r_messages cur) (acc c);
  ro_requested : r_requested cur = generated_count (acc c);
  ro_submitted : r_submitted cur = submitted_count (acc c);
  ro_failed : r_submission_failed cur = submission_failed_count (acc c);
  ro_opportunities : a_receiver_opportunities (acc c) = zlen (r_messages cur) * opportunities c cur;
  ro_next : 0 <= a_sequence (acc c);
  ro_ids : ids_ok (c_packet_ids c);
  ro_used : ∀ g, g ∈ r_messages cur → g_packet_id g ∈ (used_of (g_source g) (c_packet_ids c)).*1;
  ro_table : ∀ key seq, messages_by_packet (acc c) !! key = Some seq →
    seq ∈ g_sequence <$> r_messages cur;
  ro_topology : zlen (r_topology_changes cur) <= MAX_TOPOLOGY_CHANGES_PER_RUN }.

(** What no handler changes in a result, besides the request. *)
Definition fixed_part (cur : TrafficRunResult) : string * option string * bool * Z :=
  (r_run_id cur, r_failure cur, r_finished cur, r_random_seed cur).

(** What no handler changes in the controller. *)
Definition flags (c : Controller)
    : TrafficRunState * option TrafficRunResult * bool * bool * bool * option float * Config :=
  (c_state c, c_frozen c, finalization_done c, finalization_wait_timed_out c, task_active c,
   drain_deadline c, config c).

Section updates.
Implicit Types (c : Controller) (cur : TrafficRunResult).

(** The counters [run_ok] compares with the result are unchanged. *)
Definition same_counts (a a' : Accumulators) : Prop :=
  generated_count a' = generated_count a ∧ submitted_count a' = submitted_count a ∧
  submission_failed_count a' = submission_failed_count a ∧ a_sequence a' = a_sequence a ∧
  a_receiver_opportunities a' = a_receiver_opportunities a ∧
  messages_by_packet a' = messages_by_packet a.

Lemma run_ok_acc c cur f :
  run_ok c cur → acc_ok (kind (r_request cur)) (r_messages cur) (f (acc c)) →
  same_counts (acc c) (f (acc c)) → run_ok (c <| acc ::= f |>) cur.
Proof.
  intros [] Ha (E1 & E2 & E3 & E4 & E5 & E6). split; cbn [set_field c_current acc c_packet_ids run_scenario];
    try assumption; try congruence.
  - by rewrite E5.
  - intros key seq. rewrite E6. apply ro_table0.
Qed.

(** A changed message, with the counters copied into the result. *)
Lemma run_ok_message c cur cur' seq f a :
  run_ok c cur → same_identity f →
  acc_ok (kind (r_request cur)) (modify_message seq f (r_messages cur)) a →
  r_messages cur' = modify_message seq f (r_messages cur) →
  r_request cur' = r_request cur → r_topology_changes cur' = r_topology_changes cur →
  r_requested cur' = r_requested cur → generated_count a = generated_count (acc c) →
  a_sequence a = a_sequence (acc c) → a_receiver_opportunities a = a_receiver_opportunities (acc c) →
  messages_by_packet a = messages_by_packet (acc c) →
  r_submitted cur' = submitted_count a → r_submission_failed cur' = submission_failed_count a →
  run_ok (c <| c_current := Some cur' |> <| acc := a |>) cur'.
Proof.
  intros [] Hf Ha Hm Er Et Eq Eg Es Eo Ep E1 E2.
  split; cbn [set_field c_current acc c_packet_ids run_scenario]; try assumption; try congruence.
  - rewrite Eo, Hm, zlen_modify, ro_opportunities0. unfold opportunities. by rewrite Er.
  - intros g. rewrite Hm. unfold modify_message. rewrite list_elem_of_fmap.
    intros (g0 & -> & Hg0). case_decide; [|by apply ro_used0].
    pose proof (si_key f Hf g0) as [= E3 E4]. rewrite E3, E4. by apply ro_used0.
  - intros key n. rewrite Ep, Hm, modify_message_fmap by apply Hf. apply ro_table0.
Qed.

(** Correlating a packet only extends the table. *)
Lemma message_for_packet_identity_ok `{Meshtastic} packet t c cur :
  run_ok c cur →
  let '(found, c') := message_for_packet_identity packet t c in
  run_ok c' cur ∧ flags c' = flags c ∧ c_phase c' = c_phase c ∧ run_scenario c' = run_scenario c ∧
  config c' = config c ∧
  ∀ seq, found = Some seq → ∃ g, message_at seq cur = Some g.
Proof.
  intros Hok. unfold message_for_packet_identity. cbv zeta.
  assert (∀ key seq, messages_by_packet (acc c) !! key = Some seq → ∃ g, message_at seq cur = Some g) as Hm.
  { intros key seq Hk. apply (ro_table _ _ Hok), list_elem_of_fmap in Hk as (g & -> & Hg).
    exists g. by apply find_message_unique; [apply (ro_acc _ _ Hok)| |]. }
  destruct ((if (_ : bool) then _ else _) ≫= _) as [seq|] eqn:E; [|by eauto 8].
  assert (seq ∈ g_sequence <$> r_messages cur) as Hin.
  { apply bind_Some in E as (id & _ & E). by eapply (ro_table _ _ Hok). }
  split; [|split_and!; try done].
  - destruct Hok. split; cbn [set_field c_current acc c_packet_ids run_scenario]; try assumption.
    + destruct ro_acc0. split; acc_cbn; assumption.
    + intros key n. acc_cbn. rewrite lookup_insert_Some. intros [[_ <-]|[_ Hk]]; [done|by eapply ro_table0].
  - intros n [= <-]. apply bind_Some in E as (id & _ & E). by eapply Hm.
Qed.
End updates.

Section handlers.
Context `{Meshtastic} `{!MeshtasticLaws} `{PyText} `{PyRandom} `{!PyRandomLaws} {B : Type} `{EventSink B}.
Implicit Types (w : Controller * B) (c : Controller) (cur : TrafficRunResult).

Lemma publish_metric_update_fst v r now w : (publish_metric_update v r now w).1 = w.1.
Proof. unfold publish_metric_update. destruct w as [c b]. destruct (c_current c); [|done]. by case_decide. Qed.

Lemma with_current_fst f w cur :
  run_ok w.1 cur → (with_current f w).1 = w.1 <| c_current := Some (f cur) |>.
Proof. intros []. destruct w as [[] b]. cbn in *. by subst. Qed.

Lemma publish_event_fst e w : (publish_event e w).1 = w.1.
Proof. done. Qed.

(** Noting activity and publishing do not matter to the accounting. *)
Lemma run_ok_activity c cur now : run_ok c cur → run_ok (c <| acc ::= note_activity now |>) cur.
Proof. intros Hok. apply run_ok_acc; [done|apply acc_ok_activity, Hok|done]. Qed.

(** Message [seq] of the current run. *)
Lemma run_ok_message_at c cur seq g :
  run_ok c cur → message_at seq cur = Some g → g ∈ r_messages cur ∧ g_sequence g = seq.
Proof. intros _ Hg. by apply find_message_elem. Qed.

(** The goal's controller is the old one with message [seq] changed by [f] and
    the accumulators [a]. *)
Ltac message_changed seq f a :=
  match goal with
  | Hok : run_ok ?c ?cur |- run_ok ?c' ?cur' =>
    assert (c' = c <| c_current := Some cur' |> <| acc := a |>) as ->
      by (let Hc := fresh in let Hf := fresh in
          pose proof (ro_current _ _ Hok) as Hc; pose proof (ro_live _ _ Hok) as Hf; revert Hc Hf;
          unfold with_acc, with_current; cbn [fst snd]; clear; generalize c; intros [];
          cbn [c_current c_frozen]; intros -> ->; reflexivity);
    apply (run_ok_message c cur cur' seq f a Hok); try reflexivity; try apply Hok;
    [by split; intros []|..]
  end.

(** A live run's [with_current] touches no flag. *)
Ltac same_flags :=
  match goal with
  | Hok : run_ok (fst ?w) _ |- flags _ = flags _ =>
    let Hf := fresh in pose proof (ro_live _ _ Hok) as Hf; revert Hf; clear; destruct w as [[] ?];
    cbn [fst c_frozen]; intros ->; reflexivity
  end.

Lemma flags_acc_current h f w :
  c_frozen w.1 = None → flags (with_acc h (with_current f w)).1 = flags w.1.
Proof. destruct w as [[] b]. cbn [fst TrafficState.c_frozen]. by intros ->. Qed.

Lemma run_ok_transmitted w cur seq g :
  run_ok w.1 cur → message_at seq cur = Some g → g_submitted g = true → g_transmitted g = false →
  run_ok (with_acc (λ a, a <| transmitted_count := transmitted_count a + 1 |>)
            (with_current (update_message seq (λ g, g <| g_transmitted := true |>)) w)).1
    (update_message seq (λ g, g <| g_transmitted := true |>) cur).
Proof.
  intros Hok Hg Hs Ht.
  message_changed seq (λ g, g <| g_transmitted := true |>)
    ((acc w.1) <| transmitted_count := transmitted_count (acc w.1) + 1 |>).
  by eapply acc_ok_transmitted; [apply Hok| | |].
Qed.

(** ** Admission *)

Lemma current_with_acc f w : c_current (with_acc f w).1 = c_current w.1.
Proof. done. Qed.

Definition marked (seq : Z) (error : option string) (w : Controller * B) : Controller * B :=
  match error with None => mark_submitted seq w | Some error => mark_failed seq error w end.

Lemma unresolved_guard g :
  g_submitted g || bool_decide (g_error g ≠ None) = negb (unresolved g).
Proof. unfold unresolved, has_error. by destruct (g_submitted g), (bool_decide _). Qed.

Lemma resolve_submission_fst source seq error now w cur g :
  c_current w.1 = Some cur → message_at seq cur = Some g → unresolved g = true →
  (resolve_submission source seq error now w).1 = (marked seq error w).1 <| acc ::= note_activity now |>.
Proof.
  intros Hc Hg Hu. unfold resolve_submission. rewrite Hc, Hg, unresolved_guard, Hu. cbn [negb].
  by rewrite publish_event_fst, publish_metric_update_fst.
Qed.

Lemma marked_pending seq error L w :
  (marked seq error (with_acc (λ a, a <| pending_submissions := L |>) w)).1 =
  (marked seq error w).1 <| acc ::= λ a, a <| pending_submissions := L |> |>.
Proof. destruct w as [[] b], error; reflexivity. Qed.

(** The message's own pending entry goes, and it is marked. *)
Definition marking (error : option string) (g : GeneratedMessage) : GeneratedMessage :=
  match error with None => g <| g_submitted := true |> | Some e => g <| g_error := Some e |> end.

Lemma run_ok_marked seq error w cur g :
  run_ok w.1 cur → message_at seq cur = Some g → unresolved g = true →
  ∃ cur', run_ok (marked seq error (with_acc (λ a, a <| pending_submissions ::= ddel (msg_key g) |>) w)).1 cur' ∧
    r_messages cur' = modify_message seq (marking error) (r_messages cur) ∧
    fixed_part cur' = fixed_part cur ∧ r_request cur' = r_request cur.
Proof.
  intros Hok Hg Hu. pose proof (ro_acc _ _ Hok) as Ha. destruct error as [e|].
  - exists (update_message seq (marking (Some e)) cur
              <| r_submission_failed := submission_failed_count (acc w.1) + 1 |>).
    split; [|by split_and!].
    unfold marked, mark_failed.
    message_changed seq (marking (Some e)) ((acc w.1) <| pending_submissions ::= ddel (msg_key g) |>
      <| submission_failed_count := submission_failed_count (acc w.1) + 1 |>).
    by apply (acc_ok_failed _ _ _ seq g Ha Hg e).
  - exists (update_message seq (marking None) cur <| r_submitted := submitted_count (acc w.1) + 1 |>).
    split; [|by split_and!].
    unfold marked, mark_submitted.
    message_changed seq (marking None) ((acc w.1) <| pending_submissions ::= ddel (msg_key g) |>
      <| submitted_count := submitted_count (acc w.1) + 1 |>).
    by apply (acc_ok_admitted _ _ _ seq g Ha Hg).
Qed.

(** The entry of a pending submission belongs to an unresolved message. *)
Lemma pending_entry c cur k seq :
  run_ok c cur → dget k (pending_submissions (acc c)) = Some seq →
  ∃ g, message_at seq cur = Some g ∧ msg_key g = k ∧ unresolved g = true.
Proof.
  intros Hok (g & Hg & Hs & Hk & Hu)%(ao_pending _ _ _ (ro_acc _ _ Hok)). exists g. split; [|done].
  by apply find_message_unique; [apply (ro_acc _ _ Hok)| |].
Qed.

(** The run a handler call leaves: the same run, with the same messages up to
    their outcomes. *)
Definition continues (c : Controller) (cur : TrafficRunResult) (c' : Controller) : Prop :=
  ∃ cur', run_ok c' cur' ∧ fixed_part cur' = fixed_part cur ∧ r_request cur' = r_request cur ∧
    flags c' = flags c ∧ c_phase c' = c_phase c ∧ run_scenario c' = run_scenario c ∧
    (g_sequence <$> r_messages cur) `prefix_of` (g_sequence <$> r_messages cur').

Lemma continues_same c cur c' :
  run_ok c' cur → flags c' = flags c → c_phase c' = c_phase c → run_scenario c' = run_scenario c →
  continues c cur c'.
Proof. intros. by exists cur. Qed.

Lemma continues_activity c cur c' now :
  continues c cur c' → continues c cur (c' <| acc ::= note_activity now |>).
Proof.
  intros (cur' & Hok & H'). exists cur'. split; [by apply run_ok_activity|exact H'].
Qed.

Lemma marked_frame seq error w :
  c_frozen w.1 = None →
  flags (marked seq error w).1 = flags w.1 ∧ c_phase (marked seq error w).1 = c_phase w.1 ∧
  run_scenario (marked seq error w).1 = run_scenario w.1.
Proof. destruct w as [[] b], error; cbn [fst TrafficState.c_frozen]; intros ->; by split_and!. Qed.

Lemma marked_continues seq error w cur g :
  run_ok w.1 cur → message_at seq cur = Some g → unresolved g = true →
  continues w.1 cur
    (marked seq error (with_acc (λ a, a <| pending_submissions ::= ddel (msg_key g) |>) w)).1.
Proof.
  intros Hok Hg Hu. destruct (run_ok_marked seq error w cur g Hok Hg Hu) as (cur' & Hok' & Hm & Hi & Hr).
  exists cur'. split; [exact Hok'|]. split; [exact Hi|]. split; [exact Hr|].
  destruct (marked_frame seq error (with_acc (λ a, a <| pending_submissions ::= ddel (msg_key g) |>) w)
    (ro_live _ _ Hok)) as (E1 & E2 & E3).
  split; [exact E1|]. split; [exact E2|]. split; [exact E3|].
  rewrite Hm, modify_message_fmap; [done|]. intros []. by destruct error.
Qed.

Lemma resolve_submission_ok source seq error now w cur g :
  run_ok w.1 cur → message_at seq cur = Some g → unresolved g = true →
  continues w.1 cur (resolve_submission source seq error now
    (with_acc (λ a, a <| pending_submissions ::= ddel (msg_key g) |>) w)).1.
Proof.
  intros Hok Hg Hu.
  rewrite (resolve_submission_fst source seq error now _ cur g); [|apply Hok|done|done].
  by apply continues_activity, marked_continues.
Qed.

Lemma record_queue_status_ok node_id status now w cur :
  run_ok w.1 cur → continues w.1 cur (record_queue_status node_id status now w).1.
Proof.
  intros Hok. unfold record_queue_status. cbv zeta.
  destruct (qs_mesh_packet_id status =? 0); [by apply continues_same|].
  destruct (dget _ _) as [seq|] eqn:Ed; [|by apply continues_same].
  destruct (pending_entry _ _ _ _ Hok Ed) as (g & Hg & Hk & Hu). rewrite <-Hk.
  destruct (_ || _); by apply resolve_submission_ok.
Qed.

Lemma submit_failed_ok source packet_id seq error now w cur g :
  run_ok w.1 cur → message_at seq cur = Some g → msg_key g = (source, packet_id) →
  continues w.1 cur (submit_failed source packet_id seq error now w).1.
Proof.
  intros Hok Hg Hk. unfold submit_failed. cbv zeta. rewrite <-Hk.
  destruct (unresolved g) eqn:Hu; [by apply resolve_submission_ok|].
  unfold resolve_submission. rewrite current_with_acc, (ro_current _ _ Hok), Hg, unresolved_guard, Hu. cbn [negb].
  apply continues_same; try done. apply run_ok_acc; [done| |done].
  apply acc_ok_unpended; [apply Hok|]. destruct (dget _ _) as [n|] eqn:Ed; [|done].
  destruct (pending_entry _ _ _ _ Hok Ed) as (g' & Hg' & Hk' & Hu').
  apply (run_ok_message_at _ _ _ _ Hok) in Hg as [Hg _], Hg' as [Hg' _].
  rewrite (msg_key_unique _ _ _ g g' (ro_acc _ _ Hok)) in Hu; [congruence|done|done|congruence].
Qed.

(** ** Giving up on what is still pending *)

Definition with_pending (L : dict (string * Z) Z) (c : Controller) : Controller :=
  c <| acc ::= λ a, a <| pending_submissions := L |> |>.

Definition time_out (now : float) (w : Controller * B) (entry : string * Z * Z) : Controller * B :=
  resolve_submission entry.1.1 entry.2 (Some "firmware queue admission timed out"%string) now w.

Lemma ddel_head k seq L w :
  with_acc (λ a, a <| pending_submissions ::= ddel k |>)
    (with_acc (λ a, a <| pending_submissions := (k, seq) :: L |>) w) =
  with_acc (λ a, a <| pending_submissions := L |>) w.
Proof.
  destruct w as [[] b]. unfold with_acc. cbn [fst snd set_field]. f_equal.
  transitivity (with_pending (ddel k ((k, seq) :: L))
    (mkController config c_state c_current c_frozen task_active finalization_done
       finalization_wait_timed_out c_phase drain_deadline c_event_stream_id run_scenario
       c_packet_ids acc)); [reflexivity|].
  cbn [ddel]. by rewrite decide_True.
Qed.

Lemma all_time_out now L w cur :
  run_ok (with_pending L w.1) cur →
  ∃ cur', run_ok (with_pending [] (foldl (time_out now) w L).1) cur' ∧
    continues w.1 cur (with_pending [] (foldl (time_out now) w L).1).
Proof.
  revert w cur. induction L as [|[k seq] L IH]; intros w cur Hok; cbn [foldl].
  - exists cur. split; [done|]. by apply continues_same.
  - set (w0 := with_acc (λ a, a <| pending_submissions := (k, seq) :: L |>) w).
    destruct (pending_entry w0.1 cur k seq Hok) as (g & Hg & Hk & Hu).
    { subst w0. unfold with_acc. cbn. by rewrite decide_True. }
    destruct (run_ok_marked seq (Some "firmware queue admission timed out"%string) w0 cur g Hok Hg Hu)
      as (cur1 & Hok1 & Hm & Hi & Hr).
    rewrite Hk in Hok1. subst w0. rewrite ddel_head, marked_pending in Hok1.
    assert ((time_out now w (k, seq)).1 =
      (marked seq (Some "firmware queue admission timed out"%string) w).1 <| acc ::= note_activity now |>) as He.
    { unfold time_out. apply (resolve_submission_fst _ _ _ _ _ cur g); [apply Hok|done|done]. }
    destruct (IH (time_out now w (k, seq)) cur1) as (cur2 & Hok2 & cur3 & Hok3 & Hi3 & Hr3 & E1 & E2 & E3 & Hpre).
    { rewrite He. exact (run_ok_activity _ _ now Hok1). }
    exists cur2. split; [exact Hok2|]. exists cur3. split; [exact Hok3|].
    destruct (marked_frame seq (Some "firmware queue admission timed out"%string) w (ro_live _ _ Hok))
      as (F1 & F2 & F3).
    rewrite He in E1, E2, E3.
    split; [congruence|]. split; [congruence|].
    split; [exact (eq_trans E1 F1)|]. split; [exact (eq_trans E2 F2)|]. split; [exact (eq_trans E3 F3)|].
    rewrite Hm, modify_message_fmap in Hpre; [exact Hpre|]. by intros [].
Qed.

Lemma finalize_pending_ok now w cur :
  run_ok w.1 cur →
  continues w.1 cur (finalize_pending_submissions now w).1 ∧
  pending_submissions (acc (finalize_pending_submissions now w).1) = [].
Proof.
  intros Hok. split; [|done].
  destruct (all_time_out now (pending_submissions (acc w.1)) w cur) as (_ & _ & Hc); [|exact Hc].
  assert (with_pending (pending_submissions (acc w.1)) w.1 = w.1) as ->; [|done].
  destruct w as [[? ? ? ? ? ? ? ? ? ? ? ? []] b]. reflexivity.
Qed.

(** ** Reports from the medium and the sampler *)

Lemma continues_bind c cur c1 c2 :
  continues c cur c1 →
  (∀ cur1, run_ok c1 cur1 → fixed_part cur1 = fixed_part cur → r_request cur1 = r_request cur →
    continues c1 cur1 c2) → continues c cur c2.
Proof.
  intros (cur1 & Hok1 & I1 & I2 & I3 & I4 & I5 & I6) Hc.
  destruct (Hc cur1 Hok1 I1 I2) as (cur2 & Hok & J1 & J2 & J3 & J4 & J5 & J6).
  exists cur2. split; [done|]. do 5 (split; [congruence|]). by etrans.
Qed.

(** An update of accumulators that no counted field sees. *)
Lemma continues_acc w cur f :
  run_ok w.1 cur → acc_ok (kind (r_request cur)) (r_messages cur) (f (acc w.1)) →
  same_counts (acc w.1) (f (acc w.1)) → continues w.1 cur (with_acc f w).1.
Proof. intros. apply continues_same; [by apply run_ok_acc|done..]. Qed.

Lemma with_acc_twice f h w : with_acc f (with_acc h w) = with_acc (λ a, f (h a)) w.
Proof. done. Qed.

(** Drops publications, joins updates and leaves the accumulators' invariant. *)
Ltac counted :=
  cbn [fst]; rewrite ?publish_event_fst, ?publish_metric_update_fst, ?with_acc_twice;
  apply continues_acc; [assumption| |done].
Ltac uncounted :=
  counted; match goal with Hok : run_ok _ _ |- _ => destruct (ro_acc _ _ Hok) end;
  split; acc_cbn; assumption.

Lemma record_failed_receptions_ok node_id total now w cur :
  run_ok w.1 cur → continues w.1 cur (record_failed_receptions node_id total now w).1.
Proof.
  intros Hok. unfold record_failed_receptions. rewrite (ro_current _ _ Hok).
  destruct (negb _); [by apply continues_same|]. cbv zeta.
  destruct (_ !! _) as [previous|]; [destruct (_ =? 0)|]; uncounted.
Qed.

Lemma record_duplicate_receptions_ok node_id total now w cur :
  run_ok w.1 cur → continues w.1 cur (record_duplicate_receptions node_id total now w).1.
Proof.
  intros Hok. unfold record_duplicate_receptions, publish_duplicates. rewrite (ro_current _ _ Hok).
  destruct (negb _); [by apply continues_same|]. cbv zeta.
  destruct (_ !! _) as [previous|]; [destruct (_ =? 0)|]; uncounted.
Qed.

Lemma set_event_loop_lag_ok lag now w cur :
  run_ok w.1 cur → continues w.1 cur (set_event_loop_lag lag now w).1.
Proof.
  intros Hok. unfold set_event_loop_lag. rewrite (ro_current _ _ Hok).
  destruct (accepts_run_events _ _); [|by apply continues_same]. uncounted.
Qed.

Lemma record_topology_change_ok e link w cur :
  run_ok w.1 cur → continues w.1 cur (record_topology_change e link w).1.1.
Proof.
  intros Hok. unfold record_topology_change. rewrite (ro_current _ _ Hok).
  destruct (negb (accepts_run_events false w.1)) eqn:Ea; [by apply continues_same|].
  unfold ensure_topology_change_capacity. rewrite (ro_current _ _ Hok), Ea.
  destruct (guard_raise _ _) as [[]|] eqn:Eg; [|by apply continues_same].
  apply guard_raise_ok, Z.ltb_ge in Eg.
  set (change := mkChange _ _ _). cbn [fst].
  exists (cur <| r_topology_changes := r_topology_changes cur ++ [change] |>).
  split; [|split_and!; try done; same_flags].
  rewrite (with_current_fst _ w cur Hok).
  destruct Hok. split; try assumption; try reflexivity.
  cbn [set_field r_topology_changes eta_TrafficRunResult]. rewrite zlen_app.
  change (zlen [change]) with 1. lia.
Qed.

Lemma record_drop_ok transmitter packet reason now w cur :
  run_ok w.1 cur → continues w.1 cur (record_drop transmitter packet reason now w).1.
Proof.
  intros Hok. unfold record_drop, publish_drops. rewrite (ro_current _ _ Hok).
  destruct (negb _); [by apply continues_same|].
  pose proof (message_for_packet_identity_ok packet (Some transmitter) w.1 cur Hok) as Hm.
  destruct (message_for_packet_identity _ _ _) as [found c].
  destruct Hm as (Hok1 & E1 & E2 & E3 & _ & _).
  apply (continues_bind _ _ c); [by apply continues_same|]. intros cur1 Hok2 _ _.
  destruct (_ ≫= _) as [g|]; [|by apply continues_same].
  destruct (negb _); [by apply continues_same|].
  counted. apply acc_ok_activity, acc_ok_drop, Hok2.
Qed.

Lemma acc_ok_relay kd ms a :
  acc_ok kd ms a → acc_ok kd ms (a <| a_relay_transmissions := a_relay_transmissions a + 1 |>).
Proof. intros []. split; acc_cbn; assumption. Qed.

(** The last update of several. *)
Lemma continues_update c cur f w :
  (∀ cur1, run_ok w.1 cur1 → acc_ok (kind (r_request cur1)) (r_messages cur1) (f (acc w.1))) →
  same_counts (acc w.1) (f (acc w.1)) → continues c cur w.1 → continues c cur (with_acc f w).1.
Proof.
  intros Ha Hs Hc. apply (continues_bind _ _ w.1); [done|]. intros cur1 Hok1 _ _.
  apply continues_acc; [done|by apply Ha|done].
Qed.

Ltac next_update :=
  match goal with |- continues ?c ?cur (with_acc ?f ?w).1 =>
    let a := fresh "a" in
    apply (continues_update c cur f w); [intros ? Hok2|generalize (acc w.1); intros a; by repeat split|]
  end.

Lemma record_rf_transmission_ok transmitter packet air now w cur :
  run_ok w.1 cur → continues w.1 cur (record_rf_transmission transmitter packet air now w).1.1.
Proof.
  intros Hok. unfold record_rf_transmission. rewrite (ro_current _ _ Hok).
  destruct (negb _); [by apply continues_same|].
  pose proof (message_for_packet_identity_ok packet (Some transmitter) w.1 cur Hok) as Hm.
  destruct (message_for_packet_identity _ _ _) as [found c].
  destruct Hm as (Hok1 & E1 & E2 & E3 & _ & Hf). cbv zeta.
  destruct (found ≫= _) as [[seq g]|] eqn:Eg; [|by apply continues_same].
  assert (message_at seq cur = Some g) as Hg.
  { apply bind_Some in Eg as (n & -> & Eg). apply bind_Some in Eg as (g' & Hg' & [= <- <-]). exact Hg'. }
  clear Eg. destruct (g_submitted g) eqn:Es; cbn [negb]; [|by apply continues_same].
  match goal with |- context [if g_transmitted g then ?w0 else ?w1] =>
    set (w' := if g_transmitted g then w0 else w1) end.
  apply (continues_bind _ _ w'.1).
  { subst w'. destruct (g_transmitted g) eqn:Et; [by apply continues_same|].
    exists (update_message seq (λ g, g <| g_transmitted := true |>) cur).
    split; [by apply (run_ok_transmitted (c, w.2) cur seq g)|]. split_and!; try done.
    - rewrite flags_acc_current; [exact E1|apply (ro_live _ _ Hok1)].
    - cbn [r_messages update_message set_field]. by rewrite modify_message_fmap. }
  clearbody w'. clear c Hok1 E1 E2 E3. intros cur1 Hok1 _ _.
  destruct (dget _ _) as [hw|]; [destruct (negb _)|].
  - cbn [fst]. rewrite publish_metric_update_fst. next_update; [apply acc_ok_activity, Hok2|].
    next_update; [apply acc_ok_relay, Hok2|].
    counted. apply acc_ok_rf, Hok1.
  - cbn [fst]. rewrite publish_metric_update_fst. next_update; [apply acc_ok_activity, Hok2|].
    counted. apply acc_ok_rf, Hok1.
  - counted. apply acc_ok_rf, Hok1.
Qed.

(** ** Messages from the radio *)

Lemma run_ok_acknowledged w cur seq g now :
  run_ok w.1 cur → message_at seq cur = Some g → g_transmitted g = true →
  continues w.1 cur (record_acknowledgment seq g now w).1.
Proof.
  intros Hok Hg Ht. unfold record_acknowledgment. destruct (g_acknowledged g) eqn:Ea; [by apply continues_same|].
  cbv zeta. rewrite publish_metric_update_fst.
  exists (update_message seq (λ g, g <| g_acknowledged := true |>) cur).
  split; [|split_and!; try done; try same_flags].
  - message_changed seq (λ g, g <| g_acknowledged := true |>)
      ((acc w.1) <| a_acknowledgments := a_acknowledgments (acc w.1) + 1 |>).
    by eapply acc_ok_acknowledged; [apply Hok| | |].
  - cbn [r_messages update_message set_field]. by rewrite modify_message_fmap.
Qed.

Lemma record_routing_error_ok seq name now w cur :
  run_ok w.1 cur → continues w.1 cur (record_routing_error seq name now w).1.
Proof.
  intros Hok. unfold record_routing_error, publish_drops. cbv zeta. counted.
  apply acc_ok_drop. destruct (ro_acc _ _ Hok). split; acc_cbn; assumption.
Qed.

Lemma rejection_ok seq g reason now w cur :
  run_ok w.1 cur → message_at seq cur = Some g → g_transmitted g = false →
  continues w.1 cur (record_pretransmission_rejection (g_source g) seq reason now w).1.
Proof.
  intros Hok Hg Ht. unfold record_pretransmission_rejection. rewrite (ro_current _ _ Hok), Hg.
  case_bool_decide as He; [by apply continues_same|]. cbv zeta.
  rewrite publish_event_fst, publish_metric_update_fst. apply continues_activity.
  destruct (g_submitted g) eqn:Es.
  - exists (update_message seq (λ g, g <| g_error := Some reason |>)
        (update_message seq (λ g, g <| g_submitted := false |>) cur
           <| r_submitted := submitted_count (acc w.1) - 1 |>)
      <| r_submission_failed := submission_failed_count (acc w.1) + 1 |>).
    assert (modify_message seq (λ g, g <| g_error := Some reason |>)
              (modify_message seq (λ g, g <| g_submitted := false |>) (r_messages cur)) =
            modify_message seq (λ g, g <| g_submitted := false |> <| g_error := Some reason |>)
              (r_messages cur)) as Hm by (by rewrite modify_message_twice).
    split; [unfold mark_failed|split_and!; try done; try same_flags].
    + message_changed seq (λ g, g <| g_submitted := false |> <| g_error := Some reason |>)
        ((acc w.1) <| pending_submissions ::= ddel (msg_key g) |>
           <| submitted_count := submitted_count (acc w.1) - 1 |>
           <| submission_failed_count := submission_failed_count (acc w.1) + 1 |>).
      * by apply (acc_ok_rejected _ _ _ seq g (ro_acc _ _ Hok) Hg reason).
      * exact Hm.
    + cbn [r_messages update_message set_field]. by rewrite !modify_message_fmap.
  - apply (marked_continues seq (Some reason) w cur g Hok Hg).
    unfold unresolved, has_error. by rewrite Es, He.
Qed.

Lemma record_delivery_ok node_id seq g now w cur :
  run_ok w.1 cur → message_at seq cur = Some g →
  applicable_receiver (kind (r_request cur)) node_id g = true → (node_id ∉ g_delivered_to g) →
  continues w.1 cur (record_delivery node_id seq g now w).1.
Proof.
  intros Hok Hg Ha Hn. unfold record_delivery. cbv zeta. generalize (latency_of now g). intros lat.
  set (f := λ g, g <| g_delivered_to := g_delivered_to g ++ [node_id] |>
                   <| g_latency := match g_latency g with None => Some lat | l => l end |>).
  exists (update_message seq f cur). split; [|split_and!; try done; try same_flags].
  - match goal with |- context [with_acc ?h] => message_changed seq f (h (acc w.1)) end.
    by apply (acc_ok_delivered _ _ _ seq g (ro_acc _ _ Hok) Hg node_id lat).
  - cbn [r_messages update_message set_field]. by rewrite modify_message_fmap.
Qed.

Lemma handle_text_ok node_id packet now w cur :
  run_ok w.1 cur → continues w.1 cur (handle_text node_id packet now w).1.
Proof.
  intros Hok. unfold handle_text.
  assert (let '(found, c) := correlated_delivery_message packet w.1 in
    run_ok c cur ∧ flags c = flags w.1 ∧ c_phase c = c_phase w.1 ∧ run_scenario c = run_scenario w.1) as Hc.
  { unfold correlated_delivery_message. rewrite (ro_current _ _ Hok).
    destruct (traffic_identifier_from_packet packet) as [[run_id n]|]; [|done]. case_decide; [|done].
    pose proof (message_for_packet_identity_ok packet None w.1 cur Hok) as Hm.
    destruct (message_for_packet_identity _ _ _) as [[seq|] c];
      destruct Hm as (Hok1 & E1 & E2 & E3 & _); done. }
  destruct (correlated_delivery_message packet w.1) as [found c]. destruct Hc as (Hok1 & E1 & E2 & E3).
  apply (continues_bind _ _ c); [by apply continues_same|]. intros cur1 Hok2 _ _. rewrite (ro_current _ _ Hok2).
  destruct (found ≫= _) as [[seq g]|] eqn:Eg; [|by apply continues_same].
  assert (message_at seq cur1 = Some g) as Hg.
  { apply bind_Some in Eg as (n & -> & Eg). apply bind_Some in Eg as (g' & Hg' & [= <- <-]). exact Hg'. }
  destruct (negb (g_submitted g) || _) eqn:Ea; [by apply continues_same|].
  apply orb_false_iff in Ea as [_ Ea%negb_false_iff].
  case_bool_decide as Hd.
  - destruct (c_has_sampler _); [by apply continues_same|]. unfold publish_duplicates.
    change c with (c, w.2).1 at 1. counted. destruct (ro_acc _ _ Hok2). split; acc_cbn; assumption.
  - cbv zeta. rewrite publish_event_fst, publish_metric_update_fst. apply continues_activity.
    by apply (record_delivery_ok node_id seq g now (c, w.2)).
Qed.

Lemma none_not_rate_limit : (ROUTING_ERROR_NONE =? RATE_LIMIT_EXCEEDED) = false.
Proof using All. apply Z.eqb_neq. intros He. by apply rate_limit_is_error. Qed.

(** A rate-limit answer reaches the client that submitted the message. *)
Definition well_addressed (node_id : string) (message : FromRadio) (c : Controller) : Prop :=
  ∀ packet d cur origin seq g,
    message = FromPacket packet → p_payload packet = Decoded d → c_current c = Some cur →
    parse_routing (data_payload d) = Some RATE_LIMIT_EXCEEDED →
    dget node_id (c_hardware_ids (config c)) = Some origin →
    messages_by_packet (acc c) !! (origin, request_id d) = Some seq → message_at seq cur = Some g →
    g_source g = node_id.

Lemma handle_routing_ok node_id packet d now w cur :
  run_ok w.1 cur → p_payload packet = Decoded d → well_addressed node_id (FromPacket packet) w.1 →
  continues w.1 cur (handle_routing node_id packet d now w).1.1.
Proof.
  intros Hok Hd Hw. unfold handle_routing. rewrite (ro_current _ _ Hok).
  destruct (dget node_id _) as [origin|] eqn:Eo; [|by apply continues_same].
  destruct (messages_by_packet _ !! _) as [seq|] eqn:Em; [|by apply continues_same].
  destruct (message_at seq cur) as [g|] eqn:Eg; [|by apply continues_same].
  destruct (parse_routing _) as [error|] eqn:Ep; [|by apply continues_same]. cbv zeta.
  destruct (negb _ && negb _) eqn:Et; [by apply continues_same|].
  match goal with |- context [if ?b then record_pretransmission_rejection ?s ?q ?r ?n ?v else ?x] =>
    set (rejected := b) in *; set (w' := if rejected then record_pretransmission_rejection s q r n v else x) end.
  assert (continues w.1 cur w'.1) as Hc.
  { subst w'. destruct rejected eqn:Er; [|by apply continues_same]. unfold rejected in Er.
    apply andb_true_iff in Er as [->%Z.eqb_eq Er%negb_true_iff].
    assert (g_source g = node_id) as <-
      by (apply (Hw packet d cur origin seq g); try done; apply Hok).
    by apply rejection_ok. }
  destruct (error =? ROUTING_ERROR_NONE) eqn:En.
  - assert (w' = w) as Hw'.
    { subst w' rejected. apply Z.eqb_eq in En as ->.
      by rewrite none_not_rate_limit. }
    assert (g_transmitted g = true) as Htr.
    { subst rejected. apply Z.eqb_eq in En as ->.
      rewrite none_not_rate_limit in Et. by apply negb_false_iff in Et. }
    rewrite Hw'. destruct (acknowledgment_origin_ok _ _ _ _ _) as [[]|]; [|by apply continues_same..].
    cbn [fst]. rewrite publish_event_fst. by apply continues_activity, run_ok_acknowledged.
  - destruct (routing_error_name error) as [name|]; [|exact Hc].
    cbn [fst]. rewrite publish_event_fst. apply continues_activity, (continues_bind _ _ w'.1); [done|].
    intros cur1 Hok1 _ _. by apply record_routing_error_ok.
Qed.

Lemma handle_from_radio_ok node_id message now w cur :
  run_ok w.1 cur → well_addressed node_id message w.1 →
  continues w.1 cur (handle_from_radio node_id message now w).1.1.
Proof.
  intros Hok Hw. unfold handle_from_radio. rewrite (ro_current _ _ Hok).
  destruct (negb _); [by apply continues_same|].
  destruct message as [packet|status| |]; [|by apply record_queue_status_ok|by apply continues_same..].
  destruct (p_payload packet) as [d| |] eqn:Ed; [|by apply continues_same..].
  destruct (_ =? _); [by apply handle_text_ok|].
  destruct (_ && _); [by apply handle_routing_ok|by apply continues_same].
Qed.

(** ** Submission *)

Lemma run_ok_sequence c cur :
  run_ok c cur → run_ok (c <| acc ::= λ a, a <| a_sequence := a_sequence a + 1 |> |>) cur.
Proof.
  intros Hok. pose proof (acc_ok_sequence _ _ _ (ro_acc _ _ Hok)) as Ha. destruct Hok. split; try assumption.
  cbn [set_field acc eta_Controller a_sequence eta_Accumulators]. lia.
Qed.

(** The message [_submit] registers under the sequence number it took. *)
Definition registered (m : GeneratedMessage) (hardware_id opp : Z) (run_id : string)
    (a : Accumulators) : Accumulators :=
  a <| generated_count := generated_count a + 1 |>
    <| a_receiver_opportunities := a_receiver_opportunities a + opp |>
    <| messages_by_packet ::= <[(hardware_id, g_packet_id m) := g_sequence m]> |>
    <| messages_by_key ::= <[(run_id, g_sequence m) := g_sequence m]> |>
    <| pending_submissions ::= dset (g_source m, g_packet_id m) (g_sequence m) |>.

Lemma register_message_fst m hardware_id now w cur :
  c_current w.1 = Some cur → c_frozen w.1 = None →
  (register_message m hardware_id now w).1 =
  w.1 <| c_current := Some (cur <| r_messages := r_messages cur ++ [m] |>
             <| r_requested := generated_count (acc w.1) + 1 |>) |>
      <| acc ::= registered m hardware_id (opportunities w.1 cur) (r_run_id cur) |>.
Proof.
  intros Hc Hf. unfold register_message. cbv zeta.
  match goal with |- context [publish_metric_update ?v ?r ?n ?x] =>
    pose proof (publish_metric_update_fst v r n x) as Hp; set (w' := publish_metric_update v r n x) in * end.
  clearbody w'. unfold with_acc at 1. cbn [fst]. rewrite Hp. clear w' Hp.
  destruct w as [[] b]. cbn [fst TrafficState.c_current TrafficState.c_frozen] in Hc, Hf. subst. reflexivity.
Qed.

Lemma run_ok_registered m hardware_id now w cur :
  run_ok w.1 cur → pristine m → g_sequence m = a_sequence (acc w.1) → 1 <= a_sequence (acc w.1) →
  (∀ g, g ∈ r_messages cur → g_sequence g < a_sequence (acc w.1)) →
  (msg_key m ∉ (msg_key <$> r_messages cur)) →
  (g_packet_id m ∈ (used_of (g_source m) (c_packet_ids w.1)).*1) →
  continues w.1 cur (register_message m hardware_id now w).1.
Proof.
  intros Hok Hm Hs H1' Hlt Hk Hu. rewrite (register_message_fst m hardware_id now w cur (ro_current _ _ Hok) (ro_live _ _ Hok)).
  set (cur' := cur <| r_messages := r_messages cur ++ [m] |>
                   <| r_requested := generated_count (acc w.1) + 1 |>).
  exists cur'. split; [|split_and!; try done; cbn [cur' r_messages set_field]; rewrite fmap_app; by eexists].
  pose proof (acc_ok_registered (kind (r_request cur)) (r_messages cur) (acc w.1) m
    (λ t, <[(hardware_id, g_packet_id m) := g_sequence m]> t)
    (λ t, <[(r_run_id cur, g_sequence m) := g_sequence m]> t)
    (a_receiver_opportunities (acc w.1) + opportunities w.1 cur)
    (ro_acc _ _ Hok) Hm Hs H1' Hlt Hk) as Ha.
  destruct Hok. split; try assumption; try reflexivity.
  - change (a_receiver_opportunities (acc w.1) + opportunities w.1 cur =
            zlen (r_messages cur ++ [m]) * opportunities w.1 cur).
    rewrite zlen_app, ro_opportunities0. change (zlen [m]) with 1. lia.
  - change (∀ g, g ∈ r_messages cur ++ [m] → g_packet_id g ∈ (used_of (g_source g) (c_packet_ids w.1)).*1).
    by extended; [apply ro_used0|].
  - change (∀ key seq, <[(hardware_id, g_packet_id m) := g_sequence m]> (messages_by_packet (acc w.1)) !! key
      = Some seq → seq ∈ g_sequence <$> (r_messages cur ++ [m])).
    intros key seq. rewrite fmap_app, elem_of_app, lookup_insert_Some. intros [[_ <-]|[_ Hk']].
    + right. by left.
    + left. by eapply ro_table0.
Qed.

Lemma run_ok_ids c cur ids :
  run_ok c cur → ids_ok ids →
  (∀ s i, i ∈ (used_of s (c_packet_ids c)).*1 → i ∈ (used_of s ids).*1) →
  run_ok (c <| c_packet_ids := ids |>) cur.
Proof. intros [] Hi Hu. split; try assumption. intros g Hg. by apply Hu, ro_used0. Qed.

Lemma note_packet_size_ok packet preset w cur :
  run_ok w.1 cur → continues w.1 cur (note_packet_size packet preset w).1.1.
Proof.
  intros Hok. unfold note_packet_size.
  destruct (mesh_packet_payload_length packet) as [n|e]; [|by apply continues_same].
  destruct (airtime_ms n preset) as [air|e]; [|by apply continues_same]. cbv zeta.
  destruct (maximum_retransmission_delay_ms n preset) as [delay|e]; uncounted.
Qed.

Lemma submit_ok fuel source destination flow g now w w' r cur :
  run_ok w.1 cur → submit fuel source destination flow g now w = Some (w', r) → continues w.1 cur w'.1.
Proof.
  intros Hok. unfold submit. rewrite (ro_current _ _ Hok). cbv zeta.
  set (w1 := with_acc (λ a, a <| a_sequence := a_sequence a + 1 |>) w).
  assert (run_ok w1.1 cur) as Hok1 by apply run_ok_sequence, Hok.
  assert (∀ c2, continues w1.1 cur c2 → continues w.1 cur c2) as Hcont by done.
  destruct (_ <? _); [intros [= <- _]; by apply continues_same|].
  intros (((id & g') & ids) & Hal & H0')%bind_Some.
  destruct (allocate_packet_id_facts _ _ _ _ _ _ _ _ (ro_ids _ _ Hok1) Hal)
    as (Hids & Hfresh & _ & Hused & Hother & _).
  set (w2 := (w1.1 <| c_packet_ids := ids |>, w1.2)) in *.
  assert (run_ok w2.1 cur) as Hok2.
  { apply run_ok_ids; [done|done|]. intros s i Hi. destruct (decide ((s, i) = (source, id))) as [[= -> ->]|Hne].
    - by eapply dget_key.
    - apply dget_is_Some in Hi as [x Hx]. rewrite <-(Hother s i Hne) in Hx. by eapply dget_key. }
  destruct (if decide _ then _ else _) as [to|]; [|injection H0' as <- _; by apply continues_same].
  destruct (dget source _) as [hw|]; [|injection H0' as <- _; by apply continues_same].
  match type of H0' with context [register_message ?x ?y ?z ?t] =>
    set (m := x) in *; set (w3 := register_message m y z t) in * end.
  assert (continues w.1 cur w3.1) as Hc3.
  { apply Hcont. apply (run_ok_registered m hw now w2 cur Hok2); try done.
    - change (1 <= a_sequence (acc w.1) + 1). pose proof (ro_next _ _ Hok). lia.
    - change (∀ g, g ∈ r_messages cur → g_sequence g < a_sequence (acc w.1) + 1).
      intros g1 Hg1. apply (ao_range _ _ _ (ro_acc _ _ Hok)) in Hg1. lia.
    - intros (g1 & Hk & Hg1)%list_elem_of_fmap. injection Hk as E1 E2. apply Hfresh.
      change (used_of source (c_packet_ids w1.1)) with (used_of source (c_packet_ids w.1)).
      rewrite E1, E2. by apply (ro_used _ _ Hok).
    - apply (dget_key _ now), Hused. }
  clearbody w3 m. clearbody w2.
  match type of H0' with context [note_packet_size ?x ?y _] =>
    pose proof (note_packet_size_ok x y w3) as Hn end.
  destruct (note_packet_size _ _ w3) as [w4 [[]|e]];
    injection H0' as <- _; [cbn [fst]; apply continues_activity|];
    (apply (continues_bind _ _ w3.1); [done|]; intros cur3 Hok3 _ _; exact (Hn cur3 Hok3)).
Qed.

(** ** The handler calls of a run *)

(** One call, from any state: the reports of the medium, of the sampler and of the
    gateways, topology changes, and the steps of [_submit] up to and after sending.
    A rate-limit answer arrives at the submitting node; a failed submission is the
    call that registered the message. *)
Inductive run_step (w : Controller * B) : Controller * B → Prop :=
| step_rf transmitter packet air now :
    run_step w (record_rf_transmission transmitter packet air now w).1
| step_drop transmitter packet reason now : run_step w (record_drop transmitter packet reason now w)
| step_failed_receptions node_id total now : run_step w (record_failed_receptions node_id total now w)
| step_duplicates node_id total now : run_step w (record_duplicate_receptions node_id total now w)
| step_topology e link : run_step w (record_topology_change e link w).1
| step_lag lag now : run_step w (set_event_loop_lag lag now w)
| step_radio node_id message now :
    well_addressed node_id message w.1 → run_step w (handle_from_radio node_id message now w).1
| step_submit fuel source destination flow g now w' r :
    submit fuel source destination flow g now w = Some (w', r) → run_step w w'
| step_submit_failed source packet_id seq error now cur g :
    c_current w.1 = Some cur → message_at seq cur = Some g → msg_key g = (source, packet_id) →
    run_step w (submit_failed source packet_id seq error now w)
| step_time_out now : run_step w (finalize_pending_submissions now w).

Lemma run_step_ok w w' cur : run_ok w.1 cur → run_step w w' → continues w.1 cur w'.1.
Proof.
  intros Hok []; eauto using record_rf_transmission_ok, record_drop_ok, record_failed_receptions_ok,
    record_duplicate_receptions_ok, record_topology_change_ok, set_event_loop_lag_ok,
    handle_from_radio_ok, submit_ok.
  - eapply submit_failed_ok; [done| |done]. pose proof (ro_current _ _ Hok). congruence.
  - by apply finalize_pending_ok.
Qed.

Lemma run_steps_ok w w' cur : run_ok w.1 cur → rtc run_step w w' → continues w.1 cur w'.1.
Proof.
  intros Hok Hs. revert cur Hok. induction Hs as [w|w1 w2 w3 H12 H23 IH]; intros cur Hok.
  - by apply continues_same.
  - apply (continues_bind _ _ w2.1); [by apply run_step_ok|]. intros cur2 Hok2 _ _. by apply IH.
Qed.
End handlers.

(** ** What the accounting amounts to *)

Lemma zcount_partition kd ms a :
  acc_ok kd ms a → zlen ms = zcount g_submitted ms + zcount has_error ms + zcount unresolved ms.
Proof.
  intros Hok. assert (∀ g, g ∈ ms → g_submitted g = true → has_error g = false) as Hx by apply Hok.
  clear Hok. induction ms as [|g ms IH]; [done|].
  change (g :: ms) with ([g] ++ ms). rewrite zlen_app, !zcount_app, !zcount_singleton.
  rewrite IH by (intros; apply Hx; [by right|done]). change (zlen [g]) with 1.
  specialize (Hx g ltac:(by left)). unfold unresolved.
  destruct (g_submitted g), (has_error g); cbn [negb andb]; try lia; by specialize (Hx eq_refl).
Qed.

Lemma pending_count kd ms a :
  acc_ok kd ms a → zlen (pending_submissions a) = zcount unresolved ms.
Proof.
  intros Hok. rewrite zcount_filter.
  assert ((pending_submissions a).*1 ≡ₚ msg_key <$> filter (λ g, unresolved g = true) ms) as Hp.
  { apply NoDup_Permutation.
    - apply Hok.
    - eapply sublist_NoDup; [apply (ao_keys _ _ _ Hok)|]. apply fmap_sublist, sublist_filter.
    - intros k. split.
      + intros [seq Hk]%dget_is_Some. apply (ao_pending _ _ _ Hok) in Hk as (g & Hg & _ & Hk & Hu).
        apply list_elem_of_fmap. exists g. split; [done|]. by apply list_elem_of_filter.
      + intros (g & -> & [Hu Hg]%list_elem_of_filter)%list_elem_of_fmap. eapply dget_key.
        apply (ao_pending _ _ _ Hok). by exists g. }
  apply Permutation_length in Hp. rewrite !length_fmap in Hp. unfold zlen. by rewrite Hp.
Qed.

(** The books balance: the counters are the numbers of messages, every message is
    pending, submitted or failed, and each later outcome implies the earlier. *)
Definition balanced (c : Controller) (cur : TrafficRunResult) : Prop :=
  let a := acc c in let ms := r_messages cur in
  generated_count a = zlen ms ∧
  generated_count a = submitted_count a + submission_failed_count a + zlen (pending_submissions a) ∧
  submitted_count a = zcount g_submitted ms ∧ submission_failed_count a = zcount has_error ms ∧
  r_requested cur = generated_count a ∧ r_submitted cur = submitted_count a ∧
  r_submission_failed cur = submission_failed_count a ∧
  a_acknowledgments a <= transmitted_count a <= submitted_count a ∧
  a_unique_deliveries a = zcount has_delivery ms ∧
  a_receiver_deliveries a = zsum ((λ g, zlen (g_delivered_to g)) <$> ms) ∧
  NoDup (g_sequence <$> ms) ∧ NoDup (msg_key <$> ms) ∧
  (∀ g, g ∈ ms → NoDup (g_delivered_to g) ∧
    ∀ n, n ∈ g_delivered_to g → applicable_receiver (kind (r_request cur)) n g = true) ∧
  a_rf_transmission_count a = zlen (a_rf_transmitters a) ∧
  a_observed_airtime_ms a = zsum (a_airtimes_ms a).

Lemma run_ok_balanced c cur : run_ok c cur → balanced c cur.
Proof.
  intros Hok. pose proof (ro_acc _ _ Hok) as Ha.
  pose proof (zcount_partition _ _ _ Ha) as Hp. pose proof (pending_count _ _ _ Ha) as Hl.
  pose proof (zcount_le g_acknowledged g_transmitted (r_messages cur) (ao_acks_trans _ _ _ Ha)) as L1.
  pose proof (zcount_le g_transmitted g_submitted (r_messages cur) (ao_transmitted_sub _ _ _ Ha)) as L2.
  rewrite <-(ao_acks _ _ _ Ha), <-(ao_transmitted _ _ _ Ha) in L1.
  rewrite <-(ao_transmitted _ _ _ Ha), <-(ao_submitted _ _ _ Ha) in L2.
  unfold balanced. cbv zeta. split_and!; try apply Ha; try apply Hok; try lia.
  rewrite (ao_generated _ _ _ Ha), (ao_submitted _ _ _ Ha), (ao_failed _ _ _ Ha). lia.
Qed.
