(* ===== verification/TrafficLifecycle.v ===== *)
(** * The life of a run (src/backend/app/traffic/controller.py)

    Starting a run, the live and final metrics, draining, final sampling,
    finishing with persistence, stopping and failing. What other code does at an
    [await] enters as an argument: the outcome of a bounded wait, the sample taken,
    the state the run's task leaves when cancelled, the operations that fail on
    disk. *)
From Stdlib Require Import Floats.SpecFloat.
From S2P Require Import Prelude PyDict PyFloat Scenario Mesh Airtime Events Calculations.
From S2P Require Import TrafficRequest Identifier PacketIds TrafficState TrafficHandlers.

(** ** Samples of the firmware's cumulative counters *)

Record FailedReceptionSample := mkSample {
  fs_totals : dict string Z;
  fs_duplicate_totals : dict string Z;
  fs_missing_nodes : list string }.

(** A sample, or a bare mapping of totals. *)
Inductive sample_source :=
| SSample (s : FailedReceptionSample)
| STotals (totals : dict string Z).

Definition normalize_failed_reception_sample (s : option sample_source) : FailedReceptionSample :=
  match s with
  | None => mkSample [] [] []
  | Some (SSample s) => s
  | Some (STotals totals) => mkSample totals [] []
  end.

(** [d.update(items)] on a map. *)
Definition update_all (items : dict string Z) (m : gmap string Z) : gmap string Z :=
  foldl (λ m kv, <[kv.1 := kv.2]> m) m items.

(** [sorted] of a set. *)
Definition sorted_set (l : list string) : list string := str_sorted (remove_dups l).

(** ** Metrics *)

Definition expected_acknowledgments (c : Controller) : Z :=
  match c_current c with
  | Some cur =>
    match kind (r_request cur) with
    | DIRECT_TEXT => if acknowledgment_requested (r_request cur) then submitted_count (acc c) else 0
    | BROADCAST_TEXT => 0
    end
  | None => 0
  end.

Definition live_metrics_input (c : Controller) : metrics_input :=
  let a := acc c in
  mkMetricsInput (generated_count a) ∅ (Some (a_unique_deliveries a)) (a_acknowledgments a)
    (expected_acknowledgments c) (live_latencies_ms a) [] (a_relay_transmissions a) (a_duplicates a)
    (a_failed_receptions a) [] [] (a_event_loop_lag_ms a) (Some (a_receiver_deliveries a))
    (Some (a_receiver_opportunities a)) (Some ∅) (Some (a_rf_transmission_count a))
    (Some (a_observed_airtime_ms a)) (Some (a_per_node_transmit_counts a))
    (Some (a_per_node_airtime_ms a)) (Some (a_drop_counts a)).

Definition live_metrics_snapshot (c : Controller) : res MetricsSnapshot :=
  calculate_metrics (live_metrics_input c).

(** [_live_metrics] through [_summary_metrics] *)
Definition live_metrics (c : Controller) : res Metrics := snapshot_base <$> live_metrics_snapshot c.

Definition counts_as_delivered (kd : TrafficKind) (g : GeneratedMessage) : bool :=
  match kd with
  | DIRECT_TEXT => bool_decide (g_destination g ∈ g_delivered_to g)
  | BROADCAST_TEXT => existsb (λ n, negb (bool_decide (n = g_source g))) (g_delivered_to g)
  end.

Definition final_delivered_ids (c : Controller) : gset (string * Z) :=
  match c_current c with
  | Some cur =>
    list_to_set ((λ g, (r_run_id cur, g_sequence g)) <$>
      filter (λ g, counts_as_delivered (kind (r_request cur)) g = true) (r_messages cur))
  | None => ∅
  end.

Definition final_receivers (c : Controller) : counter :=
  match c_current c with
  | Some cur =>
    match kind (r_request cur) with
    | BROADCAST_TEXT =>
      foldl (λ m g, <[pretty (g_sequence g) :=
          Z.of_nat (size (list_to_set (C := gset string)
            (filter (λ n, n ≠ g_source g) (g_delivered_to g))))]> m) ∅ (r_messages cur)
    | DIRECT_TEXT => ∅
    end
  | None => ∅
  end.

Definition final_metrics_input (c : Controller) : metrics_input :=
  let a := acc c in
  mkMetricsInput (generated_count a) (final_delivered_ids c) None (a_acknowledgments a)
    (expected_acknowledgments c) (a_latencies_ms a) (a_rf_transmitters a) (a_relay_transmissions a)
    (a_duplicates a) (a_failed_receptions a) (a_drop_reasons a) (a_airtimes_ms a)
    (a_event_loop_lag_ms a) (Some (a_receiver_deliveries a)) (Some (a_receiver_opportunities a))
    (Some (final_receivers c)) None None None None None.

Definition final_metrics (c : Controller) : res MetricsSnapshot :=
  calculate_metrics (final_metrics_input c).

(** ** Starting *)

(** [_reset_accumulators]; retiring the packet ids can raise first. *)
Definition reset_accumulators (now : float) (c : Controller) : Controller * res unit :=
  let (ids, r) := retire_packet_ids now (c_packet_ids c) in
  let c := c <| c_packet_ids := ids |> in
  match r with
  | Raise e => (c, Raise e)
  | Ok _ => (c <| finalization_wait_timed_out := false |> <| acc := fresh_accumulators now |>, Ok tt)
  end.

Definition missing_at_start (baseline : option sample_source) (snapshot : Scenario) (c : Controller)
    : list string :=
  let sample := normalize_failed_reception_sample baseline in
  let expected := node_ids snapshot in
  sorted_set (fs_missing_nodes sample ++
    if negb (c_has_sampler (config c)) then expected
    else match baseline with
         | None => expected
         | Some _ => filter (λ n, n ∉ (fs_totals sample).*1) expected
         end).

Definition empty_result (build : BuildMetadata) (run_id : string) (request : TrafficRunRequest)
    (snapshot : Scenario) (missing : list string) (metrics : MetricsSnapshot) : TrafficRunResult :=
  mkResult build run_id RUNNING request snapshot false (req_seed request) 0 0 0 0 0
    (negb (nonempty missing)) missing [] [] metrics None.

Definition payload_too_small (size marker_size sequence : Z) : exn :=
  ValueError ("payloadBytes " +:+ pretty size +:+ " is smaller than encoded traffic identifier "
    +:+ pretty marker_size +:+ " for sequence " +:+ pretty sequence).

(** ** Persisting a result *)

(** The JSON texts of a result and of its summary. *)
Class ResultText (summary : Type) := {
  result_json : TrafficRunResult → string;
  summary_json : summary → string }.

(** What the disk does: step [i] of a save fails with an error, a failing write
    leaving some text behind, and some files cannot be removed. *)
Record Disk := mkDisk {
  disk_fault : nat → option (string * option string);
  unlink_fails : string → bool }.

Abbreviation files := (gmap string string).

Definition result_path (run_id : string) : string := run_id +:+ ".json".
Definition summary_path (run_id : string) : string := run_id +:+ ".summary.json".
Definition result_temporary (run_id : string) : string := run_id +:+ ".tmp".
Definition summary_temporary (run_id : string) : string := run_id +:+ ".summary.tmp".

Section disk.
Context (disk : Disk).

Definition disk_write (step : nat) (path text : string) (fs : files) : files * res unit :=
  match disk_fault disk step with
  | None => (<[path := text]> fs, Ok tt)
  | Some (msg, partial) =>
    (match partial with Some text => <[path := text]> fs | None => fs end, Raise (OSError msg))
  end.

Definition disk_replace (step : nat) (source destination : string) (fs : files) : files * res unit :=
  match disk_fault disk step, fs !! source with
  | None, Some text => (<[destination := text]> (delete source fs), Ok tt)
  | None, None => (fs, Raise (OSError "No such file or directory"))
  | Some (msg, _), _ => (fs, Raise (OSError msg))
  end.

Definition disk_mkdir (step : nat) (fs : files) : files * res unit :=
  match disk_fault disk step with
  | None => (fs, Ok tt)
  | Some (msg, _) => (fs, Raise (OSError msg))
  end.

Definition unlink_all (paths : list string) (fs : files) : files :=
  foldl (λ fs p, if unlink_fails disk p then fs else delete p fs) fs paths.

(** The next operation, unless the last one raised. *)
Definition and_then (m : files * res unit) (f : files → files * res unit) : files * res unit :=
  match m with (fs, Ok _) => f fs | (fs, Raise e) => (fs, Raise e) end.

Definition save_pair (run_id result_text summary_text : string) (fs : files) : files * res unit :=
  let m := disk_mkdir 0 fs in
  let m := and_then m (disk_write 1 (result_temporary run_id) result_text) in
  let m := and_then m (disk_write 2 (summary_temporary run_id) summary_text) in
  let m := and_then m (disk_replace 3 (result_temporary run_id) (result_path run_id)) in
  let m := and_then m (disk_replace 4 (summary_temporary run_id) (summary_path run_id)) in
  match m with
  | (fs, Ok _) => (fs, Ok tt)
  | (fs, Raise e) =>
    (unlink_all [result_temporary run_id; summary_temporary run_id; result_path run_id;
                 summary_path run_id] fs, Raise e)
  end.
End disk.

Section lifecycle.
Context `{Meshtastic} `{PyText} `{PyRandom} {B : Type} `{EventSink B}.
Implicit Types (w : Controller * B) (c : Controller).

(** [start]; [run_id] is the fresh UUID. *)
Definition start (request : TrafficRunRequest) (scenario_snapshot : option Scenario)
    (baseline : option sample_source) (run_id : string) (now : float) (w : Controller * B)
    : (Controller * B) * res string :=
  let (c, b) := w in
  if task_active c then (w, Raise (RuntimeError "a traffic run is already active"))
  else
  let snapshot := default (c_scenario (config c)) scenario_snapshot in
  match validate_request_nodes request snapshot with
  | Raise e => (w, Raise e)
  | Ok _ =>
    let max_sequence := maximum_sequence request in
    if MAX_TRAFFIC_MESSAGES_PER_RUN <? max_sequence then
      (w, Raise (ValueError ("traffic run cannot schedule more than "
                               +:+ pretty MAX_TRAFFIC_MESSAGES_PER_RUN +:+ " messages")))
    else
    let marker_size := zlen (marker run_id max_sequence) in
    if payload_bytes request <? marker_size then
      (w, Raise (payload_too_small (payload_bytes request) marker_size max_sequence))
    else
    match reset_accumulators now c with
    | (c, Raise e) => ((c, b), Raise e)
    | (c, Ok _) =>
      let sample := normalize_failed_reception_sample baseline in
      let c := c <| c_event_stream_id := Some (sink_stream_id b) |>
                 <| acc ::= (λ a, a <| latest_failed_receptions ::= update_all (fs_totals sample) |>
                                    <| latest_duplicate_receptions ::= update_all (fs_duplicate_totals sample) |>) |>
                 <| run_scenario := snapshot |> in
      match live_metrics_snapshot c with
      | Raise e => ((c, b), Raise e)
      | Ok metrics =>
        ((c <| c_current := Some (empty_result (c_build (config c)) run_id request snapshot
                 (missing_at_start baseline snapshot c) metrics) |>
            <| c_frozen := None |> <| c_state := RUNNING |> <| c_phase := GENERATING |>
            <| task_active := true |>, b), Ok run_id)
      end
    end
  end.

(** ** Status *)

Definition message_unresolved (ack : bool) (terminal : gset Z) (g : GeneratedMessage) : bool :=
  negb (bool_decide (g_error g ≠ None)) && negb (bool_decide (g_sequence g ∈ terminal)) &&
  (negb (g_submitted g) || negb (bool_decide (g_destination g ∈ g_delivered_to g)) ||
   (ack && negb (g_acknowledged g))).

Definition unresolved_direct_messages (c : Controller) : Z :=
  match c_current c with
  | Some cur =>
    match kind (r_request cur) with
    | DIRECT_TEXT =>
      zlen (filter (λ g, message_unresolved (acknowledgment_requested (r_request cur))
                           (routing_terminal_sequences (acc c)) g = true) (r_messages cur))
    | BROADCAST_TEXT => 0
    end
  | None => 0
  end.

Definition drain_deadline_seconds_remaining (now : float) (c : Controller) : option float :=
  (λ d, fmax fzero (fsub d now)) <$> drain_deadline c.

Record TrafficRunSummary := mkSummary {
  s_build : BuildMetadata;
  s_run_id : string;
  s_state : TrafficRunState;
  s_phase : TrafficRunPhase;
  s_request : TrafficRunRequest;
  s_scenario : Scenario;
  s_finished : bool;
  s_random_seed : Z;
  s_requested : Z;
  s_submitted : Z;
  s_submission_failed : Z;
  s_transmitted : Z;
  s_delivered : Z;
  s_complete : bool;
  s_missing_nodes : list string;
  s_pending_firmware_admissions : Z;
  s_unresolved_direct_messages : Z;
  s_drain_deadline_remaining : option float;
  s_metrics : Metrics;
  s_failure : option string }.

(** The defaults of the fields a result lacks are those of a terminal run. *)
Definition summarize_result (r : TrafficRunResult) : TrafficRunSummary :=
  mkSummary (r_build r) (r_run_id r) (r_state r) TERMINAL (r_request r) (r_scenario r) (r_finished r)
    (r_random_seed r) (r_requested r) (r_submitted r) (r_submission_failed r) (r_transmitted r)
    (r_delivered r) (r_complete r) (r_missing_nodes r) 0 0 None (snapshot_base (r_metrics r))
    (r_failure r).

Definition summary (now : float) (c : Controller) : res (option TrafficRunSummary) :=
  match c_current c, c_frozen c with
  | None, _ => Ok None
  | Some _, Some frozen => Ok (Some (summarize_result frozen))
  | Some r, None =>
    metrics ← live_metrics c;
    let a := acc c in
    Ok (Some (mkSummary (r_build r) (r_run_id r) (c_state c) (c_phase c) (r_request r) (r_scenario r)
      (r_finished r) (r_random_seed r) (generated_count a) (submitted_count a)
      (submission_failed_count a) (transmitted_count a) (a_unique_deliveries a) (r_complete r)
      (r_missing_nodes r) (zlen (pending_submissions a)) (unresolved_direct_messages c)
      (drain_deadline_seconds_remaining now c) metrics (r_failure r)))
  end.

(** [result] returns a deep copy; [snapshot] is the same. *)
Definition result (c : Controller) : option TrafficRunResult :=
  match c_frozen c with Some r => Some r | None => c_current c end.
Definition result_is_finalized (run_id : string) (c : Controller) : bool :=
  match c_frozen c with Some r => bool_decide (r_run_id r = run_id) | None => false end.

(** ** Draining *)

Definition drain_windows (c : Controller) : float * float :=
  match c_current c with
  | None => (fzero, fzero)
  | Some cur =>
    let airtime_s := flit (Z.max (maximum_packet_airtime_ms (acc c)) 1) 1000 in
    let delay_s := flit (Z.max (Z.max (a_maximum_retransmission_delay_ms (acc c))
                                  (maximum_packet_airtime_ms (acc c))) 1) 1000 in
    let quiet := fmax (of_Z 3) delay_s in
    let hops := hop_limit (rf (run_scenario c)) in
    let origin_attempts :=
      match kind (r_request cur) with
      | DIRECT_TEXT => if acknowledgment_requested (r_request cur) then RELIABLE_UNICAST_ATTEMPTS else 1
      | BROADCAST_TEXT => 1
      end in
    let intermediate := if 0 <? hops then INTERMEDIATE_TRANSMISSION_ATTEMPTS else 1 in
    let deadline := fadd (fadd (fmul (fmul delay_s (of_Z (hops + 1)))
                                  (of_Z (Z.max origin_attempts intermediate))) airtime_s) quiet in
    (quiet, fmin MAX_DRAIN_SECONDS (fmax quiet deadline))
  end.

Inductive drain_decision := Settled | Expired | WaitFor (seconds : float).

(** One turn of the [while True] loop, the clock reading [now]. *)
Definition drain_turn (quiet deadline now : float) (c : Controller) : drain_decision :=
  let quiet_remaining := fsub (fadd (last_activity_monotonic (acc c)) quiet) now in
  let resolved :=
    match c_current c with
    | Some cur => match kind (r_request cur) with
                  | BROADCAST_TEXT => true
                  | DIRECT_TEXT => unresolved_direct_messages c =? 0
                  end
    | None => true
    end in
  let ready := negb (nonempty (pending_submissions (acc c))) && resolved in
  if ready && fle quiet_remaining fzero then Settled
  else
    let deadline_remaining := fsub deadline now in
    if fle deadline_remaining fzero then Expired
    else WaitFor (if ready then fmin deadline_remaining (fmax quiet_remaining (flit 1 1000))
                  else deadline_remaining).

(** The loop over its turns: what happens before each (the activity while
    waiting) and its clock reading. [None]: the turns do not suffice. *)
Fixpoint drain_loop (quiet deadline : float) (turns : list ((Controller * B → Controller * B) * float))
    (w : Controller * B) : option (Controller * B) :=
  match turns with
  | [] => None
  | (meanwhile, now) :: turns =>
    let w := meanwhile w in
    match drain_turn quiet deadline now w.1 with
    | Settled => Some w
    | Expired => Some (finalize_pending_submissions now w)
    | WaitFor _ => drain_loop quiet deadline turns (with_acc (λ a, a <| activity_changed := false |>) w)
    end
  end.

Definition set_deadline (d : option float) (w : Controller * B) : Controller * B :=
  (w.1 <| drain_deadline := d |>, w.2).

Definition drain (now : float) (turns : list ((Controller * B → Controller * B) * float))
    (w : Controller * B) : option (Controller * B) :=
  match c_settle_seconds (config w.1) with
  | Some settle =>
    match turns with
    | (meanwhile, later) :: _ =>
      Some (set_deadline None (finalize_pending_submissions later
        (meanwhile (set_deadline (Some (fadd now settle)) w))))
    | [] => None
    end
  | None =>
    match c_current w.1 with
    | None => Some w
    | Some _ =>
      let (quiet, seconds) := drain_windows w.1 in
      let deadline := fadd now seconds in
      set_deadline None <$> drain_loop quiet deadline turns (set_deadline (Some deadline) w)
    end
  end.

(** ** Final sampling *)

(** The sampler's result, or that it raised. *)
Definition sample_final_failed_receptions (sampled : res sample_source) (now : float)
    (w : Controller * B) : Controller * B :=
  if negb (c_has_sampler (config w.1)) then w
  else
    let sample := match sampled with
                  | Ok s => normalize_failed_reception_sample (Some s)
                  | Raise _ => mkSample [] [] (node_ids (run_scenario w.1))
                  end in
    match c_current w.1 with
    | None => w
    | Some cur =>
      let missing := r_missing_nodes cur ++ fs_missing_nodes sample in
      let '(missing, w) := foldl (λ '(missing, w) '(node_id, total),
          if bool_decide (is_Some (latest_failed_receptions (acc w.1) !! node_id))
          then (missing, record_failed_receptions node_id total now w)
          else (missing ++ [node_id], w)) (missing, w) (fs_totals sample) in
      let w := foldl (λ w '(node_id, total),
          if bool_decide (is_Some (latest_duplicate_receptions (acc w.1) !! node_id))
          then record_duplicate_receptions node_id total now w else w) w (fs_duplicate_totals sample) in
      let missing := sorted_set (missing ++
        filter (λ n, n ∉ (fs_totals sample).*1) (node_ids (run_scenario w.1))) in
      with_current (λ cur, cur <| r_missing_nodes := missing |>
                               <| r_complete := negb (nonempty missing) |>) w
    end.

(** ** Finishing *)

Definition optional_float (x : option float) : metric_value :=
  match x with Some x => MFloat x | None => MNone end.

Definition summary_values (m : Metrics) : dict string metric_value :=
  [("generatedApplicationMessages", MInt (m_generated_application_messages m));
   ("uniqueApplicationMessagesDelivered", MInt (m_unique_application_messages_delivered m));
   ("deliveryRatio", optional_float (m_delivery_ratio m));
   ("receiverDeliveries", MInt (m_receiver_deliveries m));
   ("receiverDeliveryRatio", optional_float (m_receiver_delivery_ratio m));
   ("acknowledgmentSuccessRatio", optional_float (m_acknowledgment_success_ratio m));
   ("medianLatencyMs", optional_float (m_median_latency_ms m));
   ("p95LatencyMs", optional_float (m_p95_latency_ms m));
   ("p99LatencyMs", optional_float (m_p99_latency_ms m));
   ("rfTransmissions", MInt (m_rf_transmissions m));
   ("rfTransmissionsPerDelivery", optional_float (m_rf_transmissions_per_delivery m));
   ("relayTransmissions", MInt (m_relay_transmissions m));
   ("duplicateReceptions", MInt (m_duplicate_receptions m));
   ("failedReceptions", MInt (m_failed_receptions m));
   ("dropsByReason", MCounts (m_drops_by_reason m));
   ("observedAirtimeMs", MInt (m_observed_airtime_ms m));
   ("perNodeTransmitCounts", MCounts (m_per_node_transmit_counts m));
   ("perNodeAirtimeMs", MCounts (m_per_node_airtime_ms m));
   ("eventLoopLagMs", optional_float (m_event_loop_lag_ms m))]%string.

(** [_freeze_and_persist] *)
Definition freeze_and_persist `{ResultText TrafficRunSummary} (disk : Disk) (r : TrafficRunResult)
    (fs : files) : files * res TrafficRunResult :=
  match save_pair disk (r_run_id r) (result_json r) (summary_json (summarize_result r)) fs with
  | (fs, Ok _) => (fs, Ok r)
  | (fs, Raise e) => (fs, Raise e)
  end.

Definition persistence_failed (e : exn) (r : TrafficRunResult) : TrafficRunResult :=
  let failure := "result persistence failed: " +:+ exn_text e in
  r <| r_state := FAILED |>
    <| r_failure := Some match r_failure r with
                         | Some (String _ _ as f) => f +:+ "; " +:+ failure
                         | _ => failure
                         end |>.

(** The wait for another finalization: [meanwhile] is what ran until it was done,
    [None] that the wait timed out. *)
Definition wait_for_active_finalization (meanwhile : option (Controller * B → Controller * B))
    (w : Controller * B) : (Controller * B) * bool :=
  if finalization_done w.1 then (w, true)
  else if finalization_wait_timed_out w.1 then (w, false)
  else match meanwhile with
       | Some f => (f w, true)
       | None => ((w.1 <| finalization_wait_timed_out := true |>, w.2), false)
       end.

Definition terminal_result (state : TrafficRunState) (metrics : MetricsSnapshot) (a : Accumulators)
    (r : TrafficRunResult) : TrafficRunResult :=
  r <| r_state := state |> <| r_finished := true |> <| r_requested := generated_count a |>
    <| r_submitted := submitted_count a |> <| r_submission_failed := submission_failed_count a |>
    <| r_transmitted := transmitted_count a |> <| r_delivered := a_unique_deliveries a |>
    <| r_metrics := metrics |>.

(** From clearing the finalization event on. Reports arriving at the two
    [await]s find the phase FINALIZING and change nothing. *)
Definition finalize `{ResultText TrafficRunSummary} (state : TrafficRunState) (disk : Disk)
    (now : float) (w : Controller * B) (fs : files) : (Controller * B) * files * res bool :=
  let w := (w.1 <| finalization_done := false |> <| c_phase := FINALIZING |>, w.2) in
  let w := finalize_pending_submissions now w in
  let done w := (w.1 <| finalization_done := true |>, w.2) in
  match c_current w.1 with
  | None => (done w, fs, Ok true)
  | Some current =>
    match final_metrics w.1 with
    | Raise e => (done w, fs, Raise e)
    | Ok metrics =>
      let w := with_acc (λ a, a <| a_metrics := Some metrics |>) w in
      let terminal := terminal_result state metrics (acc w.1) current in
      let w := publish_metric_update (summary_values (snapshot_base metrics)) "snapshot" now w in
      let (fs, saved) := freeze_and_persist disk terminal fs in
      let frozen := match saved with Ok r => r | Raise e => persistence_failed e terminal end in
      (done (w.1 <| c_frozen := Some frozen |> <| c_current := Some frozen |>
                 <| c_state := r_state frozen |> <| c_phase := TERMINAL |>, w.2), fs, Ok true)
    end
  end.

Definition finish `{ResultText TrafficRunSummary} (state : TrafficRunState)
    (meanwhile : option (Controller * B → Controller * B)) (disk : Disk) (now : float)
    (w : Controller * B) (fs : files) : (Controller * B) * files * res bool :=
  match c_current w.1, c_frozen w.1 with
  | Some _, None =>
    match wait_for_active_finalization meanwhile w with
    | (w, false) => (w, fs, Ok false)
    | (w, true) => finalize state disk now w fs
    end
  | _, _ => (w, fs, Ok true)
  end.

(** ** Stopping and failing *)

(** What happens at the awaits of [stop] and [fail]. *)
Record StopEnv := mkStopEnv {
  se_wait : option (Controller * B → Controller * B);
  se_cancelled : Controller * B → Controller * B;
  se_sampled : res sample_source;
  se_sampling : Controller * B → Controller * B;
  se_finish_wait : option (Controller * B → Controller * B);
  se_disk : Disk;
  se_now : float }.

(** The run task observes its cancellation; afterwards it is done. *)
Definition cancel_run_task (env : StopEnv) (w : Controller * B) : Controller * B :=
  if task_active w.1 then
    let w := se_cancelled env w in (w.1 <| task_active := false |>, w.2)
  else w.

Definition final_sampling (env : StopEnv) (w : Controller * B) : Controller * B :=
  if c_has_sampler (config w.1)
  then sample_final_failed_receptions (se_sampled env) (se_now env) (se_sampling env w)
  else w.

Definition finish_unless_frozen `{ResultText TrafficRunSummary} (state : TrafficRunState)
    (env : StopEnv) (w : Controller * B) (fs : files) : (Controller * B) * files * res bool :=
  match c_frozen w.1 with
  | None => finish state (se_finish_wait env) (se_disk env) (se_now env) w fs
  | Some _ => (w, fs, Ok true)
  end.

Definition stop `{ResultText TrafficRunSummary} (env : StopEnv) (w : Controller * B) (fs : files)
    : (Controller * B) * files * res bool :=
  match c_frozen w.1 with
  | Some _ => (w, fs, Ok true)
  | None =>
    match wait_for_active_finalization (se_wait env) w with
    | (w, false) => (w, fs, Ok false)
    | (w, true) =>
      if decide (c_state w.1 = FAILED) then
        finish_unless_frozen FAILED env (final_sampling env (cancel_run_task env w)) fs
      else if negb (task_active w.1) then (w, fs, Ok true)
      else
        let w := cancel_run_task env (w.1 <| c_state := STOPPING |>, w.2) in
        let w := final_sampling env (finalize_pending_submissions (se_now env) w) in
        finish_unless_frozen (if decide (c_state w.1 = FAILED) then FAILED else CANCELLED) env w fs
    end
  end.

Definition fail `{ResultText TrafficRunSummary} (reason : string) (env : StopEnv)
    (w : Controller * B) (fs : files) : (Controller * B) * files * res bool :=
  match wait_for_active_finalization (se_wait env) w with
  | (w, false) => (w, fs, Ok false)
  | (w, true) =>
    match c_current w.1, c_state w.1 with
    | Some _, (RUNNING | STOPPING | FAILED) =>
      let w := with_current (λ cur, cur <| r_failure := Some reason |>)
                 (w.1 <| c_state := STOPPING |>, w.2) in
      let w := cancel_run_task env w in
      let w := final_sampling env (finalize_pending_submissions (se_now env) w) in
      finish_unless_frozen FAILED env w fs
    | _, _ => (w, fs, Ok true)
    end
  end.
End lifecycle.
