(* ===== verification/RunTheorems.v ===== *)
(** * What a run promises

    From [start] to the frozen result: the accounting along any sequence of
    handler calls, the metrics, finishing, persistence, stopping. *)
From Stdlib Require Import Floats.SpecFloat.
From S2P Require Import Prelude PyDict PyFloat Scenario Mesh Airtime Events Calculations.
From S2P Require Import TrafficRequest Identifier PacketIds TrafficState TrafficHandlers.
From S2P Require Import RunInvariant RunAccounting TrafficLifecycle.

#[local] Opaque count_add counter_of airtime_by_transmitter zcount drop take.

Lemma string_app_nil s : s +:+ EmptyString = s.
Proof. induction s as [|c s IH]; [done|]. change (String c (s +:+ EmptyString) = String c s). by rewrite IH. Qed.

(** ** Metrics of an accounted run *)

Lemma percentile_total values k m :
  k ∈ metric_percentages → 1 <= m → zlen values <= SAMPLE_BOUND →
  is_ok (percentile_ordered (fsorted values) (proportion_of k) m) = true.
Proof.
  intros Hk Hm Hl. rewrite <-percentile_sorts.
  destruct (percentile_value values k m Hk Hm Hl) as [-> Hs].
  destruct (zlen values <? m) eqn:E; [done|]. apply Z.ltb_ge in E.
  destruct (Hs E) as [[low Hlow] _]. rewrite Hlow.
  destruct (fsorted values !! Z.to_nat (_ + 1)); reflexivity.
Qed.

Lemma calculate_metrics_total i air :
  zlen (latencies_ms i) <= SAMPLE_BOUND →
  match per_node_airtime_ms i with
  | None => airtime_by_transmitter (rf_transmitters i) (airtimes_ms i) ∅ | Some c => Ok c end = Ok air →
  is_ok (calculate_metrics i) = true.
Proof.
  intros Hl Ha. unfold calculate_metrics. cbn zeta. rewrite Ha. cbn [mbind res_bind].
  destruct (is_ok_inv _ (percentile_total (latencies_ms i) 50 1 ltac:(vm_compute; left) ltac:(lia) Hl)) as [x1 E1].
  destruct (is_ok_inv _ (percentile_total (latencies_ms i) 95 20 ltac:(vm_compute; right; left) ltac:(lia) Hl)) as [x2 E2].
  destruct (is_ok_inv _ (percentile_total (latencies_ms i) 99 100 ltac:(vm_compute; right; right; left) ltac:(lia) Hl)) as [x3 E3].
  change (proportion_of 50) with (flit 5 10) in E1. change (proportion_of 95) with (flit 95 100) in E2.
  change (proportion_of 99) with (flit 99 100) in E3. rewrite E1, E2, E3.
  repeat match goal with |- context [ratio ?a ?b] =>
    destruct (is_ok_inv _ (ratio_ok a b)) as [? ->]; cbn [mbind res_bind] end. done.
Qed.

(** The metrics depend on an argument only through the value it stands for. *)
Lemma calculate_metrics_ext i j air :
  generated i = generated j →
  default (Z.of_nat (size (delivered_ids i))) (delivered_count i) =
    default (Z.of_nat (size (delivered_ids j))) (delivered_count j) →
  acknowledged i = acknowledged j → acknowledgment_expected i = acknowledgment_expected j →
  latencies_ms i = latencies_ms j →
  default (zlen (rf_transmitters i)) (rf_transmission_count i) =
    default (zlen (rf_transmitters j)) (rf_transmission_count j) →
  relay_transmissions i = relay_transmissions j → duplicate_receptions i = duplicate_receptions j →
  failed_receptions i = failed_receptions j →
  default (counter_of (drop_reasons i)) (drops_by_reason i) =
    default (counter_of (drop_reasons j)) (drops_by_reason j) →
  default (zsum (airtimes_ms i)) (observed_airtime_ms i) =
    default (zsum (airtimes_ms j)) (observed_airtime_ms j) →
  default (counter_of (rf_transmitters i)) (per_node_transmit_counts i) =
    default (counter_of (rf_transmitters j)) (per_node_transmit_counts j) →
  match per_node_airtime_ms i with
  | None => airtime_by_transmitter (rf_transmitters i) (airtimes_ms i) ∅ | Some c => Ok c end = Ok air →
  match per_node_airtime_ms j with
  | None => airtime_by_transmitter (rf_transmitters j) (airtimes_ms j) ∅ | Some c => Ok c end = Ok air →
  event_loop_lag_ms i = event_loop_lag_ms j →
  receiver_deliveries i = receiver_deliveries j → receiver_deliveries j ≠ None →
  receiver_delivery_opportunities i = receiver_delivery_opportunities j →
  snapshot_base <$> calculate_metrics i = snapshot_base <$> calculate_metrics j.
Proof.
  intros E1 E2 E3 E4 E5 E6 E7 E8 E9 E10 E11 E12 E13 E14 E15 E16 Hn E17.
  unfold calculate_metrics. cbn zeta.
  rewrite E13, E14, E1, E2, E3, E4, E5, E6, E7, E8, E9, E10, E11, E12, E15, E16, E17.
  cbn [mbind res_bind].
  repeat match goal with
  | |- context [ratio ?a ?b] => destruct (ratio a b); cbn [mbind res_bind fmap res_fmap]; [|reflexivity]
  | |- context [percentile_ordered ?a ?b ?n] =>
    destruct (percentile_ordered a b n); cbn [mbind res_bind fmap res_fmap]; [|reflexivity]
  end. reflexivity.
Qed.

(** A message has a delivery exactly when it counts as delivered. *)
Lemma counts_as_delivered_iff kd ms a g :
  acc_ok kd ms a → g ∈ ms → counts_as_delivered kd g = has_delivery g.
Proof.
  intros Hok Hg. destruct (ao_receivers _ _ _ Hok g Hg) as [_ Hr]. unfold has_delivery.
  destruct (g_delivered_to g) as [|n l] eqn:E.
  - rewrite (bool_decide_false ([] ≠ [])) by auto. unfold counts_as_delivered. rewrite E.
    destruct kd; [done|]. by rewrite bool_decide_false by apply not_elem_of_nil.
  - rewrite (bool_decide_true (n :: l ≠ [])) by done.
    specialize (Hr n ltac:(by left)). unfold counts_as_delivered, applicable_receiver in *. rewrite E. destruct kd.
    + cbn [existsb]. by rewrite Hr.
    + apply bool_decide_eq_true in Hr. apply bool_decide_eq_true. rewrite <-Hr. by left.
Qed.

Lemma final_delivered_count c cur :
  run_ok c cur → Z.of_nat (size (final_delivered_ids c)) = a_unique_deliveries (acc c).
Proof.
  intros Hok. pose proof (ro_acc _ _ Hok) as Ha. unfold final_delivered_ids.
  rewrite (ro_current _ _ Hok), (ao_unique _ _ _ Ha), zcount_filter.
  rewrite size_list_to_set.
  - change (zlen ((λ g, (r_run_id cur, g_sequence g)) <$>
      filter (λ g, counts_as_delivered (kind (r_request cur)) g = true) (r_messages cur)) = zlen
      (filter (λ g, has_delivery g = true) (r_messages cur))).
    unfold zlen at 1. rewrite length_fmap. fold (zlen (filter (λ g,
      counts_as_delivered (kind (r_request cur)) g = true) (r_messages cur))).
    rewrite <-!zcount_filter.
    apply Z.le_antisymm; apply zcount_le; intros g Hg; by rewrite (counts_as_delivered_iff _ _ _ g Ha Hg).
  - apply (NoDup_fmap_1 snd). rewrite <-list_fmap_compose. change (snd ∘ _) with g_sequence.
    eapply sublist_NoDup; [apply (ao_seqs _ _ _ Ha)|]. apply fmap_sublist, sublist_filter.
Qed.

(** The final metrics of an accounted run are its live metrics, while the live
    sample holds every latency. *)
Lemma final_metrics_live c cur :
  run_ok c cur → a_receiver_deliveries (acc c) <= LIVE_LATENCY_SAMPLE_SIZE →
  snapshot_base <$> final_metrics c = live_metrics c.
Proof.
  intros Hok Hl. pose proof (ro_acc _ _ Hok) as Ha.
  apply calculate_metrics_ext with (air := a_per_node_airtime_ms (acc c)); cbn; try done.
  - apply (final_delivered_count _ _ Hok).
  - rewrite (ao_live _ _ _ Ha).
    replace (length (a_latencies_ms (acc c)) - Z.to_nat LIVE_LATENCY_SAMPLE_SIZE)%nat with 0%nat; [done|].
    pose proof (ao_latencies _ _ _ Ha) as Hz. unfold zlen in Hz. lia.
  - symmetry. apply Ha.
  - symmetry. apply Ha.
  - symmetry. apply Ha.
  - symmetry. apply Ha.
  - apply Ha.
Qed.

Lemma live_metrics_ok c cur : run_ok c cur → is_ok (live_metrics c) = true.
Proof.
  intros Hok. assert (is_ok (live_metrics_snapshot c) = true) as [s Hs]%is_ok_inv.
  - eapply calculate_metrics_total; [|done]. cbn. rewrite (ao_live _ _ _ (ro_acc _ _ Hok)).
    unfold zlen. rewrite length_drop. change SAMPLE_BOUND with 2048. change LIVE_LATENCY_SAMPLE_SIZE with 2048. lia.
  - unfold live_metrics. by rewrite Hs.
Qed.

Section theorems.
Context `{Meshtastic} `{!MeshtasticLaws} `{PyText} `{PyRandom} `{!PyRandomLaws} {B : Type} `{EventSink B}.
Implicit Types (w : Controller * B) (c : Controller) (cur : TrafficRunResult).

(** ** Starting *)

Lemma acc_ok_latest kd ms a f h :
  acc_ok kd ms a →
  acc_ok kd ms (a <| latest_failed_receptions ::= f |> <| latest_duplicate_receptions ::= h |>).
Proof. intros []. split; acc_cbn; assumption. Qed.

Lemma marker_length run_id seq :
  zlen (marker run_id seq) =
  zlen (str_bytes (TRAFFIC_PREFIX +:+ ":" +:+ run_id +:+ ":")) + zlen (str_bytes (pretty seq)) + 1.
Proof.
  unfold marker. rewrite !str_bytes_app, !zlen_app. change (zlen (str_bytes ":")) with 1. lia.
Qed.

Lemma marker_length_mono run_id a b :
  0 <= a <= b → zlen (marker run_id a) <= zlen (marker run_id b).
Proof. intros Hab. rewrite !marker_length. pose proof (pretty_length_mono a b Hab). lia. Qed.

(** What holds of an accepted run before its first message. *)
Definition fresh_run (request : TrafficRunRequest) (s : Scenario) (run_id : string) (w' : Controller * B)
    : Prop :=
  ∃ cur, run_ok w'.1 cur ∧ r_run_id cur = run_id ∧ r_request cur = request ∧ r_messages cur = [] ∧
    r_scenario cur = s ∧ run_scenario w'.1 = s ∧ c_state w'.1 = RUNNING ∧ c_phase w'.1 = GENERATING ∧
    c_frozen w'.1 = None ∧ task_active w'.1 = true ∧ r_failure cur = None.

Lemma start_result request snapshot baseline run_id now w :
  ids_ok (c_packet_ids w.1) →
  let s := default (c_scenario (config w.1)) snapshot in
  match start request snapshot baseline run_id now w with
  | (w', Ok id) =>
    id = run_id ∧ task_active w.1 = false ∧ validate_request_nodes request s = Ok tt ∧
    maximum_sequence request <= MAX_TRAFFIC_MESSAGES_PER_RUN ∧
    zlen (marker run_id (maximum_sequence request)) <= payload_bytes request ∧
    config w'.1 = config w.1 ∧ fresh_run request s run_id w'
  | (w', Raise _) =>
    c_current w'.1 = c_current w.1 ∧ c_frozen w'.1 = c_frozen w.1 ∧ c_state w'.1 = c_state w.1 ∧
    c_phase w'.1 = c_phase w.1 ∧ task_active w'.1 = task_active w.1 ∧ acc w'.1 = acc w.1 ∧ w'.2 = w.2
  end.
Proof.
  intros Hi s. unfold start. destruct w as [c b]. cbn [fst] in *.
  destruct (task_active c) eqn:Et; [done|]. fold s.
  destruct (validate_request_nodes request s) as [[]|] eqn:Ev; [|done].
  destruct (_ <? maximum_sequence request) eqn:E1; [done|]. apply Z.ltb_ge in E1.
  destruct (payload_bytes request <? _) eqn:E2; [done|]. apply Z.ltb_ge in E2.
  unfold reset_accumulators. destruct (retire_packet_ids now (c_packet_ids c)) as [ids [[]|e]] eqn:Er; [|done].
  apply retire_packet_ids_spec in Er as [Hi' _]; [|done].
  match goal with |- context [live_metrics_snapshot ?x] => set (c1 := x) end.
  assert (is_ok (live_metrics_snapshot c1) = true) as [metrics ->]%is_ok_inv
    by by eapply calculate_metrics_total.
  split_and!; try done.
  exists (empty_result (c_build (config c1)) run_id request s (missing_at_start baseline s c1) metrics).
  split; [|split_and!; reflexivity].
  split; try reflexivity; try done.
  - exact (acc_ok_latest _ _ _ _ _ (acc_ok_fresh (kind request) now)).
  - by intros g ?%elem_of_nil.
Qed.

Lemma start_sequence request snapshot baseline run_id now w :
  match start request snapshot baseline run_id now w with
  | (w', Ok _) => a_sequence (acc w'.1) = 0 ∧ finalization_done w'.1 = finalization_done w.1
  | _ => True
  end.
Proof.
  unfold start, reset_accumulators. destruct w as [c b]. destruct (task_active c); [done|].
  destruct (validate_request_nodes _ _); [|done]. destruct (_ <? _); [done|]. destruct (_ <? _); [done|].
  destruct (retire_packet_ids now (c_packet_ids c)) as [ids [[]|e]]; [|done].
  destruct (live_metrics_snapshot _); done.
Qed.

(** C24: an accepted [start] guarantees what the run relies on (known and distinct
    sources, a bounded number of messages, room for the identifier of every one of
    them in the payload) and begins an empty, balanced run in state RUNNING;
    a refused one leaves the run, its result and its accounting as they were. *)
Theorem start_correct request snapshot baseline run_id now w :
  ids_ok (c_packet_ids w.1) →
  let s := default (c_scenario (config w.1)) snapshot in
  match start request snapshot baseline run_id now w with
  | (w', Ok id) =>
    id = run_id ∧ task_active w.1 = false ∧ validate_request_nodes request s = Ok tt ∧
    maximum_sequence request <= MAX_TRAFFIC_MESSAGES_PER_RUN ∧
    (∀ seq, 1 <= seq <= maximum_sequence request → zlen (marker run_id seq) <= payload_bytes request) ∧
    fresh_run request s run_id w'
  | (w', Raise _) =>
    c_current w'.1 = c_current w.1 ∧ c_frozen w'.1 = c_frozen w.1 ∧ c_state w'.1 = c_state w.1 ∧
    c_phase w'.1 = c_phase w.1 ∧ task_active w'.1 = task_active w.1 ∧ acc w'.1 = acc w.1 ∧ w'.2 = w.2
  end.
Proof.
  intros Hi s. pose proof (start_result request snapshot baseline run_id now w Hi) as Hs. cbv zeta in Hs. fold s in Hs.
  destruct (start _ _ _ _ _ _) as [w' [id|e]]; [|done].
  destruct Hs as (H1' & H2' & H3' & H4' & H5' & _ & H6'). split_and!; try done.
  intros seq Hseq. pose proof (marker_length_mono run_id seq (maximum_sequence request)). lia.
Qed.

(** C2: from an accepted [start], whatever the medium, the gateways, the sampler
    and the submissions do and in whatever order, the run's books balance: every
    generated message is exactly one of pending, submitted and failed; every
    acknowledged message was transmitted and every transmitted one submitted; a
    message is delivered at most once to each receiver it is meant for; and every
    counter is the number of messages or samples it stands for. *)
Theorem run_accounting request snapshot baseline run_id now w w0 w' :
  ids_ok (c_packet_ids w.1) →
  start request snapshot baseline run_id now w = (w0, Ok run_id) → rtc run_step w0 w' →
  ∃ cur, c_current w'.1 = Some cur ∧ r_run_id cur = run_id ∧ r_request cur = request ∧
    c_state w'.1 = RUNNING ∧ balanced w'.1 cur.
Proof.
  intros Hi Hs Hsteps. pose proof (start_result request snapshot baseline run_id now w Hi) as Hr.
  cbv zeta in Hr. rewrite Hs in Hr. destruct Hr as (_ & _ & _ & _ & _ & _ & cur & Hok & I1 & I2 & _ & _ & _ & I3 & _).
  destruct (run_steps_ok w0 w' cur Hok Hsteps) as (cur' & Hok' & J1 & J2 & J3 & _).
  injection J1 as J1 _ _ _. injection J3 as J3 _ _ _ _ _ _. exists cur'. split; [apply Hok'|]. split; [congruence|].
  split; [congruence|]. split; [congruence|]. by apply run_ok_balanced.
Qed.

(** ** Finishing *)

Lemma resolve_submission_deliveries source seq error now w :
  a_receiver_deliveries (acc (resolve_submission source seq error now w).1) = a_receiver_deliveries (acc w.1).
Proof.
  unfold resolve_submission. destruct (c_current w.1) as [cur|]; [|done].
  destruct (message_at seq cur) as [g|]; [|done]. destruct (_ || _); [done|]. cbv zeta.
  rewrite publish_event_fst, publish_metric_update_fst. by destruct error.
Qed.

Lemma finalize_pending_deliveries now w :
  a_receiver_deliveries (acc (finalize_pending_submissions now w).1) = a_receiver_deliveries (acc w.1).
Proof.
  unfold finalize_pending_submissions. cbv zeta.
  change (a_receiver_deliveries (acc (foldl (time_out now) w (pending_submissions (acc w.1))).1) =
          a_receiver_deliveries (acc w.1)).
  generalize (pending_submissions (acc w.1)) as L. intros L. revert w.
  induction L as [|e L IH]; intros w; [done|]. cbn [foldl]. rewrite IH. apply resolve_submission_deliveries.
Qed.

(** Flags and the phase do not matter to the accounting. *)
Lemma run_ok_phase c cur d p :
  run_ok c cur → run_ok (c <| finalization_done := d |> <| c_phase := p |>) cur.
Proof. intros []. split; assumption. Qed.

(** How [finalize] ends, whatever the disk does. *)
Definition settled `{ResultText TrafficRunSummary} (state : TrafficRunState) (cur : TrafficRunResult)
    (c' : Controller) (fs' : files) : Prop :=
  ∃ fr, c_frozen c' = Some fr ∧ c_current c' = Some fr ∧ c_phase c' = TERMINAL ∧
    finalization_done c' = true ∧ c_state c' = r_state fr ∧ r_run_id fr = r_run_id cur ∧
    r_request fr = r_request cur ∧
    r_requested fr = zlen (r_messages fr) ∧ r_requested fr = r_submitted fr + r_submission_failed fr ∧
    (∀ g, g ∈ r_messages fr → unresolved g = false) ∧
    r_delivered fr = zcount has_delivery (r_messages fr) ∧
    (r_failure fr = r_failure cur ∨
     ∃ e, r_failure fr = r_failure (persistence_failed e cur)) ∧
    live_metrics c' = Ok (snapshot_base (r_metrics fr)) ∧
    (r_state fr = state ∨ r_state fr = FAILED ∧ r_failure fr ≠ None).

Lemma no_unresolved kd ms a :
  acc_ok kd ms a → pending_submissions a = [] →
  (∀ g, g ∈ ms → unresolved g = false) ∧ zlen ms = submitted_count a + submission_failed_count a.
Proof.
  intros Hok Hp. pose proof (zcount_partition _ _ _ Hok) as Hz. pose proof (pending_count _ _ _ Hok) as Hl.
  rewrite Hp in Hl. change (zlen (@nil ((string * Z) * Z))) with 0 in Hl.
  rewrite (ao_submitted _ _ _ Hok), (ao_failed _ _ _ Hok). split; [|lia].
  intros g Hg. destruct (unresolved g) eqn:E; [|done].
  assert (dget (msg_key g) (pending_submissions a) = Some (g_sequence g)) as Hd
    by (apply (ao_pending _ _ _ Hok); by exists g).
  by rewrite Hp in Hd.
Qed.

Lemma live_metrics_current c cur cur' :
  c_current c = Some cur → r_request cur' = r_request cur →
  live_metrics (c <| c_current := Some cur' |>) = live_metrics c.
Proof.
  intros Hc Hr. unfold live_metrics, live_metrics_snapshot. do 2 f_equal.
  unfold live_metrics_input, expected_acknowledgments. rewrite Hc. cbn [set_field c_current eta_Controller].
  by rewrite Hr.
Qed.

Lemma finalize_settled `{ResultText TrafficRunSummary} state disk now w cur fs :
  run_ok w.1 cur → a_receiver_deliveries (acc w.1) <= LIVE_LATENCY_SAMPLE_SIZE →
  ∃ w' fs', finalize state disk now w fs = (w', fs', Ok true) ∧ settled state cur w'.1 fs'.
Proof.
  intros Hok Hl. unfold finalize. cbv zeta.
  set (w0 := (w.1 <| finalization_done := false |> <| c_phase := FINALIZING |>, w.2)).
  assert (run_ok w0.1 cur) as Hok0 by apply run_ok_phase, Hok.
  destruct (finalize_pending_ok now w0 cur Hok0) as [(cur1 & Hok1 & I1 & I2 & _) Hp].
  pose proof (finalize_pending_deliveries now w0) as Hd. change (acc w0.1) with (acc w.1) in Hd.
  set (w1 := finalize_pending_submissions now w0) in *. clearbody w1.
  rewrite (ro_current _ _ Hok1).
  destruct (no_unresolved _ _ _ (ro_acc _ _ Hok1) Hp) as [Hu Hz].
  destruct (is_ok_inv _ (live_metrics_ok _ _ Hok1)) as [base Hb].
  assert (∃ metrics, final_metrics w1.1 = Ok metrics ∧ snapshot_base metrics = base) as (metrics & Hm & Hbase).
  { pose proof (final_metrics_live _ _ Hok1 ltac:(lia)) as Hf. rewrite Hb in Hf.
    destruct (final_metrics w1.1) as [metrics|]; [|done]. cbn in Hf. injection Hf as Hf. eauto. }
  rewrite Hm.
  destruct (freeze_and_persist _ _ _) as [fs' saved] eqn:Ef.
  eexists _, fs'. split; [reflexivity|].
  set (terminal := terminal_result _ _ _ _).
  assert (∃ fr, match saved with Ok r => r | Raise e => persistence_failed e terminal end = fr ∧
    ((fr = terminal ∧ r_state fr = state) ∨ (∃ e, fr = persistence_failed e terminal))) as (fr & Hfr & Hcase).
  { eexists. split; [reflexivity|]. unfold freeze_and_persist in Ef.
    destruct (save_pair _ _ _ _ _) as [? [[]|e]]; injection Ef as _ <-; [by left|right; by eexists]. }
  rewrite Hfr. exists fr. cbn [fst].
  split; [reflexivity|]. split; [reflexivity|]. split; [reflexivity|]. split; [reflexivity|].
  split; [reflexivity|].
  rewrite publish_metric_update_fst.
  assert (r_request fr = r_request cur1) as Hreq by (destruct Hcase as [[-> _]|[e ->]]; reflexivity).
  assert (live_metrics (w1.1 <| c_current := Some fr |>) = Ok (snapshot_base (r_metrics fr))) as Hlive.
  { rewrite (live_metrics_current _ cur1 fr (ro_current _ _ Hok1) Hreq), Hb, <-Hbase.
    by destruct Hcase as [[-> _]|[e ->]]. }
  destruct (run_ok_balanced _ _ Hok1) as (B1 & _ & _ & _ & B5 & B6 & B7 & _ & B9 & _).
  assert (r_run_id fr = r_run_id cur1 ∧ r_messages fr = r_messages cur1 ∧
    r_requested fr = generated_count (acc w1.1) ∧ r_submitted fr = submitted_count (acc w1.1) ∧
    r_submission_failed fr = submission_failed_count (acc w1.1) ∧
    r_delivered fr = a_unique_deliveries (acc w1.1)) as (F1 & F2 & F3 & F4 & F5 & F6)
    by (destruct Hcase as [[-> _]|[e ->]]; by split_and!).
  injection I1 as I1 If _ _.
  assert (r_failure fr = r_failure cur ∨ ∃ e, r_failure fr = r_failure (persistence_failed e cur)) as Hfail.
  { destruct Hcase as [[-> _]|[e ->]]; [by left|right; exists e].
    unfold persistence_failed. cbn [set_field r_failure eta_TrafficRunResult]. by rewrite <-If. }
  split; [congruence|]. split; [congruence|]. rewrite F2, F3, F4, F5, F6.
  split; [exact B1|]. split; [lia|]. split; [exact Hu|]. split; [exact B9|].
  split; [exact Hfail|]. split; [exact Hlive|].
  destruct Hcase as [[_ Hs]|[e ->]]; [by left|by right].
Qed.

(** ** Sampling, stopping, failing *)

Lemma continues_refl c cur : run_ok c cur → continues c cur c.
Proof. intros. by apply continues_same. Qed.

Lemma sample_totals_ok now l missing w cur :
  run_ok w.1 cur →
  continues w.1 cur (foldl (λ '(missing, w) '(node_id, total),
      if bool_decide (is_Some (latest_failed_receptions (acc w.1) !! node_id))
      then (missing, record_failed_receptions node_id total now w)
      else (missing ++ [node_id], w)) (missing, w) (l : dict string Z)).2.1.
Proof.
  revert missing w cur. induction l as [|[node_id total] l IH]; intros missing w cur Hok;
    cbn [foldl]; [by apply continues_refl|].
  case_bool_decide; [|by apply IH].
  eapply continues_bind; [by apply record_failed_receptions_ok|]. intros cur1 Hok1 _ _. by apply IH.
Qed.

Lemma sample_duplicates_ok now l w cur :
  run_ok w.1 cur →
  continues w.1 cur (foldl (λ w '(node_id, total),
      if bool_decide (is_Some (latest_duplicate_receptions (acc w.1) !! node_id))
      then record_duplicate_receptions node_id total now w else w) w (l : dict string Z)).1.
Proof.
  revert w cur. induction l as [|[node_id total] l IH]; intros w cur Hok; cbn [foldl];
    [by apply continues_refl|].
  case_bool_decide; [|by apply IH].
  eapply continues_bind; [by apply record_duplicate_receptions_ok|]. intros cur1 Hok1 _ _. by apply IH.
Qed.

Lemma sample_final_ok sampled now w cur :
  run_ok w.1 cur → continues w.1 cur (sample_final_failed_receptions sampled now w).1.
Proof.
  intros Hok. unfold sample_final_failed_receptions. destruct (negb _); [by apply continues_refl|].
  rewrite (ro_current _ _ Hok). cbv zeta.
  set (sample := match sampled with Ok s => _ | Raise _ => _ end).
  pose proof (sample_totals_ok now (fs_totals sample) (r_missing_nodes cur ++ fs_missing_nodes sample) w cur Hok) as Hc.
  destruct (foldl _ (_, w) _) as [missing w1]. cbn [snd] in Hc.
  eapply continues_bind; [exact Hc|]. intros cur1 Hok1 _ _.
  eapply continues_bind; [apply (sample_duplicates_ok now (fs_duplicate_totals sample) w1 cur1 Hok1)|].
  intros cur2 Hok2 _ _. set (w2 := foldl _ w1 _) in *. clearbody w2.
  rewrite (with_current_fst _ w2 cur2 Hok2).
  match goal with |- context [set_field c_current (λ _, Some ?x)] => exists x end.
  split; [|by split_and!]. destruct Hok2. by split.
Qed.

(** What runs while the controller stops is made of handler calls. *)
Definition handlers_only (f : Controller * B → Controller * B) : Prop := ∀ w, rtc run_step w (f w).

(** [stop] and [fail] between marking the run as stopping and finishing it. *)
Definition wind_down (env : StopEnv) (w : Controller * B) : Controller * B :=
  final_sampling env (finalize_pending_submissions (se_now env) (cancel_run_task env w)).

Lemma run_ok_task c cur t : run_ok c cur → run_ok (c <| task_active := t |>) cur.
Proof. intros []. split; assumption. Qed.
Lemma run_ok_state c cur s : run_ok c cur → run_ok (c <| c_state := s |>) cur.
Proof. intros []. split; assumption. Qed.

Lemma flags_inv c c' :
  flags c' = flags c →
  c_state c' = c_state c ∧ c_frozen c' = c_frozen c ∧ finalization_done c' = finalization_done c.
Proof. unfold flags. intros [= E1 E2 E3 _ _ _ _]. done. Qed.

(** Winding down keeps the books, the state and the lack of a frozen result. *)
Lemma wind_down_ok env w cur :
  run_ok w.1 cur → handlers_only (se_cancelled env) → handlers_only (se_sampling env) →
  ∃ cur', run_ok (wind_down env w).1 cur' ∧ fixed_part cur' = fixed_part cur ∧
    r_request cur' = r_request cur ∧ c_state (wind_down env w).1 = c_state w.1 ∧
    c_frozen (wind_down env w).1 = c_frozen w.1 ∧
    finalization_done (wind_down env w).1 = finalization_done w.1.
Proof.
  intros Hok Hc Hs. unfold wind_down.
  assert (∃ cur1, run_ok (cancel_run_task env w).1 cur1 ∧ fixed_part cur1 = fixed_part cur ∧
    r_request cur1 = r_request cur ∧ c_state (cancel_run_task env w).1 = c_state w.1 ∧
    c_frozen (cancel_run_task env w).1 = c_frozen w.1 ∧
    finalization_done (cancel_run_task env w).1 = finalization_done w.1) as (cur1 & Hok1 & A1 & A2 & A3 & A4 & A5).
  { unfold cancel_run_task. destruct (task_active w.1); [|by exists cur].
    destruct (run_steps_ok _ _ _ Hok (Hc w)) as (cur1 & Hok1 & I1 & I2 & I3 & _).
    apply flags_inv in I3 as (E1 & E2 & E3). exists cur1. split; [by apply run_ok_task|]. by split_and!. }
  set (w1 := cancel_run_task env w) in *. clearbody w1.
  destruct (proj1 (finalize_pending_ok (se_now env) w1 cur1 Hok1)) as (cur2 & Hok2 & B1 & B2 & B3 & _).
  apply flags_inv in B3 as (B3 & B4 & B5). set (w2 := finalize_pending_submissions (se_now env) w1) in *. clearbody w2.
  unfold final_sampling. destruct (c_has_sampler _).
  - destruct (run_steps_ok _ _ _ Hok2 (Hs w2)) as (cur3 & Hok3 & C1 & C2 & C3 & _).
    apply flags_inv in C3 as (C3 & C4 & C5).
    destruct (sample_final_ok (se_sampled env) (se_now env) _ _ Hok3) as (cur4 & Hok4 & D1 & D2 & D3 & _).
    apply flags_inv in D3 as (D3 & D4 & D5). exists cur4. split; [exact Hok4|]. split_and!; congruence.
  - exists cur2. split; [exact Hok2|]. split_and!; congruence.
Qed.

Lemma finish_settled `{ResultText TrafficRunSummary} state env w cur fs :
  run_ok w.1 cur → finalization_done w.1 = true →
  a_receiver_deliveries (acc w.1) <= LIVE_LATENCY_SAMPLE_SIZE →
  ∃ w' fs', finish_unless_frozen state env w fs = (w', fs', Ok true) ∧ settled state cur w'.1 fs'.
Proof.
  intros Hok Hd Hl. unfold finish_unless_frozen, finish. rewrite (ro_live _ _ Hok), (ro_current _ _ Hok).
  unfold wait_for_active_finalization. rewrite Hd. by apply finalize_settled.
Qed.

Lemma settled_fixed `{ResultText TrafficRunSummary} state cur cur' c' fs' :
  fixed_part cur' = fixed_part cur → r_request cur' = r_request cur →
  settled state cur' c' fs' → settled state cur c' fs'.
Proof.
  intros Hf Hr (fr & S1 & S2 & S3 & S4 & S5 & S6 & S7 & S8 & S9 & S10 & S11 & S12 & S13 & S14).
  injection Hf as F1 F2 _ _. exists fr. split_and!; try done; try congruence.
  unfold persistence_failed in *. cbn [set_field r_failure eta_TrafficRunResult] in *. by rewrite <-F2.
Qed.


End theorems.
