(* ===== verification/RunClosing.v ===== *)
(** * The end of a run

    Draining, saving the result's two files, and what later calls do to a run that
    is over. *)
From Stdlib Require Import Floats.SpecFloat.
From S2P Require Import Prelude PyDict PyFloat Scenario Mesh Airtime Events Calculations.
From S2P Require Import TrafficRequest Identifier PacketIds TrafficState TrafficHandlers.
From S2P Require Import RunInvariant RunAccounting TrafficLifecycle RunTheorems.

(** ** Saving *)

Lemma string_app_cancel a b c : a +:+ b = a +:+ c → b = c.
Proof.
  induction a as [|x a IH]; [done|].
  change (String x a +:+ b) with (String x (a +:+ b)). change (String x a +:+ c) with (String x (a +:+ c)).
  intros [= Ha]. by apply IH.
Qed.

(** The files of a save. *)
Definition save_paths (run_id : string) : list string :=
  [result_temporary run_id; summary_temporary run_id; result_path run_id; summary_path run_id].

Lemma save_paths_distinct run_id : NoDup (save_paths run_id).
Proof.
  unfold save_paths, result_temporary, summary_temporary, result_path, summary_path.
  repeat (apply NoDup_cons; split); [..|apply NoDup_nil_2];
    intros Hin; repeat (apply elem_of_cons in Hin as [Hin|Hin];
      [apply string_app_cancel in Hin; discriminate|]); by apply elem_of_nil in Hin.
Qed.

Lemma four_distinct {A} (a b c d : A) :
  NoDup [a; b; c; d] →
  (a ≠ b ∧ b ≠ a ∧ a ≠ c ∧ c ≠ a ∧ a ≠ d ∧ d ≠ a) ∧ (b ≠ c ∧ c ≠ b ∧ b ≠ d ∧ d ≠ b ∧ c ≠ d ∧ d ≠ c).
Proof. rewrite !NoDup_cons, !elem_of_cons. intros (H1 & H2 & H3 & _). split_and!; intros ->; tauto. Qed.

Section saving.
Context (disk : Disk) (run_id : string).

Definition only_saves (fs fs' : files) : Prop := ∀ p, (p ∉ save_paths run_id) → fs' !! p = fs !! p.

Lemma unlink_all_spec paths fs p :
  (∀ q, q ∈ paths → unlink_fails disk q = false) →
  unlink_all disk paths fs !! p = if decide (p ∈ paths) then None else fs !! p.
Proof using Type.
  unfold unlink_all. revert fs. induction paths as [|q paths IH]; intros fs Hq; cbn [foldl].
  - by rewrite decide_False by apply not_elem_of_nil.
  - rewrite (Hq q) by by left. rewrite IH by (intros; apply Hq; by right).
    destruct (decide (p ∈ paths)) as [Hp|Hp].
    + by rewrite decide_True by by right.
    + destruct (decide (p = q)) as [->|Hne].
      * rewrite decide_True by by left. apply lookup_delete_eq.
      * rewrite decide_False by (by rewrite elem_of_cons; intros [|]). by apply lookup_delete_ne.
Qed.

Lemma save_step_frame (m : files * res unit) f fs :
  only_saves fs m.1 → (∀ fs1, only_saves fs1 (f fs1).1) → only_saves fs (and_then m f).1.
Proof using Type.
  intros Hm Hf. destruct m as [fs1 [[]|e]]; [|done]. cbn. intros p Hp. rewrite (Hf fs1 p Hp). by apply Hm.
Qed.

Lemma write_frame n path text fs : path ∈ save_paths run_id → only_saves fs (disk_write disk n path text fs).1.
Proof using Type.
  intros Hin p Hp. unfold disk_write. assert (path ≠ p) by by intros ->.
  destruct (disk_fault disk n) as [[msg [partial|]]|]; cbn [fst];
    first [reflexivity|by apply lookup_insert_ne].
Qed.

Lemma replace_frame n src dst fs :
  src ∈ save_paths run_id → dst ∈ save_paths run_id → only_saves fs (disk_replace disk n src dst fs).1.
Proof using Type.
  intros H1 H2 p Hp. unfold disk_replace. assert (src ≠ p ∧ dst ≠ p) as [? ?] by (split; by intros ->).
  destruct (disk_fault disk n) as [[msg partial]|]; [done|].
  destruct (fs !! src); [|done]. cbn [fst]. rewrite lookup_insert_ne by done. by apply lookup_delete_ne.
Qed.

Lemma save_pair_correct_aux t1 t2 fs :
  match save_pair disk run_id t1 t2 fs with
  | (fs', Ok _) =>
    fs' !! result_path run_id = Some t1 ∧ fs' !! summary_path run_id = Some t2 ∧
    fs' !! result_temporary run_id = None ∧ fs' !! summary_temporary run_id = None ∧ only_saves fs fs'
  | (fs', Raise _) =>
    (∀ p, p ∈ save_paths run_id → unlink_fails disk p = false) →
    (∀ p, p ∈ save_paths run_id → fs' !! p = None) ∧ only_saves fs fs'
  end.
Proof using Type.
  pose proof (four_distinct _ _ _ _ (save_paths_distinct run_id)) as Hd.
  set (a := result_temporary run_id) in *. set (b := summary_temporary run_id) in *.
  set (c := result_path run_id) in *. set (d := summary_path run_id) in *.
  assert (a ∈ save_paths run_id ∧ b ∈ save_paths run_id ∧ c ∈ save_paths run_id ∧ d ∈ save_paths run_id)
    as (Ha & Hb & Hc & Hdd) by (unfold save_paths; fold a b c d; rewrite !elem_of_cons; tauto).
  unfold save_pair. fold a b c d.
  set (m := and_then _ (disk_replace disk 4 b d)).
  assert (only_saves fs m.1) as Hframe.
  { unfold m. repeat apply save_step_frame; intros; auto using write_frame, replace_frame.
    unfold disk_mkdir. by destruct (disk_fault disk 0) as [[]|]. }
  destruct m as [fs' [[]|e]] eqn:Em.
  - assert (m = and_then (and_then (<[b := t2]> (<[a := t1]> fs), Ok tt) (disk_replace disk 3 a c))
                  (disk_replace disk 4 b d) ∧ disk_fault disk 3 = None ∧ disk_fault disk 4 = None)
      as (Hm & F3 & F4).
    { revert Em. unfold m, disk_mkdir, disk_write. cbn [and_then].
      destruct (disk_fault disk 0) as [[? ?]|]; [done|]. cbn [and_then].
      destruct (disk_fault disk 1) as [[? ?]|]; [done|]. cbn [and_then].
      destruct (disk_fault disk 2) as [[? ?]|]; [done|]. cbn [and_then].
      unfold disk_replace. destruct (disk_fault disk 3) as [[? ?]|]; [done|].
      destruct (_ !! a); [|done]. cbn [and_then]. by destruct (disk_fault disk 4) as [[? ?]|]. }
    rewrite Hm in Em. cbn [and_then] in Em. unfold disk_replace in Em. rewrite F3, F4 in Em.
    rewrite lookup_insert_ne, lookup_insert_eq in Em by tauto. cbn [and_then] in Em.
    rewrite lookup_insert_ne, lookup_delete_ne, lookup_insert_eq in Em by tauto.
    injection Em as <-. rewrite !lookup_insert_eq.
    rewrite (lookup_insert_ne _ d c), lookup_delete_ne, lookup_insert_eq by tauto.
    rewrite (lookup_insert_ne _ d a), (lookup_delete_ne _ b a), (lookup_insert_ne _ c a), lookup_delete_eq by tauto.
    rewrite (lookup_insert_ne _ d b), lookup_delete_eq by tauto. split_and!; try done.
  - intros Hu. split.
    + intros p Hp. rewrite (unlink_all_spec [a; b; c; d] fs' p Hu). by rewrite decide_True.
    + intros p Hp. rewrite (unlink_all_spec [a; b; c; d] fs' p Hu). rewrite decide_False by done.
      by apply Hframe.
Qed.
End saving.

Section closing.
Context `{Meshtastic} `{!MeshtasticLaws} `{PyText} `{PyRandom} `{!PyRandomLaws} {B : Type} `{EventSink B}.
Context `{!ResultText TrafficRunSummary}.
Implicit Types (w : Controller * B) (c : Controller) (cur : TrafficRunResult).

(** C18: saving a result is all or nothing: when it succeeds, the result's file and
    its summary's hold exactly their texts and no temporary file is left; when any
    step fails, none of the four files is left, as long as files can be removed.
    No other file changes. *)
Theorem freeze_and_persist_correct disk r fs :
  match freeze_and_persist disk r fs with
  | (fs', Ok r') =>
    r' = r ∧ fs' !! result_path (r_run_id r) = Some (result_json r) ∧
    fs' !! summary_path (r_run_id r) = Some (summary_json (summarize_result r)) ∧
    fs' !! result_temporary (r_run_id r) = None ∧ fs' !! summary_temporary (r_run_id r) = None ∧
    only_saves (r_run_id r) fs fs'
  | (fs', Raise _) =>
    (∀ p, p ∈ save_paths (r_run_id r) → unlink_fails disk p = false) →
    (∀ p, p ∈ save_paths (r_run_id r) → fs' !! p = None) ∧ only_saves (r_run_id r) fs fs'
  end.
Proof.
  unfold freeze_and_persist.
  pose proof (save_pair_correct_aux disk (r_run_id r) (result_json r) (summary_json (summarize_result r)) fs) as Hs.
  destruct (save_pair _ _ _ _ _) as [fs' [u|e]]; [|exact Hs]. split; [done|exact Hs].
Qed.

(** ** Reports after the end *)

(** A report from the medium, the sampler or a gateway, or a topology change. *)
Inductive report (w : Controller * B) : Controller * B → Prop :=
| report_rf transmitter packet air now : report w (record_rf_transmission transmitter packet air now w).1
| report_drop transmitter packet reason now : report w (record_drop transmitter packet reason now w)
| report_failed node_id total now : report w (record_failed_receptions node_id total now w)
| report_duplicates node_id total now : report w (record_duplicate_receptions node_id total now w)
| report_topology e link : report w (record_topology_change e link w).1
| report_lag lag now : report w (set_event_loop_lag lag now w)
| report_radio node_id message now : report w (handle_from_radio node_id message now w).1.

Lemma closed_accepts allow c :
  c_phase c = FINALIZING ∨ c_phase c = TERMINAL → accepts_run_events allow c = false.
Proof. unfold accepts_run_events. by intros [-> | ->]. Qed.

(** from the moment a run is being finalized, no report changes anything: not
    the run, not its frozen result, not the event log; so what the two file-writing
    threads and later readers see is what finalization started from. *)
Theorem reports_ignored_when_closed w w' :
  c_phase w.1 = FINALIZING ∨ c_phase w.1 = TERMINAL → rtc report w w' → w' = w.
Proof.
  intros Hp Hr. induction Hr as [w|w1 w2 w3 H12 _ IH]; [done|].
  assert (w2 = w1) as ->; [|by apply IH].
  destruct H12; unfold record_rf_transmission, record_drop, record_failed_receptions,
    record_duplicate_receptions, record_topology_change, set_event_loop_lag, handle_from_radio;
    rewrite closed_accepts by done; by destruct (c_current w1.1).
Qed.

(** [fail] does not leave a run that has already failed alone: it replaces the
    reason in the frozen result, which the saved files keep, and leaves the
    controller in state STOPPING for good although no task is running. *)
Theorem fail_after_failure reason env w fr fs :
  c_frozen w.1 = Some fr → c_current w.1 = Some fr → c_state w.1 = FAILED → c_phase w.1 = TERMINAL →
  finalization_done w.1 = true → task_active w.1 = false → pending_submissions (acc w.1) = [] →
  c_has_sampler (config w.1) = false →
  ∃ w', fail reason env w fs = (w', fs, Ok true) ∧
    c_frozen w'.1 = Some (fr <| r_failure := Some reason |>) ∧ c_state w'.1 = STOPPING ∧
    task_active w'.1 = false ∧ ∀ env' fs', stop env' w' fs' = (w', fs', Ok true).
Proof.
  intros Hf Hc Hs Hp Hd Ht Hpend Hsm. destruct w as [[] b]. cbn [fst TrafficState.c_frozen TrafficState.c_current
    TrafficState.c_state TrafficState.c_phase TrafficState.finalization_done TrafficState.task_active
    TrafficState.acc TrafficState.config] in *. subst.
  eexists. split; [|split; [|split; [|split]]].
  - unfold fail, wait_for_active_finalization. cbn [fst finalization_done]. cbv zeta.
    unfold cancel_run_task, finalize_pending_submissions, final_sampling, finish_unless_frozen.
    cbn. rewrite Hpend. cbn. rewrite Hsm. reflexivity.
  - reflexivity.
  - reflexivity.
  - reflexivity.
  - intros env' fs'. reflexivity.
Qed.

(** ** Draining *)

Lemma flt_fle a b : flt a b = true → fle a b = true.
Proof. unfold flt, fle, SFltb, SFleb. by destruct (SFcompare a b) as [[]|]. Qed.

Lemma fmax_ge a b : is_nan a = false → fle a (fmax a b) = true.
Proof. intros Ha. unfold fmax. destruct (flt a b) eqn:E; [by apply flt_fle|by apply fle_refl]. Qed.

Lemma fmin_le a b : is_nan a = false → fle (fmin a b) a = true.
Proof. intros Ha. unfold fmin. destruct (flt b a) eqn:E; [by apply flt_fle|by apply fle_refl]. Qed.

Lemma fmin_positive a b :
  is_nan a = false → flt fzero a = true → (is_nan b = false → flt fzero b = true) → flt fzero (fmin a b) = true.
Proof.
  intros Ha Hpa Hpb. unfold fmin. destruct (flt b a) eqn:E; [|done]. apply Hpb. by destruct b.
Qed.

Lemma fmax_positive a b :
  is_nan b = false → flt fzero b = true → is_nan (fmax a b) = false → flt fzero (fmax a b) = true.
Proof.
  intros Hb Hpb. unfold fmax. destruct (flt a b) eqn:E; [done|]. intros Ha.
  assert (is_nan fzero = false) by done. float_order.
Qed.

(** No direct message the run still waits for. *)
Definition all_resolved (c : Controller) : Prop :=
  match c_current c with
  | Some cur => kind (r_request cur) = DIRECT_TEXT → unresolved_direct_messages c = 0
  | None => True
  end.

Lemma drain_turn_spec quiet deadline now c :
  match drain_turn quiet deadline now c with
  | Settled => pending_submissions (acc c) = [] ∧ all_resolved c ∧
               fle (fsub (fadd (last_activity_monotonic (acc c)) quiet) now) fzero = true
  | Expired => fle (fsub deadline now) fzero = true
  | WaitFor s => fle (fsub deadline now) fzero = false ∧
                 (is_nan (fsub deadline now) = false → flt fzero s = true ∧ fle s (fsub deadline now) = true)
  end.
Proof.
  unfold drain_turn. cbv zeta.
  match goal with |- context [negb (nonempty _) && ?r] => set (resolved := r) end.
  set (quiet_remaining := fsub (fadd _ quiet) now). set (remaining := fsub deadline now).
  destruct (negb (nonempty _) && resolved) eqn:Er; cbn [andb].
  - destruct (fle quiet_remaining fzero) eqn:Eq.
    + apply andb_true_iff in Er as [Ep Er]. split; [by destruct (pending_submissions _)|].
      split; [|done]. unfold all_resolved. destruct (c_current c) as [cur|]; [|done].
      intros Hk. unfold resolved in Er. rewrite Hk in Er. by apply Z.eqb_eq.
    + destruct (fle remaining fzero) eqn:Ed; [done|]. split; [done|]. intros Hn.
      assert (flt fzero remaining = true) as Hpos
        by (rewrite fle_flt in Ed by done; by apply negb_false_iff in Ed).
      split; [|by apply fmin_le]. apply fmin_positive; [done|done|]. apply fmax_positive; reflexivity.
  - destruct (fle remaining fzero) eqn:Ed; [done|]. split; [done|]. intros Hn.
    split; [|by apply fle_refl]. rewrite fle_flt in Ed by done. by apply negb_false_iff in Ed.
Qed.

Lemma drain_loop_returns quiet deadline turns w :
  (∃ f t, (f, t) ∈ turns ∧ fle (fsub deadline t) fzero = true) →
  ∃ w', drain_loop quiet deadline turns w = Some w' ∧ pending_submissions (acc w'.1) = [].
Proof.
  revert w. induction turns as [|[f now] turns IH]; intros w (g & t & Hin & Ht); [by apply elem_of_nil in Hin|].
  cbn [drain_loop]. cbv zeta. pose proof (drain_turn_spec quiet deadline now (f w).1) as Hs.
  destruct (drain_turn quiet deadline now (f w).1).
  - exists (f w). split; [done|apply Hs].
  - eexists. split; [reflexivity|]. done.
  - apply IH. apply elem_of_cons in Hin as [[= <- <-]|Hin]; [|by exists g, t].
    destruct Hs as [Hs _]. congruence.
Qed.

(** C25: draining is bounded and never gives up early: the quiet period is at least
    three seconds and the deadline at most 300 seconds away; a turn settles only
    when no admission is pending, every direct message is resolved and the quiet
    period has passed, and otherwise waits a positive time that ends by the
    deadline; a turn at or after the deadline ends the drain; and however it ends,
    no admission is left pending. *)
Theorem drain_correct now turns w cur :
  c_settle_seconds (config w.1) = None → c_current w.1 = Some cur →
  let quiet := (drain_windows w.1).1 in let deadline := fadd now (drain_windows w.1).2 in
  fle (of_Z 3) quiet = true ∧ fle (drain_windows w.1).2 (of_Z 300) = true ∧
  (∀ t c, match drain_turn quiet deadline t c with
    | Settled => pending_submissions (acc c) = [] ∧ all_resolved c ∧
                 fle (fsub (fadd (last_activity_monotonic (acc c)) quiet) t) fzero = true
    | Expired => fle (fsub deadline t) fzero = true
    | WaitFor s => fle (fsub deadline t) fzero = false ∧
                   (is_nan (fsub deadline t) = false → flt fzero s = true ∧ fle s (fsub deadline t) = true)
    end) ∧
  ((∃ f t, (f, t) ∈ turns ∧ fle (fsub deadline t) fzero = true) →
   ∃ w', drain now turns w = Some w' ∧ pending_submissions (acc w'.1) = [] ∧ drain_deadline w'.1 = None).
Proof.
  intros Hs Hc quiet deadline. split_and!.
  - unfold quiet, drain_windows. rewrite Hc. by apply fmax_ge.
  - unfold drain_windows. rewrite Hc. by apply fmin_le.
  - intros t c. apply drain_turn_spec.
  - intros Ht. unfold drain. rewrite Hs, Hc. subst quiet deadline.
    destruct (drain_windows w.1) as [quiet seconds]. cbn [fst snd] in Ht.
    destruct (drain_loop_returns quiet (fadd now seconds) turns
      (set_deadline (Some (fadd now seconds)) w) Ht) as (w' & Hd & Hp).
    rewrite Hd. eexists. split; [reflexivity|]. done.
Qed.
End closing.
