(* ===== verification/RunSchedule.v ===== *)
(** * Generating traffic (src/backend/app/traffic/controller.py, [_run])

    The schedule of a run, the loop that submits its messages, and the end of the
    run's task. The dictionaries indexed by flow number are lists here. *)
From Stdlib Require Import Floats.SpecFloat.
From Stdlib Require Import Sorting.Sorted.
From S2P Require Import Prelude PyDict PyFloat PyDecimal Scenario Mesh Airtime Events Calculations.
From S2P Require Import TrafficRequest Identifier PacketIds TrafficState TrafficHandlers.
From S2P Require Import RunInvariant RunAccounting TrafficLifecycle RunTheorems RunClosing.

(** ** The schedule *)

(** What [_run] computes for each flow before it starts. *)
Record FlowPlan := mkPlan {
  fp_flow : TrafficFlow;
  fp_interval : float;
  fp_count : Z;
  fp_offsets : dict string float }.

(** A flow's index and a source. *)
Definition slot : Type := Z * string.

Section plan.
Context `{PyRandom}.

Definition plan_flow (r : TrafficRunRequest) (f : TrafficFlow) : FlowPlan :=
  let interval := fdiv (of_Z 60) (flow_messages_per_minute f) in
  mkPlan f interval (messages_per_flow r f)
    (flow_source_offsets f interval (flow_seed (req_seed r) (flow_name f) SOURCE_TIMING_RNG_SALT)).

Definition plan_run (r : TrafficRunRequest) : list FlowPlan := plan_flow r <$> scheduling_flows r.

Definition destination_randomizers (r : TrafficRunRequest) : list rng :=
  (λ f, rng_new match flows r with
                | [] => req_seed r
                | _ => flow_seed (req_seed r) (flow_name f) FLOW_DESTINATION_RNG_SALT
                end) <$> scheduling_flows r.
End plan.

Definition schedule_order (plans : list FlowPlan) : dict slot (Z * Z) :=
  dict_of (enumerate plans ≫= λ '(i, p),
    (λ '(j, source), ((i, source), (i, j))) <$> enumerate (flow_source_nodes (fp_flow p))).

Definition first_ticks (plans : list FlowPlan) : dict slot Z := (λ kv : slot * (Z * Z), (kv.1, 0)) <$> schedule_order plans.

(** The flow of a slot; the slots are those of the plans. *)
Definition plan_at (plans : list FlowPlan) (i : Z) : FlowPlan :=
  default (mkPlan (mkFlow "" [] FIXED None fzero ALIGNED) fzero 1 []) (plans !! Z.to_nat i).

(** Scheduled time of a tick, relative to the start of the run. *)
Definition tick_time (plans : list FlowPlan) (k : slot) (tick : Z) : float :=
  fadd (default fzero (dget k.2 (fp_offsets (plan_at plans k.1))))
       (fmul (of_Z tick) (fp_interval (plan_at plans k.1))).

Definition order_of (plans : list FlowPlan) (k : slot) : Z * Z :=
  default (0, 0) (dget k (schedule_order plans)).

(** Python's [<] on the tuples [(time, (flow_index, source_index))]. *)
Definition pair_ltb (a b : Z * Z) : bool := if a.1 =? b.1 then a.2 <? b.2 else a.1 <? b.1.
Definition candidate_lt (plans : list FlowPlan) (a b : slot * Z) : bool :=
  let ta := tick_time plans a.1 a.2 in let tb := tick_time plans b.1 b.2 in
  if feq ta tb then pair_ltb (order_of plans a.1) (order_of plans b.1) else flt ta tb.

(** [min(next_tick, key=...)] with the tick: the first of the least. *)
Definition pick (plans : list FlowPlan) (next_tick : dict slot Z) : option (slot * Z) :=
  match next_tick with
  | [] => None
  | kt :: rest => Some (foldl (λ best kt, if candidate_lt plans kt best then kt else best) kt rest)
  end.

Definition advance (plans : list FlowPlan) (kt : slot * Z) (next_tick : dict slot Z) : dict slot Z :=
  if kt.2 + 1 =? fp_count (plan_at plans kt.1.1) then ddel kt.1 next_tick
  else dset kt.1 (kt.2 + 1) next_tick.

(** The slots in the order the loop serves them. *)
Fixpoint schedule (fuel : nat) (plans : list FlowPlan) (next_tick : dict slot Z) : list (slot * Z) :=
  match fuel, pick plans next_tick with
  | S fuel, Some kt => kt :: schedule fuel plans (advance plans kt next_tick)
  | _, _ => []
  end.

(** ** Order and count *)
(** Lexicographic order on lists of numbers of the same length. *)
Fixpoint lex_lt (a b : list Z) : Prop :=
  match a, b with
  | x :: a, y :: b => x < y ∨ (x = y ∧ lex_lt a b)
  | _, _ => False
  end.

Lemma lex_lt_irrefl a : ¬ lex_lt a a.
Proof. induction a as [|x a IH]; cbn; [tauto|]. intros [?|[_ ?]]; [lia|done]. Qed.

Lemma lex_lt_trans a b c : lex_lt a b → lex_lt b c → lex_lt a c.
Proof.
  revert b c. induction a as [|x a IH]; intros [|y b] [|z c]; cbn; try tauto.
  intros [?|[-> Hab]] [?|[-> Hbc]]; [left; lia|left; lia|left; lia|right; by eauto].
Qed.

Lemma lex_lt_total a b : length a = length b → lex_lt a b ∨ a = b ∨ lex_lt b a.
Proof.
  revert b. induction a as [|x a IH]; intros [|y b]; cbn; intros Hl; try discriminate; [by auto|]. injection Hl as Hl.
  destruct (IH b Hl) as [?|[->|?]]; destruct (Z.lt_trichotomy x y) as [?|[->|?]]; auto 6.
Qed.

Section schedule.
Context (plans : list FlowPlan).

Lemma foldl_min_spec best rest :
  let m := foldl (λ best kt, if candidate_lt plans kt best then kt else best) best rest in
  m ∈ best :: rest.
Proof.
  cbn zeta. revert best. induction rest as [|x rest IH]; intros best; cbn [foldl]; [by left|].
  specialize (IH (if candidate_lt plans x best then x else best)).
  destruct (candidate_lt plans x best); apply elem_of_cons in IH as [->|IH]; set_solver.
Qed.

Lemma pick_elem nt kt : pick plans nt = Some kt → kt ∈ nt.
Proof.
  destruct nt as [|x nt]; [done|]. intros [= <-]. apply foldl_min_spec.
Qed.

(** A message of the run: one of its slots and ticks. *)
Definition slot_ok (kt : slot * Z) : Prop :=
  (kt.1 ∈ (schedule_order plans).*1) ∧ 0 <= kt.2 < fp_count (plan_at plans kt.1.1).

Definition ticks_ok (nt : dict slot Z) : Prop :=
  dict_ok nt ∧ ∀ k t, dget k nt = Some t → slot_ok (k, t).

(** Messages still to come. *)
Definition remaining (nt : dict slot Z) : Z :=
  zsum ((λ kt, fp_count (plan_at plans kt.1.1) - kt.2) <$> nt).

Lemma remaining_dset k t v nt :
  dict_ok nt → dget k nt = Some t → remaining (dset k v nt) = remaining nt + t - v.
Proof.
  unfold remaining, dict_ok. induction nt as [|[k' t'] nt IH]; [done|].
  cbn [dget dset fmap list_fmap zsum fst snd]. rewrite NoDup_cons. intros [Hk Hnd]. case_decide as Hd.
  - subst k'. intros [= ->]. cbn [fmap list_fmap zsum fst snd]. lia.
  - intros Hg. cbn [fmap list_fmap zsum fst snd]. rewrite IH by done. lia.
Qed.

Lemma remaining_ddel k t nt :
  dict_ok nt → dget k nt = Some t →
  remaining (ddel k nt) = remaining nt - (fp_count (plan_at plans k.1) - t).
Proof.
  unfold remaining, dict_ok. induction nt as [|[k' t'] nt IH]; [done|].
  cbn [dget ddel fmap list_fmap zsum fst snd]. rewrite NoDup_cons. intros [Hk Hnd]. case_decide as Hd.
  - subst k'. intros [= ->]. lia.
  - intros Hg. cbn [fmap list_fmap zsum fst snd]. rewrite IH by done. lia.
Qed.

Lemma advance_dget kt nt k :
  dict_ok nt → pick plans nt = Some kt →
  dget k (advance plans kt nt) =
    if decide (k = kt.1) then
      if kt.2 + 1 =? fp_count (plan_at plans kt.1.1) then None else Some (kt.2 + 1)
    else dget k nt.
Proof.
  intros Hnd _. unfold advance. destruct (_ =? _).
  - rewrite dget_ddel by done. by case_decide.
  - rewrite dget_dset. by case_decide.
Qed.

Lemma advance_ok kt nt :
  ticks_ok nt → pick plans nt = Some kt →
  ticks_ok (advance plans kt nt) ∧ remaining (advance plans kt nt) = remaining nt - 1.
Proof.
  intros [Hnd Ht] Hp. pose proof (pick_elem _ _ Hp) as Hin. destruct kt as [k t].
  apply (dget_Some k t nt Hnd) in Hin as Hg. destruct (Ht _ _ Hg) as [Hs Hb].
  cbn [fst snd] in Hs, Hb. split.
  - split.
    + unfold advance. destruct (_ =? _); auto with lab.
    + intros k' t' Hk. rewrite (advance_dget _ _ _ Hnd Hp) in Hk. cbn [fst snd] in Hk.
      case_decide as Hd; [|by apply Ht]. subst k'. destruct (_ =? _) eqn:E; [done|].
      apply Z.eqb_neq in E. injection Hk as <-. split; [done|]. cbn [fst snd]. lia.
  - unfold advance. cbn [fst snd]. destruct (_ =? _) eqn:E.
    + apply Z.eqb_eq in E. rewrite (remaining_ddel k t) by done. lia.
    + rewrite (remaining_dset k t) by done. lia.
Qed.

Lemma remaining_nonneg nt : ticks_ok nt → 0 <= remaining nt ∧ (remaining nt = 0 → nt = []).
Proof.
  intros [Hnd Ht]. assert (∀ kt, kt ∈ nt → 0 < fp_count (plan_at plans kt.1.1) - kt.2) as Hpos.
  { intros [k t] Hin. apply (dget_Some k t nt Hnd), Ht in Hin as [_ Hin]. cbn [fst snd] in *. lia. }
  clear Hnd Ht. unfold remaining. induction nt as [|kt nt IH]; [done|].
  cbn [fmap list_fmap zsum]. pose proof (Hpos kt ltac:(by left)).
  destruct IH as [IH _]; [intros; apply Hpos; by right|]. split; [lia|]. intros. lia.
Qed.

(** The schedule serves each slot its remaining ticks in order. *)
Definition served (k : slot) (l : list (slot * Z)) : list Z := (filter (λ kt, kt.1 = k) l).*2.

Lemma schedule_served n nt k :
  ticks_ok nt → remaining nt = Z.of_nat n →
  served k (schedule n plans nt) =
    match dget k nt with Some t => seqZ t (fp_count (plan_at plans k.1) - t) | None => [] end.
Proof.
  revert nt. induction n as [|n IH]; intros nt Hok Hr; cbn [schedule].
  - apply remaining_nonneg in Hok as [_ Hn]. by rewrite Hn.
  - destruct (pick plans nt) as [kt|] eqn:Hp.
    + destruct (advance_ok kt nt Hok Hp) as [Hok' Hr'].
      unfold served in *. rewrite filter_cons. specialize (IH _ Hok' ltac:(lia)).
      rewrite (advance_dget _ _ k (proj1 Hok) Hp) in IH. destruct kt as [k0 t0]. cbn [fst snd] in *.
      apply pick_elem, (dget_Some k0 t0 nt (proj1 Hok)) in Hp.
      destruct (proj2 Hok _ _ Hp) as [_ Hb]. cbn [fst snd] in Hb.
      destruct (decide (k0 = k)) as [->|Hne].
      * rewrite decide_True in IH by done. cbn [fmap list_fmap fst snd]. rewrite IH, Hp.
        destruct (_ =? _) eqn:E.
        -- apply Z.eqb_eq in E. replace (fp_count _ - t0) with 1 by lia. done.
        -- apply Z.eqb_neq in E. rewrite (seqZ_cons t0) by lia. do 2 f_equal; lia.
      * rewrite decide_False in IH by congruence. exact IH.
    + destruct nt; [|done]. exfalso. change (remaining []) with 0 in Hr. lia.
Qed.

Lemma schedule_length n nt :
  ticks_ok nt → remaining nt = Z.of_nat n → length (schedule n plans nt) = n.
Proof.
  revert nt. induction n as [|n IH]; intros nt Hok Hr; cbn [schedule]; [done|].
  destruct (pick plans nt) as [kt|] eqn:Hp.
  - destruct (advance_ok kt nt Hok Hp). cbn. f_equal. apply IH; [done|lia].
  - destruct nt; [|done]. change (remaining []) with 0 in Hr. lia.
Qed.

(** ** Serving in time order *)

Lemma feq_rank x y : is_nan x = false → is_nan y = false →
  feq x y = match lex_compare (rank x) (rank y) with Eq => true | _ => false end.
Proof. intros Hx Hy. unfold feq, SFeqb. by rewrite SFcompare_rank. Qed.

(** A slot's times are numbers that do not decrease from tick to tick. *)
Definition times_ok : Prop :=
  ∀ k t, slot_ok (k, t) → is_nan (tick_time plans k t) = false ∧
    (slot_ok (k, t + 1) → fle (tick_time plans k t) (tick_time plans k (t + 1)) = true).

Context (Htimes : times_ok).

Lemma slot_ok_number a : slot_ok a → is_nan (tick_time plans a.1 a.2) = false.
Proof using Htimes. destruct a as [k t]. intros Ha. by destruct (Htimes k t Ha). Qed.

(** A candidate's position, compared lexicographically. *)
Definition candidate_key (kt : slot * Z) : list Z :=
  let r := rank (tick_time plans kt.1 kt.2) in let o := order_of plans kt.1 in
  [r.1.1; r.1.2; r.2; o.1; o.2].

Lemma candidate_lt_spec a b :
  slot_ok a → slot_ok b →
  candidate_lt plans a b = true ↔ lex_lt (candidate_key a) (candidate_key b).
Proof using Htimes.
  intros Ha Hb. pose proof (slot_ok_number a Ha) as Na. pose proof (slot_ok_number b Hb) as Nb.
  unfold candidate_lt, candidate_key, pair_ltb. cbv zeta. rewrite feq_rank, flt_rank by done.
  destruct (lex_compare_spec (rank (tick_time plans a.1 a.2)) (rank (tick_time plans b.1 b.2))) as [E|E|E];
    cbv iota; cbn [lex_lt]; [rewrite E| |split; [done|lia]]; [|split; [lia|done]].
  destruct (Z.eqb_spec (order_of plans a.1).1 (order_of plans b.1).1); rewrite Z.ltb_lt; lia.
Qed.

Lemma candidate_lt_trans a b c :
  slot_ok a → slot_ok b → slot_ok c →
  candidate_lt plans a b = true → candidate_lt plans b c = true → candidate_lt plans a c = true.
Proof using Htimes. intros Ha Hb Hc. rewrite !candidate_lt_spec by done. apply lex_lt_trans. Qed.

Lemma foldl_min_least best rest :
  (∀ x, x ∈ best :: rest → slot_ok x) →
  let m := foldl (λ best kt, if candidate_lt plans kt best then kt else best) best rest in
  ∀ x, x ∈ best :: rest → candidate_lt plans x m = false.
Proof using Htimes.
  cbn zeta. revert best. induction rest as [|y rest IH]; intros best Hpos x Hx; cbn [foldl].
  - apply list_elem_of_singleton in Hx as ->. specialize (Hpos best ltac:(by left)).
    apply not_true_iff_false. rewrite candidate_lt_spec by done. apply lex_lt_irrefl.
  - set (b' := if candidate_lt plans y best then y else best).
    pose proof (foldl_min_spec b' rest) as Hm. cbn zeta in Hm.
    set (m := foldl _ b' rest) in *.
    assert (∀ z, z ∈ b' :: rest → slot_ok z) as Hpos'
      by (intros z [->|Hz]%elem_of_cons; subst b'; [destruct (candidate_lt plans y best)|]; apply Hpos; set_solver).
    assert (∀ z, z ∈ b' :: rest → candidate_lt plans z m = false) as Hmin by by apply IH.
    destruct (candidate_lt plans x m) eqn:E; [|done]. exfalso.
    assert (x ≠ b' ∧ (x ∉ rest)) as [Hb Hr].
    { split; intros Hin; [subst x; rewrite Hmin in E by by left|rewrite Hmin in E by by right]; done. }
    assert (candidate_lt plans b' m = false) as Hbm by (apply Hmin; by left).
    subst b'. destruct (candidate_lt plans y best) eqn:Eyb.
    + assert (x = best) as -> by set_solver.
      rewrite (candidate_lt_trans y best m) in Hbm; [done|apply Hpos; set_solver|apply Hpos; set_solver| |done|done].
      by apply Hpos'.
    + assert (x = y) as -> by set_solver.
      assert (slot_ok y ∧ slot_ok best ∧ slot_ok m) as (P1 & P2 & P3)
        by (split_and!; [apply Hpos; set_solver|apply Hpos; set_solver|by apply Hpos']).
      apply not_true_iff_false in Hbm, Eyb. rewrite candidate_lt_spec in E, Hbm, Eyb by done.
      destruct (lex_lt_total (candidate_key best) (candidate_key y) eq_refl) as [L|[L|L]]; [|congruence|done].
      by destruct Hbm; apply (lex_lt_trans _ (candidate_key y)).
Qed.

Lemma pick_least nt kt :
  (∀ x, x ∈ nt → slot_ok x) → pick plans nt = Some kt → ∀ x, x ∈ nt → candidate_lt plans x kt = false.
Proof using Htimes.
  destruct nt as [|y nt]; [done|]. intros Hpos [= <-]. by apply foldl_min_least.
Qed.

(** The earlier of two candidates not out of order. *)
Lemma not_lt_fle a b :
  slot_ok a → slot_ok b → candidate_lt plans b a = false →
  fle (tick_time plans a.1 a.2) (tick_time plans b.1 b.2) = true.
Proof using Htimes.
  intros Ha Hb Hn. pose proof (slot_ok_number a Ha) as Na. pose proof (slot_ok_number b Hb) as Nb.
  unfold candidate_lt in Hn. cbv zeta in Hn. rewrite feq_rank, flt_rank in Hn by done. rewrite fle_rank by done.
  destruct (lex_compare_spec (rank (tick_time plans b.1 b.2)) (rank (tick_time plans a.1 a.2))) as [E|E|E].
  - rewrite E. destruct (lex_compare_spec (rank (tick_time plans a.1 a.2)) (rank (tick_time plans a.1 a.2))); [done|done|lia].
  - done.
  - destruct (lex_compare_spec (rank (tick_time plans a.1 a.2)) (rank (tick_time plans b.1 b.2))); [done|done|lia].
Qed.

Definition in_time (a b : slot * Z) : Prop :=
  fle (tick_time plans a.1 a.2) (tick_time plans b.1 b.2) = true.

Lemma schedule_in_time n nt :
  ticks_ok nt → Sorted in_time (schedule n plans nt).
Proof using Htimes.
  revert nt. induction n as [|n IH]; intros nt Hok; cbn [schedule]; [constructor|].
  destruct (pick plans nt) as [kt|] eqn:Hp; [|constructor].
  destruct (advance_ok kt nt Hok Hp) as [Hok' _]. constructor; [by apply IH|].
  assert (∀ nt, ticks_ok nt → ∀ x, x ∈ nt → slot_ok x) as Hpos.
  { intros nt' [Hnd Ht] [k t] Hx. by apply (dget_Some k t nt' Hnd), Ht in Hx. }
  destruct n as [|n]; cbn [schedule]; [constructor|].
  destruct (pick plans (advance plans kt nt)) as [kt'|] eqn:Hp'; [|constructor]. constructor.
  pose proof (pick_elem _ _ Hp) as Hin. pose proof (pick_elem _ _ Hp') as Hin'.
  pose proof (Hpos _ Hok _ Hin) as Hnn. pose proof (Hpos _ Hok' _ Hin') as Hnn'.
  destruct kt' as [k' t']. apply (dget_Some k' t' _ (proj1 Hok')) in Hin'.
  rewrite (advance_dget _ _ _ (proj1 Hok) Hp) in Hin'. unfold in_time. case_decide as Hk.
  - subst k'. destruct (_ =? _); [done|]. injection Hin' as <-. destruct kt as [k t]. by apply Htimes.
  - apply not_lt_fle; [done|done|]. apply (pick_least nt kt (Hpos _ Hok) Hp).
    by apply (dget_Some k' t' nt (proj1 Hok)).
Qed.
End schedule.

(** ** The slots of a run *)

Definition slot_entries (plans : list FlowPlan) : list (slot * (Z * Z)) :=
  enumerate plans ≫= λ '(i, p),
    (λ '(j, source), ((i, source), (i, j))) <$> enumerate (flow_source_nodes (fp_flow p)).

Lemma zsum_bind {A C} (h : C → Z) (g : A → list C) l :
  zsum (h <$> (l ≫= g)) = zsum ((λ x, zsum (h <$> g x)) <$> l).
Proof.
  induction l as [|x l IH]; [done|]. cbn [mbind list_bind fmap list_fmap zsum].
  rewrite fmap_app, zsum_app. by f_equal.
Qed.

Lemma zsum_const {A} (h : A → Z) c l : (∀ x, x ∈ l → h x = c) → zsum (h <$> l) = zlen l * c.
Proof.
  intros Hc. induction l as [|x l IH]; [done|]. cbn [fmap list_fmap zsum].
  rewrite IH by (intros; apply Hc; by right). rewrite (Hc x) by by left.
  change (x :: l) with ([x] ++ l). rewrite zlen_app. change (zlen [x]) with 1. lia.
Qed.

Lemma slot_entries_elem plans k o :
  (k, o) ∈ slot_entries plans ↔
  ∃ i p j source, plans !! i = Some p ∧ flow_source_nodes (fp_flow p) !! j = Some source ∧
    k = (Z.of_nat i, source) ∧ o = (Z.of_nat i, Z.of_nat j).
Proof.
  unfold slot_entries. rewrite list_elem_of_bind. split.
  - intros ([i p] & Hin & (i' & -> & Hp)%enumerate_elem).
    apply list_elem_of_fmap in Hin as ([j s] & [= -> ->] & (j' & -> & Hs)%enumerate_elem).
    exists i', p, j', s. done.
  - intros (i & p & j & s & Hp & Hs & -> & ->). exists (Z.of_nat i, p). split.
    + apply list_elem_of_fmap. exists (Z.of_nat j, s). split; [done|]. apply enumerate_elem. by exists j.
    + apply enumerate_elem. by exists i.
Qed.

Section slots.
Context (plans : list FlowPlan) (Hsources : ∀ p, p ∈ plans → NoDup (flow_source_nodes (fp_flow p))).

Lemma slot_entries_nodup : NoDup (slot_entries plans).*1.
Proof using Hsources.
  unfold slot_entries. rewrite fmap_bind. apply NoDup_bind.
  - intros [i p] [i' p'] k Hp Hp' Hk Hk'.
    apply list_elem_of_fmap in Hk as ([k1 o1] & -> & Hk), Hk' as ([k2 o2] & E & Hk'). cbn in E. subst k2.
    apply list_elem_of_fmap in Hk as ([j s] & [= -> _] & _), Hk' as ([j' s'] & [= -> _ _] & _).
    apply enumerate_elem in Hp as (n & Hn & Hp), Hp' as (n' & Hn' & Hp').
    assert (n = n') as -> by lia. f_equal; congruence.
  - intros [i p] (n & -> & Hp)%enumerate_elem. rewrite <-list_fmap_compose.
    erewrite list_fmap_ext;
      [|intros m x _; instantiate (1 := (λ source : string, (Z.of_nat n, source)) ∘ snd); by destruct x].
    rewrite list_fmap_compose, enumerate_snd. apply NoDup_fmap_2; [by intros ?? [=]|].
    apply Hsources. by eapply list_elem_of_lookup_2.
  - apply NoDup_enumerate.
Qed.

Lemma schedule_order_entries : schedule_order plans = slot_entries plans.
Proof using Hsources. apply dict_of_nodup, slot_entries_nodup. Qed.

Lemma plan_at_lookup i p : plans !! i = Some p → plan_at plans (Z.of_nat i) = p.
Proof using Type. intros Hp. unfold plan_at. by rewrite Nat2Z.id, Hp. Qed.

Lemma first_ticks_spec k t :
  dget k (first_ticks plans) = Some t ↔
  t = 0 ∧ ∃ i p source, plans !! i = Some p ∧ source ∈ flow_source_nodes (fp_flow p) ∧ k = (Z.of_nat i, source).
Proof using Hsources.
  assert (dict_ok (first_ticks plans)) as Hnd.
  { unfold dict_ok, first_ticks. rewrite schedule_order_entries, <-list_fmap_compose. apply slot_entries_nodup. }
  rewrite (dget_Some k t _ Hnd). unfold first_ticks. rewrite schedule_order_entries, list_elem_of_fmap. split.
  - intros ([k0 o] & [= -> ->] & (i & p & j & s & Hp & Hs & -> & ->)%slot_entries_elem).
    split; [done|]. exists i, p, s. split_and!; [done| |done]. by eapply list_elem_of_lookup_2.
  - intros (-> & i & p & s & Hp & [j Hs]%list_elem_of_lookup & ->).
    exists ((Z.of_nat i, s), (Z.of_nat i, Z.of_nat j)). split; [done|].
    apply slot_entries_elem. by exists i, p, j, s.
Qed.

Context (Hcounts : ∀ p, p ∈ plans → 1 <= fp_count p).

Lemma first_ticks_ok : ticks_ok plans (first_ticks plans).
Proof using Hsources Hcounts.
  split.
  - unfold dict_ok, first_ticks. rewrite schedule_order_entries, <-list_fmap_compose. apply slot_entries_nodup.
  - intros k t Hk. pose proof Hk as (-> & i & p & s & Hp & Hs & ->)%first_ticks_spec. split.
    + apply dget_key in Hk. unfold first_ticks in Hk. rewrite <-list_fmap_compose in Hk. exact Hk.
    + cbn [fst snd]. rewrite (plan_at_lookup _ _ Hp). apply list_elem_of_lookup_2, Hcounts in Hp. lia.
Qed.

Lemma remaining_first_ticks :
  remaining plans (first_ticks plans) =
  zsum ((λ p, zlen (flow_source_nodes (fp_flow p)) * fp_count p) <$> plans).
Proof using Hsources.
  unfold remaining, first_ticks. rewrite schedule_order_entries, <-list_fmap_compose.
  unfold slot_entries. rewrite zsum_bind.
  transitivity (zsum ((λ p, zlen (flow_source_nodes (fp_flow p)) * fp_count p) <$> (enumerate plans).*2));
    [|by rewrite enumerate_snd].
  rewrite <-list_fmap_compose. f_equal.
  apply list_fmap_ext. intros n [i p] Hin%list_elem_of_lookup_2.
  apply enumerate_elem in Hin as (m & -> & Hp). cbn [compose snd].
  rewrite <-list_fmap_compose.
  assert (zlen (enumerate (flow_source_nodes (fp_flow p))) = zlen (flow_source_nodes (fp_flow p))) as <-
    by (unfold zlen; by rewrite enumerate_length).
  apply zsum_const. intros [j s] _. cbn [compose fst snd]. rewrite (plan_at_lookup _ _ Hp). lia.
Qed.
End slots.

(** The order [_run] serves a request in. *)
Definition run_schedule `{PyRandom} (r : TrafficRunRequest) : list (slot * Z) :=
  schedule (Z.to_nat (maximum_sequence r)) (plan_run r) (first_ticks (plan_run r)).

Section run_schedule.
Context `{PyRandom} (r : TrafficRunRequest) (s : Scenario) (Hv : validate_request_nodes r s = Ok tt).

Lemma plan_run_lookup i p :
  plan_run r !! i = Some p ↔ ∃ f, scheduling_flows r !! i = Some f ∧ p = plan_flow r f.
Proof using Type.
  unfold plan_run. rewrite list_lookup_fmap. destruct (scheduling_flows r !! i) as [f|]; cbn.
  - split; [intros [= <-]; by exists f|by intros (f' & [= <-] & ->)].
  - split; [done|by intros (f' & ? & _)].
Qed.

Lemma for_each_unit {A} (f : A → unit → res unit) l x :
  for_each f l tt = Ok tt → x ∈ l → f x tt = Ok tt.
Proof using Type.
  induction l as [|y l IH]; [by intros _ ?%elem_of_nil|]. cbn [for_each]. intros Hf Hx.
  apply bind_ok_inv in Hf as ([] & Hy & Hf). apply elem_of_cons in Hx as [->|Hx]; [done|by apply IH].
Qed.

Lemma valid_flow f :
  f ∈ scheduling_flows r →
  (∀ x, x ∈ flow_source_nodes f → x ∈ node_ids s) ∧ NoDup (flow_source_nodes f).
Proof using Hv.
  intros Hf. pose proof (for_each_unit _ _ f Hv Hf) as Hok. apply validate_flow_nodes_ok in Hok.
  by destruct Hok as (? & ? & _).
Qed.

Lemma plan_run_sources p : p ∈ plan_run r → NoDup (flow_source_nodes (fp_flow p)).
Proof using Hv. intros (f & -> & Hf)%list_elem_of_fmap. by apply valid_flow. Qed.

Lemma plan_run_counts p : p ∈ plan_run r → 1 <= fp_count p.
Proof using Type.
  intros (f & -> & Hf)%list_elem_of_fmap. cbn [plan_flow fp_count].
  unfold messages_per_flow, messages_per_source. lia.
Qed.

Lemma run_ticks_ok : ticks_ok (plan_run r) (first_ticks (plan_run r)).
Proof using Hv. apply first_ticks_ok; [apply plan_run_sources|apply plan_run_counts]. Qed.

Lemma run_remaining :
  remaining (plan_run r) (first_ticks (plan_run r)) = Z.of_nat (Z.to_nat (maximum_sequence r)).
Proof using Hv.
  pose proof (proj1 (remaining_nonneg _ _ run_ticks_ok)) as Hnn.
  assert (remaining (plan_run r) (first_ticks (plan_run r)) = maximum_sequence r) as Hm; [|lia].
  rewrite remaining_first_ticks by apply plan_run_sources. unfold plan_run. by rewrite <-list_fmap_compose.
Qed.
End run_schedule.

(** C23: for a validated request the schedule is exactly what was asked for: it has
    [maximum_sequence] entries; every source of every flow is served its number of
    messages, tick by tick; nothing else is served; and, when each source's
    scheduled times are numbers that do not decrease with its ticks, the messages
    of all flows come in order of scheduled time. *)
Theorem run_schedule_complete `{PyRandom} r s :
  validate_request_nodes r s = Ok tt →
  zlen (run_schedule r) = maximum_sequence r ∧
  (∀ i f source, scheduling_flows r !! i = Some f → source ∈ flow_source_nodes f →
    served (Z.of_nat i, source) (run_schedule r) = seqZ 0 (messages_per_flow r f)) ∧
  (∀ kt, kt ∈ run_schedule r → ∃ i f, kt.1.1 = Z.of_nat i ∧ scheduling_flows r !! i = Some f ∧
    kt.1.2 ∈ flow_source_nodes f) ∧
  (times_ok (plan_run r) → Sorted (in_time (plan_run r)) (run_schedule r)).
Proof.
  intros Hv. pose proof (run_ticks_ok r s Hv) as Hok. pose proof (run_remaining r s Hv) as Hr.
  assert (0 <= maximum_sequence r) as Hnn.
  { unfold maximum_sequence. apply zsum_nonneg, Forall_fmap, Forall_true. intros f. cbn.
    unfold messages_per_flow, messages_per_source, zlen. lia. }
  assert (∀ k, served k (run_schedule r) = match dget k (first_ticks (plan_run r)) with
    | Some t => seqZ t (fp_count (plan_at (plan_run r) k.1) - t) | None => [] end) as Hserved
    by (intros k; by apply schedule_served).
  split_and!.
  - unfold run_schedule, zlen. rewrite schedule_length; [lia|done|done].
  - intros i f source Hf Hs. rewrite Hserved.
    set (k := ((Z.of_nat i, source) : slot)).
    assert (dget k (first_ticks (plan_run r)) = Some 0) as ->.
    { apply first_ticks_spec; [apply (plan_run_sources r s Hv)|]. split; [done|].
      exists i, (plan_flow r f), source. split_and!; [|done|done]. apply plan_run_lookup. by exists f. }
    cbn [k fst]. rewrite (plan_at_lookup (plan_run r) i (plan_flow r f)) by (apply plan_run_lookup; by exists f).
    by rewrite Z.sub_0_r.
  - intros [k t] Hin. specialize (Hserved k).
    assert (t ∈ served k (run_schedule r)) as Ht.
    { apply list_elem_of_fmap. exists (k, t). split; [done|]. by apply list_elem_of_filter. }
    rewrite Hserved in Ht. destruct (dget (V:=Z) (K:=slot) k _) as [t0|] eqn:Ed; [|by apply elem_of_nil in Ht].
    apply first_ticks_spec in Ed as (_ & i & p & source & Hp & Hs & ->); [|apply (plan_run_sources r s Hv)].
    apply plan_run_lookup in Hp as (f & Hf & ->). by exists i, f.
  - intros Ht. by apply schedule_in_time.
Qed.

(** Deciding the assumption on the times. *)
Definition times_check (plans : list FlowPlan) : bool :=
  forallb (λ k, forallb (λ t,
    negb (is_nan (tick_time plans k t)) &&
    ((fp_count (plan_at plans k.1) <=? t + 1) || fle (tick_time plans k t) (tick_time plans k (t + 1))))
    (seqZ 0 (fp_count (plan_at plans k.1)))) (schedule_order plans).*1.

Lemma times_check_ok plans : times_check plans = true → times_ok plans.
Proof.
  unfold times_check. intros Hc k t [Hk Ht]. cbn [fst snd] in *.
  rewrite forallb_forall in Hc. apply list_elem_of_In, Hc in Hk. rewrite forallb_forall in Hk.
  specialize (Hk t). rewrite <-list_elem_of_In, elem_of_seqZ in Hk. specialize (Hk ltac:(lia)).
  apply andb_true_iff in Hk as [Hn%negb_true_iff Hle]. split; [done|].
  intros [_ Ht']. cbn [fst snd] in Ht'. apply orb_true_iff in Hle as [Hle%Z.leb_le|Hle]; [lia|done].
Qed.

Definition demo_run_request : TrafficRunRequest :=
  mkRequest DIRECT_TEXT [] ROUND_ROBIN None (of_Z 6) 64 (of_Z 20) true ALIGNED
    [mkFlow "fast" ["a"; "b"]%string ROUND_ROBIN None (of_Z 6) ALIGNED;
     mkFlow "slow" ["c"]%string ROUND_ROBIN None (of_Z 3) EVENLY_STAGGERED] 7.

Lemma run_schedule_complete_witness :
  validate_request_nodes demo_run_request demo_nodes_scenario = Ok tt ∧
  zlen (@run_schedule sample_random demo_run_request) = 5 ∧
  served (0, "b"%string) (@run_schedule sample_random demo_run_request) = [0; 1] ∧
  Sorted (in_time (@plan_run sample_random demo_run_request)) (@run_schedule sample_random demo_run_request).
Proof.
  assert (validate_request_nodes demo_run_request demo_nodes_scenario = Ok tt) as Hv by (vm_compute; reflexivity).
  destruct (@run_schedule_complete sample_random demo_run_request demo_nodes_scenario Hv) as (W1 & W2 & _ & W4).
  split; [exact Hv|]. split; [rewrite W1; vm_compute; reflexivity|]. split.
  - change 0 with (Z.of_nat 0). rewrite (W2 0%nat (mkFlow "fast" ["a"; "b"]%string ROUND_ROBIN None (of_Z 6) ALIGNED) "b"%string);
      [vm_compute; reflexivity|reflexivity|right; left].
  - apply W4, times_check_ok. vm_compute. reflexivity.
Defined.

(** ** Generating *)

(** What one turn of the loop meets at its awaits: while sleeping and while
    sending; the clock readings; whether sending raised. *)
Record TurnEnv (W : Type) := mkTurnEnv {
  te_sleeping : W → W;
  te_now : float;
  te_fuel : nat;
  te_sending : W → W;
  te_send_error : option string;
  te_later : float }.
Arguments te_sleeping {W}. Arguments te_now {W}. Arguments te_fuel {W}.
Arguments te_sending {W}. Arguments te_send_error {W}. Arguments te_later {W}.

Section generate.
Context `{Meshtastic} `{PyText} `{PyRandom} {B : Type} `{EventSink B}.
Implicit Types (w : Controller * B) (c : Controller).

(** The local variables of the loop, and the controller. *)
Record GenState := mkGen {
  gs_next_tick : dict slot Z;
  gs_round_robin : list (dict string Z);
  gs_destinations : list rng;
  gs_packet_ids : rng;
  gs_world : Controller * B }.

Definition initial_round_robin (plans : list FlowPlan) : list (dict string Z) :=
  (λ p, dict_of ((λ source, (source, 0)) <$> flow_source_nodes (fp_flow p))) <$> plans.

Definition start_generating (r : TrafficRunRequest) (w : Controller * B) : GenState :=
  let plans := plan_run r in
  mkGen (first_ticks plans) (initial_round_robin plans) (destination_randomizers r)
    (rng_new (Z.lxor (req_seed r) PACKET_ID_RNG_SALT)) w.

(** [_submit] with its awaited send. [None]: more draws of a packet id than the fuel. *)
Definition submit_and_send (e : TurnEnv (Controller * B)) (source destination flow : string) (g : rng)
    (w : Controller * B) : option ((Controller * B) * res rng) :=
  match submit (te_fuel e) source destination flow g (te_now e) w with
  | None => None
  | Some (w, Raise x) => Some (w, Raise x)
  | Some (w, Ok (None, g)) => Some (w, Ok g)
  | Some (w, Ok (Some (packet, seq), g)) =>
    let w := te_sending e w in
    match te_send_error e with
    | None => Some (w, Ok g)
    | Some error => Some (submit_failed source (p_id packet) seq error (te_later e) w, Ok g)
    end
  end.

(** One turn for the slot and tick that are next. *)
Definition generate_turn (r : TrafficRunRequest) (plans : list FlowPlan) (kt : slot * Z)
    (e : TurnEnv (Controller * B)) (s : GenState) : option (GenState * res unit) :=
  let flow_index := Z.to_nat kt.1.1 in
  let flow := fp_flow (plan_at plans kt.1.1) in
  let w := te_sleeping e (gs_world s) in
  match gs_destinations s !! flow_index, gs_round_robin s !! flow_index with
  | Some g, Some rr =>
    match choose_destination (kind r) (flow_destination_strategy flow) (flow_fixed_destination flow)
            kt.1.2 (run_scenario w.1) g rr with
    | Raise x => Some (mkGen (gs_next_tick s) (gs_round_robin s) (gs_destinations s) (gs_packet_ids s) w, Raise x)
    | Ok (destination, (g, rr)) =>
      let destinations := <[flow_index := g]> (gs_destinations s) in
      let round_robin := <[flow_index := rr]> (gs_round_robin s) in
      match submit_and_send e kt.1.2 destination (flow_name flow) (gs_packet_ids s) w with
      | None => None
      | Some (w, Raise x) => Some (mkGen (gs_next_tick s) round_robin destinations (gs_packet_ids s) w, Raise x)
      | Some (w, Ok g) => Some (mkGen (advance plans kt (gs_next_tick s)) round_robin destinations g w, Ok tt)
      end
    end
  | _, _ => Some (s, Raise (KeyError (pretty kt.1.1)))
  end.

(** [while next_tick]; [None]: the environment ends before the loop does. *)
Fixpoint generate (r : TrafficRunRequest) (plans : list FlowPlan) (envs : list (TurnEnv (Controller * B)))
    (s : GenState) : option (GenState * res unit) :=
  match pick plans (gs_next_tick s) with
  | None => Some (s, Ok tt)
  | Some kt =>
    match envs with
    | [] => None
    | e :: envs =>
      match generate_turn r plans kt e s with
      | None => None
      | Some (s, Raise x) => Some (s, Raise x)
      | Some (s, Ok _) => generate r plans envs s
      end
    end
  end.

(** ** The run's task *)

(** What the task meets after generating. *)
Record RunEnv := mkRunEnv {
  re_turns : list (TurnEnv (Controller * B));
  re_drain_now : float;
  re_drain_turns : list ((Controller * B → Controller * B) * float);
  re_sampled : res sample_source;
  re_sampling : Controller * B → Controller * B;
  re_finish_wait : option (Controller * B → Controller * B);
  re_disk : Disk;
  re_now : float }.

Definition sample_when_configured (env : RunEnv) (w : Controller * B) : Controller * B :=
  if c_has_sampler (config w.1)
  then sample_final_failed_receptions (re_sampled env) (re_now env) (re_sampling env w) else w.

(** The [except Exception] branch. *)
Definition run_failed `{ResultText TrafficRunSummary} (env : RunEnv) (x : exn) (w : Controller * B)
    (fs : files) : (Controller * B) * files * res bool :=
  let w := (w.1 <| c_state := STOPPING |>, w.2) in
  let w := with_current (λ cur, cur <| r_failure := Some (exn_text x) |>) w in
  finish FAILED (re_finish_wait env) (re_disk env) (re_now env) w fs.

(** [_run], when it is not cancelled. *)
Definition run_task `{ResultText TrafficRunSummary} (env : RunEnv) (w : Controller * B) (fs : files)
    : option ((Controller * B) * files * res bool) :=
  match c_current w.1 with
  | None => Some (w, fs, Ok true)
  | Some cur =>
    let r := r_request cur in
    match generate r (plan_run r) (re_turns env) (start_generating r w) with
    | None => None
    | Some (s, Raise x) => Some (run_failed env x (gs_world s) fs)
    | Some (s, Ok _) =>
      let w := gs_world s in
      let w := (w.1 <| c_phase := DRAINING |>, w.2) in
      match drain (re_drain_now env) (re_drain_turns env) w with
      | None => None
      | Some w =>
        match finish COMPLETED (re_finish_wait env) (re_disk env) (re_now env)
                (sample_when_configured env w) fs with
        | (w, fs, Raise x) => Some (run_failed env x w fs)
        | done => Some done
        end
      end
    end
  end.
End generate.
