(* ===== verification/RunGeneration.v ===== *)
(** * A run generates what was asked for

    An accepted run's loop never raises: it submits the messages of the schedule,
    in order, whatever is reported while it sleeps and sends. *)
From Stdlib Require Import Floats.SpecFloat.
From S2P Require Import Prelude PyDict PyFloat PyDecimal Scenario Mesh Airtime Events Calculations.
From S2P Require Import TrafficRequest Identifier PacketIds TrafficState TrafficHandlers.
From S2P Require Import RunInvariant RunAccounting TrafficLifecycle RunTheorems RunClosing RunSchedule.

(** What is fixed when a message is created. *)
Definition static (g : GeneratedMessage) : Z * string * string * string * Z :=
  (g_sequence g, g_flow g, g_source g, g_destination g, g_packet_id g).

Definition statics (c : Controller) : option (list (Z * string * string * string * Z)) :=
  (λ cur, static <$> r_messages cur) <$> c_current c.

(** The same messages, up to their outcomes. *)
Definition same_messages (c c' : Controller) : Prop :=
  a_sequence (acc c') = a_sequence (acc c) ∧ statics c' = statics c.

#[export] Instance same_messages_preorder : PreOrder same_messages.
Proof. split; [by intros c|]. intros a b c [H1 H2] [H3 H4]. split; congruence. Qed.

Section generation.
Context `{Meshtastic} `{!MeshtasticLaws} `{PyText} `{PyRandom} `{!PyRandomLaws} {B : Type} `{EventSink B}.
Implicit Types (w : Controller * B) (c : Controller) (cur : TrafficRunResult).

Lemma same_with_acc f w c :
  (∀ a, a_sequence (f a) = a_sequence a) → same_messages c w.1 → same_messages c (with_acc f w).1.
Proof.
  intros Hf Hs. etrans; [exact Hs|]. split; [|done]. apply (Hf (acc w.1)).
Qed.

Lemma same_with_current f w c :
  (∀ cur, static <$> r_messages (f cur) = static <$> r_messages cur) →
  same_messages c w.1 → same_messages c (with_current f w).1.
Proof.
  intros Hf Hs. etrans; [exact Hs|]. split; [done|]. unfold statics.
  change (c_current (with_current f w).1) with (f <$> c_current w.1).
  destruct (c_current w.1) as [cur|]; [|done]. cbn. by rewrite Hf.
Qed.

Lemma same_publish v r now w c :
  same_messages c w.1 → same_messages c (publish_metric_update v r now w).1.
Proof. by rewrite publish_metric_update_fst. Qed.

Lemma same_identity_lookup packet t c c0 :
  same_messages c0 c → same_messages c0 (message_for_packet_identity packet t c).2.
Proof.
  intros Hs. unfold message_for_packet_identity. cbv zeta. destruct (_ ≫= _); [|exact Hs].
  etrans; [exact Hs|]. by split.
Qed.

Lemma static_modify seq f ms : (∀ g, static (f g) = static g) → static <$> modify_message seq f ms = static <$> ms.
Proof. apply modify_message_fmap. Qed.

Lemma same_failed seq error w c : same_messages c w.1 → same_messages c (mark_failed seq error w).1.
Proof.
  intros Hs. unfold mark_failed. apply same_with_current; [done|]. apply same_with_acc; [done|].
  apply same_with_current; [intros ?; by apply static_modify|done].
Qed.

Lemma same_submitted seq w c : same_messages c w.1 → same_messages c (mark_submitted seq w).1.
Proof.
  intros Hs. unfold mark_submitted. apply same_with_current; [done|]. apply same_with_acc; [done|].
  apply same_with_current; [intros ?; by apply static_modify|done].
Qed.

Lemma same_resolve source seq error now w c :
  same_messages c w.1 → same_messages c (resolve_submission source seq error now w).1.
Proof.
  intros Hs. unfold resolve_submission. destruct (c_current w.1) as [cur|]; [|done].
  destruct (message_at seq cur) as [g|]; [|done]. destruct (_ || _); [done|]. cbv zeta.
  rewrite publish_event_fst. apply same_publish, same_with_acc; [done|].
  destruct error; [by apply same_failed|by apply same_submitted].
Qed.

Ltac same_run :=
  repeat first
    [ assumption | reflexivity
    | match goal with |- context [(publish_event _ _).1] => rewrite publish_event_fst end
    | apply same_publish | apply same_resolve | apply same_with_acc; [done|]
    | apply same_with_current; [intros ?; first [done|by apply static_modify]|]
    | match goal with
      | |- context [match ?x with _ => _ end] => destruct x
      | |- context [if ?x then _ else _] => destruct x
      end ].

Lemma same_queue_status node_id status now w : same_messages w.1 (record_queue_status node_id status now w).1.
Proof.
  unfold record_queue_status. cbv zeta. destruct (_ =? 0); [done|]. destruct (dget _ _); [|done].
  destruct (_ || _); same_run.
Qed.

Lemma same_text node_id packet now w : same_messages w.1 (handle_text node_id packet now w).1.
Proof.
  unfold handle_text.
  assert (same_messages w.1 (correlated_delivery_message packet w.1).2) as Hs.
  { unfold correlated_delivery_message. destruct (c_current w.1); [|done].
    destruct (traffic_identifier_from_packet packet) as [[run_id n]|]; [|done]. case_decide; [|done].
    pose proof (same_identity_lookup packet None w.1 w.1 ltac:(done)) as Hs.
    by destruct (message_for_packet_identity _ _ _) as [[seq|] c]. }
  destruct (correlated_delivery_message packet w.1) as [found c]. cbn [snd] in Hs.
  destruct (c_current c) as [cur|]; [|done]. destruct (found ≫= _) as [[seq g]|]; [|done].
  destruct (_ || _); [done|]. case_bool_decide; [destruct (c_has_sampler _); [done|]|].
  - unfold publish_duplicates. same_run.
  - cbv zeta. rewrite publish_event_fst, publish_metric_update_fst. apply same_with_acc; [done|].
    unfold record_delivery. cbv zeta. apply same_with_acc; [done|]. same_run.
Qed.

Lemma same_rejection source seq reason now w :
  same_messages w.1 (record_pretransmission_rejection source seq reason now w).1.
Proof.
  unfold record_pretransmission_rejection. destruct (c_current w.1) as [cur|]; [|done].
  destruct (message_at seq cur) as [g|]; [|done]. destruct (bool_decide _); [done|]. cbv zeta.
  rewrite publish_event_fst, publish_metric_update_fst. apply same_with_acc; [done|]. apply same_failed.
  destruct (g_submitted g); [|by apply same_with_acc].
  apply same_with_current; [done|]. apply same_with_acc; [done|].
  apply same_with_current; [intros ?; by apply static_modify|]. by apply same_with_acc.
Qed.

Lemma same_routing node_id packet d now w : same_messages w.1 (handle_routing node_id packet d now w).1.1.
Proof.
  unfold handle_routing. destruct (c_current w.1) as [cur|]; [|done].
  destruct (dget node_id _) as [origin|]; [|done]. destruct (messages_by_packet _ !! _) as [seq|]; [|done].
  destruct (message_at seq cur) as [g|]; [|done]. destruct (parse_routing _) as [error|]; [|done]. cbv zeta.
  destruct (negb _ && negb _); [done|].
  match goal with |- context [if ?b then record_pretransmission_rejection ?s ?q ?r ?n ?v else ?x] =>
    assert (same_messages w.1 (if b then record_pretransmission_rejection s q r n v else x).1) as Hs
      by (destruct b; [apply same_rejection|done]);
    set (w' := if b then record_pretransmission_rejection s q r n v else x) in * end.
  destruct (error =? ROUTING_ERROR_NONE).
  - destruct (acknowledgment_origin_ok _ _ _ _ _) as [[]|]; [|exact Hs..].
    cbn [fst]. unfold record_acknowledgment. destruct (g_acknowledged g); same_run.
  - destruct (routing_error_name error) as [name|]; [|exact Hs].
    cbn [fst]. unfold record_routing_error, publish_drops. same_run.
Qed.

Lemma report_same w w' : report w w' → same_messages w.1 w'.1.
Proof.
  destruct 1.
  - unfold record_rf_transmission. destruct (c_current w.1) as [cur|]; [|done]. destruct (negb _); [done|].
    pose proof (same_identity_lookup packet (Some transmitter) w.1 w.1 ltac:(done)) as Hs.
    destruct (message_for_packet_identity _ _ _) as [found c]. cbn [snd] in Hs. cbv zeta.
    destruct (found ≫= _) as [[seq g]|]; [|done]. destruct (negb (g_submitted g)); [done|].
    destruct (g_transmitted g); destruct (dget _ _); try destruct (negb _); cbn [fst]; same_run.
  - unfold record_drop, publish_drops. destruct (c_current w.1) as [cur|]; [|done]. destruct (negb _); [done|].
    pose proof (same_identity_lookup packet (Some transmitter) w.1 w.1 ltac:(done)) as Hs.
    destruct (message_for_packet_identity _ _ _) as [found c]. cbn [snd] in Hs. cbv zeta.
    destruct (found ≫= _) as [g|]; [|done]. destruct (negb (g_submitted g)); [done|]. same_run.
  - unfold record_failed_receptions. destruct (c_current w.1) as [cur|]; [|done]. destruct (negb _); [done|].
    cbv zeta. destruct (_ !! _); [destruct (_ =? 0)|]; same_run.
  - unfold record_duplicate_receptions, publish_duplicates. destruct (c_current w.1) as [cur|]; [|done].
    destruct (negb _); [done|]. cbv zeta. destruct (_ !! _); [destruct (_ =? 0)|]; same_run.
  - unfold record_topology_change. destruct (c_current w.1) as [cur|]; [|done]. destruct (negb _); [done|].
    destruct (ensure_topology_change_capacity 1 w.1); cbn [fst]; same_run.
  - unfold set_event_loop_lag. destruct (c_current w.1) as [cur|]; [|done].
    destruct (accepts_run_events _ _); [|done]. same_run.
  - unfold handle_from_radio. destruct (c_current w.1) as [cur|] eqn:Ec; [|done]. destruct (negb _); [done|].
    destruct message as [packet|status| |]; [|apply same_queue_status|done..].
    destruct (p_payload packet) as [d| |]; [|done..].
    destruct (_ =? _); [apply same_text|]. destruct (_ && _); [apply same_routing|done].
Qed.

(** ** Submitting one message *)

Lemma padded_length m size : zlen m <= size → zlen (padded m size) = size.
Proof. intros Hm. unfold padded. rewrite zlen_app. unfold zlen in *. rewrite repeat_length. lia. Qed.

Lemma note_packet_size_submission cur s packet_id to from payload w :
  validate_preset (rf s) = Ok (rf s) → zlen payload <= 233 →
  ∃ w', note_packet_size (submission_packet cur s packet_id to from payload) (modem_preset (rf s)) w =
    (w', Ok tt) ∧ same_messages w.1 w'.1.
Proof.
  intros Hp Hl. unfold note_packet_size.
  set (d := mkData TEXT_MESSAGE_APP payload false 0 []).
  pose proof (text_size payload) as Hs. fold d in Hs.
  assert (mesh_packet_payload_length (submission_packet cur s packet_id to from payload) =
    Ok (data_size d + MESH_PACKET_HEADER_BYTES)) as ->.
  { unfold mesh_packet_payload_length, submission_packet. cbn [p_payload]. fold d. cbn [portnum d].
    by rewrite (proj2 (Z.eqb_neq _ _) text_not_simulator). }
  destruct (preset_airtime (rf s) (data_size d + MESH_PACKET_HEADER_BYTES) Hp) as (air & delay & -> & -> & _).
  { unfold MESH_PACKET_HEADER_BYTES, LENGTH_BOUND. lia. }
  cbv zeta. eexists. split; [reflexivity|]. same_run.
Qed.

(** What the loop relies on at each submission. *)
Record ready (r : TrafficRunRequest) (s : Scenario) (source destination : string) (c : Controller)
    (cur : TrafficRunResult) : Prop := {
  rd_ok : run_ok c cur;
  rd_request : r_request cur = r;
  rd_scenario : run_scenario c = s;
  rd_preset : validate_preset (rf s) = Ok (rf s);
  rd_size : payload_bytes r <= 233;
  rd_marker : zlen (marker (r_run_id cur) (a_sequence (acc c) + 1)) <= payload_bytes r;
  rd_source : is_Some (dget source (c_hardware_ids (config c)));
  rd_destination : destination = "broadcast"%string ∨ is_Some (dget destination (c_hardware_ids (config c))) }.

Lemma submit_registers r s fuel source destination flow g now w cur :
  ready r s source destination w.1 cur →
  is_Some (allocate_packet_id fuel source now g (c_packet_ids w.1)) →
  ∃ w' packet g', submit fuel source destination flow g now w =
      Some (w', Ok (Some (packet, a_sequence (acc w.1) + 1), g')) ∧
    a_sequence (acc w'.1) = a_sequence (acc w.1) + 1 ∧
    statics w'.1 = (λ l, l ++ [(a_sequence (acc w.1) + 1, flow, source, destination, p_id packet)]) <$> statics w.1.
Proof.
  intros [Hok Hr Hsc Hp Hsz Hm Hsrc Hdst] [[[packet_id g'] ids] Ha].
  unfold submit. rewrite (ro_current _ _ Hok). cbv zeta.
  set (w1 := with_acc (λ a, a <| a_sequence := a_sequence a + 1 |>) w).
  change (a_sequence (acc w1.1)) with (a_sequence (acc w.1) + 1).
  change (c_packet_ids w1.1) with (c_packet_ids w.1). change (config w1.1) with (config w.1).
  rewrite Hr, (proj2 (Z.ltb_ge _ _) Hm), Ha. cbn [mbind option_bind].
  set (w2 := (w1.1 <| c_packet_ids := ids |>, w1.2)). change (config w2.1) with (config w.1).
  change (run_scenario w2.1) with (run_scenario w.1). rewrite Hsc.
  assert (is_Some (if decide (destination = "broadcast"%string) then Some 0xFFFFFFFF
    else dget destination (c_hardware_ids (config w.1)))) as [to ->]
    by (case_decide; [by eexists|by destruct Hdst]).
  destruct Hsrc as [hw ->].
  match goal with |- context [register_message ?x ?y ?z ?t] => set (m := x); set (w3 := register_message m y z t) end.
  pose proof (register_message_fst m hw now w2 cur (ro_current _ _ Hok) (ro_live _ _ Hok)) as Hw3. fold w3 in Hw3.
  assert (run_scenario w3.1 = s) as -> by (by rewrite Hw3).
  destruct (note_packet_size_submission cur s packet_id to hw
    (padded (marker (r_run_id cur) (a_sequence (acc w.1) + 1)) (payload_bytes r)) w3 Hp) as (w4 & -> & Hs4).
  { by rewrite padded_length. }
  eexists _, _, _. split; [reflexivity|].
  assert (same_messages w3.1 (with_acc (note_activity now) w4).1) as [E1 E2] by (by apply same_with_acc).
  rewrite E1, E2, Hw3. split; [reflexivity|]. unfold statics.
  cbn [set_field c_current eta_Controller fmap option_fmap option_map].
  rewrite (ro_current _ _ Hok). cbn [fmap option_fmap option_map r_messages set_field eta_TrafficRunResult].
  by rewrite fmap_app.
Qed.

(** ** One turn of the loop *)

(** Reports only, with rate-limit answers going to the submitting node. *)
Definition reports_only (f : Controller * B → Controller * B) : Prop :=
  ∀ w, rtc (λ w w', report w w' ∧ run_step w w') w (f w).

(** The same run, further on. *)
Definition keeps (c : Controller) (cur : TrafficRunResult) (c' : Controller) (cur' : TrafficRunResult) : Prop :=
  run_ok c' cur' ∧ fixed_part cur' = fixed_part cur ∧ r_request cur' = r_request cur ∧
  flags c' = flags c ∧ run_scenario c' = run_scenario c.

Lemma keeps_trans c cur c1 cur1 c2 cur2 :
  keeps c cur c1 cur1 → keeps c1 cur1 c2 cur2 → keeps c cur c2 cur2.
Proof. intros (K1 & K2 & K3 & K4 & K5) (L1 & L2 & L3 & L4 & L5). split; [done|]. split_and!; congruence. Qed.

Lemma continues_keeps c cur c' : continues c cur c' → ∃ cur', keeps c cur c' cur'.
Proof. intros (cur' & Hok & I1 & I2 & I3 & _ & I5 & _). exists cur'. by split_and!. Qed.

Lemma reports_only_keeps f w cur :
  run_ok w.1 cur → reports_only f →
  ∃ cur', keeps w.1 cur (f w).1 cur' ∧ same_messages w.1 (f w).1.
Proof.
  intros Hok Hf. specialize (Hf w). generalize (f w), Hf. intros w' Hs. clear Hf.
  revert cur Hok. induction Hs as [w|w1 w2 w3 [Hr Hst] Hs IH]; intros cur Hok.
  - exists cur. by split_and!.
  - destruct (continues_keeps _ _ _ (run_step_ok w1 w2 cur Hok Hst)) as (cur2 & K2).
    destruct (IH cur2 (proj1 K2)) as (cur3 & K3 & M3). exists cur3.
    split; [by eapply keeps_trans|]. etrans; [by apply report_same|exact M3].
Qed.

Lemma statics_message c cur x :
  run_ok c cur → (∃ l, statics c = Some l ∧ x ∈ l) →
  ∃ g, message_at x.1.1.1.1 cur = Some g ∧ static g = x.
Proof.
  intros Hok (l & Hl & Hx). unfold statics in Hl. rewrite (ro_current _ _ Hok) in Hl. injection Hl as <-.
  apply list_elem_of_fmap in Hx as (g & -> & Hg). exists g. split; [|done].
  by apply find_message_unique; [apply (ro_acc _ _ Hok)| |].
Qed.

Lemma same_submit_failed source packet_id seq error now w :
  same_messages w.1 (submit_failed source packet_id seq error now w).1.
Proof. unfold submit_failed. cbv zeta. apply same_resolve. by apply same_with_acc. Qed.

Lemma submit_and_send_ok r s e source destination flow g w cur :
  ready r s source destination w.1 cur → reports_only (te_sending e) →
  is_Some (allocate_packet_id (te_fuel e) source (te_now e) g (c_packet_ids w.1)) →
  ∃ w' g' packet_id cur', submit_and_send e source destination flow g w = Some (w', Ok g') ∧
    keeps w.1 cur w'.1 cur' ∧ a_sequence (acc w'.1) = a_sequence (acc w.1) + 1 ∧
    statics w'.1 = (λ l, l ++ [(a_sequence (acc w.1) + 1, flow, source, destination, packet_id)]) <$> statics w.1.
Proof.
  intros Hrd Hq Ha. destruct (submit_registers _ _ _ _ _ flow _ _ _ _ Hrd Ha) as (w1 & packet & g' & Hs & E1 & E2).
  destruct (continues_keeps _ _ _ (submit_ok _ _ _ _ _ _ _ _ _ _ (rd_ok _ _ _ _ _ _ Hrd) Hs)) as (cur1 & K1).
  destruct (reports_only_keeps (te_sending e) w1 cur1 (proj1 K1) Hq) as (cur2 & K2 & [M1 M2]).
  pose proof (keeps_trans _ _ _ _ _ _ K1 K2) as K. unfold submit_and_send. rewrite Hs. cbv zeta.
  destruct (te_send_error e) as [error|].
  - set (w2 := te_sending e w1) in *.
    destruct (statics_message w2.1 cur2 (a_sequence (acc w.1) + 1, flow, source, destination, p_id packet))
      as (m & Hm & Hst); [apply K2| |].
    { rewrite M2, E2. unfold statics. rewrite (ro_current _ _ (rd_ok _ _ _ _ _ _ Hrd)).
      eexists. split; [reflexivity|]. apply elem_of_app. right. by left. }
    injection Hst as _ _ H3' _ H5'.
    assert (msg_key m = (source, p_id packet)) as Hk by (unfold msg_key; congruence).
    destruct (continues_keeps _ _ _ (submit_failed_ok source (p_id packet) _ error (te_later e) w2 cur2 m
      (proj1 K2) Hm Hk)) as (cur3 & K3).
    destruct (same_submit_failed source (p_id packet) (a_sequence (acc w.1) + 1) error (te_later e) w2) as [N1 N2].
    eexists _, g', (p_id packet), cur3. split; [reflexivity|]. split; [by eapply keeps_trans|]. split; congruence.
  - eexists _, g', (p_id packet), cur2. split; [reflexivity|]. split; [exact K|]. split; congruence.
Qed.

(** ** The whole loop *)

(** What an accepted start, the scenario's validation and the service's table of
    hardware ids provide. *)
Record accepted (r : TrafficRunRequest) (s : Scenario) (run_id : string) (hw : dict string Z) : Prop := {
  ac_nodes : validate_request_nodes r s = Ok tt;
  ac_request : request_valid r = true;
  ac_marker : ∀ seq, 1 <= seq <= maximum_sequence r → zlen (marker run_id seq) <= payload_bytes r;
  ac_distinct : NoDup (node_ids s);
  ac_two : 2 <= zlen (node_ids s);
  ac_preset : validate_preset (rf s) = Ok (rf s);
  ac_hardware : ∀ n, n ∈ node_ids s → is_Some (dget n hw) }.

(** Every turn draws a free packet id within its fuel. *)
Fixpoint draws_suffice (r : TrafficRunRequest) (plans : list FlowPlan)
    (envs : list (TurnEnv (Controller * B))) (st : GenState (B:=B)) : bool :=
  match pick plans (gs_next_tick st), envs with
  | Some kt, e :: envs =>
    bool_decide (is_Some (allocate_packet_id (te_fuel e) kt.1.2 (te_now e) (gs_packet_ids st)
                            (c_packet_ids (te_sleeping e (gs_world st)).1))) &&
    match generate_turn r plans kt e st with
    | Some (st, Ok _) => draws_suffice r plans envs st
    | _ => true
    end
  | _, _ => true
  end.

(** Flow and source of a message, and of a slot. *)
Definition origins (c : Controller) : list (string * string) :=
  (λ x, (x.1.1.1.2, x.1.1.2)) <$> default [] (statics c).
Definition slot_origin (plans : list FlowPlan) (kt : slot * Z) : string * string :=
  (flow_name (fp_flow (plan_at plans kt.1.1)), kt.1.2).

Section accepted.
Context (r : TrafficRunRequest) (s : Scenario) (run_id : string) (cfg : Config) (done_flag : bool).
Context (Hacc : accepted r s run_id (c_hardware_ids cfg)).

Record generating (st : GenState (B:=B)) (cur : TrafficRunResult) : Prop := {
  gn_ok : run_ok (gs_world st).1 cur;
  gn_request : r_request cur = r;
  gn_run_id : r_run_id cur = run_id;
  gn_failure : r_failure cur = None;
  gn_scenario : run_scenario (gs_world st).1 = s;
  gn_config : config (gs_world st).1 = cfg;
  gn_done : finalization_done (gs_world st).1 = done_flag;
  gn_ticks : ticks_ok (plan_run r) (gs_next_tick st);
  gn_sequence : a_sequence (acc (gs_world st).1) = maximum_sequence r - remaining (plan_run r) (gs_next_tick st);
  gn_flows : ∀ i p, plan_run r !! i = Some p →
    is_Some (gs_destinations st !! i) ∧
    ∃ rr, gs_round_robin st !! i = Some rr ∧
      ∀ source, source ∈ flow_source_nodes (fp_flow p) → is_Some (dget source rr) }.

Lemma start_generating_ok w cur :
  run_ok w.1 cur → r_request cur = r → r_run_id cur = run_id → r_failure cur = None → run_scenario w.1 = s →
  config w.1 = cfg → finalization_done w.1 = done_flag → a_sequence (acc w.1) = 0 →
  generating (start_generating r w) cur.
Proof using Hacc.
  intros Hok Hr Hi Hfl Hs Hh Hfd Hseq. pose proof (run_remaining r s (ac_nodes _ _ _ _ Hacc)) as Hrem.
  pose proof (run_ticks_ok r s (ac_nodes _ _ _ _ Hacc)) as Hticks.
  pose proof (proj1 (remaining_nonneg _ _ Hticks)) as Hnn.
  split; try done; cbn [start_generating gs_world gs_next_tick gs_destinations gs_round_robin].
  - rewrite Hseq. rewrite remaining_first_ticks in * by apply (plan_run_sources r s (ac_nodes _ _ _ _ Hacc)).
    unfold plan_run in *. rewrite <-list_fmap_compose in *. unfold maximum_sequence, compose. cbn. lia.
  - intros i p Hp. apply plan_run_lookup in Hp as (f & Hf & ->). split.
    + unfold destination_randomizers. rewrite list_lookup_fmap, Hf. by eexists.
    + unfold initial_round_robin, plan_run. rewrite !list_lookup_fmap, Hf. eexists. split; [reflexivity|].
      intros source Hsrc. apply dget_is_Some, dict_of_keys. rewrite <-list_fmap_compose.
      apply list_elem_of_fmap. by exists source.
Qed.

Lemma flags_config c c' : flags c' = flags c → config c' = config c.
Proof using Type. unfold flags. by intros [= _ _ _ _ _ _ ->]. Qed.

(** The next slot is a source of one of the request's flows. *)
Lemma next_slot st cur kt :
  generating st cur → pick (plan_run r) (gs_next_tick st) = Some kt →
  ∃ i f source t, kt = ((Z.of_nat i, source), t) ∧ scheduling_flows r !! i = Some f ∧
    source ∈ flow_source_nodes f ∧ dget (K:=slot) (Z.of_nat i, source) (gs_next_tick st) = Some t.
Proof using Hacc.
  intros Hg Hp%pick_elem. destruct kt as [k t].
  apply (dget_Some k t _ (proj1 (gn_ticks _ _ Hg))) in Hp.
  destruct (proj2 (gn_ticks _ _ Hg) _ _ Hp) as [Hk _]. cbn [fst] in Hk.
  rewrite schedule_order_entries in Hk by apply (plan_run_sources r s (ac_nodes _ _ _ _ Hacc)).
  apply list_elem_of_fmap in Hk as ([k' o] & -> & (i & p & j & source & Hpl & Hs & -> & _)%slot_entries_elem).
  apply plan_run_lookup in Hpl as (f & Hf & ->). exists i, f, source, t.
  split; [done|]. split; [done|]. split; [by eapply list_elem_of_lookup_2|exact Hp].
Qed.

Lemma generate_turn_ok st cur kt e :
  generating st cur → pick (plan_run r) (gs_next_tick st) = Some kt →
  reports_only (te_sleeping e) → reports_only (te_sending e) →
  is_Some (allocate_packet_id (te_fuel e) kt.1.2 (te_now e) (gs_packet_ids st)
             (c_packet_ids (te_sleeping e (gs_world st)).1)) →
  ∃ st' cur', generate_turn r (plan_run r) kt e st = Some (st', Ok tt) ∧ generating st' cur' ∧
    gs_next_tick st' = advance (plan_run r) kt (gs_next_tick st) ∧
    origins (gs_world st').1 = origins (gs_world st).1 ++ [slot_origin (plan_run r) kt].
Proof using All.
  intros Hg Hp Hq1 Hq2 Ha. destruct Hacc as [Hv Hreq Hmark Hnd Htwo Hpre Hhw].
  set (plans := plan_run r) in *.
  destruct (advance_ok plans kt _ (gn_ticks _ _ Hg) Hp) as [Hticks' Hrem'].
  pose proof (proj1 (remaining_nonneg _ _ Hticks')) as Hnn.
  assert (maximum_sequence r = remaining plans (first_ticks plans)) as Hmax.
  { rewrite remaining_first_ticks by apply (plan_run_sources r s Hv). unfold plans, plan_run. by rewrite <-list_fmap_compose. }
  destruct (next_slot st cur kt Hg Hp) as (i & f & source & t & -> & Hf & Hsrc & Ht).
  pose proof (proj2 (plan_run_lookup r i (plan_flow r f)) (ex_intro _ f (conj Hf eq_refl))) as Hpl.
  fold plans in Hpl.
  destruct (gn_flows _ _ Hg i _ Hpl) as ([g Hd] & rr & Hrr & Hkeys).
  destruct (reports_only_keeps (te_sleeping e) (gs_world st) cur (gn_ok _ _ Hg) Hq1) as (cur1 & K1 & [M1 M2]).
  cbn [fst snd] in Ha.
  unfold generate_turn. cbn [fst snd]. rewrite Nat2Z.id, Hd, Hrr, (plan_at_lookup plans i _ Hpl).
  cbn [fp_flow plan_flow]. set (w1 := te_sleeping e (gs_world st)) in *. cbv zeta.
  destruct K1 as (K1 & K2 & K3 & K4 & K5).
  assert (run_scenario w1.1 = s) as Hs1 by (rewrite K5; apply Hg).
  assert (config w1.1 = cfg) as Hh1 by (rewrite (flags_config _ _ K4); apply Hg).
  rewrite Hs1.
  assert (validate_flow_nodes (kind r) (node_ids s) f = Ok tt) as Hvf.
  { exact (for_each_unit _ _ f Hv (list_elem_of_lookup_2 _ _ _ Hf)). }
  destruct (Hkeys source Hsrc) as [count Hcount].
  apply andb_true_iff in Hreq as [Hfields Hvalid].
  assert (validate_request r = Ok r) as Hvr.
  { apply is_ok_inv in Hvalid as [r' Hr']. pose proof Hr' as Hr2. unfold validate_request in Hr2.
    do 5 inv_bind Hr2. injection Hr2 as <-. exact Hr'. }
  destruct (choose_destination_facts (kind r) s f source g rr count Hvf Hsrc) as (d & g' & rr' & Hcd & Hdd);
    [intros Hk Hfx; by eapply valid_request_fixed; eauto using list_elem_of_lookup_2|done|done|done|].
  rewrite Hcd.
  assert (ready r s source d w1.1 cur1) as Hready.
  { split; [done|rewrite K3; apply Hg|done|done| | | |].
    - unfold request_fields_ok in Hfields. rewrite !andb_true_iff, !Z.leb_le in Hfields. lia.
    - rewrite M1, (gn_sequence _ _ Hg). injection K2 as K2 _ _ _. rewrite K2, (gn_run_id _ _ Hg).
      fold plans. apply Hmark. pose proof (ro_next _ _ (gn_ok _ _ Hg)) as Hnx.
      rewrite (gn_sequence _ _ Hg) in Hnx. fold plans in Hnx. lia.
    - rewrite Hh1. apply Hhw, (valid_flow r s Hv f); [by eapply list_elem_of_lookup_2|done].
    - rewrite Hh1. destruct (kind r); [left; apply Hdd|right; apply Hhw, Hdd]. }
  destruct (submit_and_send_ok _ _ e source d (flow_name f) (gs_packet_ids st) w1 cur1 Hready Hq2 Ha)
    as (w2 & g2 & packet_id & cur2 & -> & K & N1 & N2).
  destruct (keeps_trans _ _ _ _ _ _ (conj K1 (conj K2 (conj K3 (conj K4 K5)))) K) as (L1 & L2 & L3 & L4 & L5).
  eexists _, cur2. split; [reflexivity|]. split; [|split; [reflexivity|]].
  - injection L2 as L2 Lf _ _.
    split; cbn [gs_world gs_next_tick gs_destinations gs_round_robin]; fold plans; try done.
    + rewrite L3. apply Hg.
    + rewrite L2. apply Hg.
    + rewrite Lf. apply Hg.
    + rewrite L5. apply Hg.
    + rewrite (flags_config _ _ L4). apply Hg.
    + apply flags_inv in L4 as (_ & _ & ->). apply Hg.
    + rewrite N1, M1, (gn_sequence _ _ Hg). fold plans. lia.
    + intros i' p' Hp'. destruct (gn_flows _ _ Hg i' p' Hp') as ([g0 Hd'] & rr0 & Hrr0 & Hk0).
      assert (∀ x, is_Some (dget x rr) → is_Some (dget x rr')) as Hrk.
      { intros x Hx. destruct (kind r); [by destruct Hdd as (_ & _ & ->)|].
        destruct Hdd as (_ & _ & Hdd). destruct (flow_destination_strategy f);
          [by destruct Hdd as (_ & _ & ->)|destruct Hdd as (_ & _ & ->)|by destruct Hdd as (_ & ->)].
        rewrite dget_dset. case_decide; [by eexists|done]. }
      destruct (decide (i' = i)) as [->|Hne].
      * rewrite !list_lookup_insert_eq by (by eapply lookup_lt_Some). split; [by eexists|].
        exists rr'. split; [done|]. intros x Hx. apply Hrk. rewrite Hrr in Hrr0. injection Hrr0 as ->. by apply Hk0.
      * rewrite !list_lookup_insert_ne by done. split; [by eexists|]. by exists rr0.
  - unfold origins, slot_origin. cbn [gs_world]. rewrite N2, M2. cbn [fst snd].
    rewrite (plan_at_lookup plans i _ Hpl). unfold statics. rewrite (ro_current _ _ (gn_ok _ _ Hg)).
    exact (fmap_app _ (static <$> r_messages cur) [_]).
Qed.

Lemma generate_ok envs st cur :
  generating st cur → remaining (plan_run r) (gs_next_tick st) <= zlen envs →
  (∀ e, e ∈ envs → reports_only (te_sleeping e) ∧ reports_only (te_sending e)) →
  draws_suffice r (plan_run r) envs st = true →
  ∃ st' cur', generate r (plan_run r) envs st = Some (st', Ok tt) ∧ generating st' cur' ∧
    gs_next_tick st' = [] ∧
    origins (gs_world st').1 = origins (gs_world st).1 ++
      (slot_origin (plan_run r) <$>
         schedule (Z.to_nat (remaining (plan_run r) (gs_next_tick st))) (plan_run r) (gs_next_tick st)).
Proof using All.
  revert st cur. induction envs as [|e envs IH]; intros st cur Hg Hlen Hq Hd;
    cbn [generate draws_suffice] in *; destruct (pick (plan_run r) (gs_next_tick st)) as [kt|] eqn:Hp.
  - exfalso. destruct (advance_ok _ kt _ (gn_ticks _ _ Hg) Hp) as [Hticks' Hrem'].
    pose proof (proj1 (remaining_nonneg _ _ Hticks')). change (zlen []) with 0 in Hlen. lia.
  - exists st, cur. split; [done|]. split; [done|].
    assert (gs_next_tick st = []) as -> by (by destruct (gs_next_tick st)).
    split; [done|]. cbn. by rewrite app_nil_r.
  - destruct (advance_ok _ kt _ (gn_ticks _ _ Hg) Hp) as [Hticks' Hrem'].
    pose proof (proj1 (remaining_nonneg _ _ Hticks')) as Hnn.
    apply andb_true_iff in Hd as [Ha%bool_decide_eq_true Hd]. destruct (Hq e ltac:(by left)) as [Hq1 Hq2].
    destruct (generate_turn_ok st cur kt e Hg Hp Hq1 Hq2 Ha) as (st1 & cur1 & Ht & Hg1 & Hn1 & Ho1).
    rewrite Ht in Hd |- *.
    destruct (IH st1 cur1 Hg1) as (st2 & cur2 & Hgen & Hg2 & Hn2 & Ho2); [| |exact Hd|].
    + rewrite Hn1, Hrem'. change (e :: envs) with ([e] ++ envs) in Hlen. rewrite zlen_app in Hlen.
      change (zlen [e]) with 1 in Hlen. lia.
    + intros e' He'. apply Hq. by right.
    + exists st2, cur2. split; [exact Hgen|]. split; [done|]. split; [done|].
      rewrite Ho2, Ho1, Hn1, Hrem', <-app_assoc. f_equal.
      replace (Z.to_nat (remaining (plan_run r) (gs_next_tick st)))
        with (S (Z.to_nat (remaining (plan_run r) (gs_next_tick st) - 1))) by lia.
      cbn [schedule]. by rewrite Hp.
  - exists st, cur. split; [done|]. split; [done|].
    assert (gs_next_tick st = []) as -> by (by destruct (gs_next_tick st)).
    split; [done|]. cbn. by rewrite app_nil_r.
Qed.
End accepted.

(** The state in which the loop of an accepted run ends. *)
Lemma generate_started request snapshot baseline run_id now w w0 envs :
  ids_ok (c_packet_ids w.1) → start request snapshot baseline run_id now w = (w0, Ok run_id) →
  let s := default (c_scenario (config w.1)) snapshot in
  request_valid request = true → NoDup (node_ids s) → 2 <= zlen (node_ids s) →
  validate_preset (rf s) = Ok (rf s) →
  (∀ n, n ∈ node_ids s → is_Some (dget n (c_hardware_ids (config w.1)))) →
  maximum_sequence request <= zlen envs →
  (∀ e, e ∈ envs → reports_only (te_sleeping e) ∧ reports_only (te_sending e)) →
  draws_suffice request (plan_run request) envs (start_generating request w0) = true →
  ∃ st cur,
    generate request (plan_run request) envs (start_generating request w0) = Some (st, Ok tt) ∧
    generating request s run_id (config w.1) (finalization_done w.1) st cur ∧
    gs_next_tick st = [] ∧ zlen (r_messages cur) = maximum_sequence request ∧
    (λ g, (g_flow g, g_source g)) <$> r_messages cur =
      slot_origin (plan_run request) <$> run_schedule request ∧
    ∃ cur0, c_current w0.1 = Some cur0 ∧ r_request cur0 = request ∧ run_scenario w0.1 = s.
Proof.
  intros Hi Hs s Hreq Hnd Htwo Hpre Hhw Hlen Hq Hd.
  pose proof (start_result request snapshot baseline run_id now w Hi) as Hr. cbv zeta in Hr. rewrite Hs in Hr.
  fold s in Hr. destruct Hr as (_ & _ & Hv & _ & Hmark & Hcfg & cur0 & Hok & I1 & I2 & I3 & _ & I4 & _ & _ & _ & _ & I6).
  assert (accepted request s run_id (c_hardware_ids (config w.1))) as Hacc.
  { split; try done. intros seq Hseq. pose proof (marker_length_mono run_id seq (maximum_sequence request)). lia. }
  assert (a_sequence (acc w0.1) = 0 ∧ finalization_done w0.1 = finalization_done w.1) as [Hseq Hfd].
  { pose proof (start_sequence request snapshot baseline run_id now w) as Hz. by rewrite Hs in Hz. }
  pose proof (start_generating_ok _ _ _ _ _ Hacc w0 cur0 Hok I2 I1 I6 I4 Hcfg Hfd Hseq) as Hg.
  pose proof (run_remaining request s Hv) as Hrem.
  destruct (generate_ok _ _ _ _ _ Hacc envs _ _ Hg) as (st & cur & Hgen & Hg' & Hn & Ho); [|done|done|].
  { cbn [start_generating gs_next_tick]. rewrite Hrem. unfold zlen in *. lia. }
  exists st, cur. split; [exact Hgen|]. split; [exact Hg'|]. split; [exact Hn|].
  assert ((λ g, (g_flow g, g_source g)) <$> r_messages cur =
    slot_origin (plan_run request) <$> run_schedule request) as Horig.
  { unfold origins, statics in Ho. rewrite (ro_current _ _ (gn_ok _ _ _ _ _ _ _ Hg')) in Ho.
    change (c_current (gs_world (start_generating request w0)).1) with (c_current w0.1) in Ho.
    rewrite (ro_current _ _ Hok) in Ho. cbn [fmap option_fmap option_map default] in Ho.
    cbn [from_option id] in Ho. rewrite I3, <-list_fmap_compose in Ho. cbn [fmap list_fmap app] in Ho.
    cbn [start_generating gs_next_tick] in Ho. rewrite Hrem, Nat2Z.id in Ho. exact Ho. }
  split; [|split; [exact Horig|]].
  - apply (f_equal length) in Horig. rewrite !length_fmap in Horig. unfold zlen. rewrite Horig.
    unfold run_schedule. rewrite schedule_length; [|by apply (run_ticks_ok request s)|done].
    rewrite <-Hrem. rewrite remaining_first_ticks by apply (plan_run_sources request s Hv).
    unfold plan_run. by rewrite <-list_fmap_compose.
  - exists cur0. split; [apply Hok|]. by split.
Qed.

(** C4: a run started on a valid scenario submits exactly what was asked for, in
    the order of its schedule, and the loop never raises: whatever is reported
    while it sleeps and sends, and whichever sends fail, it ends after
    [maximum_sequence] turns with one message per scheduled slot and the books
    balanced, as long as each turn finds a free packet id. *)
Theorem run_generates request snapshot baseline run_id now w w0 envs :
  ids_ok (c_packet_ids w.1) → start request snapshot baseline run_id now w = (w0, Ok run_id) →
  let s := default (c_scenario (config w.1)) snapshot in
  request_valid request = true → NoDup (node_ids s) → 2 <= zlen (node_ids s) →
  validate_preset (rf s) = Ok (rf s) →
  (∀ n, n ∈ node_ids s → is_Some (dget n (c_hardware_ids (config w.1)))) →
  maximum_sequence request <= zlen envs →
  (∀ e, e ∈ envs → reports_only (te_sleeping e) ∧ reports_only (te_sending e)) →
  draws_suffice request (plan_run request) envs (start_generating request w0) = true →
  ∃ st cur,
    generate request (plan_run request) envs (start_generating request w0) = Some (st, Ok tt) ∧
    gs_next_tick st = [] ∧ c_current (gs_world st).1 = Some cur ∧ r_run_id cur = run_id ∧
    zlen (r_messages cur) = maximum_sequence request ∧
    (λ g, (g_flow g, g_source g)) <$> r_messages cur =
      slot_origin (plan_run request) <$> run_schedule request ∧
    balanced (gs_world st).1 cur.
Proof.
  intros Hi Hs s Hreq Hnd Htwo Hpre Hhw Hlen Hq Hd.
  destruct (generate_started request snapshot baseline run_id now w w0 envs Hi Hs Hreq Hnd Htwo Hpre Hhw Hlen Hq Hd)
    as (st & cur & Hgen & Hg & Hn & Hz & Ho & _).
  exists st, cur. split; [exact Hgen|]. split; [exact Hn|]. split; [apply Hg|]. split; [apply Hg|].
  split; [exact Hz|]. split; [exact Ho|]. apply run_ok_balanced, Hg.
Qed.
End generation.
