(* ===== verification/RunCompletion.v ===== *)
(** * A run completes

    The run's task as a whole: generating, draining, sampling and finishing. *)
From Stdlib Require Import Floats.SpecFloat.
From S2P Require Import Prelude PyDict PyFloat PyDecimal Scenario Mesh Airtime Events Calculations.
From S2P Require Import TrafficRequest Identifier PacketIds TrafficState TrafficHandlers.
From S2P Require Import RunInvariant RunAccounting TrafficLifecycle RunTheorems RunClosing RunSchedule RunGeneration.

Section completion.
Context `{Meshtastic} `{!MeshtasticLaws} `{PyText} `{PyRandom} `{!PyRandomLaws} {B : Type} `{EventSink B}.
Context `{!ResultText TrafficRunSummary}.
Implicit Types (w : Controller * B) (c : Controller) (cur : TrafficRunResult).

(** The same run with the same messages, in any phase. *)
Definition carries (c : Controller) (cur : TrafficRunResult) (c' : Controller) (cur' : TrafficRunResult) : Prop :=
  run_ok c' cur' ∧ fixed_part cur' = fixed_part cur ∧ r_request cur' = r_request cur ∧
  finalization_done c' = finalization_done c ∧ same_messages c c'.

Lemma carries_refl c cur : run_ok c cur → carries c cur c cur.
Proof. intros Hok. split; [done|]. by split_and!. Qed.

Lemma carries_trans c cur c1 cur1 c2 cur2 :
  carries c cur c1 cur1 → carries c1 cur1 c2 cur2 → carries c cur c2 cur2.
Proof.
  intros (K1 & K2 & K3 & K4 & K5) (L1 & L2 & L3 & L4 & L5). split; [done|]. split_and!; try congruence. by etrans.
Qed.

Lemma carries_keeps c cur c' : continues c cur c' → same_messages c c' → ∃ cur', carries c cur c' cur'.
Proof.
  intros (cur' & K1 & K2 & K3 & K4 & _)%continues_keeps Hs. exists cur'.
  apply flags_inv in K4 as (_ & _ & K4). split; [done|]. by split_and!.
Qed.

Lemma reports_only_carries f w cur : run_ok w.1 cur → reports_only f → ∃ cur', carries w.1 cur (f w).1 cur'.
Proof.
  intros Hok Hf. destruct (reports_only_keeps f w cur Hok Hf) as (cur' & (K1 & K2 & K3 & K4 & _) & M).
  exists cur'. apply flags_inv in K4 as (_ & _ & K4). split; [done|]. by split_and!.
Qed.

Lemma finalize_pending_carries now w cur :
  run_ok w.1 cur → ∃ cur', carries w.1 cur (finalize_pending_submissions now w).1 cur'.
Proof.
  intros Hok. apply carries_keeps; [by apply finalize_pending_ok|].
  unfold finalize_pending_submissions. cbv zeta. apply same_with_acc; [done|].
  change (same_messages w.1 (foldl (time_out now) w (pending_submissions (acc w.1))).1).
  generalize (pending_submissions (acc w.1)) as L. intros L.
  assert (∀ c, same_messages c w.1 → same_messages c (foldl (time_out now) w L).1) as Hs; [|by apply Hs].
  clear Hok. revert w. induction L as [|e L IH]; intros w c Hs; [done|]. cbn [foldl]. apply IH.
  by apply same_resolve.
Qed.

Lemma carries_activity_flag w cur b :
  run_ok w.1 cur → carries w.1 cur (with_acc (λ a, a <| activity_changed := b |>) w).1 cur.
Proof.
  intros Hok. split; [|by split_and!]. apply run_ok_acc; [done| |done].
  destruct (ro_acc _ _ Hok). split; assumption.
Qed.

Lemma carries_deadline w cur d : run_ok w.1 cur → carries w.1 cur (set_deadline d w).1 cur.
Proof. intros Hok. split; [|by split_and!]. destruct Hok. by split. Qed.

Lemma drain_loop_carries quiet deadline turns w cur w' :
  run_ok w.1 cur → (∀ f t, (f, t) ∈ turns → reports_only f) →
  drain_loop quiet deadline turns w = Some w' → ∃ cur', carries w.1 cur w'.1 cur'.
Proof.
  revert w cur. induction turns as [|[f now] turns IH]; intros w cur Hok Hq; cbn [drain_loop]; [done|]. cbv zeta.
  destruct (reports_only_carries f w cur Hok (Hq f now ltac:(by left))) as (cur1 & K1).
  destruct (drain_turn quiet deadline now (f w).1).
  - intros [= <-]. by exists cur1.
  - intros [= <-]. destruct (finalize_pending_carries now (f w) cur1 (proj1 K1)) as (cur2 & K2).
    exists cur2. exact (carries_trans _ _ _ _ _ _ K1 K2).
  - intros Hl. pose proof (carries_activity_flag (f w) cur1 false (proj1 K1)) as K2.
    assert (∀ f' t', (f', t') ∈ turns → reports_only f') as Hq' by (intros f' t' Hin; apply (Hq f' t'); by right).
    destruct (IH _ _ (proj1 K2) Hq' Hl) as (cur3 & K3).
    exists cur3. exact (carries_trans _ _ _ _ _ _ K1 (carries_trans _ _ _ _ _ _ K2 K3)).
Qed.

(** A drain that returns leaves the same run. *)
Lemma drain_carries now turns w cur w' :
  run_ok w.1 cur → (∀ f t, (f, t) ∈ turns → reports_only f) →
  drain now turns w = Some w' → ∃ cur', carries w.1 cur w'.1 cur'.
Proof.
  intros Hok Hq. unfold drain. destruct (c_settle_seconds (config w.1)) as [settle|].
  - destruct turns as [|[f later] turns]; [done|]. intros [= <-].
    pose proof (carries_deadline w cur (Some (fadd now settle)) Hok) as K1.
    destruct (reports_only_carries f _ _ (proj1 K1) (Hq f later ltac:(by left))) as (cur2 & K2).
    destruct (finalize_pending_carries later _ _ (proj1 K2)) as (cur3 & K3).
    pose proof (carries_deadline _ _ None (proj1 K3)) as K4. exists cur3.
    exact (carries_trans _ _ _ _ _ _ K1 (carries_trans _ _ _ _ _ _ K2 (carries_trans _ _ _ _ _ _ K3 K4))).
  - rewrite (ro_current _ _ Hok). destruct (drain_windows w.1) as [quiet seconds].
    intros (w1 & Hl & ->)%fmap_Some.
    pose proof (carries_deadline w cur (Some (fadd now seconds)) Hok) as K1.
    destruct (drain_loop_carries _ _ _ _ _ _ (proj1 K1) Hq Hl) as (cur2 & K2).
    pose proof (carries_deadline _ _ None (proj1 K2)) as K3. exists cur2.
    exact (carries_trans _ _ _ _ _ _ K1 (carries_trans _ _ _ _ _ _ K2 K3)).
Qed.

(** ** Sampling and finishing *)

Lemma same_samples now l missing w c :
  same_messages c w.1 →
  same_messages c (foldl (λ '(missing, w) '(node_id, total),
      if bool_decide (is_Some (latest_failed_receptions (acc w.1) !! node_id))
      then (missing, record_failed_receptions node_id total now w)
      else (missing ++ [node_id], w)) (missing, w) (l : dict string Z)).2.1.
Proof.
  revert missing w. induction l as [|[node_id total] l IH]; intros missing w Hs; cbn [foldl]; [done|].
  case_bool_decide; [|by apply IH]. apply IH. etrans; [exact Hs|]. apply report_same. constructor.
Qed.

Lemma same_duplicates now l w c :
  same_messages c w.1 →
  same_messages c (foldl (λ w '(node_id, total),
      if bool_decide (is_Some (latest_duplicate_receptions (acc w.1) !! node_id))
      then record_duplicate_receptions node_id total now w else w) w (l : dict string Z)).1.
Proof.
  revert w. induction l as [|[node_id total] l IH]; intros w Hs; cbn [foldl]; [done|].
  case_bool_decide; [|by apply IH]. apply IH. etrans; [exact Hs|]. apply report_same. constructor.
Qed.

Lemma sample_final_carries sampled now w cur :
  run_ok w.1 cur → ∃ cur', carries w.1 cur (sample_final_failed_receptions sampled now w).1 cur'.
Proof.
  intros Hok. apply carries_keeps; [by apply sample_final_ok|].
  unfold sample_final_failed_receptions. destruct (negb _); [done|].
  rewrite (ro_current _ _ Hok). cbv zeta. set (sample := match sampled with Ok s => _ | Raise _ => _ end).
  pose proof (same_samples now (fs_totals sample) (r_missing_nodes cur ++ fs_missing_nodes sample) w w.1
    ltac:(done)) as Hs.
  destruct (foldl _ (_, w) _) as [missing w1]. cbn [snd] in Hs.
  pose proof (same_duplicates now (fs_duplicate_totals sample) w1 _ Hs) as Hd.
  by apply same_with_current.
Qed.

Lemma sample_when_configured_carries env w cur :
  run_ok w.1 cur → reports_only (re_sampling env) →
  ∃ cur', carries w.1 cur (sample_when_configured env w).1 cur'.
Proof.
  intros Hok Hs. unfold sample_when_configured. destruct (c_has_sampler _); [|exists cur; by apply carries_refl].
  destruct (reports_only_carries (re_sampling env) w cur Hok Hs) as (cur1 & K1).
  destruct (sample_final_carries (re_sampled env) (re_now env) _ cur1 (proj1 K1)) as (cur2 & K2).
  exists cur2. exact (carries_trans _ _ _ _ _ _ K1 K2).
Qed.

(** Finalizing keeps the messages. *)
Lemma finalize_statics state disk now w cur fs :
  run_ok w.1 cur → statics (finalize state disk now w fs).1.1.1 = statics w.1.
Proof.
  intros Hok. unfold finalize. cbv zeta.
  set (w0 := (w.1 <| finalization_done := false |> <| c_phase := FINALIZING |>, w.2)).
  assert (run_ok w0.1 cur) as Hok0 by apply run_ok_phase, Hok.
  destruct (finalize_pending_carries now w0 cur Hok0) as (cur1 & Hok1 & _ & _ & _ & _ & Hs).
  set (w1 := finalize_pending_submissions now w0) in *. clearbody w1.
  change (statics w0.1) with (statics w.1) in Hs. rewrite <-Hs. unfold statics. rewrite (ro_current _ _ Hok1).
  destruct (final_metrics w1.1) as [metrics|]; [|cbn; by rewrite (ro_current _ _ Hok1)].
  unfold freeze_and_persist. destruct (save_pair _ _ _ _ _) as [fs' [[]|e]]; reflexivity.
Qed.

(** Deliveries of a direct run: at most one per message. *)
Lemma direct_deliveries c cur :
  run_ok c cur → kind (r_request cur) = DIRECT_TEXT → a_receiver_deliveries (acc c) <= zlen (r_messages cur).
Proof.
  intros Hok Hk. pose proof (ro_acc _ _ Hok) as Ha. rewrite Hk in Ha. rewrite (ao_deliveries _ _ _ Ha).
  assert (∀ g, g ∈ r_messages cur → zlen (g_delivered_to g) <= 1) as Hone.
  { intros g Hg. destruct (ao_receivers _ _ _ Ha g Hg) as [Hnd Hr]. unfold zlen.
    destruct (g_delivered_to g) as [|n [|n' l]]; [cbn; lia..|].
    pose proof (Hr n ltac:(by left)) as E1. pose proof (Hr n' ltac:(right; by left)) as E2.
    apply bool_decide_eq_true in E1, E2. apply NoDup_cons in Hnd as [Hnd _]. exfalso. apply Hnd.
    rewrite E1, <-E2. by left. }
  revert Hone. generalize (r_messages cur). intros l. induction l as [|g l IH]; intros Hone; [done|].
  change (zsum ((λ g, zlen (g_delivered_to g)) <$> g :: l)) with
    (zlen (g_delivered_to g) + zsum ((λ g, zlen (g_delivered_to g)) <$> l)).
  specialize (IH ltac:(intros; apply Hone; by right)). specialize (Hone g ltac:(by left)).
  unfold zlen in *. cbn [length]. lia.
Qed.

Lemma statics_length c cur c' cur' :
  run_ok c cur → run_ok c' cur' → statics c' = statics c → zlen (r_messages cur') = zlen (r_messages cur).
Proof.
  intros Hok Hok' Hs. unfold statics in Hs. rewrite (ro_current _ _ Hok), (ro_current _ _ Hok') in Hs.
  injection Hs as Hs%(f_equal length). rewrite !length_fmap in Hs. unfold zlen. lia.
Qed.

(** ** The whole run *)

(** Some turn of the drain comes after every deadline it may set. *)
Definition drain_ends (env : RunEnv (B:=B)) (settle : option float) : Prop :=
  match settle with
  | Some _ => re_drain_turns env ≠ []
  | None => ∀ seconds, fle seconds MAX_DRAIN_SECONDS = true →
      ∃ f t, (f, t) ∈ re_drain_turns env ∧ fle (fsub (fadd (re_drain_now env) seconds) t) fzero = true
  end.

Lemma drain_returns env w cur :
  c_current w.1 = Some cur → drain_ends env (c_settle_seconds (config w.1)) →
  is_Some (drain (re_drain_now env) (re_drain_turns env) w).
Proof.
  intros Hc. unfold drain_ends, drain. destruct (c_settle_seconds (config w.1)) as [settle|].
  - destruct (re_drain_turns env) as [|[f t] l]; [done|]. by eexists.
  - intros Hend. rewrite Hc. pose proof (fmin_le MAX_DRAIN_SECONDS) as Hmin.
    assert (fle (drain_windows w.1).2 MAX_DRAIN_SECONDS = true) as Hle
      by (unfold drain_windows; rewrite Hc; by apply fmin_le).
    destruct (drain_windows w.1) as [quiet seconds]. cbn [snd] in Hle.
    destruct (drain_loop_returns quiet (fadd (re_drain_now env) seconds) (re_drain_turns env)
      (set_deadline (Some (fadd (re_drain_now env) seconds)) w) (Hend seconds Hle)) as (w' & -> & _).
    by eexists.
Qed.

(** After generating, the task drains, samples and finishes. *)
Lemma run_concludes env w cur fs :
  run_ok w.1 cur → finalization_done w.1 = true → kind (r_request cur) = DIRECT_TEXT →
  zlen (r_messages cur) <= LIVE_LATENCY_SAMPLE_SIZE →
  drain_ends env (c_settle_seconds (config w.1)) →
  (∀ f t, (f, t) ∈ re_drain_turns env → reports_only f) → reports_only (re_sampling env) →
  ∃ w1 w' fs', drain (re_drain_now env) (re_drain_turns env) w = Some w1 ∧
    finish COMPLETED (re_finish_wait env) (re_disk env) (re_now env) (sample_when_configured env w1) fs =
      (w', fs', Ok true) ∧
    settled COMPLETED cur w'.1 fs' ∧ statics w'.1 = statics w.1.
Proof.
  intros Hok Hd Hk Hl Hends Hturns Hsampling.
  destruct (drain_returns env w cur (ro_current _ _ Hok) Hends) as [w1 Hdrain].
  destruct (drain_carries _ _ _ _ _ Hok Hturns Hdrain) as (cur1 & K1).
  destruct (sample_when_configured_carries env w1 cur1 (proj1 K1) Hsampling) as (cur2 & K2).
  destruct (carries_trans _ _ _ _ _ _ K1 K2) as (Hok2 & I1 & I2 & I3 & _ & I4).
  set (w2 := sample_when_configured env w1) in *.
  pose proof (statics_length _ _ _ _ Hok Hok2 I4) as Hlen.
  pose proof (direct_deliveries _ _ Hok2 ltac:(congruence)) as Hdel.
  destruct (finalize_settled COMPLETED (re_disk env) (re_now env) w2 cur2 fs Hok2 ltac:(lia))
    as (w' & fs' & Hfin & Hset).
  exists w1, w', fs'. split; [exact Hdrain|]. split.
  { fold w2. unfold finish. rewrite (ro_live _ _ Hok2), (ro_current _ _ Hok2).
    unfold wait_for_active_finalization. by rewrite I3, Hd, Hfin. }
  split; [by apply (settled_fixed _ cur cur2)|].
  pose proof (finalize_statics COMPLETED (re_disk env) (re_now env) w2 cur2 fs Hok2) as Hst.
  rewrite Hfin in Hst. cbn [fst] in Hst. congruence.
Qed.

(** C1: a run of direct messages started on a valid scenario completes: its task
    generates, drains, samples and finishes without raising, whatever is reported
    meanwhile, whichever sends fail and whatever the disk does; the frozen result
    is COMPLETED (FAILED only when saving it failed) and holds one settled message
    for every slot of the schedule, in its order. *)
Theorem run_completes request snapshot baseline run_id now w w0 env fs :
  ids_ok (c_packet_ids w.1) → finalization_done w.1 = true →
  start request snapshot baseline run_id now w = (w0, Ok run_id) →
  let s := default (c_scenario (config w.1)) snapshot in
  request_valid request = true → NoDup (node_ids s) → 2 <= zlen (node_ids s) →
  validate_preset (rf s) = Ok (rf s) →
  (∀ n, n ∈ node_ids s → is_Some (dget n (c_hardware_ids (config w.1)))) →
  kind request = DIRECT_TEXT → maximum_sequence request <= LIVE_LATENCY_SAMPLE_SIZE →
  maximum_sequence request <= zlen (re_turns env) →
  (∀ e, e ∈ re_turns env → reports_only (te_sleeping e) ∧ reports_only (te_sending e)) →
  draws_suffice request (plan_run request) (re_turns env) (start_generating request w0) = true →
  drain_ends env (c_settle_seconds (config w.1)) →
  (∀ f t, (f, t) ∈ re_drain_turns env → reports_only f) → reports_only (re_sampling env) →
  ∃ w' fs' cur fr, run_task env w0 fs = Some (w', fs', Ok true) ∧
    settled COMPLETED cur w'.1 fs' ∧ r_failure cur = None ∧ c_frozen w'.1 = Some fr ∧ r_run_id fr = run_id ∧ r_request fr = request ∧
    zlen (r_messages fr) = maximum_sequence request ∧
    (λ g, (g_flow g, g_source g)) <$> r_messages fr =
      slot_origin (plan_run request) <$> run_schedule request.
Proof.
  intros Hi Hfd Hs s Hreq Hnd Htwo Hpre Hhw Hk Hmax Hlen Hq Hd Hends Hturns Hsampling.
  destruct (generate_started request snapshot baseline run_id now w w0 (re_turns env)
    Hi Hs Hreq Hnd Htwo Hpre Hhw Hlen Hq Hd) as (st & cur & Hgen & Hg & _ & Hz & Ho & cur0 & C1 & C2 & C3).
  set (w1 := ((gs_world st).1 <| c_phase := DRAINING |>, (gs_world st).2)).
  assert (run_ok w1.1 cur) as Hok by (destruct (gn_ok _ _ _ _ _ _ _ Hg); by split).
  assert (c_current (gs_world st).1 = Some cur) as Hcur by apply Hg.
  destruct (run_concludes env w1 cur fs Hok) as (w2 & w' & fs' & Hdrain & Hfin & Hset & Hst).
  { change (finalization_done (gs_world st).1 = true). rewrite (gn_done _ _ _ _ _ _ _ Hg). exact Hfd. }
  { by rewrite (gn_request _ _ _ _ _ _ _ Hg). }
  { rewrite Hz. exact Hmax. }
  { change (config w1.1) with (config (gs_world st).1). by rewrite (gn_config _ _ _ _ _ _ _ Hg). }
  { exact Hturns. }
  { exact Hsampling. }
  pose proof Hset as (fr & Hfr & Hcf & _ & _ & _ & Hid & Hrq & _).
  assert (static <$> r_messages fr = static <$> r_messages cur) as Hsm.
  { unfold statics in Hst. change (c_current w1.1) with (c_current (gs_world st).1) in Hst.
    rewrite Hcf, Hcur in Hst. by injection Hst. }
  exists w', fs', cur, fr. split; [|split; [exact Hset|split; [apply Hg|split; [exact Hfr|split; [|split; [|split]]]]]].
  - unfold run_task. rewrite C1, C2. rewrite Hgen. cbv zeta. fold w1. rewrite Hdrain, Hfin. reflexivity.
  - by rewrite Hid, (gn_run_id _ _ _ _ _ _ _ Hg).
  - by rewrite Hrq, (gn_request _ _ _ _ _ _ _ Hg).
  - rewrite <-Hz. apply (f_equal length) in Hsm. rewrite !length_fmap in Hsm. unfold zlen. lia.
  - rewrite <-Ho. apply (f_equal (fmap (λ x, (x.1.1.1.2, x.1.1.2)))) in Hsm.
    by rewrite <-!list_fmap_compose in Hsm.
Qed.
End completion.
