(* ===== verification/RunExamples.v ===== *)
(** * A worked run

    Three nodes, the packages of the samples, and one run: the theorems about runs
    applied to it. *)
From Stdlib Require Import Floats.SpecFloat.
From S2P Require Import Prelude PyDict PyFloat PyDecimal Scenario Mesh Airtime Events Calculations.
From S2P Require Import TrafficRequest Identifier PacketIds TrafficState TrafficHandlers.
From S2P Require Import RunInvariant RunAccounting TrafficLifecycle RunTheorems RunClosing RunSchedule RunGeneration.
From S2P Require Import RunCompletion.

#[local] Existing Instance sample_protobuf.
#[local] Existing Instance sample_text.
#[local] Existing Instance sample_random.

#[local] Instance sample_result_text : ResultText TrafficRunSummary := {|
  result_json := λ r, ("result of " +:+ r_run_id r)%string;
  summary_json := λ s, ("summary of " +:+ s_run_id s)%string |}.

Definition demo_config : Config :=
  mkConfig demo_nodes_scenario ["a"; "b"; "c"]%string [("a", 11); ("b", 12); ("c", 13)]%string
    (mkBuild "c" "p" "f" "aarch64" "d" "m" "v") None (of_Z 5) false.

Abbreviation world := (Controller * event_log)%type.

(** Idle; just started; with one message from [a] to [b] pending, then admitted. *)
Definition demo_idle : world :=
  (mkController demo_config IDLE None None false true false TERMINAL None None demo_nodes_scenario
     no_packet_ids (fresh_accumulators fzero), mkLog [] "s").
Definition demo_started : world := (start demo_run_request None None "run" (of_Z 1) demo_idle).1.

Definition demo_submitted : option (world * res (option (MeshPacket * Z) * rng)) :=
  submit 3 "a" "b" "fast" (rng_new 9) (of_Z 2) demo_started.
Definition demo_pending : world := default demo_started (fst <$> demo_submitted).
Definition demo_packet_id : Z :=
  match demo_submitted with Some (_, Ok (Some (packet, _), _)) => p_id packet | _ => 0 end.
Definition demo_admitted : world :=
  (handle_from_radio "a" (FromQueueStatus (mkQueueStatus demo_packet_id 0)) (of_Z 3) demo_pending).1.

Lemma no_packet_ids_ok : ids_ok no_packet_ids.
Proof.
  split; [apply dict_ok_nil|intros s; apply dict_ok_nil| |intros s i; by intros ?%elem_of_nil].
  split; intros s; [reflexivity|constructor|vm_compute; discriminate].
Qed.

Lemma demo_start_eq : start demo_run_request None None "run" (of_Z 1) demo_idle = (demo_started, Ok "run"%string).
Proof. vm_compute. reflexivity. Qed.

Lemma demo_submit_eq : ∃ r, demo_submitted = Some (demo_pending, r).
Proof. vm_compute. eexists. reflexivity. Qed.

Lemma demo_run : rtc run_step demo_started demo_admitted.
Proof.
  destruct demo_submit_eq as [r Hr]. apply rtc_l with demo_pending; [exact (step_submit _ _ _ _ _ _ _ _ _ Hr)|].
  apply rtc_once, step_radio. by intros packet d cur origin seq g [=].
Qed.

(** The run behind the worlds. *)
Lemma demo_started_ok : ∃ cur, run_ok demo_started.1 cur ∧ r_run_id cur = "run"%string.
Proof.
  pose proof (start_result demo_run_request None None "run" (of_Z 1) demo_idle no_packet_ids_ok) as Hs.
  rewrite demo_start_eq in Hs. destruct Hs as (_ & _ & _ & _ & _ & _ & cur & Hok & Hid & _). by exists cur.
Qed.

Lemma demo_admitted_ok : ∃ cur, run_ok demo_admitted.1 cur ∧ r_run_id cur = "run"%string.
Proof.
  destruct demo_started_ok as (cur0 & Hok0 & Hid).
  destruct (run_steps_ok _ _ _ Hok0 demo_run) as (cur & Hok & Hf & _). exists cur. split; [exact Hok|].
  injection Hf as Hf _ _ _. congruence.
Qed.

Lemma start_correct_witness :
  ids_ok (c_packet_ids demo_idle.1) ∧ fresh_run demo_run_request demo_nodes_scenario "run" demo_started.
Proof.
  split; [exact no_packet_ids_ok|].
  pose proof (start_correct demo_run_request None None "run" (of_Z 1) demo_idle no_packet_ids_ok) as Hs.
  rewrite demo_start_eq in Hs. apply Hs.
Defined.

Lemma run_accounting_witness :
  ∃ cur, c_current demo_admitted.1 = Some cur ∧ r_requested cur = 1 ∧ r_submitted cur = 1 ∧
    balanced demo_admitted.1 cur.
Proof.
  destruct (run_accounting demo_run_request None None "run" (of_Z 1) demo_idle demo_started demo_admitted
    no_packet_ids_ok demo_start_eq demo_run) as (cur & Hc & _ & _ & _ & Hb).
  exists cur. split; [exact Hc|]. split; [|split; [|exact Hb]];
    [apply (f_equal (fmap r_requested)) in Hc|apply (f_equal (fmap r_submitted)) in Hc];
    vm_compute in Hc; by injection Hc.
Defined.

Definition demo_stop : StopEnv (B:=event_log) :=
  mkStopEnv None id (Raise (RuntimeError "no sampler")) id None (mkDisk (λ _, None) (λ _, false)) (of_Z 5).

Lemma id_handlers : handlers_only (id : world → world).
Proof. intros w. apply rtc_refl. Qed.

Lemma id_reports : reports_only (id : world → world).
Proof. intros w. apply rtc_refl. Qed.



Definition demo_stopped : world := (stop demo_stop demo_admitted ∅).1.1.

Lemma reports_ignored_when_closed_witness :
  c_phase demo_stopped.1 = TERMINAL ∧
  record_drop "a" (mkPacket 11 12 1 NoPayload false 3 3 0 0 0 fzero []) "late" (of_Z 9) demo_stopped = demo_stopped.
Proof.
  assert (c_phase demo_stopped.1 = TERMINAL) as Hp by (vm_compute; reflexivity). split; [exact Hp|].
  apply (reports_ignored_when_closed demo_stopped); [right; exact Hp|]. apply rtc_once, report_drop.
Defined.

Definition demo_failed : world := (fail "node lost" demo_stop demo_admitted ∅).1.1.

Lemma fail_after_failure_witness :
  c_state demo_failed.1 = FAILED ∧
  ∃ fr w', c_frozen demo_failed.1 = Some fr ∧ r_failure fr = Some "node lost"%string ∧
    fail "second" demo_stop demo_failed ∅ = (w', ∅, Ok true) ∧
    c_frozen w'.1 = Some (fr <| r_failure := Some "second"%string |>) ∧ c_state w'.1 = STOPPING.
Proof.
  split; [vm_compute; reflexivity|].
  assert (∃ fr, c_frozen demo_failed.1 = Some fr ∧ c_current demo_failed.1 = Some fr ∧
    r_failure fr = Some "node lost"%string) as (fr & Hf & Hc & Hr)
    by (vm_compute; eexists; split; [reflexivity|split; reflexivity]).
  destruct (fail_after_failure "second" demo_stop demo_failed fr ∅ Hf Hc) as (w' & H1 & H2 & H3 & _);
    [vm_compute; reflexivity..|].
  exists fr, w'. split; [exact Hf|]. split; [exact Hr|]. split; [exact H1|]. split; [exact H2|exact H3].
Defined.

Lemma drain_correct_witness :
  fle (of_Z 3) (drain_windows demo_admitted.1).1 = true ∧
  ∃ w', drain (of_Z 4) [(id, of_Z 500)] demo_admitted = Some w' ∧ pending_submissions (acc w'.1) = [].
Proof.
  destruct demo_admitted_ok as (cur & Hok & _).
  destruct (drain_correct (of_Z 4) [(id, of_Z 500)] demo_admitted cur) as (H1 & _ & _ & H2);
    [vm_compute; reflexivity|apply (ro_current _ _ Hok)|].
  split; [exact H1|]. destruct H2 as (w' & H2 & H3 & _).
  - exists id, (of_Z 500). split; [left|vm_compute; reflexivity].
  - exists w'. split; [exact H2|exact H3].
Defined.

(** ** The whole run *)

(** A turn whose clock reads [t], and fails to send when told so. *)
Definition demo_turn (t : Z) (error : option string) : TurnEnv world :=
  mkTurnEnv _ id (of_Z t) 3 id error (of_Z t).

Definition demo_turns : list (TurnEnv world) :=
  [demo_turn 1 None; demo_turn 2 None; demo_turn 3 (Some "gone"%string); demo_turn 4 None; demo_turn 5 None].

Lemma demo_turns_ok e : e ∈ demo_turns → reports_only (te_sleeping e) ∧ reports_only (te_sending e).
Proof.
  intros He. repeat (apply elem_of_cons in He as [->|He]; [split; exact id_reports|]).
  by apply elem_of_nil in He.
Qed.

Lemma demo_draws :
  draws_suffice demo_run_request (plan_run demo_run_request) demo_turns (start_generating demo_run_request demo_started)
    = true.
Proof. vm_compute. reflexivity. Qed.

Lemma demo_hardware n : n ∈ node_ids demo_nodes_scenario → is_Some (dget n (c_hardware_ids (config demo_idle.1))).
Proof.
  intros Hn. repeat (apply elem_of_cons in Hn as [->|Hn]; [eexists; reflexivity|]).
  by apply elem_of_nil in Hn.
Qed.

Lemma demo_distinct : NoDup (node_ids demo_nodes_scenario).
Proof. apply (bool_decide_unpack _). vm_compute. exact I. Qed.

Lemma run_generates_witness :
  ∃ st cur, generate demo_run_request (plan_run demo_run_request) demo_turns
      (start_generating demo_run_request demo_started) = Some (st, Ok tt) ∧
    c_current (gs_world st).1 = Some cur ∧ zlen (r_messages cur) = 5.
Proof.
  destruct (run_generates demo_run_request None None "run" (of_Z 1) demo_idle demo_started demo_turns
    no_packet_ids_ok demo_start_eq) as (st & cur & Hg & _ & Hc & _ & Hz & _);
    [vm_compute; reflexivity|exact demo_distinct|vm_compute; discriminate|vm_compute; reflexivity|exact demo_hardware
    |vm_compute; discriminate|exact demo_turns_ok|exact demo_draws|].
  exists st, cur. split; [exact Hg|]. split; [exact Hc|]. rewrite Hz. vm_compute. reflexivity.
Defined.

(** The drain's clock starts at zero, and its only turn comes after every deadline. *)
Definition demo_env : RunEnv (B:=event_log) :=
  mkRunEnv demo_turns fzero [(id, S754_infinity false)] (Raise (RuntimeError "no sampler")) id None
    (mkDisk (λ _, None) (λ _, false)) (of_Z 400).

Lemma demo_drain_ends : drain_ends demo_env None.
Proof.
  intros seconds Hs. exists id, (S754_infinity false). split; [left|].
  destruct seconds as [[]|[]| |s m e]; first [reflexivity|discriminate Hs].
Qed.

Lemma run_completes_witness :
  ∃ w' fs' fr, run_task demo_env demo_started ∅ = Some (w', fs', Ok true) ∧ c_frozen w'.1 = Some fr ∧
    zlen (r_messages fr) = 5 ∧ g_source <$> r_messages fr = ["a"; "b"; "c"; "a"; "b"]%string.
Proof.
  destruct (run_completes demo_run_request None None "run" (of_Z 1) demo_idle demo_started demo_env ∅
    no_packet_ids_ok eq_refl demo_start_eq) as (w' & fs' & cur & fr & Hr & _ & _ & Hf & _ & _ & Hz & Ho);
    [vm_compute; reflexivity|exact demo_distinct|vm_compute; discriminate|vm_compute; reflexivity|exact demo_hardware
    |reflexivity|vm_compute; discriminate|vm_compute; discriminate|exact demo_turns_ok|exact demo_draws
    |exact demo_drain_ends| |exact id_reports|].
  - intros f t Hin. apply elem_of_cons in Hin as [[= -> ->]|[]%elem_of_nil]. exact id_reports.
  - exists w', fs', fr. split; [exact Hr|]. split; [exact Hf|]. split; [rewrite Hz; vm_compute; reflexivity|].
    apply (f_equal (fmap snd)) in Ho. rewrite <-list_fmap_compose in Ho.
    change (snd ∘ (λ g, (g_flow g, g_source g))) with g_source in Ho. rewrite Ho. vm_compute. reflexivity.
Defined.
