(* ===== verification/Gateway.v ===== *)
(** * The node gateway (src/backend/app/gateway/node_gateway.py)

    One gateway: its lifecycle, its single downstream connection, its queues and
    its one client. What its tasks do between two awaits is one operation
    ([gw_op]); a run is any sequence of them ([gw_run]). The transports are the
    lists of what was written to them; whatever the handlers do besides is the
    type [T]. The protobuf codec of radio messages is the parameter [RadioCodec]. *)
From S2P Require Import Prelude PyDict Framing Mesh.

Inductive ToRadio :=
| ToPacket (p : MeshPacket)
| WantConfig (nonce : Z).

(** [FromRadio.ParseFromString] and [ToRadio.SerializeToString]. *)
Class RadioCodec := {
  parse_from_radio : list byte → res FromRadio;
  serialize_to_radio : ToRadio → list byte }.

Inductive GatewayState := STOPPED | CONNECTING | RUNNING | FAILED | STOPPING.

#[export] Instance GatewayState_eq_dec : EqDecision GatewayState.
Proof. solve_decision. Defined.

Definition gateway_state_text (s : GatewayState) : string :=
  match s with
  | STOPPED => "STOPPED" | CONNECTING => "CONNECTING" | RUNNING => "RUNNING"
  | FAILED => "FAILED" | STOPPING => "STOPPING"
  end.

Record GatewayEvent := mkGatewayEvent {
  ge_node_id : string;
  ge_kind : string;
  ge_detail : string;
  ge_frame : option Frame }.

Record DownstreamWrite := mkWrite { dw_raw : list byte; dw_source : string }.

(** A future of [_config_waiters]. *)
Inductive waiter := WaiterPending | WaiterDone | WaiterFailed (detail : string).

Definition settle_waiter (w' : waiter) (w : waiter) : waiter :=
  match w with WaiterPending => w' | _ => w end.

(** The gateway object, the locals of its tasks (the parsers, the frames whose
    [put] waits for room) and its transports ([to_daemon], [to_client], and
    [rf_taken] for what the medium took from [rf_frames]); [gw_handled] and
    [gw_log] record the daemon's messages handled and the events emitted. *)
Record NodeGateway := mkGateway {
  gw_node_id : string;
  gw_queue_size : Z;
  gw_public_port : Z;
  public_clients_enabled : bool;
  gw_state : GatewayState;
  external_connected : bool;
  gw_failed : bool;
  client_disconnected : bool;
  rejected_clients : Z;
  dropped_external_frames : Z;
  rf_frames : list MeshPacket;
  downstream_writes : list DownstreamWrite;
  external_writes : list (list byte);
  downstream_open : bool;
  reader_running : bool;
  writer_running : bool;
  daemon_parser : FrameParser;
  client_writer : option nat;
  client_parser : FrameParser;
  waiting_puts : list DownstreamWrite;
  server : bool;
  control_server : bool;
  reserved_public_socket : bool;
  config_waiters : dict Z waiter;
  to_daemon : list DownstreamWrite;
  to_client : list (list byte);
  rf_taken : list MeshPacket;
  gw_handled : list Frame;
  gw_log : list GatewayEvent }.
#[export] Instance eta_NodeGateway : Eta NodeGateway := λ r,
  mkGateway (gw_node_id r) (gw_queue_size r) (gw_public_port r) (public_clients_enabled r) (gw_state r)
    (external_connected r) (gw_failed r) (client_disconnected r) (rejected_clients r)
    (dropped_external_frames r) (rf_frames r) (downstream_writes r) (external_writes r)
    (downstream_open r) (reader_running r) (writer_running r) (daemon_parser r) (client_writer r)
    (client_parser r) (waiting_puts r) (server r) (control_server r) (reserved_public_socket r)
    (config_waiters r) (to_daemon r) (to_client r) (rf_taken r) (gw_handled r) (gw_log r).

Definition new_gateway (node_id : string) (queue_size public_port : Z) (public : bool) : NodeGateway :=
  mkGateway node_id queue_size public_port public STOPPED false false true 0 0 [] [] [] false false false
    (new_parser MAX_PROTOBUF_SIZE) None (new_parser MAX_PROTOBUF_SIZE) [] false false false [] [] [] [] [] [].

(** [asyncio.Queue.full] *)
Definition gw_full {A} (g : NodeGateway) (l : list A) : bool :=
  (0 <? gw_queue_size g) && (gw_queue_size g <=? zlen l).

(** What the daemon sent is: an RF frame for the medium, a frame for the client,
    or not a message. *)
Definition simulated_packet (m : FromRadio) `{Meshtastic} : option MeshPacket :=
  match m with
  | FromPacket p =>
    match p_payload p with
    | Decoded d => if portnum d =? SIMULATOR_APP then Some p else None
    | _ => None
    end
  | _ => None
  end.

Record GatewayHandlers (T : Type) := mkGatewayHandlers {
  event_handler : option (GatewayEvent → T → T);
  from_radio_handler : option (string → FromRadio → T → T * res unit) }.
Arguments mkGatewayHandlers {T}. Arguments event_handler {T}. Arguments from_radio_handler {T}.

Inductive gw_op :=
| GSend (m : ToRadio) (source : string)
| GDaemonData (data : list byte)
| GDaemonReadError (error : string)
| GDaemonWrite (error : option string)
| GAdmit
| GTakeRf
| GConnect (client : nat) (public : bool) (peer : string)
| GClientData (data : list byte)
| GClientWrite
| GDisconnect (client : nat) (peer : string)
| GEnablePublic
| GRequestConfig (nonce : Z)
| GForgetConfig (nonce : Z).

Section gateway.
Context `{Meshtastic} `{RadioCodec} {T : Type} (hs : GatewayHandlers T).
Implicit Types (w : NodeGateway * T) (g : NodeGateway).

Definition with_gateway (f : NodeGateway → NodeGateway) (w : NodeGateway * T) : NodeGateway * T :=
  (f w.1, w.2).

Definition emit (kind detail : string) (frame : option Frame) (w : NodeGateway * T) : NodeGateway * T :=
  let event := mkGatewayEvent (gw_node_id w.1) kind detail frame in
  let w := with_gateway (λ g, g <| gw_log ::= (λ l, l ++ [event]) |>) w in
  (w.1, match event_handler hs with Some h => h event w.2 | None => w.2 end).

(** ** Sending *)

Definition send_to_radio (m : ToRadio) (source : string) (w : NodeGateway * T)
    : (NodeGateway * T) * res unit :=
  if decide (gw_state w.1 ≠ RUNNING) then
    (w, Raise (GatewayError ("gateway is " +:+ gateway_state_text (gw_state w.1))))
  else
    match encode_frame (serialize_to_radio m) with
    | Raise e => (w, Raise e)
    | Ok raw =>
      if gw_full w.1 (downstream_writes w.1) then
        (w, Raise (GatewayError ("downstream queue full for " +:+ gw_node_id w.1)))
      else (with_gateway (λ g, g <| downstream_writes ::= (λ l, l ++ [mkWrite raw source]) |>) w, Ok tt)
    end.

Definition inject_simulated_packet (p : MeshPacket) (w : NodeGateway * T) : (NodeGateway * T) * res unit :=
  send_to_radio (ToPacket p) "controller.rf" w.

(** ** Failing *)

Definition fail_waiters (detail : string) (d : dict Z waiter) : dict Z waiter :=
  (λ kv, (kv.1, settle_waiter (WaiterFailed detail) kv.2)) <$> d.

(** [_fail]; closing the client's transport ends its handler, a later
    [GDisconnect]. *)
Definition gateway_fail (detail : string) (w : NodeGateway * T) : NodeGateway * T :=
  match gw_state w.1 with
  | STOPPING | STOPPED | FAILED => w
  | _ =>
    let w := with_gateway (λ g, g <| gw_state := FAILED |> <| gw_failed := true |>) w in
    let w := emit "gateway.failed" detail None w in
    with_gateway (λ g, g <| config_waiters ::= fail_waiters detail |>) w
  end.

(** ** Frames from the daemon *)

Definition complete_config (m : FromRadio) (g : NodeGateway) : NodeGateway :=
  match m with
  | FromConfigComplete nonce =>
    match dget nonce (config_waiters g) with
    | Some x => g <| config_waiters ::= dset nonce (settle_waiter WaiterDone x) |>
    | None => g
    end
  | _ => g
  end.

Definition put_rf (p : MeshPacket) (f : Frame) (w : NodeGateway * T) : NodeGateway * T :=
  if gw_full w.1 (rf_frames w.1) then
    emit "gateway.rf_queue_full" "RF frame dropped from controller queue" None w
  else
    let w := with_gateway (λ g, g <| rf_frames ::= (λ l, l ++ [p]) |>) w in
    emit "gateway.rf_transmit" (pretty (p_id p)) (Some f) w.

Definition put_external (raw : list byte) (w : NodeGateway * T) : NodeGateway * T :=
  match client_writer w.1 with
  | None => w
  | Some _ =>
    if gw_full w.1 (external_writes w.1) then
      let w := with_gateway (λ g, g <| dropped_external_frames ::= Z.add 1 |>) w in
      emit "gateway.external_backpressure" "external frame queue full" None w
    else with_gateway (λ g, g <| external_writes ::= (λ l, l ++ [raw]) |>) w
  end.

Definition handle_downstream_frame (f : Frame) (w : NodeGateway * T) : (NodeGateway * T) * res unit :=
  match parse_from_radio (payload f) with
  | Raise e => (emit "gateway.invalid_from_radio" (exn_text e) (Some f) w, Ok tt)
  | Ok m =>
    let '(t, r) := match from_radio_handler hs with
                   | Some h => h (gw_node_id w.1) m w.2
                   | None => (w.2, Ok tt)
                   end in
    let w := (w.1, t) in
    match r with
    | Raise e => (w, Raise e)
    | Ok _ =>
      let w := with_gateway (λ g, complete_config m (g <| gw_handled ::= (λ l, l ++ [f]) |>)) w in
      match simulated_packet m with
      | Some p => (put_rf p f w, Ok tt)
      | None => (put_external (raw f) w, Ok tt)
      end
    end
  end.

(** [for frame in parser.feed(data)], up to the first frame whose handling raises. *)
Fixpoint handle_frames (fs : list Frame) (w : NodeGateway * T) : (NodeGateway * T) * res unit :=
  match fs with
  | [] => (w, Ok tt)
  | f :: fs =>
    match handle_downstream_frame f w with
    | (w, Ok _) => handle_frames fs w
    | (w, Raise e) => (w, Raise e)
    end
  end.

(** A read of [_downstream_reader_loop]; no data is the end of the stream. *)
Definition downstream_read (data : list byte) (w : NodeGateway * T) : NodeGateway * T :=
  match data with
  | [] =>
    let w := with_gateway (λ g, g <| reader_running := false |>) w in
    match gw_state w.1 with
    | STOPPING | STOPPED => w
    | _ => gateway_fail "downstream daemon disconnected" w
    end
  | _ =>
    let '(fs, parser) := feed (daemon_parser w.1) data in
    let w := with_gateway (λ g, g <| daemon_parser := parser |>) w in
    match handle_frames fs w with
    | (w, Ok _) => w
    | (w, Raise e) =>
      let w := with_gateway (λ g, g <| reader_running := false |>) w in
      gateway_fail ("downstream read failed: " +:+ exn_text e) w
    end
  end.

Definition downstream_read_error (error : string) (w : NodeGateway * T) : NodeGateway * T :=
  let w := with_gateway (λ g, g <| reader_running := false |>) w in
  gateway_fail ("downstream read failed: " +:+ error) w.

(** A turn of [_downstream_writer_loop]; [error]: writing raised. *)
Definition downstream_write (error : option string) (w : NodeGateway * T) : NodeGateway * T :=
  match downstream_writes w.1 with
  | [] => w
  | x :: rest =>
    let w := with_gateway (λ g, g <| downstream_writes := rest |> <| to_daemon ::= (λ l, l ++ [x]) |>) w in
    match error with
    | None => emit "gateway.downstream_write" (dw_source x) None w
    | Some error =>
      let w := with_gateway (λ g, g <| writer_running := false |>) w in
      gateway_fail ("downstream write failed: " +:+ error) w
    end
  end.

(** A [put] that waited for room. *)
Definition admit_put (g : NodeGateway) : NodeGateway :=
  match waiting_puts g with
  | [] => g
  | x :: rest =>
    if gw_full g (downstream_writes g) then g
    else g <| waiting_puts := rest |> <| downstream_writes ::= (λ l, l ++ [x]) |>
  end.

(** ** The client *)

Definition reject_client (detail : string) (w : NodeGateway * T) : NodeGateway * T :=
  let w := with_gateway (λ g, g <| rejected_clients ::= Z.add 1 |>) w in
  emit "gateway.client_rejected" detail None w.

(** [_handle_client] up to the start of its two tasks. *)
Definition client_connect (client : nat) (public : bool) (peer : string) (w : NodeGateway * T)
    : NodeGateway * T :=
  if public && negb (public_clients_enabled w.1) then
    reject_client ("public client admission disabled: " +:+ peer) w
  else match client_writer w.1 with
  | Some _ => reject_client ("second client rejected: " +:+ peer) w
  | None =>
    let w := with_gateway (λ g, g <| external_connected := public |> <| client_disconnected := false |>
                                  <| client_writer := Some client |>
                                  <| client_parser := new_parser MAX_PROTOBUF_SIZE |>) w in
    emit "gateway.client_connected" ((if public then "public: " else "internal: ") +:+ peer) None w
  end.

Definition external_source : string := "external".

(** A read of [_external_reader_loop], which has put every earlier frame. *)
Definition client_read (data : list byte) (g : NodeGateway) : NodeGateway :=
  let '(fs, parser) := feed (client_parser g) data in
  g <| client_parser := parser |>
    <| waiting_puts ::= (λ l, l ++ ((λ f, mkWrite (raw f) external_source) <$> fs)) |>.

(** A turn of [_external_writer_loop]. *)
Definition client_write (g : NodeGateway) : NodeGateway :=
  match external_writes g with
  | [] => g
  | x :: rest => g <| external_writes := rest |> <| to_client ::= (λ l, l ++ [x]) |>
  end.

(** The [finally] of [_handle_client]; its reader no longer waits to put. *)
Definition client_disconnect (client : nat) (peer : string) (w : NodeGateway * T) : NodeGateway * T :=
  let w := with_gateway (λ g, g <| waiting_puts ::= filter (λ x, dw_source x ≠ external_source) |>
      <| client_writer := if decide (client_writer g = Some client) then None else client_writer g |>
      <| external_connected := false |> <| client_disconnected := true |> <| external_writes := [] |>) w in
  emit "gateway.client_disconnected" peer None w.

(** [enable_public_clients], when it does not raise. *)
Definition enable_public_clients (w : NodeGateway * T) : NodeGateway * T :=
  match gw_state w.1 with
  | STOPPED | STOPPING => w
  | _ =>
    let w := with_gateway (λ g, g <| public_clients_enabled := true |>) w in
    emit "gateway.public_clients_enabled" "public client admission enabled" None w
  end.

(** [request_config] up to its wait, and its [finally]. *)
Definition request_config (nonce : Z) (w : NodeGateway * T) : (NodeGateway * T) * res unit :=
  let w := with_gateway (λ g, g <| config_waiters ::= dset nonce WaiterPending |>) w in
  match send_to_radio (WantConfig nonce) "controller.config" w with
  | (w, Ok _) => (w, Ok tt)
  | (w, Raise e) => (with_gateway (λ g, g <| config_waiters ::= ddel nonce |>) w, Raise e)
  end.

(** ** Operations *)

Definition gw_step (op : gw_op) (w : NodeGateway * T) : NodeGateway * T :=
  match op with
  | GSend m source => (send_to_radio m source w).1
  | GDaemonData data => if reader_running w.1 then downstream_read data w else w
  | GDaemonReadError error => if reader_running w.1 then downstream_read_error error w else w
  | GDaemonWrite error => if writer_running w.1 then downstream_write error w else w
  | GAdmit => with_gateway admit_put w
  | GTakeRf =>
    match rf_frames w.1 with
    | [] => w
    | p :: rest => with_gateway (λ g, g <| rf_frames := rest |> <| rf_taken ::= (λ l, l ++ [p]) |>) w
    end
  | GConnect client public peer => client_connect client public peer w
  | GClientData data =>
    if bool_decide (client_writer w.1 ≠ None) &&
       negb (existsb (λ x, bool_decide (dw_source x = external_source)) (waiting_puts w.1))
    then with_gateway (client_read data) w else w
  | GClientWrite => if bool_decide (client_writer w.1 ≠ None) then with_gateway client_write w else w
  | GDisconnect client peer => client_disconnect client peer w
  | GEnablePublic => enable_public_clients w
  | GRequestConfig nonce => (request_config nonce w).1
  | GForgetConfig nonce => with_gateway (λ g, g <| config_waiters ::= ddel nonce |>) w
  end.

Definition gw_run (ops : list gw_op) (w : NodeGateway * T) : NodeGateway * T :=
  foldl (λ w op, gw_step op w) w ops.

(** ** Starting and stopping *)

(** [_close_transports]; [closing] is what the other tasks do while it waits. *)
Definition close_transports (closing : list gw_op) (w : NodeGateway * T) : NodeGateway * T :=
  let w := gw_run closing w in
  with_gateway (λ g, g <| server := false |> <| control_server := false |> <| reserved_public_socket := false |>
      <| client_writer := None |> <| downstream_open := false |> <| config_waiters := [] |>) w.

(** [_cancel_tasks] *)
Definition cancel_tasks (g : NodeGateway) : NodeGateway :=
  g <| reader_running := false |> <| writer_running := false |>
    <| waiting_puts ::= filter (λ x, dw_source x ≠ external_source) |>.

Definition gateway_stop (closing : list gw_op) (w : NodeGateway * T) : NodeGateway * T :=
  if decide (gw_state w.1 = STOPPED) then close_transports closing w
  else
    let w := with_gateway (λ g, g <| gw_state := STOPPING |>) w in
    let w := close_transports closing w in
    let w := with_gateway cancel_tasks w in
    let w := with_gateway (λ g, g <| external_connected := false |> <| gw_state := STOPPED |>) w in
    emit "gateway.stopped" "gateway stopped" None w.

(** One attempt of [_establish_ready_downstream]: the connection is refused, or it
    opens and [Opened] runs until the readiness waiter settles or time is up. *)
Inductive attempt :=
| Refused (error : string)
| Opened (meanwhile : list gw_op).

Definition READINESS_NONCE : Z := 0x4D4C0001.
Definition readiness_source : string := "gateway.readiness".

(** The frame of the readiness request waits for room like any other [put]. *)
Definition open_downstream (raw : list byte) (g : NodeGateway) : NodeGateway :=
  admit_put (g <| downstream_open := true |> <| reader_running := true |> <| writer_running := true |>
    <| daemon_parser := new_parser MAX_PROTOBUF_SIZE |>
    <| config_waiters ::= dset READINESS_NONCE WaiterPending |>
    <| waiting_puts ::= (λ l, l ++ [mkWrite raw readiness_source]) |>).

Definition discard_downstream_attempt (g : NodeGateway) : NodeGateway :=
  g <| reader_running := false |> <| writer_running := false |> <| downstream_open := false |>
    <| downstream_writes := [] |>.

Definition forget_readiness (g : NodeGateway) : NodeGateway :=
  g <| config_waiters ::= ddel READINESS_NONCE |>.

(** The request's [put], cancelled if it still waits. *)
Definition cancel_readiness (g : NodeGateway) : NodeGateway :=
  g <| waiting_puts ::= filter (λ x, dw_source x ≠ readiness_source) |>.

(** [_establish_ready_downstream]; the timeout ends the list of attempts. *)
Fixpoint establish (attempts : list attempt) (last_error : option string) (w : NodeGateway * T)
    : (NodeGateway * T) * res unit :=
  let timed_out := Raise (GatewayError ("downstream connection failed: " +:+
                                          default "startup timeout expired"%string last_error)) in
  match attempts with
  | [] => (w, timed_out)
  | Refused error :: attempts => establish attempts (Some error) w
  | Opened meanwhile :: attempts =>
    match encode_frame (serialize_to_radio (WantConfig READINESS_NONCE)) with
    | Raise e => (w, Raise e)
    | Ok raw =>
      let w := gw_run meanwhile (with_gateway (open_downstream raw) w) in
      match dget READINESS_NONCE (config_waiters w.1) with
      | Some WaiterDone =>
        (emit "gateway.downstream_ready" ("config nonce " +:+ pretty READINESS_NONCE) None
           (with_gateway forget_readiness w), Ok tt)
      | Some (WaiterFailed _) =>
        let w := with_gateway (λ g, forget_readiness (discard_downstream_attempt
                   (g <| gw_state := CONNECTING |> <| gw_failed := false |>))) w in
        establish attempts (Some "daemon closed during readiness handshake"%string) w
      | _ => (with_gateway (λ g, forget_readiness (cancel_readiness g)) w, timed_out)
      end
    end
  end.

(** The environment of [start]: the port bound or the error, the connection
    attempts, what the other tasks do while the listeners open, whether opening
    one raises, and what they do while a failed start closes. *)
Record GatewayStart := mkGatewayStart {
  gs_bind : res Z;
  gs_attempts : list attempt;
  gs_listening : list gw_op;
  gs_control : res unit;
  gs_server : res unit;
  gs_closing : list gw_op }.

Definition reserve_public_listener (bind : res Z) (g : NodeGateway) : NodeGateway * res unit :=
  if server g || reserved_public_socket g then (g, Ok tt)
  else match bind with
       | Ok port => (g <| gw_public_port := port |> <| reserved_public_socket := true |>, Ok tt)
       | Raise e => (g, Raise e)
       end.

(** The body of the [try] of [_start_unlocked]. *)
Definition start_body (env : GatewayStart) (w : NodeGateway * T) : (NodeGateway * T) * res unit :=
  match reserve_public_listener (gs_bind env) w.1 with
  | (g, Raise e) => ((g, w.2), Raise e)
  | (g, Ok _) =>
    match establish (gs_attempts env) None (g, w.2) with
    | (w, Raise e) => (w, Raise e)
    | (w, Ok _) =>
      match gs_control env with
      | Raise e => (w, Raise e)
      | Ok _ =>
        let w := gw_run (gs_listening env) (with_gateway (λ g, g <| control_server := true |>) w) in
        if negb (reserved_public_socket w.1) then (w, Raise (GatewayError "public listener was not reserved"))
        else match gs_server env with
        | Raise e => (w, Raise e)
        | Ok _ =>
          let w := with_gateway (λ g, g <| server := true |> <| reserved_public_socket := false |>
                                        <| gw_state := RUNNING |>) w in
          (emit "gateway.started" ("public port " +:+ pretty (gw_public_port w.1)) None w, Ok tt)
        end
      end
    end
  end.

Definition gateway_start (env : GatewayStart) (w : NodeGateway * T) : (NodeGateway * T) * res unit :=
  match gw_state w.1 with
  | RUNNING => (w, Ok tt)
  | STOPPED | FAILED =>
    let w := with_gateway (λ g, g <| gw_state := CONNECTING |> <| gw_failed := false |>) w in
    match start_body env w with
    | (w, Ok _) => (w, Ok tt)
    | (w, Raise e) =>
      let w := with_gateway (λ g, g <| gw_state := FAILED |>) w in
      let w := with_gateway cancel_tasks (close_transports (gs_closing env) w) in
      (w, Raise (GatewayError ("gateway " +:+ gw_node_id w.1 +:+ " failed to start: " +:+ exn_text e)))
    end
  | s => (w, Raise (GatewayError ("cannot start gateway from " +:+ gateway_state_text s)))
  end.
End gateway.
