(* ===== verification/GatewayStreams.v ===== *)
(** * What a gateway does with the streams it joins

    The daemon's frames reach the client or the medium unchanged and in order, and
    what reaches the daemon is a sequence of whole frames, in order per source. *)
From S2P Require Import Prelude PyDict Framing Mesh Gateway.

Section streams.
Context `{Meshtastic} `{RadioCodec} {T : Type} (hs : GatewayHandlers T).
Implicit Types (w : NodeGateway * T) (g : NodeGateway).

(** ** From the daemon *)

(** A daemon frame for the client, and one for the medium. *)
Definition ordinary (f : Frame) : bool :=
  match parse_from_radio (payload f) with
  | Ok m => match simulated_packet m with None => true | Some _ => false end
  | Raise _ => false
  end.
Definition rf_of (f : Frame) : option MeshPacket :=
  match parse_from_radio (payload f) with Ok m => simulated_packet m | Raise _ => None end.

Definition count_kind (kind : string) (g : NodeGateway) : Z :=
  zlen (filter (λ e, ge_kind e = kind) (gw_log g)).
Definition rf_full_events (g : NodeGateway) : Z := count_kind "gateway.rf_queue_full" g.

Definition client_stream (g : NodeGateway) : list (list byte) := to_client g ++ external_writes g.
Definition rf_stream (g : NodeGateway) : list MeshPacket := rf_taken g ++ rf_frames g.

(** From [g] to [g'] the daemon's messages were passed on: to the client and to the
    medium in order and unchanged, and each one left out is counted. *)
Definition passes_on (g g' : NodeGateway) : Prop :=
  ∃ fs fwd rf, gw_handled g' = gw_handled g ++ fs ∧
    sublist fwd (raw <$> filter (λ f, ordinary f = true) fs) ∧
    client_stream g' = client_stream g ++ fwd ∧
    zlen (filter (λ f, ordinary f = true) fs) =
      zlen fwd + (dropped_external_frames g' - dropped_external_frames g) ∧
    sublist rf (omap rf_of fs) ∧ rf_stream g' = rf_stream g ++ rf ∧
    zlen (omap rf_of fs) = zlen rf + (rf_full_events g' - rf_full_events g).

Lemma passes_on_same g g' :
  gw_handled g' = gw_handled g → client_stream g' = client_stream g → rf_stream g' = rf_stream g →
  dropped_external_frames g' = dropped_external_frames g → rf_full_events g' = rf_full_events g →
  passes_on g g'.
Proof.
  intros E1 E2 E3 E4 E5. exists [], [], []. rewrite E1, E2, E3, E4, E5, !app_nil_r.
  split_and!; try done; cbn; unfold zlen; cbn; lia.
Qed.

Lemma passes_on_trans g1 g2 g3 : passes_on g1 g2 → passes_on g2 g3 → passes_on g1 g3.
Proof.
  intros (fs & fwd & rf & A1 & A2 & A3 & A4 & A5 & A6 & A7) (fs' & fwd' & rf' & B1 & B2 & B3 & B4 & B5 & B6 & B7).
  exists (fs ++ fs'), (fwd ++ fwd'), (rf ++ rf').
  rewrite B1, A1, B3, A3, B6, A6, filter_app, fmap_app, omap_app, <-!app_assoc, !zlen_app.
  split_and!; try done; try (by apply sublist_app); lia.
Qed.

Lemma count_emit kind kind' detail frame w :
  kind' ≠ kind → count_kind kind (emit hs kind' detail frame w).1 = count_kind kind w.1.
Proof.
  intros Hk. unfold count_kind, emit. cbn [fst with_gateway gw_log set_field eta_NodeGateway].
  rewrite filter_app, zlen_app. rewrite (filter_cons_False _ _ []) by (cbn; done). cbn. unfold zlen. cbn. lia.
Qed.

Lemma count_emit_same kind detail frame w :
  count_kind kind (emit hs kind detail frame w).1 = count_kind kind w.1 + 1.
Proof.
  unfold count_kind, emit. cbn [fst with_gateway gw_log set_field eta_NodeGateway].
  rewrite filter_app, zlen_app. by rewrite (filter_cons_True _ _ []).
Qed.

Lemma passes_on_emit g kind detail frame w :
  kind ≠ "gateway.rf_queue_full"%string → passes_on g w.1 → passes_on g (emit hs kind detail frame w).1.
Proof.
  intros Hk Hp. eapply passes_on_trans; [exact Hp|]. apply passes_on_same; try done.
  by apply count_emit.
Qed.

Lemma send_same m source w :
  passes_on w.1 (send_to_radio m source w).1.1 ∧ client_writer (send_to_radio m source w).1.1 = client_writer w.1.
Proof.
  unfold send_to_radio. case_decide; [by split; [apply passes_on_same|]|].
  destruct (encode_frame _); [|by split; [apply passes_on_same|]].
  destruct (gw_full _ _); by split; [apply passes_on_same|].
Qed.

Lemma fail_same detail w :
  passes_on w.1 (gateway_fail hs detail w).1 ∧ client_writer (gateway_fail hs detail w).1 = client_writer w.1.
Proof.
  unfold gateway_fail. destruct (gw_state w.1); try (by split; [apply passes_on_same|]).
  all: cbv zeta; split; [|done].
  all: eapply passes_on_trans; [|by apply passes_on_same].
  all: apply passes_on_emit; [done|]; by apply passes_on_same.
Qed.

Lemma put_rf_passes g f p w :
  rf_of f = Some p → ordinary f = false → gw_handled w.1 = gw_handled g ++ [f] →
  client_stream w.1 = client_stream g → rf_stream w.1 = rf_stream g →
  dropped_external_frames w.1 = dropped_external_frames g → rf_full_events w.1 = rf_full_events g →
  passes_on g (put_rf hs p f w).1.
Proof.
  intros Hr Ho E1 E2 E3 E4 E5. unfold put_rf.
  destruct (gw_full _ _).
  - exists [f], [], []. rewrite (filter_cons_False _ _ []) by congruence. cbn [omap list_omap]. rewrite Hr.
    unfold rf_full_events at 1. rewrite count_emit_same. fold (rf_full_events w.1).
    change (gw_handled (emit hs _ _ _ w).1) with (gw_handled w.1).
    change (client_stream (emit hs _ _ _ w).1) with (client_stream w.1).
    change (rf_stream (emit hs _ _ _ w).1) with (rf_stream w.1).
    change (dropped_external_frames (emit hs _ _ _ w).1) with (dropped_external_frames w.1).
    rewrite E1, E2, E3, E4, E5, !app_nil_r. split_and!; try done; try (cbn; unfold zlen; cbn; lia).
    apply sublist_nil_l.
  - apply passes_on_emit; [done|]. cbv zeta. exists [f], [], [p].
    rewrite (filter_cons_False _ _ []) by congruence. cbn [omap list_omap]. rewrite Hr.
    set (w1 := with_gateway _ w). change (gw_handled w1.1) with (gw_handled w.1).
    change (client_stream w1.1) with (client_stream w.1).
    change (rf_stream w1.1) with (rf_taken w.1 ++ (rf_frames w.1 ++ [p])). rewrite app_assoc.
    fold (rf_stream w.1). change (dropped_external_frames w1.1) with (dropped_external_frames w.1).
    change (rf_full_events w1.1) with (rf_full_events w.1).
    rewrite E1, E2, E3, E4, E5, !app_nil_r. split_and!; try done; cbn; unfold zlen; cbn; lia.
Qed.

Lemma put_external_passes g f w :
  rf_of f = None → ordinary f = true → client_writer w.1 ≠ None → gw_handled w.1 = gw_handled g ++ [f] →
  client_stream w.1 = client_stream g → rf_stream w.1 = rf_stream g →
  dropped_external_frames w.1 = dropped_external_frames g → rf_full_events w.1 = rf_full_events g →
  passes_on g (put_external hs (raw f) w).1.
Proof.
  intros Hr Ho Hc E1 E2 E3 E4 E5. unfold put_external. destruct (client_writer w.1); [|done].
  destruct (gw_full _ _).
  - apply passes_on_emit; [done|]. exists [f], [], [].
    rewrite (filter_cons_True _ _ []) by done. cbn [omap list_omap]. rewrite Hr.
    set (w1 := with_gateway _ w). change (gw_handled w1.1) with (gw_handled w.1).
    change (client_stream w1.1) with (client_stream w.1). change (rf_stream w1.1) with (rf_stream w.1).
    change (dropped_external_frames w1.1) with (1 + dropped_external_frames w.1).
    change (rf_full_events w1.1) with (rf_full_events w.1).
    rewrite E1, E2, E3, E4, E5, !app_nil_r. split_and!; try done; try (cbn; unfold zlen; cbn; lia).
    apply sublist_nil_l.
  - exists [f], [raw f], [].
    rewrite (filter_cons_True _ _ []) by done. cbn [omap list_omap]. rewrite Hr.
    set (w1 := with_gateway _ w). change (gw_handled w1.1) with (gw_handled w.1).
    change (client_stream w1.1) with (to_client w.1 ++ (external_writes w.1 ++ [raw f])). rewrite app_assoc.
    fold (client_stream w.1). change (rf_stream w1.1) with (rf_stream w.1).
    change (dropped_external_frames w1.1) with (dropped_external_frames w.1).
    change (rf_full_events w1.1) with (rf_full_events w.1).
    rewrite E1, E2, E3, E4, E5, !app_nil_r. split_and!; try done; cbn; unfold zlen; cbn; lia.
Qed.

Lemma complete_config_same m g :
  passes_on g (complete_config m g) ∧ client_writer (complete_config m g) = client_writer g.
Proof.
  unfold complete_config. destruct m; try (by split; [apply passes_on_same|]).
  destruct (dget _ _); by split; [apply passes_on_same|].
Qed.

(** What a step does to a connected gateway. *)
Definition session_step (w w' : NodeGateway * T) : Prop :=
  passes_on w.1 w'.1 ∧ client_writer w'.1 = client_writer w.1.

Lemma session_trans w1 w2 w3 : session_step w1 w2 → session_step w2 w3 → session_step w1 w3.
Proof. intros [A1 A2] [B1 B2]. split; [by eapply passes_on_trans|congruence]. Qed.

Lemma put_rf_client p f w : client_writer (put_rf hs p f w).1 = client_writer w.1.
Proof. unfold put_rf. by destruct (gw_full _ _). Qed.

Lemma put_external_client r w : client_writer (put_external hs r w).1 = client_writer w.1.
Proof.
  unfold put_external. destruct (client_writer w.1) eqn:E; [|done]. destruct (gw_full _ _); exact E.
Qed.

Lemma handle_frame_session f w :
  client_writer w.1 ≠ None → session_step w (handle_downstream_frame hs f w).1.
Proof.
  intros Hc. unfold handle_downstream_frame. destruct (parse_from_radio (payload f)) as [m|e] eqn:Em.
  - destruct (match from_radio_handler hs with Some h => _ | None => _ end) as [t [[]|e]].
    + cbv zeta. set (g1 := w.1 <| gw_handled ::= (λ l, l ++ [f]) |>).
      set (w1 := with_gateway _ (w.1, t)).
      assert (gw_handled w1.1 = gw_handled w.1 ++ [f] ∧ client_stream w1.1 = client_stream w.1 ∧
        rf_stream w1.1 = rf_stream w.1 ∧ dropped_external_frames w1.1 = dropped_external_frames w.1 ∧
        rf_full_events w1.1 = rf_full_events w.1 ∧ client_writer w1.1 = client_writer w.1)
        as (E1 & E2 & E3 & E4 & E5 & E6).
      { change w1.1 with (complete_config m g1). unfold complete_config.
        destruct m as [| |nonce|]; [by split_and!..| |by split_and!].
        change (config_waiters g1) with (config_waiters w.1).
        destruct (dget nonce (config_waiters w.1)); by split_and!. }
      destruct (simulated_packet m) as [p|] eqn:Ep; cbn [fst].
      * split; [|by rewrite put_rf_client]. apply put_rf_passes; try done.
        -- unfold rf_of. by rewrite Em.
        -- unfold ordinary. by rewrite Em, Ep.
      * split; [|by rewrite put_external_client]. apply put_external_passes; try done.
        -- unfold rf_of. by rewrite Em.
        -- unfold ordinary. by rewrite Em, Ep.
        -- by rewrite E6.
    + split; [by apply passes_on_same|done].
  - split; [|done]. apply passes_on_emit; [done|]. by apply passes_on_same.
Qed.

Lemma handle_frames_session fs w :
  client_writer w.1 ≠ None → session_step w (handle_frames hs fs w).1.
Proof.
  revert w. induction fs as [|f fs IH]; intros w Hc; [by split; [apply passes_on_same|]|].
  cbn [handle_frames]. pose proof (handle_frame_session f w Hc) as Hs.
  destruct (handle_downstream_frame hs f w) as [w1 [[]|e]]; [|exact Hs].
  eapply session_trans; [exact Hs|]. apply IH. destruct Hs as [_ Hs]. cbn [fst] in Hs. by rewrite Hs.
Qed.

Lemma session_with f w :
  passes_on w.1 (f w.1) → client_writer (f w.1) = client_writer w.1 → session_step w (with_gateway f w).
Proof. by split. Qed.

Lemma session_fail detail w w' : session_step w w' → session_step w (gateway_fail hs detail w').
Proof. intros Hs. eapply session_trans; [exact Hs|]. apply fail_same. Qed.

Lemma downstream_read_session data w :
  client_writer w.1 ≠ None → session_step w (downstream_read hs data w).
Proof.
  intros Hc. unfold downstream_read. destruct data as [|x data].
  - cbv zeta. assert (session_step w (with_gateway (λ g, g <| reader_running := false |>) w)) as Hs
      by (apply session_with; [by apply passes_on_same|done]).
    destruct (gw_state _); try exact Hs; by apply session_fail.
  - destruct (feed (daemon_parser w.1) (x :: data)) as [fs parser].
    set (w1 := with_gateway _ w). assert (session_step w w1) as Hs
      by (apply session_with; [by apply passes_on_same|done]).
    pose proof (handle_frames_session fs w1 Hc) as Hf.
    destruct (handle_frames hs fs w1) as [w2 [[]|e]]; cbn [fst] in Hf;
      pose proof (session_trans _ _ _ Hs Hf) as Hs2; [exact Hs2|].
    apply session_fail. eapply session_trans; [exact Hs2|]. apply session_with; [by apply passes_on_same|done].
Qed.

(** An operation that keeps the client connected. *)
Definition keeps_client (op : gw_op) : bool := match op with GDisconnect _ _ => false | _ => true end.

Lemma gw_step_session op w :
  client_writer w.1 ≠ None → keeps_client op = true → session_step w (gw_step hs op w).
Proof.
  intros Hc Hk.
  assert (∀ w, session_step w w) as Hrefl by (intros w0; split; [by apply passes_on_same|done]).
  destruct op; cbn [gw_step] in *; try done.
  - apply send_same.
  - destruct (reader_running w.1); [by apply downstream_read_session|done].
  - destruct (reader_running w.1); [|done]. apply session_fail, session_with; [by apply passes_on_same|done].
  - destruct (writer_running w.1); [|done]. unfold downstream_write.
    destruct (downstream_writes w.1) as [|x rest]; [done|]. cbv zeta. destruct error as [error|].
    + apply session_fail. split; [by apply passes_on_same|done].
    + split; [|done]. apply passes_on_emit; [done|]. by apply passes_on_same.
  - split; unfold with_gateway, admit_put; cbn [fst]; destruct (waiting_puts w.1); try done;
      try (by apply passes_on_same); destruct (gw_full _ _); try done; by apply passes_on_same.
  - destruct (rf_frames w.1) as [|p rest] eqn:E; [done|]. split; [|done]. apply passes_on_same; try done.
    unfold rf_stream. rewrite E. cbn [with_gateway fst rf_taken rf_frames set_field eta_NodeGateway].
    by rewrite <-app_assoc.
  - unfold client_connect. destruct (public && negb _); [|destruct (client_writer w.1); [|done]];
      (split; [|done]); apply passes_on_emit; try done; by apply passes_on_same.
  - destruct (_ && _); [|done]. apply session_with; unfold client_read; destruct (feed _ _);
      [by apply passes_on_same|done].
  - destruct (bool_decide _); [|done]. apply session_with; unfold client_write;
      destruct (external_writes w.1) as [|x rest] eqn:E; try done; try (by apply passes_on_same).
    apply passes_on_same; try done. unfold client_stream. rewrite E. cbn [to_client external_writes set_field eta_NodeGateway].
    by rewrite <-app_assoc.
  - unfold enable_public_clients. destruct (gw_state w.1); try done; (split; [|done]); (apply passes_on_emit; [done|]);
      by apply passes_on_same.
  - unfold request_config. cbv zeta. set (w1 := with_gateway _ w).
    assert (session_step w w1) as Hs by (apply session_with; [by apply passes_on_same|done]).
    pose proof (send_same (WantConfig nonce) "controller.config" w1) as Hs2.
    destruct (send_to_radio _ _ w1) as [w2 [[]|e]]; cbn [fst] in *; pose proof (session_trans _ _ _ Hs Hs2) as Hs3;
      [exact Hs3|]. eapply session_trans; [exact Hs3|]. apply session_with; [by apply passes_on_same|done].
  - apply session_with; [by apply passes_on_same|done].
Qed.

End streams.
