(* ===== verification/GatewayWrites.v ===== *)
(** * What a gateway writes to its daemon

    Several sources share one downstream connection. *)
From S2P Require Import Prelude PyDict Framing Mesh Gateway GatewayStreams.

(** A write that is exactly one frame. *)
Definition whole (x : DownstreamWrite) : Prop :=
  ∃ pl, zlen pl <= MAX_PROTOBUF_SIZE ∧ dw_raw x = raw (frame_of pl).

(** Everything accepted for the daemon, in the order it reaches it. *)
Definition pipeline (g : NodeGateway) : list DownstreamWrite :=
  to_daemon g ++ downstream_writes g ++ waiting_puts g.

(** Only clients and the readiness handshake wait for room. *)
Definition waits (s : string) : Prop := s = external_source ∨ s = readiness_source.

Record writes_ok (g : NodeGateway) : Prop := {
  wo_whole : Forall whole (pipeline g);
  wo_waiting : Forall (λ x, waits (dw_source x)) (waiting_puts g);
  wo_parser : maximum_payload_size (client_parser g) = MAX_PROTOBUF_SIZE }.

Definition from_source (s : string) (l : list DownstreamWrite) : list DownstreamWrite :=
  filter (λ x, dw_source x = s) l.

Lemma from_source_app s l k : from_source s (l ++ k) = from_source s l ++ from_source s k.
Proof. apply filter_app. Qed.

Lemma from_source_other s l : Forall (λ x, dw_source x ≠ s) l → from_source s l = [].
Proof.
  unfold from_source. induction 1 as [|x l Hx _ IH]; [done|]. by rewrite filter_cons_False.
Qed.

Section writes.
Context `{Meshtastic} `{RadioCodec} {T : Type} (hs : GatewayHandlers T).
Implicit Types (w : NodeGateway * T) (g : NodeGateway).

(** What an operation offers to the daemon. *)
Definition sent (m : ToRadio) (source : string) (w : NodeGateway * T) : list DownstreamWrite :=
  match (send_to_radio m source w).2, encode_frame (serialize_to_radio m) with
  | Ok _, Ok raw => [mkWrite raw source]
  | _, _ => []
  end.

Definition puts (op : gw_op) (w : NodeGateway * T) : list DownstreamWrite :=
  match op with
  | GSend m source => sent m source w
  | GRequestConfig nonce => sent (WantConfig nonce) "controller.config" w
  | GClientData data =>
    if bool_decide (client_writer w.1 ≠ None) &&
       negb (existsb (λ x, bool_decide (dw_source x = external_source)) (waiting_puts w.1))
    then (λ f, mkWrite (raw f) external_source) <$> (feed (client_parser w.1) data).1 else []
  | _ => []
  end.

Fixpoint puts_of (ops : list gw_op) (w : NodeGateway * T) : list DownstreamWrite :=
  match ops with
  | [] => []
  | op :: ops => puts op w ++ puts_of ops (gw_step hs op w)
  end.

(** Controllers send under names of their own. *)
Definition own_source (op : gw_op) : Prop :=
  match op with GSend _ s => ¬ waits s | _ => True end.

(** [g'] has in its pipeline what [g] has and [l], each source's in order. *)
Definition offers (g : NodeGateway) (l : list DownstreamWrite) (g' : NodeGateway) : Prop :=
  writes_ok g' ∧ ∀ s, from_source s (pipeline g') = from_source s (pipeline g) ++ from_source s l.

Definition same_writes (g g' : NodeGateway) : Prop :=
  pipeline g' = pipeline g ∧ waiting_puts g' = waiting_puts g ∧
  maximum_payload_size (client_parser g') = maximum_payload_size (client_parser g).

Lemma same_writes_trans g1 g2 g3 : same_writes g1 g2 → same_writes g2 g3 → same_writes g1 g3.
Proof. intros (A1 & A2 & A3) (B1 & B2 & B3). split_and!; congruence. Qed.

Lemma same_offers g g' : writes_ok g → same_writes g g' → offers g [] g'.
Proof.
  intros [W1 W2 W3] (E1 & E2 & E3). split; [split; congruence|]. intros s. rewrite E1. cbn. by rewrite app_nil_r.
Qed.

Lemma same_fail detail w : same_writes w.1 (gateway_fail hs detail w).1.
Proof. unfold gateway_fail. by destruct (gw_state w.1). Qed.

Lemma same_handle f w : same_writes w.1 (handle_downstream_frame hs f w).1.1.
Proof.
  unfold handle_downstream_frame. destruct (parse_from_radio _) as [m|e]; [|done].
  destruct (match from_radio_handler hs with Some h => _ | None => _ end) as [t [[]|e]]; [|done].
  cbv zeta. set (w1 := with_gateway _ (w.1, t)).
  assert (same_writes w.1 w1.1) as Hs.
  { change w1.1 with (complete_config m (w.1 <| gw_handled ::= (λ l, l ++ [f]) |>)). unfold complete_config.
    destruct m; try done. by destruct (dget _ _). }
  destruct (simulated_packet m) as [p|]; cbn [fst]; (eapply same_writes_trans; [exact Hs|]).
  - unfold put_rf. by destruct (gw_full _ _).
  - unfold put_external. destruct (client_writer w1.1); [|done]. by destruct (gw_full _ _).
Qed.

Lemma same_handles fs w : same_writes w.1 (handle_frames hs fs w).1.1.
Proof.
  revert w. induction fs as [|f fs IH]; intros w; [done|]. cbn [handle_frames].
  pose proof (same_handle f w) as Hs. destruct (handle_downstream_frame hs f w) as [w1 [[]|e]]; [|exact Hs].
  eapply same_writes_trans; [exact Hs|apply IH].
Qed.

Lemma same_read data w : same_writes w.1 (downstream_read hs data w).1.
Proof.
  unfold downstream_read. destruct data as [|x data].
  - cbv zeta. set (w1 := with_gateway _ w). assert (same_writes w.1 w1.1) as Hs by done.
    destruct (gw_state w1.1); try exact Hs; eapply same_writes_trans; [exact Hs|apply same_fail|exact Hs|apply same_fail
      |exact Hs|apply same_fail].
  - destruct (feed _ _) as [fs parser]. set (w1 := with_gateway _ w).
    pose proof (same_handles fs w1) as Hs. assert (same_writes w.1 w1.1) as Hs0 by done.
    destruct (handle_frames hs fs w1) as [w2 [[]|e]]; cbn [fst] in Hs;
      pose proof (same_writes_trans _ _ _ Hs0 Hs) as Hs2; [exact Hs2|].
    eapply same_writes_trans; [exact Hs2|]. eapply same_writes_trans; [|apply same_fail]. done.
Qed.

Lemma send_offers m source w :
  writes_ok w.1 → ¬ waits source → offers w.1 (sent m source w) (send_to_radio m source w).1.1.
Proof.
  intros Hw Hs. unfold sent, send_to_radio. case_decide; [by apply same_offers|].
  destruct (encode_frame (serialize_to_radio m)) as [r|e] eqn:Er; [|by apply same_offers].
  destruct (gw_full _ _); [by apply same_offers|]. cbn [fst snd]. destruct Hw as [W1 W2 W3].
  apply encode_frame_ok in Er as [Hsz ->].
  set (x := mkWrite (raw (frame_of (serialize_to_radio m))) source). set (g' := (with_gateway _ w).1).
  assert (pipeline g' = to_daemon w.1 ++ (downstream_writes w.1 ++ [x]) ++ waiting_puts w.1) as Hp by done.
  split.
  - split; [|exact W2|exact W3]. rewrite Hp. unfold pipeline in W1. rewrite !Forall_app in W1.
    destruct W1 as (? & ? & ?). rewrite !Forall_app. split_and!; try done. constructor; [by exists (serialize_to_radio m)|constructor].
  - intros s. rewrite Hp. unfold pipeline. rewrite !from_source_app, <-!app_assoc. do 2 f_equal.
    destruct (decide (s = source)) as [->|Hne].
    + rewrite (from_source_other source (waiting_puts w.1)); [by rewrite app_nil_r|].
      eapply Forall_impl; [exact W2|]. intros y Hy Heq. cbn beta in Hy. by rewrite Heq in Hy.
    + rewrite (from_source_other s [x]); [by rewrite app_nil_r|]. constructor; [|constructor]. cbn. congruence.
Qed.

Lemma sent_same m source w w1 :
  gw_state w1.1 = gw_state w.1 → gw_queue_size w1.1 = gw_queue_size w.1 →
  downstream_writes w1.1 = downstream_writes w.1 → sent m source w1 = sent m source w.
Proof.
  intros E1 E2 E3. unfold sent, send_to_radio, gw_full. rewrite E1, E2, E3.
  case_decide; [done|]. destruct (encode_frame _); [|done]. by destruct (_ && _).
Qed.

Lemma client_read_offers data g :
  writes_ok g →
  offers g ((λ f, mkWrite (raw f) external_source) <$> (feed (client_parser g) data).1) (client_read data g).
Proof.
  intros [W1 W2 W3]. unfold client_read. pose proof (feed_accounts (client_parser g) data) as (Hm & Hf & _).
  destruct (feed (client_parser g) data) as [fs parser]. cbn [fst snd] in *.
  set (l := (λ f, mkWrite (raw f) external_source) <$> fs). set (g' := g <| client_parser := parser |> <| waiting_puts ::= _ |>).
  assert (pipeline g' = pipeline g ++ l) as Hp by (unfold pipeline; rewrite <-!app_assoc; done).
  change (maximum_payload_size (append (client_parser g) data)) with (maximum_payload_size (client_parser g)) in *.
  split.
  - split.
    + rewrite Hp. apply Forall_app. split; [done|]. apply Forall_fmap. eapply Forall_impl; [exact Hf|].
      intros f (-> & Hle & _). exists (payload f). rewrite W3 in Hle. done.
    + change (waiting_puts g') with (waiting_puts g ++ l). apply Forall_app. split; [done|].
      apply Forall_fmap. apply Forall_true. by left.
    + change (client_parser g') with parser. congruence.
  - intros s. by rewrite Hp, from_source_app.
Qed.

Lemma gw_step_offers op w :
  writes_ok w.1 → keeps_client op = true → own_source op → offers w.1 (puts op w) (gw_step hs op w).1.
Proof.
  intros Hw Hk Ho. destruct op; cbn [gw_step puts] in *; try done.
  - by apply send_offers.
  - destruct (reader_running w.1); [|by apply same_offers]. apply same_offers; [done|apply same_read].
  - destruct (reader_running w.1); [|by apply same_offers]. apply same_offers; [done|].
    unfold downstream_read_error. eapply same_writes_trans; [|apply same_fail]. done.
  - destruct (writer_running w.1); [|by apply same_offers]. apply same_offers; [done|]. unfold downstream_write.
    destruct (downstream_writes w.1) as [|x rest] eqn:E; [done|]. cbv zeta.
    set (w1 := with_gateway _ w). assert (same_writes w.1 w1.1) as Hs.
    { split; [|done]. unfold pipeline. rewrite E. cbn [w1 with_gateway fst to_daemon downstream_writes waiting_puts
        set_field eta_NodeGateway]. by rewrite <-app_assoc. }
    destruct error; [|exact Hs]. eapply same_writes_trans; [exact Hs|]. eapply same_writes_trans; [|apply same_fail]. done.
  - split; [|intros s; cbn; rewrite app_nil_r].
    + unfold with_gateway, admit_put. cbn [fst]. destruct (waiting_puts w.1) as [|x rest] eqn:E; [done|].
      destruct (gw_full _ _); [done|]. destruct Hw as [W1 W2 W3]. split; [|by rewrite E in W2; inversion W2|exact W3].
      unfold pipeline in *. rewrite E in W1. cbn. by rewrite <-(app_assoc _ [x]).
    + unfold with_gateway, admit_put. cbn [fst]. destruct (waiting_puts w.1) as [|x rest] eqn:E; [done|].
      destruct (gw_full _ _); [done|]. unfold pipeline. rewrite E. cbn. by rewrite <-(app_assoc _ [x]).
  - apply same_offers; [done|]. by destruct (rf_frames w.1).
  - unfold client_connect. destruct (public && negb _); [by apply same_offers|].
    destruct (client_writer w.1); [by apply same_offers|]. destruct Hw as [W1 W2 W3].
    split; [by split|]. intros s. cbn. by rewrite app_nil_r.
  - destruct (_ && _); [|by apply same_offers]. by apply client_read_offers.
  - apply same_offers; [done|]. destruct (bool_decide _); [|done]. unfold client_write, with_gateway. cbn [fst].
    by destruct (external_writes w.1).
  - apply same_offers; [done|]. unfold enable_public_clients. by destruct (gw_state w.1).
  - unfold request_config. cbv zeta. set (w1 := with_gateway _ w).
    assert (writes_ok w1.1) as Hw1 by (destruct Hw; by split).
    pose proof (send_offers (WantConfig nonce) "controller.config" w1 Hw1 ltac:(by intros [?|?])) as Hs.
    rewrite (sent_same _ _ w w1) in Hs by done.
    change (pipeline w1.1) with (pipeline w.1) in Hs. destruct (send_to_radio _ _ w1) as [w2 [[]|e]]; [exact Hs|].
    destruct Hs as [[X1 X2 X3] X4]. by split.
  - by apply same_offers.
Qed.

(** C21: while a client is connected the daemon receives whole frames only, never
    parts of two interleaved, and decodes exactly one message per write; and what
    each source offers (a controller's accepted sends, the client's frames) is
    written to it or still queued, all of it, once, and in that source's order. *)
Theorem gateway_multiplexes ops w :
  writes_ok w.1 → forallb keeps_client ops = true → Forall own_source ops →
  let g' := (gw_run hs ops w).1 in
  (∀ s, from_source s (pipeline g') = from_source s (pipeline w.1) ++ from_source s (puts_of ops w)) ∧
  ∃ pls, length pls = length (to_daemon g') ∧
    feed (new_parser MAX_PROTOBUF_SIZE) (concat (dw_raw <$> to_daemon g')) =
      (frame_of <$> pls, new_parser MAX_PROTOBUF_SIZE) ∧
    dw_raw <$> to_daemon g' = raw <$> (frame_of <$> pls).
Proof.
  intros Hw Hk Ho g'. assert (offers w.1 (puts_of ops w) g') as [Hw' Hs].
  { subst g'. revert w Hw. induction ops as [|op ops IH]; intros w Hw; [by apply same_offers|].
    apply andb_true_iff in Hk as [Hk Hks]. apply Forall_cons in Ho as [Ho Hos].
    pose proof (gw_step_offers op w Hw Hk Ho) as [Hw1 Hs1].
    destruct (IH Hks Hos _ Hw1) as [Hw2 Hs2]. split; [exact Hw2|]. intros s. cbn [gw_run foldl] in *.
    cbn [puts_of]. by rewrite from_source_app, app_assoc, <-Hs1, <-Hs2. }
  split; [exact Hs|]. clearbody g'. destruct Hw' as [W _ _]. unfold pipeline in W. apply Forall_app in W as [W _].
  assert (∃ pls, Forall (λ pl, zlen pl <= MAX_PROTOBUF_SIZE ∧ zlen pl < 65536) pls ∧
    dw_raw <$> to_daemon g' = raw ∘ frame_of <$> pls) as (pls & Hpl & He).
  { induction W as [|x l (pl & Hle & Hx) _ (pls & Hpl & IH)]; [by exists []|].
    exists (pl :: pls). split; [constructor; [|done]; unfold MAX_PROTOBUF_SIZE in *; lia|].
    cbn. by rewrite Hx, IH. }
  exists pls. split_and!.
  - apply (f_equal length) in He. by rewrite !length_fmap in He.
  - rewrite He. by apply parse_frames.
  - by rewrite He, list_fmap_compose.
Qed.
End writes.
