(* ===== verification/GatewayLifecycle.v ===== *)
(** * Starting and stopping a gateway *)
From S2P Require Import Prelude PyDict Framing Mesh Gateway GatewayStreams GatewayWrites.

Section lifecycle.
Context `{Meshtastic} `{RadioCodec} {T : Type} (hs : GatewayHandlers T).
Implicit Types (w : NodeGateway * T) (g : NodeGateway).

(** ** What the tasks leave to [start] and [stop] *)

(** The state moves only from running or connecting to failed, which the [failed]
    event records; listeners are not touched. *)
Definition settled_part (g g' : NodeGateway) : Prop :=
  server g' = server g ∧ control_server g' = control_server g ∧
  reserved_public_socket g' = reserved_public_socket g ∧ gw_node_id g' = gw_node_id g ∧
  (gw_state g' = gw_state g ∧ gw_failed g' = gw_failed g ∨
   gw_state g' = FAILED ∧ gw_failed g' = true ∧ (gw_state g = RUNNING ∨ gw_state g = CONNECTING)).

Lemma settled_refl g : settled_part g g.
Proof. split_and!; try done. by left. Qed.

Lemma settled_trans g1 g2 g3 : settled_part g1 g2 → settled_part g2 g3 → settled_part g1 g3.
Proof.
  intros (A1 & A2 & A3 & A4 & A5) (B1 & B2 & B3 & B4 & B5). split_and!; try congruence.
  destruct A5 as [[A5 A6]|(A5 & A6 & A7)]; destruct B5 as [[B5 B6]|(B5 & B6 & B7)].
  - left. split; congruence.
  - right. split; [done|]. split; [done|]. by rewrite <-A5.
  - right. split; [congruence|]. split; [congruence|done].
  - right. split; [done|]. by split.
Qed.

Lemma settled_same g g' :
  server g' = server g → control_server g' = control_server g →
  reserved_public_socket g' = reserved_public_socket g → gw_node_id g' = gw_node_id g →
  gw_state g' = gw_state g → gw_failed g' = gw_failed g → settled_part g g'.
Proof. intros. split_and!; try done. by left. Qed.

Lemma settled_fail detail w : settled_part w.1 (gateway_fail hs detail w).1.
Proof.
  unfold gateway_fail. destruct (gw_state w.1) eqn:E; try apply settled_refl.
  all: split_and!; try done; right; split_and!; try done; tauto.
Qed.

Lemma settled_send m source w : settled_part w.1 (send_to_radio m source w).1.1.
Proof.
  unfold send_to_radio. case_decide; [apply settled_refl|]. destruct (encode_frame _); [|apply settled_refl].
  destruct (gw_full _ _); apply settled_refl || by apply settled_same.
Qed.

Lemma settled_handle f w : settled_part w.1 (handle_downstream_frame hs f w).1.1.
Proof.
  unfold handle_downstream_frame. destruct (parse_from_radio _) as [m|e]; [|by apply settled_same].
  destruct (match from_radio_handler hs with Some h => _ | None => _ end) as [t [[]|e]]; [|apply settled_refl].
  cbv zeta. set (w1 := with_gateway _ (w.1, t)).
  assert (settled_part w.1 w1.1) as Hs.
  { change w1.1 with (complete_config m (w.1 <| gw_handled ::= (λ l, l ++ [f]) |>)). unfold complete_config.
    destruct m; try (by apply settled_same). destruct (dget _ _); by apply settled_same. }
  destruct (simulated_packet m) as [p|]; cbn [fst]; (eapply settled_trans; [exact Hs|]).
  - unfold put_rf. destruct (gw_full _ _); by apply settled_same.
  - unfold put_external. destruct (client_writer w1.1); [|apply settled_refl].
    destruct (gw_full _ _); by apply settled_same.
Qed.

Lemma settled_handles fs w : settled_part w.1 (handle_frames hs fs w).1.1.
Proof.
  revert w. induction fs as [|f fs IH]; intros w; [apply settled_refl|]. cbn [handle_frames].
  pose proof (settled_handle f w) as Hs. destruct (handle_downstream_frame hs f w) as [w1 [[]|e]]; [|exact Hs].
  eapply settled_trans; [exact Hs|apply IH].
Qed.

Lemma settled_read data w : settled_part w.1 (downstream_read hs data w).1.
Proof.
  unfold downstream_read. destruct data as [|x data].
  - cbv zeta. set (w1 := with_gateway _ w). assert (settled_part w.1 w1.1) as Hs by by apply settled_same.
    destruct (gw_state w1.1); first [exact Hs|eapply settled_trans; [exact Hs|apply settled_fail]].
  - destruct (feed _ _) as [fs parser]. set (w1 := with_gateway _ w).
    pose proof (settled_handles fs w1) as Hs. assert (settled_part w.1 w1.1) as Hs0 by by apply settled_same.
    destruct (handle_frames hs fs w1) as [w2 [[]|e]]; cbn [fst] in Hs;
      pose proof (settled_trans _ _ _ Hs0 Hs) as Hs2; [exact Hs2|].
    eapply settled_trans; [exact Hs2|]. eapply settled_trans; [|apply settled_fail]. by apply settled_same.
Qed.

Lemma gw_step_settled op w : settled_part w.1 (gw_step hs op w).1.
Proof.
  destruct op; cbn [gw_step].
  - apply settled_send.
  - destruct (reader_running w.1); [apply settled_read|apply settled_refl].
  - destruct (reader_running w.1); [|apply settled_refl]. eapply settled_trans; [|apply settled_fail]. by apply settled_same.
  - destruct (writer_running w.1); [|apply settled_refl]. unfold downstream_write.
    destruct (downstream_writes w.1); [apply settled_refl|]. cbv zeta. destruct error; [|by apply settled_same].
    eapply settled_trans; [|apply settled_fail]. by apply settled_same.
  - unfold with_gateway, admit_put. cbn [fst]. destruct (waiting_puts w.1); [apply settled_refl|].
    destruct (gw_full _ _); by apply settled_same.
  - destruct (rf_frames w.1); by apply settled_same.
  - unfold client_connect. destruct (public && negb _); [by apply settled_same|].
    destruct (client_writer w.1); by apply settled_same.
  - destruct (_ && _); [|apply settled_refl]. unfold with_gateway, client_read. cbn [fst].
    destruct (feed _ _). by apply settled_same.
  - destruct (bool_decide _); [|apply settled_refl]. unfold with_gateway, client_write. cbn [fst].
    destruct (external_writes w.1); by apply settled_same.
  - by apply settled_same.
  - unfold enable_public_clients. destruct (gw_state w.1) eqn:E; by apply settled_same.
  - unfold request_config. cbv zeta. set (w1 := with_gateway _ w).
    assert (settled_part w.1 w1.1) as Hs by by apply settled_same.
    pose proof (settled_send (WantConfig nonce) "controller.config" w1) as Hs2.
    destruct (send_to_radio _ _ w1) as [w2 [[]|e]]; cbn [fst] in *; pose proof (settled_trans _ _ _ Hs Hs2) as Hs3;
      [exact Hs3|]. eapply settled_trans; [exact Hs3|]. by apply settled_same.
  - by apply settled_same.
Qed.

Lemma gw_run_settled ops w : settled_part w.1 (gw_run hs ops w).1.
Proof.
  revert w. induction ops as [|op ops IH]; intros w; [apply settled_refl|].
  cbn [gw_run foldl]. eapply settled_trans; [apply gw_step_settled|apply IH].
Qed.

(** ** Stopping *)

(** Nothing is open and nobody waits. *)
Definition closed (g : NodeGateway) : Prop :=
  server g = false ∧ control_server g = false ∧ reserved_public_socket g = false ∧ client_writer g = None ∧
  downstream_open g = false ∧ config_waiters g = [].

Lemma close_transports_closed ops w : closed (close_transports hs ops w).1.
Proof. by unfold close_transports. Qed.

Lemma close_transports_state ops w :
  gw_state w.1 ∈ [STOPPED; STOPPING; FAILED] → gw_state (close_transports hs ops w).1 = gw_state w.1.
Proof.
  intros Hs. unfold close_transports. destruct (gw_run_settled ops w) as (_ & _ & _ & _ & [[E _]|(_ & _ & E)]); [exact E|].
  rewrite !elem_of_cons, elem_of_nil in Hs. destruct E as [E|E]; rewrite E in Hs; by destruct Hs as [?|[?|[?|?]]].
Qed.

Lemma gateway_stop_closed ops w :
  let w' := gateway_stop hs ops w in gw_state w'.1 = STOPPED ∧ closed w'.1.
Proof.
  unfold gateway_stop. case_decide as Hs.
  - split; [|apply close_transports_closed]. rewrite close_transports_state; [done|]. rewrite Hs. left.
  - by unfold close_transports.
Qed.

(** ** Starting *)

Definition listeners (g : NodeGateway) : bool * bool * bool * string :=
  (server g, control_server g, reserved_public_socket g, gw_node_id g).

Lemma gw_run_listeners ops w : listeners (gw_run hs ops w).1 = listeners w.1.
Proof. destruct (gw_run_settled ops w) as (E1 & E2 & E3 & E4 & _). unfold listeners. by rewrite E1, E2, E3, E4. Qed.

Lemma open_downstream_listeners r g : listeners (open_downstream r g) = listeners g.
Proof.
  unfold open_downstream, admit_put. cbn [waiting_puts set_field eta_NodeGateway].
  destruct (waiting_puts g ++ _); [done|]. by destruct (gw_full _ _).
Qed.

Lemma retry_listeners g :
  listeners (forget_readiness (discard_downstream_attempt
    (g <| gw_state := CONNECTING |> <| gw_failed := false |>))) = listeners g.
Proof. done. Qed.

Lemma timeout_listeners g : listeners (forget_readiness (cancel_readiness g)) = listeners g.
Proof. done. Qed.

Lemma ready_listeners kind detail frame w :
  listeners (emit hs kind detail frame (with_gateway forget_readiness w)).1 = listeners w.1.
Proof. done. Qed.

Lemma establish_listeners attempts last_error w :
  listeners (establish hs attempts last_error w).1.1 = listeners w.1.
Proof.
  revert last_error w. induction attempts as [|[error|ops] attempts IH]; intros last_error w; cbn [establish].
  - done.
  - apply IH.
  - destruct (encode_frame _) as [r|e]; [|done]. cbv zeta.
    assert (listeners (gw_run hs ops (with_gateway (open_downstream r) w)).1 = listeners w.1) as Hs
      by (etrans; [apply gw_run_listeners|exact (open_downstream_listeners r w.1)]).
    set (w1 := gw_run hs ops _) in *. clearbody w1.
    destruct (dget _ _) as [[| |detail]|]; cbn [fst].
    + unfold with_gateway. cbn [fst]. by rewrite timeout_listeners.
    + by rewrite ready_listeners.
    + rewrite IH. unfold with_gateway. cbn [fst]. by rewrite retry_listeners.
    + unfold with_gateway. cbn [fst]. by rewrite timeout_listeners.
Qed.

(** The text [str(exc)] of a failed start. *)
Definition start_error (g : NodeGateway) (e : exn) : exn :=
  GatewayError ("gateway " +:+ gw_node_id g +:+ " failed to start: " +:+ exn_text e).

Lemma start_body_running env w :
  match start_body hs env w with
  | (w', Ok _) => gw_state w'.1 = RUNNING ∧ server w'.1 = true ∧ control_server w'.1 = true ∧
                  reserved_public_socket w'.1 = false
  | (w', Raise _) => gw_node_id w'.1 = gw_node_id w.1
  end.
Proof.
  unfold start_body.
  assert (gw_node_id (reserve_public_listener (gs_bind env) w.1).1 = gw_node_id w.1) as Hid.
  { unfold reserve_public_listener. destruct (_ || _); [done|]. by destruct (gs_bind env). }
  destruct (reserve_public_listener _ _) as [g [[]|e]]; [|exact Hid]. cbn [fst] in Hid.
  pose proof (establish_listeners (gs_attempts env) None (g, w.2)) as [= _ _ _ E].
  destruct (establish _ _ _ _) as [w1 [[]|e]]; cbn [fst] in E; [|congruence].
  destruct (gs_control env) as [[]|e]; [|congruence]. cbv zeta.
  set (w2 := gw_run hs (gs_listening env) _).
  pose proof (gw_run_settled (gs_listening env) (with_gateway (λ g, g <| control_server := true |>) w1)) as Hs.
  fold w2 in Hs. destruct Hs as (_ & E2 & _ & E4 & _). cbn in E2, E4.
  destruct (negb _); [congruence|]. destruct (gs_server env) as [[]|e]; [|congruence].
  by split_and!.
Qed.

Lemma close_transports_id ops w : gw_node_id (close_transports hs ops w).1 = gw_node_id w.1.
Proof. pose proof (gw_run_listeners ops w) as [= _ _ _ E]. exact E. Qed.

(** How a start that raised ends. *)
Definition start_undone (ops : list gw_op) (w : NodeGateway * T) : NodeGateway * T :=
  with_gateway cancel_tasks (close_transports hs ops (with_gateway (λ g, g <| gw_state := FAILED |>) w)).

Lemma start_undone_closed ops w :
  let w' := start_undone ops w in
  gw_state w'.1 = FAILED ∧ closed w'.1 ∧ reader_running w'.1 = false ∧ writer_running w'.1 = false ∧
  gw_node_id w'.1 = gw_node_id w.1.
Proof.
  set (w0 := with_gateway (λ g, g <| gw_state := FAILED |>) w).
  pose proof (close_transports_state ops w0 ltac:(right; right; left)) as Hs.
  pose proof (close_transports_closed ops w0) as Hc. pose proof (close_transports_id ops w0) as Hi.
  unfold start_undone. fold w0. generalize dependent (close_transports hs ops w0). intros w' Hs Hc Hi.
  split; [exact Hs|]. split; [exact Hc|]. split; [done|]. split; [done|exact Hi].
Qed.


(** A gateway that failed while running cannot be started again: [start] accepts
    it, goes through the whole handshake with the daemon, and then always raises,
    because its public listener is still open and so is not reserved again. *)
Theorem start_after_failure env w :
  gw_state w.1 = FAILED → server w.1 = true → reserved_public_socket w.1 = false →
  ∃ w' e, gateway_start hs env w = (w', Raise e).
Proof.
  intros Hf Hsv Hr. unfold gateway_start. rewrite Hf. cbv zeta. set (w0 := with_gateway _ w).
  assert (∃ w' e, start_body hs env w0 = (w', Raise e)) as (w' & e & ->); [|by eexists _, _].
  unfold start_body, reserve_public_listener. change (server w0.1) with (server w.1). rewrite Hsv. cbn [orb].
  pose proof (establish_listeners (gs_attempts env) None (w0.1, w0.2)) as [= _ _ E _].
  destruct (establish _ _ _ _) as [w1 [[]|e]]; cbn [fst] in E; [|by eexists _, _].
  change (reserved_public_socket w0.1) with (reserved_public_socket w.1) in E. rewrite Hr in E.
  destruct (gs_control env) as [[]|e]; [|by eexists _, _]. cbv zeta.
  pose proof (gw_run_settled (gs_listening env) (with_gateway (λ g, g <| control_server := true |>) w1)) as (_ & _ & E3 & _).
  cbn in E3. rewrite E in E3. rewrite E3. by eexists _, _.
Qed.

Lemma end_of_stream_fails w :
  reader_running w.1 = true → gw_state w.1 = CONNECTING →
  let w' := gw_step hs (GDaemonData []) w in
  gw_failed w'.1 = true ∧ reader_running w'.1 = false ∧ reserved_public_socket w'.1 = reserved_public_socket w.1.
Proof.
  intros Hr Hs. cbn [gw_step]. rewrite Hr. unfold downstream_read, gateway_fail. cbv zeta.
  change (gw_state (with_gateway (λ g, g <| reader_running := false |>) w).1) with (gw_state w.1).
  rewrite Hs. by split_and!.
Qed.

(** [start] hides a daemon that disconnects while the listeners open: the gateway
    has failed, its reader has ended, and [start] returns with the state RUNNING. *)
Theorem start_hides_disconnect env w w1 :
  gw_state w.1 = STOPPED → is_ok (gs_bind env) = true →
  establish hs (gs_attempts env) None
    ((reserve_public_listener (gs_bind env) (w.1 <| gw_state := CONNECTING |> <| gw_failed := false |>)).1, w.2) =
    (w1, Ok tt) →
  gw_state w1.1 = CONNECTING → reader_running w1.1 = true → reserved_public_socket w1.1 = true →
  gs_listening env = [GDaemonData []] → gs_control env = Ok tt → gs_server env = Ok tt →
  ∃ w', gateway_start hs env w = (w', Ok tt) ∧ gw_state w'.1 = RUNNING ∧ reader_running w'.1 = false ∧
    gw_failed w'.1 = true.
Proof.
  intros Hs Hb He Hst Hr Hres Hl Hc Hsv. unfold gateway_start. rewrite Hs. cbv zeta. unfold start_body.
  assert ((reserve_public_listener (gs_bind env) (w.1 <| gw_state := CONNECTING |> <| gw_failed := false |>)).2 = Ok tt) as Hb2.
  { unfold reserve_public_listener. destruct (_ || _); [done|]. by destruct (gs_bind env). }
  cbn [with_gateway fst snd]. destruct (reserve_public_listener _ _) as [g r]. cbn [fst snd] in *. subst r.
  rewrite He, Hc, Hl, Hsv. cbn [gw_run foldl]. set (w2 := with_gateway (λ g, g <| control_server := true |>) w1).
  destruct (end_of_stream_fails w2 Hr Hst) as (E1 & E2 & E3).
  generalize dependent (gw_step hs (GDaemonData []) w2). intros w3 E1 E2 E3.
  change (reserved_public_socket w2.1) with (reserved_public_socket w1.1) in E3. rewrite E3, Hres. cbn [negb].
  eexists. split; [reflexivity|]. by split_and!.
Qed.
End lifecycle.
