(* ===== verification/GatewayExamples.v ===== *)
(** * A worked gateway

    A concrete codec, one daemon connection and one client: the gateway's theorems
    applied to them. *)
From S2P Require Import Prelude PyDict PyFloat Framing Mesh Gateway GatewayStreams GatewayWrites GatewayLifecycle.

#[local] Existing Instance sample_protobuf.

(** A message is a tag byte and its content: 0 a completed configuration, 1 a
    simulated RF packet, anything else another message. *)
#[local] Instance sample_codec : RadioCodec := {|
  parse_from_radio := λ b,
    match b with
    | [] => Raise (DecodeError "empty")
    | tag :: b =>
      if byte_val tag =? 0 then Ok (FromConfigComplete (from_bytes_big b))
      else if byte_val tag =? 1 then
        Ok (FromPacket (mkPacket 11 12 (from_bytes_big b) (Decoded (mkData SIMULATOR_APP b false 0 [])) false 3 3 0 0 0
                          fzero []))
      else Ok (FromOther (byte_val tag))
    end;
  serialize_to_radio := λ m,
    match m with ToPacket p => [byte_of 1; byte_of (p_id p)] | WantConfig nonce => byte_of 0 :: to_bytes2_big nonce end |}.

Definition no_handlers : GatewayHandlers unit := mkGatewayHandlers None None.

Definition demo_frame (b : list byte) : list byte := raw (frame_of b).
Definition ready_frame : list byte :=
  demo_frame [byte_of 0; byte_of 0x4D; byte_of 0x4C; byte_of 0; byte_of 1].

Definition demo_attempts : list attempt := [Refused "connection refused"; Opened [GDaemonWrite None; GDaemonData ready_frame]].
Definition demo_start : GatewayStart := mkGatewayStart (Ok 4404) demo_attempts [] (Ok tt) (Ok tt) [].
Definition demo_gateway : NodeGateway * unit :=
  (gateway_start no_handlers demo_start (new_gateway "a" 2 0 false, tt)).1.
Definition demo_connected : NodeGateway * unit :=
  gw_run no_handlers [GEnablePublic; GConnect 1 true "peer"] demo_gateway.

(** A frame for the client, one for the medium, and one too many for each queue. *)
Definition demo_traffic : list gw_op :=
  [GDaemonData (demo_frame [byte_of 9] ++ demo_frame [byte_of 1; byte_of 5]); GClientWrite;
   GDaemonData (demo_frame [byte_of 7] ++ demo_frame [byte_of 8] ++ demo_frame [byte_of 9]);
   GSend (WantConfig 3) "controller.config"; GClientData (demo_frame [byte_of 4]); GAdmit; GDaemonWrite None; GDaemonWrite None].


Lemma demo_writes_ok : writes_ok demo_connected.1.
Proof.
  split; [|vm_compute; constructor|vm_compute; reflexivity].
  assert (pipeline demo_connected.1 = [mkWrite (demo_frame (byte_of 0 :: to_bytes2_big READINESS_NONCE)) readiness_source])
    as -> by (vm_compute; reflexivity).
  constructor; [|constructor]. exists (byte_of 0 :: to_bytes2_big READINESS_NONCE). split; [vm_compute; discriminate|reflexivity].
Qed.

Lemma gateway_multiplexes_witness :
  let g' := (gw_run no_handlers demo_traffic demo_connected).1 in
  dw_raw <$> from_source external_source (pipeline g') = [demo_frame [byte_of 4]] ∧
  ∃ pls, length pls = 3%nat ∧
    feed (new_parser MAX_PROTOBUF_SIZE) (concat (dw_raw <$> to_daemon g')) = (frame_of <$> pls, new_parser MAX_PROTOBUF_SIZE).
Proof.
  destruct (gateway_multiplexes no_handlers demo_traffic demo_connected demo_writes_ok) as [H1 (pls & H2 & H3 & _)].
  - vm_compute. reflexivity.
  - repeat constructor. by intros [?|?].
  - split; [rewrite H1; vm_compute; reflexivity|]. exists pls. split; [rewrite H2; vm_compute; reflexivity|exact H3].
Defined.

(** The daemon goes away while the gateway runs. *)
Definition demo_lost : NodeGateway * unit := gw_run no_handlers [GDaemonData []] demo_connected.

Lemma start_after_failure_witness :
  gw_state demo_lost.1 = FAILED ∧ ∃ w' e, gateway_start no_handlers demo_start demo_lost = (w', Raise e).
Proof.
  split; [vm_compute; reflexivity|].
  apply (start_after_failure no_handlers demo_start demo_lost); vm_compute; reflexivity.
Defined.

Lemma start_hides_disconnect_witness :
  ∃ w', gateway_start no_handlers (mkGatewayStart (Ok 4404) demo_attempts [GDaemonData []] (Ok tt) (Ok tt) [])
      (new_gateway "a" 2 0 false, tt) = (w', Ok tt) ∧ gw_state w'.1 = RUNNING ∧ reader_running w'.1 = false.
Proof.
  set (env := mkGatewayStart (Ok 4404) demo_attempts [GDaemonData []] (Ok tt) (Ok tt) []).
  set (w := (new_gateway "a" 2 0 false, tt)).
  set (w1 := (establish no_handlers (gs_attempts env) None
    ((reserve_public_listener (gs_bind env) (w.1 <| gw_state := CONNECTING |> <| gw_failed := false |>)).1, w.2)).1).
  destruct (start_hides_disconnect no_handlers env w w1) as (w' & H1 & H2 & H3 & _); [vm_compute; reflexivity..|].
  exists w'. split; [exact H1|]. split; [exact H2|exact H3].
Defined.
