(* ===== verification/Configure.v ===== *)
(** * Configuring and verifying one node (src/backend/app/runtime/configure.py)

    What the official client reports after its handshake is a [Session]; the client's
    own methods and the firmware's answers are the environment of each operation, and
    the calls made on the client are recorded in their order.  The names and numbers
    of the protobuf enumerations are the parameter [ConfigEnums]. *)
From S2P Require Import Prelude PyDict PyFloat Scenario.

(** [NodeVerification] *)
Record NodeVerification := mkVerification {
  nv_node_id : string;
  node_number : Z;
  firmware_version : string;
  owner_long_name : string;
  owner_short_name : string;
  nv_role : string;
  nv_region : string;
  nv_modem_preset : string;
  nv_frequency_slot : Z;
  nv_hop_limit : Z;
  nv_channel_name : string }.

(** [repr] of an ASCII string. *)
Definition hex_lower (n : Z) : string :=
  String (Ascii.ascii_of_nat (Z.to_nat (if n <? 10 then 48 + n else 87 + n))) EmptyString.

Definition single_quote : Ascii.ascii := Ascii.ascii_of_nat 39.
Definition double_quote : Ascii.ascii := Ascii.ascii_of_nat 34.

Definition repr_char (quote c : Ascii.ascii) : string :=
  let n := Z.of_N (Ascii.N_of_ascii c) in
  if bool_decide (c = quote) || (n =? 92) then "\" +:+ String c EmptyString
  else if n =? 10 then "\n" else if n =? 13 then "\r" else if n =? 9 then "\t"
  else if (n <? 32) || (n =? 127) then "\x" +:+ hex_lower (n / 16) +:+ hex_lower (n mod 16)
  else String c EmptyString.

Definition repr_quote (chars : list Ascii.ascii) : Ascii.ascii :=
  if bool_decide (single_quote ∈ chars) && negb (bool_decide (double_quote ∈ chars))
  then double_quote else single_quote.

Definition py_repr (s : string) : string :=
  let chars := String.list_ascii_of_string s in
  let quote := repr_quote chars in
  String quote (foldr (λ c s, repr_char quote c +:+ s) (String quote EmptyString) chars).

(** [repr] of a byte string. *)
Definition repr_byte (quote : Ascii.ascii) (b : byte) : string :=
  let n := byte_val b in
  if n <? 128 then repr_char quote (Ascii.ascii_of_byte b)
  else "\x" +:+ hex_lower (n / 16) +:+ hex_lower (n mod 16).

Definition py_repr_bytes (l : list byte) : string :=
  let quote := repr_quote (Ascii.ascii_of_byte <$> l) in
  "b" +:+ (String quote (foldr (λ c s, repr_byte quote c +:+ s) (String quote EmptyString) l)).

(** ** The node *)

Definition removeprefix (p s : string) : string :=
  if String.prefix p s then String.substring (String.length p) (String.length s - String.length p) s else s.

(** [_short_name] *)
Definition short_name (n : ScenarioNode) : string :=
  String.substring 0 4 ("N" +:+ removeprefix "node-" (node_id n)).

Definition role_text (r : NodeRole) : string :=
  match r with CLIENT => "CLIENT" | CLIENT_MUTE => "CLIENT_MUTE" | ROUTER => "ROUTER" | REPEATER => "REPEATER" end.

(** ** The client library's data *)

(** [Value] and [Name] of the enumerations, which raise on others, and the primary
    channel's role. *)
Class ConfigEnums := {
  role_value : string → res Z;
  role_name : Z → res string;
  region_value : string → res Z;
  region_name : Z → res string;
  preset_value : string → res Z;
  preset_name : Z → res string;
  PRIMARY : Z }.

(** An enumeration names each of its values back. *)
Class ConfigEnumsLaws `{ConfigEnums} := {
  role_names : ∀ s z, role_value s = Ok z → role_name z = Ok s;
  region_names : ∀ s z, region_value s = Ok z → region_name z = Ok s;
  preset_names : ∀ s z, preset_value s = Ok z → preset_name z = Ok s }.

(** The other fields of a message are carried along. *)
Record LoraConfig := mkLora {
  use_preset : bool;
  lc_region : Z;
  lc_modem_preset : Z;
  channel_num : Z;
  lc_hop_limit : Z;
  tx_enabled : bool;
  lc_rest : list byte }.

Record DeviceConfig := mkDevice { dc_role : Z; dc_rest : list byte }.

Record ChannelConfig := mkChannelConfig {
  ch_role : Z;
  ch_name : string;
  ch_psk : list byte;
  ch_rest : list byte }.

(** What a connected interface reports: [my_info] and [metadata] if they came, the
    local configuration, the channels, and the long and short name of each user. *)
Record Session := mkSession {
  my_node_num : option Z;
  metadata_version : option string;
  s_lora : LoraConfig;
  s_device : DeviceConfig;
  s_channels : list ChannelConfig;
  s_users : gmap Z (option string * option string) }.

Inductive AdminMessage :=
| BeginEdit
| SetOwner (long short : string)
| SetLora (l : LoraConfig)
| SetDevice (d : DeviceConfig)
| SetChannel (c : ChannelConfig)
| CommitEdit.

Inductive client_call :=
| COpen (timeout : Z)
| CDisableHeartbeat
| CConnect
| CSend (node : Z) (m : AdminMessage)
| CReboot (seconds : Z)
| CRequestNodeInfo
| CClose.

(** The calls made and what came of them. *)
Abbreviation cl := (traced client_call).

Definition cl_finally {A} (m : cl A) (last : list client_call) : cl A := (m.1 ++ last, m.2).

(** [_close_interface]; closing is taken not to raise. *)
Definition close_interface : list client_call := [CDisableHeartbeat; CClose].

(** ** Connecting *)

Inductive handshake :=
| OpenRaised (e : exn)
| HandshakeRaised (e : exn)
| Connected (s : Session).

(** One turn of the loop: the clock when it is checked and when the timeout is
    computed, and how the attempt ends. *)
Record Attempt := mkAttempt {
  at_checked : float;
  at_opened : float;
  at_handshake : handshake }.

Definition connect_failed (last : option exn) : exn :=
  NodeConfigurationError ("official client could not complete config handshake: " +:+
    match last with Some e => exn_text e | None => "deadline expired before connect" end).

(** [_connect]; the deadline has passed when the list ends. *)
Fixpoint connect (deadline : float) (attempts : list Attempt) (last : option exn) : cl Session :=
  match attempts with
  | [] => traced_lift (Raise (connect_failed last))
  | a :: attempts =>
    if flt (at_checked a) deadline then
      match ftrunc (fsub deadline (at_opened a)) with
      | Raise e => connect deadline attempts (Some e)
      | Ok seconds =>
        let opened := [COpen (Z.max 1 seconds)] in
        match at_handshake a with
        | OpenRaised e => let (calls, r) := connect deadline attempts (Some e) in (opened ++ calls, r)
        | HandshakeRaised e =>
          let (calls, r) := connect deadline attempts (Some e) in
          (opened ++ [CDisableHeartbeat; CConnect] ++ close_interface ++ calls, r)
        | Connected s => (opened ++ [CDisableHeartbeat; CConnect], Ok s)
        end
      end
    else traced_lift (Raise (connect_failed last))
  end.

(** ** Writing the settings *)

(** What comes of an admin message: sending raises, no response arrives in time, or a
    response with the routing error's name, if it has one. *)
Inductive answer :=
| SendRaised (e : exn)
| Unanswered
| Answered (reason : option string).

Definition accepted (a : answer) : bool :=
  match a with Answered reason => bool_decide (reason ∈ [None; Some "NONE"%string]) | _ => false end.

Definition reason_text (reason : option string) : string := default "None"%string reason.

Definition no_my_info : exn := AttributeError "'NoneType' object has no attribute 'my_node_num'".

(** [_send_admin_and_wait] *)
Definition send_admin (answers : AdminMessage → answer) (s : Session) (m : AdminMessage) : cl unit :=
  match my_node_num s with
  | None => traced_lift (Raise no_my_info)
  | Some num =>
    ([CSend num m],
     match answers m with
     | SendRaised e => Raise e
     | Unanswered => Raise (NodeConfigurationError "timed out waiting for firmware admin response")
     | Answered reason =>
       if accepted (Answered reason) then Ok tt
       else Raise (NodeConfigurationError ("firmware rejected admin write: " +:+ reason_text reason))
     end)
  end.

Section configure.
Context `{ScenarioDeps} `{ConfigEnums}.

Definition requested_lora (rf : RFSettings) (l : LoraConfig) : res LoraConfig :=
  region ← region_value (region rf);
  preset ← preset_value (modem_preset rf);
  Ok (mkLora true region preset (frequency_slot rf) (hop_limit rf) true (lc_rest l)).

Definition first_channel (s : Session) : res ChannelConfig :=
  match s_channels s with c :: _ => Ok c | [] => Raise (IndexError "list index out of range") end.

Definition requested_channel (channel : ScenarioChannel) (c : ChannelConfig) : res ChannelConfig :=
  key ← key_bytes channel;
  Ok (mkChannelConfig PRIMARY (channel_name channel) key (ch_rest c)).

(** The settings transaction of [configure_and_verify_node]. *)
Definition write_settings (answers : AdminMessage → answer) (s : Session) (node : ScenarioNode)
    (rf : RFSettings) (channel : ScenarioChannel) : cl unit :=
  let send := send_admin answers s in
  _ ← send BeginEdit;
  _ ← send (SetOwner (display_name node) (short_name node));
  lora ← traced_lift (requested_lora rf (s_lora s));
  _ ← send (SetLora lora);
  requested_role ← traced_lift (role_value (role_text (role node)));
  _ ← (if dc_role (s_device s) =? requested_role then mret tt
       else send (SetDevice (mkDevice requested_role (dc_rest (s_device s)))));
  primary ← traced_lift (first_channel s);
  primary ← traced_lift (requested_channel channel primary);
  _ ← send (SetChannel primary);
  send CommitEdit.

(** ** Verifying *)

Inductive setting := SText (s : string) | SInt (z : Z) | SBytes (b : list byte).

#[export] Instance setting_eq_dec : EqDecision setting.
Proof. solve_decision. Defined.

(** [repr] *)
Definition setting_repr (v : setting) : string :=
  match v with SText s => py_repr s | SInt z => pretty z | SBytes b => py_repr_bytes b end.

(** The settings of a session, in the order of the dictionary. *)
Definition actual_settings (s : Session) (num : Z) : res (dict string setting) :=
  primary ← first_channel s;
  let user := default (None, None) (s_users s !! num) in
  role ← role_name (dc_role (s_device s));
  region ← region_name (lc_region (s_lora s));
  preset ← preset_name (lc_modem_preset (s_lora s));
  Ok [("owner_long_name", SText (default EmptyString user.1));
      ("owner_short_name", SText (default EmptyString user.2));
      ("role", SText role); ("region", SText region); ("modem_preset", SText preset);
      ("frequency_slot", SInt (channel_num (s_lora s))); ("hop_limit", SInt (lc_hop_limit (s_lora s)));
      ("channel_name", SText (ch_name primary)); ("channel_psk", SBytes (ch_psk primary))]%string.

Definition expected_settings (node : ScenarioNode) (rf : RFSettings) (channel : ScenarioChannel)
    : res (dict string setting) :=
  key ← key_bytes channel;
  Ok [("owner_long_name", SText (display_name node)); ("owner_short_name", SText (short_name node));
      ("role", SText (role_text (role node))); ("region", SText (region rf));
      ("modem_preset", SText (modem_preset rf)); ("frequency_slot", SInt (frequency_slot rf));
      ("hop_limit", SInt (hop_limit rf)); ("channel_name", SText (channel_name channel));
      ("channel_psk", SBytes key)]%string.

(** The keys whose values differ, each with what is shown of the two. *)
Fixpoint differences (expected actual : dict string setting) : res (dict string (string * string)) :=
  match expected with
  | [] => Ok []
  | (key, want) :: expected =>
    match dget key actual with
    | None => Raise (KeyError key)
    | Some have =>
      rest ← differences expected actual;
      Ok (if decide (have = want) then rest
          else (key, if decide (key = "channel_psk"%string) then ("'<redacted>'", "'<redacted>'")
                     else (setting_repr want, setting_repr have))%string :: rest)
    end
  end.

(** [repr] of the dictionary of differences. *)
Definition difference_text (d : string * (string * string)) : string :=
  py_repr d.1 +:+ ": {'expected': " +:+ d.2.1 +:+ ", 'actual': " +:+ d.2.2 +:+ "}".

Definition differences_text (l : dict string (string * string)) : string :=
  "{" +:+ match l with
          | [] => EmptyString
          | d :: l => foldl (λ s d, s +:+ ", " +:+ difference_text d) (difference_text d) l
          end +:+ "}".

(** [_verify] *)
Definition verify (s : Session) (node : ScenarioNode) (rf : RFSettings) (channel : ScenarioChannel)
    : res NodeVerification :=
  match my_node_num s, metadata_version s with
  | Some num, Some version =>
    actual ← actual_settings s num;
    expected ← expected_settings node rf channel;
    wrong ← differences expected actual;
    match wrong with
    | [] =>
      let text key := match dget key actual with Some (SText s) => s | _ => EmptyString end in
      let int key := match dget key actual with Some (SInt z) => z | _ => 0 end in
      Ok (mkVerification (node_id node) num version (text "owner_long_name") (text "owner_short_name")
            (text "role") (text "region") (text "modem_preset") (int "frequency_slot") (int "hop_limit")
            (text "channel_name"))%string
    | _ => Raise (NodeConfigurationError (node_id node +:+ " configuration verification failed: " +:+
                                          differences_text wrong))
    end
  | _, _ => Raise (NodeConfigurationError (node_id node +:+ " did not return my_info and metadata"))
  end.

(** ** The operations *)

Record ConfigureNodeEnv := mkConfigureNodeEnv {
  ce_deadline : float;
  ce_attempts : list Attempt;
  ce_answers : AdminMessage → answer;
  ce_verify_deadline : float;
  ce_verify_attempts : list Attempt;
  ce_reboot : res unit }.

Definition configure_and_verify_node (env : ConfigureNodeEnv) (node : ScenarioNode) (rf : RFSettings)
    (channel : ScenarioChannel) (reboot_after_apply : bool) : cl NodeVerification :=
  interface ← connect (ce_deadline env) (ce_attempts env) None;
  _ ← cl_finally (write_settings (ce_answers env) interface node rf channel) close_interface;
  verified ← connect (ce_verify_deadline env) (ce_verify_attempts env) None;
  cl_finally
    (result ← traced_lift (verify verified node rf channel);
     _ ← (if reboot_after_apply then ([CReboot 1], ce_reboot env) : cl unit else mret tt);
     mret result)
    close_interface.

Definition verify_node (deadline : float) (attempts : list Attempt) (node : ScenarioNode) (rf : RFSettings)
    (channel : ScenarioChannel) : cl NodeVerification :=
  interface ← connect deadline attempts None;
  cl_finally (traced_lift (verify interface node rf channel)) close_interface.

(** [sent] is the id of the packet sent, or the error. *)
Definition request_node_info (deadline : float) (attempts : list Attempt) (sent : res Z) : cl Z :=
  _ ← connect deadline attempts None;
  cl_finally ([CRequestNodeInfo], sent) close_interface.
End configure.
