(* ===== verification/ConfigureTheorems.v ===== *)
(** * What configuring a node guarantees (src/backend/app/runtime/configure.py)

    The settings are one transaction: [settings_steps] lists its admin messages, and
    [write_settings] sends them in order until one is not accepted, so a commit follows
    only accepted writes.  The calls on the client form sessions, each opened and
    closed ([session_step]), whatever fails.  Verification succeeds exactly on a
    session that reports the requested settings, and what it says of a mismatch does
    not depend on the keys. *)
From S2P Require Import Prelude PyDict PyFloat Scenario Configure.

(** ** Sessions *)

(** Whether a session is connected, from whether one was: calls on the client are made
    during a session, and one session ends before the next begins. *)
Definition session_step (connected : bool) (c : client_call) : option bool :=
  match c, connected with
  | COpen _, false => Some false
  | CConnect, false => Some true
  | CClose, true => Some false
  | CDisableHeartbeat, _ => Some connected
  | (CSend _ _ | CReboot _ | CRequestNodeInfo), true => Some true
  | _, _ => None
  end.

Fixpoint session_run (connected : bool) (calls : list client_call) : option bool :=
  match calls with
  | [] => Some connected
  | c :: calls => (connected ← session_step connected c; session_run connected calls)
  end.

Lemma session_run_app b c d : session_run b (c ++ d) = (b' ← session_run b c; session_run b' d).
Proof.
  revert b. induction c as [|x c IH]; intros b; [done|]. cbn -[session_step].
  destruct (session_step b x); [apply IH | done].
Qed.

(** The admin messages sent. *)
Definition sent (calls : list client_call) : list AdminMessage :=
  omap (λ c, match c with CSend _ m => Some m | _ => None end) calls.

Lemma sent_app c d : sent (c ++ d) = sent c ++ sent d.
Proof. apply omap_app. Qed.

(** What connecting does: no message is sent, and a session is left connected exactly
    when one is returned. *)
Lemma connect_outcome deadline attempts last calls r :
  connect deadline attempts last = (calls, r) →
  session_run false calls = Some (is_ok r) ∧ sent calls = [] ∧
  (CRequestNodeInfo ∉ calls) ∧ (∀ t, CReboot t ∉ calls) ∧
  ∀ e, r = Raise e → ∃ e', e = connect_failed e'.
Proof.
  revert last calls r. induction attempts as [|a attempts IH]; intros last calls r; cbn.
  { intros [= <- <-]. split_and!; try done; [set_solver.. | naive_solver]. }
  destruct (flt _ _).
  2:{ intros [= <- <-]. split_and!; try done; [set_solver.. | naive_solver]. }
  destruct (ftrunc _) as [seconds|e]; [|apply IH].
  destruct (at_handshake a) as [e|e|s].
  - destruct (connect deadline attempts (Some e)) as [c r'] eqn:Hc. intros [= <- <-].
    destruct (IH _ _ _ Hc) as (? & ? & ? & ? & ?). split_and!; try done; set_solver.
  - destruct (connect deadline attempts (Some e)) as [c r'] eqn:Hc. intros [= <- <-].
    destruct (IH _ _ _ Hc) as (? & ? & ? & ? & ?). split_and!; try done; set_solver.
  - intros [= <- <-]. split_and!; try done; set_solver.
Qed.

(** ** The transaction *)

Section transaction.
Context `{ScenarioDeps} `{ConfigEnums}.

(** The messages of the transaction, each with the error of preparing it. *)
Definition settings_steps (s : Session) (node : ScenarioNode) (rf : RFSettings)
    (channel : ScenarioChannel) : list (res AdminMessage) :=
  [Ok BeginEdit; Ok (SetOwner (display_name node) (short_name node)); SetLora <$> requested_lora rf (s_lora s)] ++
  match role_value (role_text (role node)) with
  | Raise e => [Raise e]
  | Ok z => if dc_role (s_device s) =? z then [] else [Ok (SetDevice (mkDevice z (dc_rest (s_device s))))]
  end ++
  [primary ← first_channel s; SetChannel <$> requested_channel channel primary; Ok CommitEdit].

(** Sending them in order up to the first that fails. *)
Fixpoint send_steps (answers : AdminMessage → answer) (s : Session) (steps : list (res AdminMessage)) : cl unit :=
  match steps with
  | [] => mret tt
  | step :: steps => m ← traced_lift step; _ ← send_admin answers s m; send_steps answers s steps
  end.

Lemma res_bind_ok {A B} (a : A) (f : A → res B) : (x ← Ok a; f x) = f a.
Proof. done. Qed.

Lemma write_settings_steps answers s node rf channel :
  write_settings answers s node rf channel = send_steps answers s (settings_steps s node rf channel).
Proof.
  unfold write_settings, settings_steps. cbn [send_steps app]. rewrite !traced_lift_ok.
  apply traced_bind_ext. intros _. apply traced_bind_ext. intros _.
  destruct (requested_lora rf (s_lora s)) as [lora|e]; [|done]. cbn [fmap res_fmap]. rewrite !traced_lift_ok.
  apply traced_bind_ext. intros _.
  destruct (role_value _) as [z|e]; [|done]. rewrite traced_lift_ok.
  assert ((primary ← traced_lift (first_channel s); primary ← traced_lift (requested_channel channel primary);
      _ ← send_admin answers s (SetChannel primary); send_admin answers s CommitEdit) =
    send_steps answers s [primary ← first_channel s; SetChannel <$> requested_channel channel primary;
                          Ok CommitEdit]) as Hrest.
  { cbn [send_steps]. destruct (first_channel s) as [primary|e]; [|done].
    rewrite (res_bind_ok primary), !traced_lift_ok.
    destruct (requested_channel channel primary) as [c|e]; [|done]. cbn [fmap res_fmap]. rewrite !traced_lift_ok.
    apply traced_bind_ext. intros _. by rewrite traced_bind_tt. }
  destruct (dc_role (s_device s) =? z); cbn [app].
  - rewrite traced_ret_bind. apply Hrest.
  - cbn [send_steps]. rewrite traced_lift_ok. apply traced_bind_ext. intros _. apply Hrest.
Qed.

(** How a run of steps ends: all sent and accepted, stopped by a message that could not
    be prepared, or by one that was not accepted. *)
Inductive sending (answers : AdminMessage → answer) : list (res AdminMessage) → list AdminMessage → res unit → Prop :=
| sent_all ms :
    Forall (λ m, accepted (answers m) = true) ms → sending answers (Ok <$> ms) ms (Ok tt)
| sent_until ms e rest :
    Forall (λ m, accepted (answers m) = true) ms →
    sending answers ((Ok <$> ms) ++ Raise e :: rest) ms (Raise e)
| sent_refused ms m rest e :
    Forall (λ m, accepted (answers m) = true) ms → accepted (answers m) = false →
    sending answers ((Ok <$> ms) ++ Ok m :: rest) (ms ++ [m]) (Raise e).

Lemma sending_cons answers m steps ms r :
  accepted (answers m) = true → sending answers steps ms r → sending answers (Ok m :: steps) (m :: ms) r.
Proof.
  intros Hm Hs. destruct Hs.
  - apply (sent_all _ (m :: ms)). by constructor.
  - apply (sent_until _ (m :: ms)). by constructor.
  - apply (sent_refused _ (m :: ms)); [by constructor | done].
Qed.

Lemma send_steps_outcome answers s num steps calls r :
  my_node_num s = Some num → send_steps answers s steps = (calls, r) →
  ∃ ms, calls = CSend num <$> ms ∧ sending answers steps ms r.
Proof.
  intros Hnum. revert calls r. induction steps as [|[m|e] steps IH]; cbn [send_steps]; intros calls r.
  - intros [= <- <-]. exists []. split; [done | by apply (sent_all _ [])].
  - rewrite traced_lift_ok. unfold send_admin at 1. rewrite Hnum.
    destruct (accepted (answers m)) eqn:Ha.
    + destruct (answers m) as [| |reason] eqn:Hm; try done. rewrite Ha. unfold mbind, traced_bind.
      destruct (send_steps answers s steps) as [c r'] eqn:Hs. intros [= <- <-].
      destruct (IH _ _ eq_refl) as (ms & -> & Hms). exists (m :: ms). split; [done|].
      apply sending_cons; [by rewrite Hm | done].
    + assert (∀ e, sending answers (Ok m :: steps) [m] (Raise e)) as Hr.
      { intros e. by apply (sent_refused _ [] m). }
      destruct (answers m) as [| |reason] eqn:Hm; try rewrite Ha; intros [= <- <-]; exists [m]; done.
  - intros [= <- <-]. exists []. split; [done | by apply (sent_until _ [])].
Qed.

(** Only the last message sent may not have been accepted. *)
Lemma sending_accepted answers steps ms r i m :
  sending answers steps ms r → ms !! i = Some m → (S i < length ms)%nat → accepted (answers m) = true.
Proof.
  intros Hs Hi Hlt. destruct Hs as [ms Hms|ms e rest Hms|ms m' rest e Hms _].
  1,2: by eapply (Forall_lookup_1 _ _ _ _ Hms).
  rewrite length_app in Hlt. cbn in Hlt. rewrite lookup_app_l in Hi by lia. by eapply (Forall_lookup_1 _ _ _ _ Hms).
Qed.

Lemma sending_prefix answers steps ms r : sending answers steps ms r → (Ok <$> ms) `prefix_of` steps.
Proof.
  intros [ms' ?|ms' e rest ?|ms' m rest e ? ?]; [done | by eexists |].
  exists rest. by rewrite fmap_app, <-app_assoc.
Qed.

Lemma sending_done answers steps ms r :
  sending answers steps ms r → is_ok r = true →
  steps = Ok <$> ms ∧ Forall (λ m, accepted (answers m) = true) ms.
Proof. by intros [] Hr. Qed.

(** ** Verification *)

(** What a session must report: the requested settings, by the names of the values. *)
Record reports (s : Session) (node : ScenarioNode) (rf : RFSettings) (channel : ScenarioChannel)
    (num : Z) (version : string) : Prop := mkReports {
  rp_num : my_node_num s = Some num;
  rp_version : metadata_version s = Some version;
  rp_long : default EmptyString (default (None, None) (s_users s !! num)).1 = display_name node;
  rp_short : default EmptyString (default (None, None) (s_users s !! num)).2 = short_name node;
  rp_role : role_name (dc_role (s_device s)) = Ok (role_text (role node));
  rp_region : region_name (lc_region (s_lora s)) = Ok (region rf);
  rp_preset : preset_name (lc_modem_preset (s_lora s)) = Ok (modem_preset rf);
  rp_slot : channel_num (s_lora s) = frequency_slot rf;
  rp_hops : lc_hop_limit (s_lora s) = hop_limit rf;
  rp_channel : ∃ c rest, s_channels s = c :: rest ∧ ch_name c = channel_name channel ∧
                         key_bytes channel = Ok (ch_psk c) }.

Definition requested (node : ScenarioNode) (rf : RFSettings) (channel : ScenarioChannel)
    (num : Z) (version : string) : NodeVerification :=
  mkVerification (node_id node) num version (display_name node) (short_name node) (role_text (role node))
    (region rf) (modem_preset rf) (frequency_slot rf) (hop_limit rf) (channel_name channel).

Lemma differences_nil expected actual :
  differences expected actual = Ok [] ↔ Forall (λ kv, dget kv.1 actual = Some kv.2) expected.
Proof.
  induction expected as [|[key want] expected IH]; cbn [differences].
  { split; [constructor | done]. }
  rewrite Forall_cons. cbn. destruct (dget key actual) as [have|]; [|split; [done | by intros [? _]]].
  destruct (differences expected actual) as [wrong|e].
  - cbn. destruct (decide (have = want)) as [->|Hne].
    + rewrite IH. naive_solver.
    + split; [done|]. intros [[= ->] _]. done.
  - cbn. split; [done|]. intros [_ Hall%IH]. done.
Qed.

(** Lookups of one literal key among others. *)
Ltac literal_keys H :=
  repeat match type of H with
  | context [decide (?a = ?b)] =>
    first [rewrite (decide_True (P := a = b)) in H by reflexivity
          |rewrite (decide_False (P := a = b)) in H by discriminate]
  end.

(** The two dictionaries agree exactly on a session that reports the settings. *)
Lemma settings_agree s node rf channel num version :
  my_node_num s = Some num → metadata_version s = Some version →
  reports s node rf channel num version ↔
  ∃ actual expected, actual_settings s num = Ok actual ∧ expected_settings node rf channel = Ok expected ∧
                     differences expected actual = Ok [].
Proof.
  intros Hnum Hversion. setoid_rewrite differences_nil. split.
  - intros [_ _ Hl Hs Hr Hg Hp Hc Hh (c & rest & Hch & Hn & Hk)].
    unfold actual_settings, expected_settings, first_channel. rewrite Hch, Hr, Hg, Hp, Hk.
    eexists _, _. split; [reflexivity|]. split; [reflexivity|].
    rewrite Hl, Hs, Hc, Hh, Hn. repeat constructor.
  - intros (actual & expected & Ha & He & Hall).
    unfold expected_settings in He. destruct (key_bytes channel) as [key|] eqn:Hk; [|done].
    cbn in He; injection He as <-.
    unfold actual_settings, first_channel in Ha. destruct (s_channels s) as [|c rest] eqn:Hch; [done|].
    destruct (role_name _) as [r|] eqn:Hr; [|done]. destruct (region_name _) as [g|] eqn:Hg; [|done].
    destruct (preset_name _) as [p|] eqn:Hp; [|done]. cbn in Ha; injection Ha as <-.
    repeat rewrite Forall_cons in Hall. cbn in Hall.
    literal_keys Hall. destruct_and!. simplify_eq.
    split; try done; try congruence. by exists c, rest.
Qed.

Lemma verify_iff s node rf channel v :
  verify s node rf channel = Ok v ↔
  ∃ num version, reports s node rf channel num version ∧ v = requested node rf channel num version.
Proof.
  unfold verify. destruct (my_node_num s) as [num|] eqn:Hnum.
  2:{ split; [done|]. intros (? & ? & [] & ?). congruence. }
  destruct (metadata_version s) as [version|] eqn:Hversion.
  2:{ split; [done|]. intros (? & ? & [] & ?). congruence. }
  split.
  - intros Hv. inv_bind Hv. inv_bind Hv. inv_bind Hv. destruct a1; [|done].
    exists num, version.
    assert (reports s node rf channel num version) as Hr by (apply settings_agree; eauto).
    split; [done|]. injection Hv as <-. destruct Hr as [_ _ Hl Hs Hrole Hg Hp Hc Hh (c & rest & Hch & Hn & Hk)].
    unfold actual_settings, first_channel in Ha. rewrite Hch, Hrole, Hg, Hp in Ha. cbn in Ha. injection Ha as <-.
    cbn. unfold requested. by rewrite Hl, Hs, Hc, Hh, Hn.
  - intros (num' & version' & Hr & ->). pose proof (rp_num _ _ _ _ _ _ Hr). pose proof (rp_version _ _ _ _ _ _ Hr).
    simplify_eq. pose proof Hr as (actual & expected & Ha & He & Hd)%settings_agree; [|done..].
    rewrite Ha, He. cbn [mbind res_bind]. rewrite Hd. cbn [mbind res_bind].
    destruct Hr as [_ _ Hl Hs Hrole Hg Hp Hc Hh (c & rest & Hch & Hn & Hk)].
    unfold actual_settings, first_channel in Ha. rewrite Hch, Hrole, Hg, Hp in Ha. cbn in Ha. injection Ha as <-.
    cbn. unfold requested. by rewrite Hl, Hs, Hc, Hh, Hn.
Qed.

(** ** Configuring a node *)

(** The part between a connection and its closing. *)
Lemma session_closed {A} (m : cl A) :
  session_run true m.1 = Some true → session_run true (cl_finally m close_interface).1 = Some false.
Proof. intros Hm. cbn. by rewrite session_run_app, Hm. Qed.

Lemma sends_in_session num ms : session_run true (CSend num <$> ms) = Some true.
Proof. induction ms as [|m ms IH]; [done | apply IH]. Qed.

Lemma sent_sends num ms : sent (CSend num <$> ms) = ms.
Proof. induction ms as [|m ms IH]; [done|]. cbn. f_equal. apply IH. Qed.

Lemma send_admin_unknown answers s m :
  my_node_num s = None → send_admin answers s m = traced_lift (Raise no_my_info).
Proof. unfold send_admin. by intros ->. Qed.

(** What writing the settings does. *)
Lemma write_settings_outcome answers s node rf channel calls r :
  write_settings answers s node rf channel = (calls, r) →
  session_run true calls = Some true ∧ (∀ t, CReboot t ∉ calls) ∧
  (Ok <$> sent calls) `prefix_of` settings_steps s node rf channel ∧
  (∀ i m, sent calls !! i = Some m → (S i < length (sent calls))%nat → accepted (answers m) = true) ∧
  (is_ok r = true → settings_steps s node rf channel = Ok <$> sent calls ∧
                    Forall (λ m, accepted (answers m) = true) (sent calls)).
Proof.
  rewrite write_settings_steps. destruct (my_node_num s) as [num|] eqn:Hnum.
  - intros (ms & -> & Hms)%(send_steps_outcome _ _ _ _ _ _ Hnum). rewrite sent_sends.
    split; [apply sends_in_session|]. split; [intros t (? & ? & ?)%list_elem_of_fmap; done|].
    split; [by eapply sending_prefix|]. split; [|by apply sending_done].
    intros. by eapply sending_accepted.
  - cbn [settings_steps app send_steps]. rewrite traced_lift_ok, (send_admin_unknown answers s BeginEdit Hnum).
    intros Hc. injection Hc as <- <-. cbn. split_and!; try done; [set_solver | apply prefix_nil].
Qed.

Lemma settings_committed s node rf channel ms :
  settings_steps s node rf channel = Ok <$> ms → last ms = Some CommitEdit.
Proof.
  intros Hms. assert (last (Ok <$> ms) = Some (Ok CommitEdit)) as Hl.
  { rewrite <-Hms. unfold settings_steps. by rewrite !last_app. }
  rewrite fmap_last in Hl. destruct (last ms); [by simplify_eq/= | done].
Qed.

(** The second session read the requested settings back. *)
Definition read_back (env : ConfigureNodeEnv) (node : ScenarioNode) (rf : RFSettings)
    (channel : ScenarioChannel) (v : NodeVerification) : Prop :=
  ∃ before s num version,
    connect (ce_verify_deadline env) (ce_verify_attempts env) None = (before, Ok s) ∧
    reports s node rf channel num version ∧ v = requested node rf channel num version.

(** The settings were accepted, committed last, and read back. *)
Definition applied (env : ConfigureNodeEnv) (node : ScenarioNode) (rf : RFSettings) (channel : ScenarioChannel)
    (messages : list AdminMessage) (v : NodeVerification) : Prop :=
  Forall (λ m, accepted (ce_answers env m) = true) messages ∧ last messages = Some CommitEdit ∧
  read_back env node rf channel v.

(** What is done during it. *)
Definition reading (env : ConfigureNodeEnv) (s : Session) (node : ScenarioNode) (rf : RFSettings)
    (channel : ScenarioChannel) (reboot : bool) : cl NodeVerification :=
  result ← traced_lift (verify s node rf channel);
  _ ← (if reboot then ([CReboot 1], ce_reboot env) : cl unit else mret tt);
  mret result.

Lemma reading_outcome env s node rf channel reboot :
  let m := reading env s node rf channel reboot in
  session_run true m.1 = Some true ∧ sent m.1 = [] ∧
  (∀ t, CReboot t ∈ m.1 → reboot = true ∧ t = 1 ∧ ∃ v, verify s node rf channel = Ok v) ∧
  (∀ v, m.2 = Ok v → verify s node rf channel = Ok v).
Proof.
  unfold reading. destruct (verify s node rf channel) as [v|e]; [destruct reboot; [destruct (ce_reboot env) as [[]|e]|]|];
    cbn; split_and!; try done; try set_solver.
  all: intros t Ht; apply list_elem_of_singleton in Ht as [= ->]; eauto.
Qed.

(** The session that reads the settings back. *)
Lemma read_back_outcome env node rf channel reboot calls r :
  (verified ← connect (ce_verify_deadline env) (ce_verify_attempts env) None;
   cl_finally (reading env verified node rf channel reboot) close_interface) = (calls, r) →
  session_run false calls = Some false ∧ sent calls = [] ∧
  (∀ t, CReboot t ∈ calls → reboot = true ∧ t = 1 ∧ ∃ v, read_back env node rf channel v) ∧
  (∀ v, r = Ok v → read_back env node rf channel v).
Proof.
  unfold read_back. destruct (connect (ce_verify_deadline env) _ None) as [c [s|e]] eqn:Hc;
    destruct (connect_outcome _ _ _ _ _ Hc) as (Hrun & Hsent & _ & Hreb & _).
  2:{ intros [= <- <-]. split_and!; try done. set_solver. }
  unfold mbind at 1, traced_bind at 1.
  destruct (reading_outcome env s node rf channel reboot) as (Hmr & Hms & Hmt & Hmv).
  revert Hmr Hms Hmt Hmv. generalize (reading env s node rf channel reboot).
  intros [c' r'] Hmr Hms Hmt Hmv. cbn [cl_finally fst snd] in *. intros [= <- <-].
  assert (∀ v, verify s node rf channel = Ok v → ∃ before s' num version, (c, Ok s) = (before, Ok s') ∧
    reports s' node rf channel num version ∧ v = requested node rf channel num version) as Hread.
  { intros v (num & version & ? & ?)%verify_iff. by exists c, s, num, version. }
  split_and!.
  - rewrite session_run_app, Hrun. cbn. by rewrite session_run_app, Hmr.
  - by rewrite !sent_app, Hsent, Hms.
  - intros t. rewrite !elem_of_app. intros [Ht|[Ht|Ht]]; [set_solver | naive_solver | set_solver].
  - eauto.
Qed.

Lemma configure_outcome env node rf channel reboot calls r :
  configure_and_verify_node env node rf channel reboot = (calls, r) →
  session_run false calls = Some false ∧
  (sent calls = [] ∨ ∃ before s, connect (ce_deadline env) (ce_attempts env) None = (before, Ok s) ∧
     (Ok <$> sent calls) `prefix_of` settings_steps s node rf channel) ∧
  (∀ i m, sent calls !! i = Some m → (S i < length (sent calls))%nat → accepted (ce_answers env m) = true) ∧
  (∀ t, CReboot t ∈ calls → reboot = true ∧ t = 1 ∧ ∃ v, applied env node rf channel (sent calls) v) ∧
  (∀ v, r = Ok v → applied env node rf channel (sent calls) v).
Proof.
  unfold configure_and_verify_node.
  destruct (connect (ce_deadline env) (ce_attempts env) None) as [c1 [s|e]] eqn:H1;
    destruct (connect_outcome _ _ _ _ _ H1) as (Hrun1 & Hsent1 & _ & Hreb1 & _).
  2:{ intros [= <- <-]. rewrite Hsent1. split_and!; try done; [by left | set_solver]. }
  destruct (write_settings (ce_answers env) s node rf channel) as [c2 r2] eqn:H2.
  destruct (write_settings_outcome _ _ _ _ _ _ _ H2) as (Hrun2 & Hreb2 & Hpre & Hacc & Hall).
  unfold mbind at 1, traced_bind at 1. rewrite H2. unfold cl_finally at 1. cbn [fst snd].
  destruct r2 as [[]|e].
  2:{ intros [= <- <-]. rewrite !session_run_app, Hrun1, !sent_app, Hsent1. cbn. rewrite session_run_app, Hrun2, app_nil_r.
      split_and!; try done; [right; eauto|].
      intros t. rewrite !elem_of_app. intros [Ht|[Ht|Ht]]; [set_solver | set_solver | set_solver]. }
  destruct (Hall eq_refl) as [Hsteps Hacc']. pose proof (settings_committed _ _ _ _ _ Hsteps) as Hlast.
  unfold mbind at 1, traced_bind at 1.
  destruct (_ ≫= _) as [c3 r3] eqn:H3 in |- *.
  destruct (read_back_outcome _ _ _ _ _ _ _ H3) as (Hrun3 & Hsent3 & Hreb3 & Hok3).
  intros [= <- <-].
  assert (sent (c1 ++ (c2 ++ close_interface) ++ c3) = sent c2) as Hsent.
  { rewrite !sent_app, Hsent1, Hsent3. cbn. by rewrite !app_nil_r. }
  rewrite Hsent. unfold applied. split.
  { rewrite session_run_app, Hrun1. cbn -[session_run]. rewrite !session_run_app, Hrun2. apply Hrun3. }
  split_and!; [right; eauto | done | | by eauto].
  intros t. rewrite !elem_of_app. intros [Ht|[[Ht|Ht]|Ht]]; [set_solver.. | naive_solver].
Qed.

(** A session reflects a message when it reports what the message set. *)
Definition reflects (s : Session) (num : Z) (m : AdminMessage) : Prop :=
  match m with
  | SetOwner long short => s_users s !! num = Some (Some long, Some short)
  | SetLora l => s_lora s = l
  | SetDevice d => s_device s = d
  | SetChannel c => head (s_channels s) = Some c
  | BeginEdit | CommitEdit => True
  end.

(** The steps of a transaction that could be prepared are its messages. *)
Lemma step_prepared (steps : list (res AdminMessage)) ms x :
  steps = Ok <$> ms → x ∈ steps → ∃ m, x = Ok m ∧ m ∈ ms.
Proof. intros -> (m & ? & ?)%list_elem_of_fmap. by exists m. Qed.

Lemma step_sent (steps : list (res AdminMessage)) ms m : steps = Ok <$> ms → m ∈ ms → Ok m ∈ steps.
Proof. intros ->. apply list_elem_of_fmap_2. Qed.

Lemma reflected_role `{!ConfigEnumsLaws} s s' node rf channel num ms :
  settings_steps s node rf channel = Ok <$> ms → Forall (reflects s' num) ms →
  ((∀ d, SetDevice d ∉ ms) → s_device s' = s_device s) →
  role_name (dc_role (s_device s')) = Ok (role_text (role node)).
Proof.
  intros Hsteps Hall Hdev. rewrite Forall_forall in Hall.
  assert (∃ z, role_value (role_text (role node)) = Ok z) as [z Hz].
  { destruct (role_value _) as [z|e] eqn:Hz; [by exists z|].
    destruct (step_prepared _ _ (Raise e) Hsteps) as (? & ? & ?); [|done].
    unfold settings_steps. rewrite Hz. set_solver. }
  apply role_names. rewrite Hz. f_equal.
  destruct (Z.eqb_spec (dc_role (s_device s)) z) as [Heq|Hne].
  - rewrite Hdev; [done|]. intros d Hd%(step_sent _ _ _ Hsteps).
    unfold settings_steps in Hd. rewrite Hz in Hd. apply Z.eqb_eq in Heq. rewrite Heq in Hd. cbn in Hd.
    destruct (requested_lora _ _), (first_channel _) as [c|]; cbn in Hd;
      try destruct (requested_channel _ _); cbn in Hd; set_solver.
  - destruct (step_prepared _ _ (Ok (SetDevice (mkDevice z (dc_rest (s_device s))))) Hsteps) as (m & [= <-] & Hm).
    { unfold settings_steps. rewrite Hz. apply Z.eqb_neq in Hne. rewrite Hne. set_solver. }
    specialize (Hall _ Hm). cbn in Hall. by rewrite Hall.
Qed.

Lemma reflected_reports `{!ConfigEnumsLaws} s s' node rf channel num version ms :
  settings_steps s node rf channel = Ok <$> ms → Forall (reflects s' num) ms →
  ((∀ d, SetDevice d ∉ ms) → s_device s' = s_device s) →
  my_node_num s' = Some num → metadata_version s' = Some version →
  reports s' node rf channel num version.
Proof.
  intros Hsteps Hall Hdev Hnum Hversion. pose proof (reflected_role _ _ _ _ _ _ _ Hsteps Hall Hdev) as Hrole.
  rewrite Forall_forall in Hall.
  destruct (step_prepared _ _ (Ok (SetOwner (display_name node) (short_name node))) Hsteps)
    as (m & [= <-] & Howner%Hall); [unfold settings_steps; set_solver|].
  destruct (step_prepared _ _ (SetLora <$> requested_lora rf (s_lora s)) Hsteps)
    as (m & Hm & Hlora%Hall); [unfold settings_steps; set_solver|].
  destruct (step_prepared _ _ (primary ← first_channel s; SetChannel <$> requested_channel channel primary) Hsteps)
    as (m' & Hm' & Hchannel%Hall); [unfold settings_steps; set_solver|].
  unfold requested_lora, requested_channel in *.
  destruct (region_value (region rf)) as [g|] eqn:Hg; [|done].
  destruct (preset_value (modem_preset rf)) as [p|] eqn:Hp; [|done].
  destruct (first_channel s) as [c|]; [|done]. destruct (key_bytes channel) as [key|] eqn:Hk; [|done].
  cbn in Hm, Hm'. simplify_eq. cbn in Howner, Hlora, Hchannel.
  split; try done.
  - by rewrite Howner.
  - by rewrite Howner.
  - rewrite Hlora. by apply region_names.
  - rewrite Hlora. by apply preset_names.
  - by rewrite Hlora.
  - by rewrite Hlora.
  - destruct (s_channels s') as [|c' rest]; [done|]. injection Hchannel as ->. by eexists _, _.
Qed.

(** What verification says of two sessions that differ in the keys. *)
Definition same_but_key (c c' : ChannelConfig) : Prop := ch_name c = ch_name c'.

Record same_but_keys (s s' : Session) : Prop := mkSameButKeys {
  sk_num : my_node_num s = my_node_num s';
  sk_version : metadata_version s = metadata_version s';
  sk_lora : s_lora s = s_lora s';
  sk_device : s_device s = s_device s';
  sk_users : s_users s = s_users s';
  sk_channels : Forall2 same_but_key (s_channels s) (s_channels s') }.

(** Two settings give the same difference when they are equal, or are both keys and
    both as requested or both not. *)
Definition same_difference (actual actual' : dict string setting) (kv kv' : string * setting) : Prop :=
  kv.1 = kv'.1 ∧
  ∃ have have', dget kv.1 actual = Some have ∧ dget kv.1 actual' = Some have' ∧
    ((have = have' ∧ kv.2 = kv'.2) ∨
     (kv.1 = "channel_psk"%string ∧ (have = kv.2 ↔ have' = kv'.2))).

Lemma differences_redacted expected expected' actual actual' :
  Forall2 (same_difference actual actual') expected expected' →
  differences expected actual = differences expected' actual'.
Proof.
  induction 1 as [|[k want] [k' want'] expected expected' (Hk & have & have' & Hh & Hh' & Hsame) _ IH]; [done|].
  cbn in Hk, Hh, Hh', Hsame. subst k'. cbn [differences]. rewrite Hh, Hh', IH.
  destruct (differences expected' actual') as [rest|e]; [|done]. cbn [mbind res_bind].
  destruct Hsame as [[-> ->]|[-> Hiff]]; [done|].
  f_equal. by repeat case_decide; try tauto.
Qed.

Lemma verify_redacted s s' node rf channel channel' key key' :
  same_but_keys s s' → channel_name channel = channel_name channel' →
  key_bytes channel = Ok key → key_bytes channel' = Ok key' →
  (∀ c c', head (s_channels s) = Some c → head (s_channels s') = Some c' → ch_psk c = key ↔ ch_psk c' = key') →
  verify s node rf channel = verify s' node rf channel'.
Proof.
  intros [Hnum Hversion Hlora Hdevice Husers Hchannels] Hname Hkey Hkey' Hagree.
  unfold verify. rewrite <-Hnum, <-Hversion.
  destruct (my_node_num s) as [num|]; [|done]. destruct (metadata_version s) as [version|]; [|done].
  unfold actual_settings, expected_settings, first_channel in *.
  rewrite <-Hlora, <-Hdevice, <-Husers, Hkey, Hkey', <-Hname.
  destruct Hchannels as [|c c' rest rest' Hc _]; [done|]. specialize (Hagree c c' eq_refl eq_refl).
  unfold same_but_key in Hc. cbn [mbind res_bind]. rewrite <-Hc.
  destruct (role_name _) as [r|]; [|done]. destruct (region_name _) as [g|]; [|done].
  destruct (preset_name _) as [p|]; [|done]. cbn [mbind res_bind].
  match goal with |- (differences ?e ?a ≫= _) = (differences ?e' ?a' ≫= _) =>
    rewrite (differences_redacted e e' a a') end.
  { destruct (differences _ _) as [[|]|]; reflexivity. }
  repeat apply Forall2_cons_2; try apply Forall2_nil_2; (split; [reflexivity|]); eexists _, _;
    (split; [reflexivity|]); (split; [reflexivity|]); cbn; try (left; done).
  right. split; [done|]. split; intros [= Hs]; f_equal; by apply Hagree.
Qed.

(** The sessions of the other two operations. *)
Lemma verify_node_sessions deadline attempts node rf channel calls r :
  verify_node deadline attempts node rf channel = (calls, r) →
  session_run false calls = Some false ∧ sent calls = [].
Proof.
  unfold verify_node. destruct (connect deadline attempts None) as [c [s|e]] eqn:Hc;
    destruct (connect_outcome _ _ _ _ _ Hc) as (Hrun & Hsent & _).
  - intros [= <- <-]. by rewrite session_run_app, Hrun, sent_app, Hsent.
  - by intros [= <- <-].
Qed.

Lemma request_node_info_sessions deadline attempts id calls r :
  request_node_info deadline attempts id = (calls, r) →
  session_run false calls = Some false ∧ sent calls = [].
Proof.
  unfold request_node_info. destruct (connect deadline attempts None) as [c [s|e]] eqn:Hc;
    destruct (connect_outcome _ _ _ _ _ Hc) as (Hrun & Hsent & _).
  - intros [= <- <-]. by rewrite session_run_app, Hrun, sent_app, Hsent.
  - by intros [= <- <-].
Qed.

(** C10: Configuring a node is one transaction per session.  The admin messages sent are,
    in order, an initial part of begin-edit, owner, LoRa, role if it changes, channel and
    commit-edit; a message that the firmware does not accept is the last one sent, so a
    commit follows accepted writes only.  A verification is returned, and a reboot
    requested, only when every message was accepted, the commit was the last, and a
    second session reported the requested settings.  Whatever fails, every session
    opened on the client is closed and no call is made outside a session. *)
Theorem configure_transaction env node rf channel reboot calls r :
  configure_and_verify_node env node rf channel reboot = (calls, r) →
  session_run false calls = Some false ∧
  (sent calls = [] ∨ ∃ before s, connect (ce_deadline env) (ce_attempts env) None = (before, Ok s) ∧
     (Ok <$> sent calls) `prefix_of` settings_steps s node rf channel) ∧
  (∀ i m, sent calls !! i = Some m → (S i < length (sent calls))%nat → accepted (ce_answers env m) = true) ∧
  (∀ t, CReboot t ∈ calls → reboot = true ∧ t = 1 ∧ ∃ v, applied env node rf channel (sent calls) v) ∧
  (∀ v, r = Ok v → applied env node rf channel (sent calls) v).
Proof. apply configure_outcome. Qed.

(** C37: What is written verifies.  If the settings were written without an error and a
    later session reports what the accepted messages set (its device configuration
    unchanged when no role was written), verification succeeds and returns the
    requested settings. *)
Theorem written_settings_verify `{!ConfigEnumsLaws} answers s s' node rf channel calls num version :
  write_settings answers s node rf channel = (calls, Ok tt) →
  Forall (reflects s' num) (sent calls) → ((∀ d, SetDevice d ∉ sent calls) → s_device s' = s_device s) →
  my_node_num s' = Some num → metadata_version s' = Some version →
  verify s' node rf channel = Ok (requested node rf channel num version).
Proof.
  intros (_ & _ & _ & _ & Hok)%write_settings_outcome Hall Hdev Hnum Hversion.
  destruct (Hok eq_refl) as [Hsteps _]. apply verify_iff. exists num, version. split; [|done].
  by eapply reflected_reports.
Qed.

(** C11: The outcome of a verification, its error text included, reveals of the channel
    keys only whether the reported key is the requested one: two verifications that
    differ in the keys alone, and agree on that, give the same result. *)
Theorem verification_hides_keys s s' node rf channel channel' key key' :
  same_but_keys s s' → channel_name channel = channel_name channel' →
  key_bytes channel = Ok key → key_bytes channel' = Ok key' →
  (∀ c c', head (s_channels s) = Some c → head (s_channels s') = Some c' → ch_psk c = key ↔ ch_psk c' = key') →
  verify s node rf channel = verify s' node rf channel'.
Proof. apply verify_redacted. Qed.
End transaction.

(** ** A concrete node

    "US" is region 1, "LONG_FAST" preset 0, "CLIENT" role 0 and "ROUTER" role 2; the
    keys "AQ==" and "Ag==" decode to the bytes 1 and 2. *)
Definition lab_names (table : list (string * Z)) (s : string) : res Z :=
  match dget s table with Some z => Ok z | None => Raise (ValueError s) end.
Definition lab_values (table : list (string * Z)) (z : Z) : res string :=
  match dget z (prod_swap <$> table) with Some s => Ok s | None => Raise (ValueError "no name") end.

Definition lab_enums : ConfigEnums := {|
  role_value := lab_names [("CLIENT", 0); ("ROUTER", 2)]%string;
  role_name := lab_values [("CLIENT", 0); ("ROUTER", 2)]%string;
  region_value := lab_names [("US", 1)]%string;
  region_name := lab_values [("US", 1)]%string;
  preset_value := lab_names [("LONG_FAST", 0)]%string;
  preset_name := lab_values [("LONG_FAST", 0)]%string;
  PRIMARY := 1 |}.

Lemma lab_names_back table : NoDup table.*2 →
  ∀ s z, lab_names table s = Ok z → lab_values table z = Ok s.
Proof.
  intros Hnd s z. unfold lab_names, lab_values. destruct (dget s table) as [z'|] eqn:Hs; [|done].
  intros [= ->]. assert (dget z (prod_swap <$> table) = Some s) as ->; [|done].
  apply dget_Some.
  - unfold dict_ok. by rewrite <-list_fmap_compose.
  - apply list_elem_of_fmap. exists (s, z). split; [done | by apply dget_elem].
Qed.

#[export] Instance lab_enums_laws : @ConfigEnumsLaws lab_enums.
Proof. split; apply lab_names_back; vm_compute; repeat constructor; set_solver. Qed.

Definition lab_deps : ScenarioDeps := {|
  region_code := λ r, if bool_decide (r = "US"%string) then Some 1 else None;
  b64decode := λ s, if bool_decide (s = "AQ=="%string) then Some [Byte.x01]
                    else if bool_decide (s = "Ag=="%string) then Some [Byte.x02] else None |}.

Definition lab_node : ScenarioNode := mkNode "node-1" "Node 1" ROUTER 4403.

(** A fresh node, and the same node after the transaction. *)
Definition fresh_session : Session :=
  mkSession (Some 7) (Some "2.6"%string) (mkLora false 0 0 0 3 false []) (mkDevice 0 [])
    [mkChannelConfig 1 "LongFast" [Byte.x00] []] ∅.
Definition configured_session (key : byte) : Session :=
  mkSession (Some 7) (Some "2.6"%string) (mkLora true 1 0 20 4 true []) (mkDevice 2 [])
    [mkChannelConfig 1 "Simulator" [key] []] {[7 := (Some "Node 1", Some "N1")]}%string.

Definition lab_attempt (s : Session) : Attempt := mkAttempt fzero fzero (Connected s).
Definition lab_answers (m : AdminMessage) : answer := Answered (Some "NONE"%string).
Definition lab_configure : ConfigureNodeEnv :=
  mkConfigureNodeEnv (of_Z 45) [mkAttempt fzero fzero (HandshakeRaised (RuntimeError "refused")); lab_attempt fresh_session]
    lab_answers (of_Z 45) [lab_attempt (configured_session Byte.x01)] (Ok tt).

Definition lab_requested : NodeVerification :=
  mkVerification "node-1" 7 "2.6" "Node 1" "N1" "ROUTER" "US" "LONG_FAST" 20 4 "Simulator".

Lemma configure_transaction_witness :
  let run := @configure_and_verify_node lab_deps lab_enums lab_configure lab_node default_rf default_channel true in
  run.2 = Ok lab_requested ∧ run.1 !! 19%nat = Some (CReboot 1) ∧ length (sent run.1) = 6%nat ∧
  session_run false run.1 = Some false ∧
  @applied lab_deps lab_enums lab_configure lab_node default_rf default_channel (sent run.1) lab_requested.
Proof.
  destruct (@configure_and_verify_node lab_deps lab_enums lab_configure lab_node default_rf default_channel true)
    as [calls r] eqn:Hrun.
  assert (r = Ok lab_requested) as Hr.
  { transitivity (calls, r).2; [done|]. rewrite <-Hrun. vm_compute. reflexivity. }
  destruct (@configure_transaction lab_deps lab_enums _ _ _ _ _ _ _ Hrun) as (Hs & _ & _ & _ & Hok).
  split_and!; [done | | | done | by apply Hok].
  - change calls with (calls, r).1. rewrite <-Hrun. vm_compute. reflexivity.
  - change calls with (calls, r).1. rewrite <-Hrun. vm_compute. reflexivity.
Defined.

Lemma written_settings_verify_witness :
  let run := @write_settings lab_deps lab_enums lab_answers fresh_session lab_node default_rf default_channel in
  run.2 = Ok tt ∧
  @verify lab_deps lab_enums (configured_session Byte.x01) lab_node default_rf default_channel = Ok lab_requested.
Proof.
  split; [reflexivity|].
  change lab_requested with (requested lab_node default_rf default_channel 7 "2.6").
  apply (@written_settings_verify lab_deps lab_enums _ lab_answers fresh_session _ _ _ _
           (CSend 7 <$> [BeginEdit; SetOwner "Node 1" "N1"; SetLora (mkLora true 1 0 20 4 true []);
                         SetDevice (mkDevice 2 []); SetChannel (mkChannelConfig 1 "Simulator" [Byte.x01] []); CommitEdit])).
  - reflexivity.
  - cbn. repeat constructor.
  - intros Hd. exfalso. apply (Hd (mkDevice 2 [])). cbn. set_solver.
  - reflexivity.
  - reflexivity.
Defined.

Lemma verification_hides_keys_witness :
  @verify lab_deps lab_enums (configured_session Byte.x02) lab_node default_rf default_channel =
  @verify lab_deps lab_enums (configured_session Byte.x01) lab_node default_rf (mkChannel "Simulator" "Ag==") ∧
  is_ok (@verify lab_deps lab_enums (configured_session Byte.x02) lab_node default_rf default_channel) = false.
Proof.
  split; [|reflexivity].
  apply (@verification_hides_keys lab_deps lab_enums _ _ _ _ _ _ [Byte.x01] [Byte.x02]); try reflexivity.
  - split; try done. by repeat constructor.
  - intros c c' [= <-] [= <-]. done.
Defined.
