(* ===== verification/Service.v ===== *)
(** * The simulator service (src/backend/app/simulator/service.py)

    [SimulatorService] owns the scenario, the processes, one gateway per node, the
    medium, the traffic controller and the event broker.  This file has its state, its
    views, and what the other components and their tasks do through it: the callbacks
    of gateways, processes and the medium, each run with the clock reading [now].  A
    gateway's handlers act on the service ([T] of Gateway.v is [Service]); a frame a
    gateway received is transmitted by the medium, recorded by the traffic controller
    and injected into the receivers' gateways ([medium_frame]).  The protobuf telemetry
    messages are the parameter [TelemetryCodec]. *)
From S2P Require Import Prelude PyDict PyFloat Framing Scenario Reachability Mesh Airtime Events Medium.
From S2P Require Import TrafficRequest Identifier PacketIds TrafficState TrafficHandlers TrafficLifecycle.
From S2P Require Import Gateway Utf8 ProcessLogs Processes Configure.

Definition MAX_VOLATILE_RESULTS : Z := 8.

(** ** Build metadata (src/backend/app/provenance.py) *)

Definition ascii_space (a : Ascii.ascii) : bool :=
  let c := Z.of_N (Ascii.N_of_ascii a) in ((9 <=? c) && (c <=? 13)) || ((28 <=? c) && (c <=? 32)).

Fixpoint strip_front (s : string) : string :=
  match s with
  | String a s' => if ascii_space a then strip_front s' else s
  | EmptyString => EmptyString
  end.

(** [str.strip] *)
Definition str_strip (s : string) : string := String.rev (strip_front (String.rev (strip_front s))).

(** [BuildMetadata.available] *)
Definition metadata_available (b : BuildMetadata) : bool :=
  forallb (λ v, negb (bool_decide (str_strip v ∈ [""; "unavailable"]%string)))
    [firmware_commit b; collision_patch_sha256 b; firmware_binary_sha256 b; build_architecture b;
     client_library_version b; upstream_base_image_digest b; meshtasticator_commit b].

Definition metadata_unavailable : BuildMetadata :=
  mkBuild "unavailable" "unavailable" "unavailable" "unavailable" "unavailable" "unavailable" "unavailable".

(** [load_build_metadata]; [content] is the file's, if there is one, and
    [parse] pydantic's validation of it. *)
Definition load_build_metadata (parse : string → res BuildMetadata) (path : string)
    (content : option string) (allow_missing : bool) : res BuildMetadata :=
  match content with
  | Some text => parse text
  | None => if allow_missing then Ok metadata_unavailable else Raise (FileNotFoundError path)
  end.

(** ** State *)

Inductive LifecycleState := STOPPED | STARTING | WARMING_UP | RUNNING | STOPPING | FAILED.

#[export] Instance LifecycleState_eq_dec : EqDecision LifecycleState.
Proof. solve_decision. Defined.

Definition lifecycle_text (s : LifecycleState) : string :=
  match s with
  | STOPPED => "STOPPED" | STARTING => "STARTING" | WARMING_UP => "WARMING_UP"
  | RUNNING => "RUNNING" | STOPPING => "STOPPING" | FAILED => "FAILED"
  end.

Record NodeMetrics := mkNodeMetrics {
  nm_tx : Z;
  nm_rx : Z;
  nm_rx_bad : Z;
  rx_bad_initialized : bool;
  nm_rx_duplicate : Z;
  channel_utilization : option float }.
#[export] Instance eta_NodeMetrics : Eta NodeMetrics := λ r,
  mkNodeMetrics (nm_tx r) (nm_rx r) (nm_rx_bad r) (rx_bad_initialized r) (nm_rx_duplicate r)
    (channel_utilization r).

Definition new_node_metrics (initialized : bool) : NodeMetrics :=
  mkNodeMetrics 0 0 0 initialized 0 None.

(** [failure_cleanup] is the reason of a cleanup task that is scheduled and not done;
    [failed_loops] are the medium's supervised loops that have ended; [late_runs] are
    the controllers whose finalization outlives their simulation. [sv_files] is the
    results directory. *)
Record Service := mkService {
  sv_scenario : Scenario;
  sv_state : LifecycleState;
  simulation_id : option string;
  sv_message : string;
  warming_up_until : option float;
  sv_broker : EventBroker;
  sv_build : BuildMetadata;
  sv_supervisor : Supervisor;
  sv_gateways : dict string NodeGateway;
  verifications : dict string NodeVerification;
  node_metrics : dict string NodeMetrics;
  nodeinfo_observations : gset (string * string);
  local_stats_response_ids : gmap string Z;
  control_packet_id : Z;
  sv_medium : option (DirectedMedium Controller EventBroker);
  failed_loops : list string;
  sv_traffic : option Controller;
  volatile_results : dict string TrafficRunResult;
  last_traffic_summary : option TrafficRunSummary;
  failure_cleanup : option string;
  startup_active : bool;
  lag_task : bool;
  late_runs : list Controller;
  sv_files : gmap string string }.
#[export] Instance eta_Service : Eta Service := λ r,
  mkService (sv_scenario r) (sv_state r) (simulation_id r) (sv_message r) (warming_up_until r)
    (sv_broker r) (sv_build r) (sv_supervisor r) (sv_gateways r) (verifications r) (node_metrics r)
    (nodeinfo_observations r) (local_stats_response_ids r) (control_packet_id r) (sv_medium r)
    (failed_loops r) (sv_traffic r) (volatile_results r) (last_traffic_summary r) (failure_cleanup r)
    (startup_active r) (lag_task r) (late_runs r) (sv_files r).

(** The constructor, with the default scenario, the build metadata loaded and an empty
    broker; [results] are the files already in the results directory. *)
Definition new_service (scenario : Scenario) (build : BuildMetadata) (supervisor : Supervisor)
    (broker : EventBroker) (results : gmap string string) : Service :=
  mkService scenario STOPPED None "Ready to start" None broker build supervisor [] [] [] ∅ ∅ 0x4D4C0000
    None [] None [] None None false false [] results.

(** The sampling intervals are checked first. *)
Definition service_init (deadline_seconds retry_seconds : float) (scenario : Scenario)
    (build : BuildMetadata) (supervisor : Supervisor) (broker : EventBroker)
    (results : gmap string string) : res Service :=
  _ ← guard_raise (fle deadline_seconds fzero || fle retry_seconds fzero)
        (ValueError "local-stat sampling intervals must be positive");
  Ok (new_service scenario build supervisor broker results).

(** ** Views *)

Record LifecycleView := mkLifecycleView {
  lv_state : LifecycleState;
  lv_simulation_id : option string;
  lv_message : string;
  lv_warming_up_until : option float;
  lv_active_traffic_run_id : option string }.

Definition lifecycle (sv : Service) : LifecycleView :=
  let active := c ← sv_traffic sv; r ← c_current c;
    match c_state c with
    | TrafficState.RUNNING | TrafficState.STOPPING => Some (r_run_id r)
    | _ => None
    end in
  mkLifecycleView (sv_state sv) (simulation_id sv) (sv_message sv) (warming_up_until sv) active.

Record NodeView := mkNodeView {
  vw_id : string;
  vw_name : string;
  vw_role : NodeRole;
  vw_process_state : NodeProcessState;
  vw_process_id : option Z;
  vw_gateway_state : GatewayState;
  vw_external_client_connected : bool;
  vw_public_endpoint : string;
  vw_firmware_version : option string;
  vw_node_number : option Z;
  vw_transmit_count : Z;
  vw_receive_count : Z;
  vw_failed_receive_count : Z;
  vw_duplicate_receive_count : Z;
  vw_channel_utilization : option float }.

Definition node_view (sv : Service) (n : ScenarioNode) : NodeView :=
  let record := dget (node_id n) (sup_records (sv_supervisor sv)) in
  let gateway := dget (node_id n) (sv_gateways sv) in
  let verification := dget (node_id n) (verifications sv) in
  let metrics := default (new_node_metrics false) (dget (node_id n) (node_metrics sv)) in
  mkNodeView (node_id n) (display_name n) (role n)
    match record with Some r => pr_state r | None => Processes.STOPPED end
    (r ← record; pid <$> process r)
    match gateway with Some g => gw_state g | None => Gateway.STOPPED end
    match gateway with Some g => external_connected g | None => false end
    ("127.0.0.1:" +:+ pretty (api_port n)) (firmware_version <$> verification) (node_number <$> verification)
    (nm_tx metrics) (nm_rx metrics) (nm_rx_bad metrics) (nm_rx_duplicate metrics)
    (channel_utilization metrics).

Definition nodes_view (sv : Service) : list NodeView := node_view sv <$> nodes (sv_scenario sv).

(** [CapabilityView] with its defaults *)
Record CapabilityView := mkCapabilityView {
  collision_model : string;
  collision_available : bool;
  collision_detail : string;
  maximum_nodes : Z;
  supported_container_architectures : list string;
  provenance_available : bool;
  cv_build : BuildMetadata }.

(** [marker_present]: the collision marker is a file. *)
Definition capabilities (marker_present : bool) (sv : Service) : CapabilityView :=
  mkCapabilityView "native" marker_present
    (if marker_present then "Native SimRadio overlap handling was compiled and probed."
     else "Native collision marker is absent. Simulation start is disabled.")
    10 ["linux/amd64"; "linux/arm64"]%string (metadata_available (sv_build sv)) (sv_build sv).

(** ** Publishing and failing *)

Definition sv_publish (e : PacketEvent) (sv : Service) : Service :=
  sv <| sv_broker := (publish e (sv_broker sv)).2 |>.

Definition publish_lifecycle (now : float) (sv : Service) : Service :=
  sv_publish ((new_event now LIFECYCLE) <| e_result := Some (lifecycle_text (sv_state sv)) |>
                <| e_detail := Some (sv_message sv) |>) sv.

(** [_schedule_runtime_failure] *)
Definition schedule_runtime_failure (now : float) (category detail : string) (sv : Service) : Service :=
  match sv_state sv with
  | STOPPING | STOPPED | FAILED => sv
  | _ =>
    let message := category +:+ ": " +:+ detail in
    let sv := publish_lifecycle now (sv <| sv_state := FAILED |> <| sv_message := message |>) in
    if startup_active sv then sv
    else match failure_cleanup sv with
         | None => sv <| failure_cleanup := Some message |>
         | Some _ => sv
         end
  end.

(** [_raise_if_startup_failed] *)
Definition raise_if_startup_failed (sv : Service) : res unit :=
  guard_raise (bool_decide (sv_state sv = FAILED)) (RuntimeError (sv_message sv)).

Definition on_medium_failure (now : float) (node_id : string) (e : exn) (sv : Service) : Service :=
  schedule_runtime_failure now "SIMULATOR_OVERLOAD"
    ("RF medium worker for " +:+ node_id +:+ " failed: " +:+ exn_text e) sv.

Definition code_text (code : option Z) : string :=
  match code with Some n => pretty n | None => "None" end.

Definition on_process_failure (now : float) (node_id : string) (code : option Z) (sv : Service) : Service :=
  match sv_state sv with
  | STOPPING | STOPPED | FAILED => sv
  | _ => schedule_runtime_failure now "FIRMWARE_PROCESS_FAILED"
           ("Firmware node " +:+ node_id +:+ " exited with code " +:+ code_text code) sv
  end.

(** [_on_gateway_event] *)
Definition on_gateway_event (now : float) (e : GatewayEvent) (sv : Service) : Service :=
  let sv :=
    if bool_decide (ge_kind e ∈ ["gateway.started"; "gateway.stopped"; "gateway.failed";
                                 "gateway.client_connected"; "gateway.client_disconnected"]%string)
    then sv_publish ((new_event now NODE_STATE) <| e_transmitter := Some (ge_node_id e) |>
                       <| e_result := Some (ge_kind e) |> <| e_detail := Some (ge_detail e) |>) sv
    else sv in
  if bool_decide (ge_kind e ∈ ["gateway.failed"; "gateway.rf_queue_full"]%string) &&
     match sv_state sv with WARMING_UP | RUNNING => true | _ => false end
  then schedule_runtime_failure now
         (if bool_decide (ge_kind e = "gateway.rf_queue_full"%string)
          then "SIMULATOR_OVERLOAD" else "GATEWAY_FAILED")
         ("Gateway for " +:+ ge_node_id e +:+ ": " +:+ ge_detail e) sv
  else sv.

(** ** Messages from the radios *)

Inductive telemetry :=
| LocalStats (tx rx rx_bad rx_dupe : Z)
| DeviceMetrics (utilization : float)
| OtherTelemetry.

(** [Telemetry.ParseFromString], [None] if it raises, and the payload that asks for
    local statistics. *)
Class TelemetryCodec := {
  parse_telemetry : list byte → option telemetry;
  local_stats_payload : list byte }.

Section service.
Context `{Meshtastic} `{PyText} `{PyRandom} `{RadioCodec} `{TelemetryCodec}.
Implicit Types (sv : Service).

(** What the traffic controller does with the broker. *)
Definition on_traffic {A} (default : A)
    (f : Controller * EventBroker → (Controller * EventBroker) * A) (sv : Service) : Service * A :=
  match sv_traffic sv with
  | None => (sv, default)
  | Some c =>
    let '((c, b), a) := f (c, sv_broker sv) in
    (sv <| sv_traffic := Some c |> <| sv_broker := b |>, a)
  end.

Definition on_traffic_ (f : Controller * EventBroker → Controller * EventBroker) (sv : Service) : Service :=
  (on_traffic tt (λ w, (f w, tt)) sv).1.

(** The node verified with a number. *)
Definition node_of_number (n : Z) (sv : Service) : option string :=
  fst ∘ snd <$> list_find (λ kv, node_number kv.2 = n) (verifications sv).

Definition observe_nodeinfo (receiver : string) (from : Z) (sv : Service) : Service :=
  match node_of_number from sv with
  | Some source =>
    if decide (source = receiver) then sv
    else sv <| nodeinfo_observations ::= λ s, {[(source, receiver)]} ∪ s |>
  | None => sv
  end.

Definition local_stats_metrics (tx rx rx_bad dupe : Z) (m : NodeMetrics) : NodeMetrics :=
  m <| nm_tx := tx |> <| nm_rx := rx |> <| nm_rx_bad := rx_bad |> <| rx_bad_initialized := true |>
    <| nm_rx_duplicate := dupe |>.

Definition receive_telemetry (now : float) (node : string) (d : Data) (sv : Service) : Service :=
  match parse_telemetry (data_payload d), dget node (node_metrics sv) with
  | Some (LocalStats tx rx rx_bad dupe), Some m =>
    let sv' := sv <| node_metrics ::= dset node (local_stats_metrics tx rx rx_bad dupe m) |> in
    let sv' := on_traffic_ (record_failed_receptions node rx_bad now) sv' in
    let sv' := on_traffic_ (record_duplicate_receptions node dupe now) sv' in
    let sv' := if rx_bad_initialized m && (nm_rx_bad m <? rx_bad)
               then sv_publish ((new_event now COLLISION) <| e_receiver := Some node |>
                      <| e_result := Some "native-rx-bad"%string |>
                      <| e_detail := Some "Firmware local statistics incremented num_packets_rx_bad"%string |>) sv'
               else sv' in
    sv' <| local_stats_response_ids ::= <[node := request_id d]> |>
  | Some (DeviceMetrics utilization), Some m =>
    sv <| node_metrics ::= dset node (m <| channel_utilization := Some utilization |>) |>
  | _, _ => sv
  end.

(** [_on_from_radio] *)
Definition on_from_radio (now : float) (node : string) (message : FromRadio) (sv : Service)
    : Service * res unit :=
  match on_traffic (Ok tt) (handle_from_radio node message now) sv with
  | (sv, Raise e) => (sv, Raise e)
  | (sv, Ok _) =>
    match message with
    | FromPacket packet =>
      match p_payload packet with
      | Decoded d =>
        let sv := if portnum d =? NODEINFO_APP then observe_nodeinfo node (p_from packet) sv else sv in
        let sv := if portnum d =? TELEMETRY_APP then receive_telemetry now node d sv else sv in
        (sv, Ok tt)
      | _ => (sv, Ok tt)
      end
    | _ => (sv, Ok tt)
    end
  end.

(** ** The other components' tasks *)

Definition gateway_handlers (now : float) : GatewayHandlers Service :=
  mkGatewayHandlers (Some (on_gateway_event now)) (Some (on_from_radio now)).

(** What a gateway does, its handlers acting on the service. *)
Definition on_gateway {A} (node : string) (default : A)
    (f : NodeGateway * Service → (NodeGateway * Service) * A) (sv : Service) : Service * A :=
  match dget node (sv_gateways sv) with
  | None => (sv, default)
  | Some g => let '((g, sv), a) := f (g, sv) in (sv <| sv_gateways ::= dset node g |>, a)
  end.

Definition gateway_op (now : float) (node : string) (op : gw_op) (sv : Service) : Service :=
  (on_gateway node tt (λ w, (gw_step (gateway_handlers now) op w, tt)) sv).1.

Definition process_op (now : float) (op : proc_op) (sv : Service) : Service :=
  let (s, sv) := proc_step (Some (on_process_failure now)) op (sv_supervisor sv, sv) in
  sv <| sv_supervisor := s |>.

(** The callbacks the medium is given. *)
Definition medium_handlers (now : float) : handlers Controller EventBroker :=
  mkHandlers (Some (λ node p air w, record_rf_transmission node p air now w))
    (Some (λ node p reason w, record_drop node p reason now w)).

(** One injection of a transmission. *)
Definition inject (now : float) (i : injection) (sv : Service) : Service * res unit :=
  let receiver := to_node (inj_link i) in
  match on_gateway receiver (Raise (KeyError receiver))
          (inject_simulated_packet (inj_packet i)) sv with
  | (sv, Ok _) => (sv <| sv_broker ::= inject_done i |>, Ok tt)
  | (sv, Raise e) => (sv, Raise e)
  end.

(** The injections, each a task that does not wait; the first error is reported. *)
Fixpoint inject_all (now : float) (injections : list injection) (sv : Service)
    : Service * option exn :=
  match injections with
  | [] => (sv, None)
  | i :: injections =>
    let (sv, r) := inject now i sv in
    let (sv, later) := inject_all now injections sv in
    (sv, match r with Raise e => Some e | Ok _ => later end)
  end.

(** A turn of the supervised loop of [node]: the next frame of its gateway. *)
Definition medium_frame (now : float) (node : string) (sv : Service) : Service :=
  match sv_medium sv, dget node (sv_gateways sv) with
  | Some m, Some g =>
    match rf_frames g with
    | packet :: _ =>
      if bool_decide (node ∈ md_tasks m) && negb (bool_decide (node ∈ failed_loops sv)) then
        let sv := gateway_op now node GTakeRf sv in
        let '(sv, r) := on_traffic (Ok []) (transmit (m <| md_handlers := medium_handlers now |>) node packet now) sv in
        let '(sv, error) := match r with
                            | Raise e => (sv, Some e)
                            | Ok injections => inject_all now injections sv
                            end in
        match error with
        | None => sv
        | Some e => on_medium_failure now node e (sv <| failed_loops ::= cons node |>)
        end
      else sv
    | [] => sv
    end
  | _, _ => sv
  end.

(** [_measure_event_loop_lag], a turn with the lag measured. *)
Definition measure_lag (now lag : float) (sv : Service) : Service :=
  if lag_task sv then on_traffic_ (set_event_loop_lag (fmax fzero lag) now) sv else sv.

(** What happens at an [await]: a task of a gateway, a process, the medium, the
    traffic run (with any effect on the controller and the broker) or the lag
    measurement takes a step. *)
Inductive sv_op :=
| SvGateway (node : string) (op : gw_op)
| SvProcess (op : proc_op)
| SvFrame (node : string)
| SvTraffic (step : Controller * EventBroker → Controller * EventBroker)
| SvLag (lag : float).

Definition sv_step (now : float) (op : sv_op) (sv : Service) : Service :=
  match op with
  | SvGateway node op => gateway_op now node op sv
  | SvProcess op => process_op now op sv
  | SvFrame node => medium_frame now node sv
  | SvTraffic step => on_traffic_ step sv
  | SvLag lag => measure_lag now lag sv
  end.

Definition sv_run (ops : list (float * sv_op)) (sv : Service) : Service :=
  foldl (λ sv op, sv_step op.1 op.2 sv) sv ops.
End service.
