(* ===== verification/ServiceOps.v ===== *)
(** * The commands of the service (src/backend/app/simulator/service.py)

    Starting, stopping, resetting, replacing the scenario, editing links, starting and
    stopping traffic, and the cleanup after a failure.  The locks make the commands
    exclude each other where they share state; what the components' tasks do while a
    command waits is a list of operations ([Service.sv_op]) or the environment of the
    component's own operation.  A command that can raise returns the state it leaves
    with its result. *)
From S2P Require Import Prelude PyDict PyFloat Framing Scenario Reachability Mesh Airtime Events Medium.
From S2P Require Import TrafficRequest Identifier PacketIds TrafficState TrafficHandlers TrafficLifecycle.
From S2P Require Import Gateway Utf8 ProcessLogs Processes Configure Service.

(** A command step: the state it leaves and its result; [None] when the search for
    hardware ids runs out of its fuel. *)
Definition se (A : Type) : Type := Service → option (Service * res A).

#[export] Instance se_ret : MRet se := λ A a sv, Some (sv, Ok a).
#[export] Instance se_bind : MBind se := λ A B f m sv,
  match m sv with
  | Some (sv, Ok a) => f a sv
  | Some (sv, Raise e) => Some (sv, Raise e)
  | None => None
  end.

Definition se_lift {A} (r : res A) : se A := λ sv, Some (sv, r).
Definition se_modify (f : Service → Service) : se unit := λ sv, Some (f sv, Ok tt).
Definition se_of {A} (f : Service → Service * res A) : se A := λ sv, Some (f sv).
Definition se_get {A} (f : Service → A) : se A := λ sv, Some (sv, Ok (f sv)).

(** The first error of tasks gathered, here in their order. *)
Fixpoint gather_results {A} (l : list (res A)) : res (list A) :=
  match l with
  | [] => Ok []
  | Raise e :: _ => Raise e
  | Ok a :: l => match gather_results l with Ok l => Ok (a :: l) | Raise e => Raise e end
  end.

Definition comma_join (l : list string) : string :=
  match l with
  | [] => ""
  | x :: l => foldl (λ s y, s +:+ ", " +:+ y) x l
  end.

Record CommandResult := mkCommandResult {
  cr_command_id : string;
  cr_state : LifecycleState;
  cr_detail : string }.

Abbreviation sv_ops := (list (float * sv_op)).

(** What happens while resources are released. *)
Record CleanupEnv := mkCleanupEnv {
  ce_traffic : StopEnv (B := EventBroker);
  ce_now : float;
  ce_waiting : sv_ops;
  ce_closing : string → list gw_op;
  ce_exiting : list proc_op;
  ce_draining : list proc_op }.

(** One round of restarting the nodes whose configuration was applied: what verifying
    each returns, and what happens until its window of stability closes. *)
Record RestartEnv := mkRestartEnv {
  ra_closing : string → list gw_op;
  ra_bind : string → res Z;
  ra_start : string → GatewayStart;
  ra_verified : string → res NodeVerification;
  ra_window : string → sv_ops }.

(** What configuring each node returns, and what happens while its reboot is awaited. *)
Record ConfigureEnv := mkConfigureEnv {
  cf_configured : string → res NodeVerification;
  cf_reboot : string → sv_ops;
  cf_restart : nat → RestartEnv }.

Record StartEnv := mkStartEnv {
  st_clock : nat → float;
  st_wall_clock : float;
  st_command_id : string;
  st_simulation_id : string;
  st_collision_available : bool;
  st_released : CleanupEnv;
  st_fuel : nat;
  st_processes : SupervisorStart;
  st_bind : string → res Z;
  st_gateway : string → GatewayStart;
  st_configure : ConfigureEnv;
  st_waiting : nat → sv_ops;
  st_warmup_seconds : float;
  st_cleanup : CleanupEnv }.

Section operations.
Context `{Meshtastic} `{PyText} `{PyRandom} `{RadioCodec} `{TelemetryCodec} `{ResultText TrafficRunSummary}
  `{Sha256}.
Implicit Types (sv : Service).

(** ** Results of finished runs *)

Fixpoint trim_results (d : dict string TrafficRunResult) : dict string TrafficRunResult :=
  match d with
  | [] => []
  | kv :: rest => if MAX_VOLATILE_RESULTS <? zlen d then trim_results rest else d
  end.

(** [_archive_unpersisted_traffic_result] *)
Definition archive_unpersisted (c : Controller) (sv : Service) : Service :=
  match c_current c with
  | None => sv
  | Some cur =>
    if negb (result_is_finalized (r_run_id cur) c) then sv
    else if bool_decide (is_Some (sv_files sv !! result_path (r_run_id cur))) then sv
    else match TrafficLifecycle.result c with
    | None => sv
    | Some r =>
      if negb (r_finished r) then sv
      else sv <| volatile_results ::= λ d, trim_results (dset (r_run_id r) r d) |>
    end
  end.

(** ** Releasing resources *)

Definition stop_gateway (now : float) (closing : list gw_op) (node : string) (sv : Service) : Service :=
  (on_gateway node tt (λ w, (gateway_stop (gateway_handlers now) closing w, tt)) sv).1.

Definition stop_gateways (now : float) (closing : string → list gw_op) (nodes : list string) (sv : Service)
    : Service :=
  foldl (λ sv n, stop_gateway now (closing n) n sv) sv nodes.

Definition stop_processes (now : float) (exiting draining : list proc_op) (sv : Service) : Service :=
  let (s, sv) := stop_unlocked (Some (on_process_failure now)) exiting draining (sv_supervisor sv, sv) in
  sv <| sv_supervisor := s |>.

(** The traffic controller's part: whether its run was finalized. *)
Definition release_traffic (env : CleanupEnv) (sv : Service) : Service * res bool :=
  match sv_traffic sv with
  | None => (sv, Ok true)
  | Some c =>
    let '((c, b), fs, r) := TrafficLifecycle.stop (ce_traffic env) (c, sv_broker sv) (sv_files sv) in
    let sv := sv <| sv_traffic := Some c |> <| sv_broker := b |> <| sv_files := fs |> in
    match r with
    | Raise e => (sv, Raise e)
    | Ok finalized =>
      match TrafficLifecycle.summary (ce_now env) c with
      | Raise e => (sv, Raise e)
      | Ok s =>
        let sv := sv <| last_traffic_summary := s |> in
        ((if finalized then archive_unpersisted c sv else sv), Ok finalized)
      end
    end
  end.

(** [_cleanup_resources_unlocked] *)
Definition cleanup_resources (env : CleanupEnv) (sv : Service) : Service * res unit :=
  let sv := sv <| lag_task := false |> in
  match release_traffic env sv with
  | (sv, Raise e) => (sv, Raise e)
  | (sv, Ok finalized) =>
    let sv := sv <| sv_medium ::= fmap medium_stop |> in
    let sv := sv_run (ce_waiting env) sv in
    let sv := stop_gateways (ce_now env) (ce_closing env) (sv_gateways sv).*1 sv in
    let sv := stop_processes (ce_now env) (ce_exiting env) (ce_draining env) sv in
    let sv := if finalized then sv
              else sv <| late_runs ::= λ l, l ++ option_list (sv_traffic sv) |> in
    (sv <| sv_medium := None |> <| failed_loops := [] |> <| sv_traffic := None |> <| sv_gateways := [] |>
        <| verifications := [] |>, Ok tt)
  end.

(** [_fail_traffic_and_cleanup] with [reason], then the task is done; its errors are
    logged by [_await_failure_cleanup]. *)
Definition fail_traffic (reason : string) (env : StopEnv (B := EventBroker)) (sv : Service)
    : Service * res unit :=
  match sv_traffic sv with
  | None => (sv, Ok tt)
  | Some c =>
    let '((c, b), fs, r) := TrafficLifecycle.fail reason env (c, sv_broker sv) (sv_files sv) in
    (sv <| sv_traffic := Some c |> <| sv_broker := b |> <| sv_files := fs |>,
     match r with Ok _ => Ok tt | Raise e => Raise e end)
  end.

Definition run_failure_cleanup (failing : StopEnv (B := EventBroker)) (env : CleanupEnv) (sv : Service)
    : Service :=
  match failure_cleanup sv with
  | None => sv
  | Some reason =>
    let sv := match fail_traffic reason failing sv with
              | (sv, Ok _) => (cleanup_resources env sv).1
              | (sv, Raise _) => sv
              end in
    sv <| failure_cleanup := None |>
  end.

(** ** Configuring the nodes *)

Definition modify_gateway (node : string) (f : NodeGateway → NodeGateway * res unit) : se unit :=
  se_of (on_gateway node (Raise (KeyError node)) (λ w, let (g, r) := f w.1 in ((g, w.2), r))).

(** [gateway.reserve_public_listener()] in a loop, up to the first that raises. *)
Fixpoint reserve_listeners (bind : string → res Z) (nodes : list string) : se unit :=
  match nodes with
  | [] => mret tt
  | n :: nodes => _ ← modify_gateway n (reserve_public_listener (bind n)); reserve_listeners bind nodes
  end.

(** Gathering the starts of the gateways: each runs, the first error is raised. *)
Fixpoint start_gateways (now : float) (env : string → GatewayStart) (nodes : list string) (sv : Service)
    : Service * res unit :=
  match nodes with
  | [] => (sv, Ok tt)
  | n :: nodes =>
    let (sv, r) := on_gateway n (Raise (KeyError n)) (gateway_start (gateway_handlers now) (env n)) sv in
    let (sv, r') := start_gateways now env nodes sv in
    (sv, match r with Raise e => Raise e | Ok _ => r' end)
  end.

Fixpoint add_verified (l : list (string * option NodeVerification)) (d : dict string NodeVerification)
    : dict string NodeVerification :=
  match l with
  | [] => d
  | (n, Some v) :: l => add_verified l (dset n v d)
  | (n, None) :: l => add_verified l d
  end.

Definition unstable (l : list (string * option NodeVerification)) : list string :=
  (filter (λ nv, nv.2 = None) l).*1.

Definition gateway_has_failed (node : string) (sv : Service) : bool :=
  match dget node (sv_gateways sv) with Some g => gw_failed g | None => false end.

Definition timeout_error : exn := OSError "".

(** Waiting for each node's reboot to be seen as a failure of its gateway. *)
Fixpoint wait_for_reboots (reboot : string → sv_ops) (nodes : list string) : se unit :=
  match nodes with
  | [] => mret tt
  | n :: nodes =>
    _ ← se_modify (sv_run (reboot n));
    rebooted ← se_get (gateway_has_failed n);
    if rebooted : bool then wait_for_reboots reboot nodes else se_lift (Raise timeout_error)
  end.

(** [verify_restarted] of each node: its verification if its gateway did not fail
    before the window closed. The nodes are watched at the same time; their windows
    close here in the nodes' order. *)
Fixpoint observe_restarted (env : RestartEnv) (nodes : list string)
    : se (list (string * option NodeVerification)) :=
  match nodes with
  | [] => mret []
  | n :: nodes =>
    v ← se_lift (ra_verified env n);
    _ ← se_modify (sv_run (ra_window env n));
    failed ← se_get (gateway_has_failed n);
    rest ← observe_restarted env nodes;
    mret ((n, if failed : bool then None else Some v) :: rest)
  end.

(** A round of the restart loop over the [pending] nodes. *)
Definition restart_round (now : float) (env : RestartEnv) (pending : list string)
    : se (list (string * option NodeVerification)) :=
  _ ← se_modify (stop_gateways now (ra_closing env) pending);
  _ ← reserve_listeners (ra_bind env) pending;
  _ ← se_of (start_gateways now (ra_start env) pending);
  observe_restarted env pending.

Fixpoint restart_rounds (now : float) (rounds : nat → RestartEnv) (attempt more : nat)
    (pending : list string) (verified : dict string NodeVerification) : se (dict string NodeVerification) :=
  match more with
  | O => se_lift (Raise (RuntimeError (comma_join pending +:+ " did not stabilize after configuration restarts")))
  | S more =>
    observations ← restart_round now (rounds attempt) pending;
    let verified := add_verified observations verified in
    match unstable observations with
    | [] => mret verified
    | pending => restart_rounds now rounds (S attempt) more pending verified
    end
  end.

(** [_configure_nodes] *)
Definition configure_nodes (now : float) (env : ConfigureEnv) : se (dict string NodeVerification) :=
  ids ← se_get (λ sv, node_ids (sv_scenario sv));
  _ ← se_lift (gather_results (cf_configured env <$> ids));
  _ ← wait_for_reboots (cf_reboot env) ids;
  restart_rounds now (cf_restart env) 0 3 ids [].

(** ** Warming up *)

Definition warmup_deadline_seconds (sv : Service) : Z :=
  Z.min 30 (10 + 2 * zlen (nodes (sv_scenario sv))).

(** [_warm_up_nodes]: the pairs not observed and the number expected. *)
Definition warm_up_nodes (waiting : sv_ops) : se (gset (string * string) * Z) :=
  expected ← se_of (λ sv, (sv, reachable_pairs (sv_scenario sv) (Some (hop_limit (rf (sv_scenario sv))))));
  _ ← se_modify (λ sv, sv <| nodeinfo_observations := ∅ |>);
  _ ← se_modify (sv_run waiting);
  observed ← se_get nodeinfo_observations;
  mret (expected ∖ observed, Z.of_nat (size expected)).

(** ** Starting *)

Definition warmed_up_message (gateways expected missing : Z) : string :=
  pretty gateways +:+ " native nodes are running" +:+
  (if missing =? 0 then ""
   else "; warm-up observed " +:+ pretty (expected - missing) +:+ " of " +:+ pretty expected +:+
        " graph-connected pairs").

Definition start_processes (now : float) (fuel : nat) (env : SupervisorStart) : se unit := λ sv,
  match start_unlocked (Some (on_process_failure now)) fuel env (sv_scenario sv) (sv_supervisor sv, sv) with
  | Some ((s, sv), r) => Some (sv <| sv_supervisor := s |>, r)
  | None => None
  end.

(** One gateway per node, clients not yet admitted. *)
Definition make_gateways (sv : Service) : Service :=
  sv <| node_metrics := (λ n, (node_id n, new_node_metrics (fresh_state (sv_scenario sv)))) <$> nodes (sv_scenario sv) |>
     <| local_stats_response_ids := ∅ |>
     <| sv_gateways := (λ n, (node_id n, new_gateway (node_id n) 256 (api_port n) false)) <$> nodes (sv_scenario sv) |>.

Definition hardware_ids (sv : Service) : dict string Z :=
  (λ kv, (kv.1, node_number kv.2)) <$> verifications sv.

(** The controller and the medium, once the nodes are verified. *)
Definition traffic_config (sv : Service) : Config :=
  mkConfig (sv_scenario sv) (sv_gateways sv).*1 (hardware_ids sv) (sv_build sv) None (of_Z 5) true.

Definition make_traffic (now : float) (sv : Service) : Service * res unit :=
  match new_controller (traffic_config sv) now with
  | Raise e => (sv, Raise e)
  | Ok c => (sv <| sv_traffic := Some c |>, Ok tt)
  end.

Definition make_medium (now : float) (sv : Service) : Service :=
  sv <| sv_medium := Some (medium_start (new_medium (sv_scenario sv) (sv_gateways sv).*1 (hardware_ids sv)
                             (medium_handlers now))) |>
     <| failed_loops := [] |>.

Definition enter_warm_up (now wall warmup : float) (sv : Service) : Service :=
  publish_lifecycle now (sv <| sv_state := WARMING_UP |>
    <| sv_message := "Firmware is exchanging NodeInfo and establishing routes" |>
    <| warming_up_until := Some (fadd (fadd wall (of_Z (warmup_deadline_seconds sv))) warmup) |>).

(** [gateway.enable_public_clients()], which raises on a stopped gateway. *)
Definition enable_gateway (now : float) (w : NodeGateway * Service) : (NodeGateway * Service) * res unit :=
  match gw_state w.1 with
  | Gateway.STOPPED | Gateway.STOPPING =>
    (w, Raise (GatewayError ("cannot enable public clients while gateway is " +:+ gateway_state_text (gw_state w.1))))
  | _ => (enable_public_clients (gateway_handlers now) w, Ok tt)
  end.

Fixpoint enable_gateways (now : float) (nodes : list string) (sv : Service) : Service * res unit :=
  match nodes with
  | [] => (sv, Ok tt)
  | n :: nodes =>
    let (sv, r) := on_gateway n (Raise (KeyError n)) (enable_gateway now) sv in
    let (sv, r') := enable_gateways now nodes sv in
    (sv, match r with Raise e => Raise e | Ok _ => r' end)
  end.

Definition enter_running (now : float) (expected missing : Z) (sv : Service) : Service :=
  publish_lifecycle now (sv <| sv_state := RUNNING |>
    <| sv_message := warmed_up_message (zlen (sv_gateways sv)) expected missing |>
    <| warming_up_until := None |> <| lag_task := true |>).

Definition check_startup : se unit := λ sv, Some (sv, raise_if_startup_failed sv).

Definition waits (ops : sv_ops) : se unit := se_modify (sv_run ops).

(** The body of the [try]. *)
Definition start_body (env : StartEnv) : se unit :=
  _ ← start_processes (st_clock env 1) (st_fuel env) (st_processes env);
  _ ← check_startup;
  _ ← se_modify make_gateways;
  names ← se_get (λ sv, (sv_gateways sv).*1);
  _ ← reserve_listeners (st_bind env) names;
  _ ← se_of (start_gateways (st_clock env 2) (st_gateway env) names);
  _ ← waits (st_waiting env 0);
  _ ← check_startup;
  _ ← se_modify (λ sv, sv <| sv_message := "Configuring and verifying native nodes" |>);
  verified ← configure_nodes (st_clock env 3) (st_configure env);
  _ ← se_modify (λ sv, sv <| verifications := verified |>);
  _ ← check_startup;
  _ ← se_of (make_traffic (st_clock env 4));
  _ ← se_modify (make_medium (st_clock env 4));
  _ ← waits (st_waiting env 1);
  _ ← check_startup;
  _ ← se_modify (enter_warm_up (st_clock env 5) (st_wall_clock env) (st_warmup_seconds env));
  '(missing, expected) ← warm_up_nodes (st_waiting env 2);
  _ ← check_startup;
  _ ← se_of (enable_gateways (st_clock env 6) names);
  _ ← waits (st_waiting env 3);
  _ ← check_startup;
  se_modify (enter_running (st_clock env 7) expected (Z.of_nat (size missing))).

Definition collision_unavailable : exn :=
  SimulationConflict "NATIVE_COLLISION_UNAVAILABLE"
    "the runtime does not contain a verified collision-enabled native firmware build".

Definition metadata_missing : exn :=
  SimulationConflict "BUILD_METADATA_UNAVAILABLE"
    "the runtime does not contain build metadata for the native firmware artifact".

(** [start] from its capability checks on. *)
Definition start_checked (env : StartEnv) : se CommandResult := λ sv,
  let view := capabilities (st_collision_available env) sv in
  if negb (collision_available view) then Some (sv, Raise collision_unavailable)
  else if negb (provenance_available view) then Some (sv, Raise metadata_missing)
  else
    let sv := publish_lifecycle (st_clock env 0) (sv <| simulation_id := Some (st_simulation_id env) |>
      <| sv_state := STARTING |> <| sv_message := "Starting native firmware processes" |>) in
    match start_body env (sv <| startup_active := true |>) with
    | None => None
    | Some (sv, Ok _) =>
      Some (sv <| startup_active := false |>,
            Ok (mkCommandResult (st_command_id env) (sv_state sv) (sv_message sv)))
    | Some (sv, Raise e) =>
      let sv := publish_lifecycle (st_clock env 8) (sv <| sv_state := FAILED |>
        <| sv_message := "Startup failed: " +:+ exn_text e |>) in
      let (sv, r) := cleanup_resources (st_cleanup env) sv in
      Some (sv <| startup_active := false |>, match r with Raise e' => Raise e' | Ok _ => Raise e end)
    end.

(** [start], holding the lifecycle lock. *)
Definition start_locked (env : StartEnv) : se CommandResult := λ sv,
  match sv_state sv with
  | RUNNING | WARMING_UP => Some (sv, Ok (mkCommandResult (st_command_id env) (sv_state sv) "already running"))
  | STOPPED => start_checked env sv
  | FAILED =>
    match cleanup_resources (st_released env) sv with
    | (sv, Ok _) => start_checked env sv
    | (sv, Raise e) => Some (sv, Raise e)
    end
  | s => Some (sv, Raise (SimulationConflict "INVALID_LIFECYCLE_STATE" ("cannot start from " +:+ lifecycle_text s)))
  end.

(** ** Stopping and resetting *)

(** [stop] up to its wait for the topology lock. *)
Definition request_stop (now : float) (sv : Service) : Service :=
  publish_lifecycle now (sv <| sv_state := STOPPING |>
    <| sv_message := "Stopping traffic, gateways, and native processes" |>).

Definition stopped (now : float) (sv : Service) : Service :=
  publish_lifecycle now (sv <| sv_state := STOPPED |> <| sv_message := "Stopped" |>
    <| simulation_id := None |> <| warming_up_until := None |>).

(** [stop]; [waiting] is what happens until the topology lock is free. *)
Definition stop (id : string) (now : float) (waiting : sv_ops) (env : CleanupEnv) (later : float) (sv : Service)
    : Service * res CommandResult :=
  if decide (sv_state sv = STOPPED) then (sv, Ok (mkCommandResult id (sv_state sv) "already stopped"))
  else
    match cleanup_resources env (sv_run waiting (request_stop now sv)) with
    | (sv, Raise e) => (sv, Raise e)
    | (sv, Ok _) => let sv := stopped later sv in (sv, Ok (mkCommandResult id (sv_state sv) (sv_message sv)))
    end.

(** [reset]; [stream_id] is the event stream's new id. *)
Definition reset (id stream_id : string) (now : float) (sv : Service) : Service * res CommandResult :=
  if negb (bool_decide (sv_state sv = STOPPED)) then
    (sv, Raise (SimulationConflict "INVALID_LIFECYCLE_STATE" "reset is allowed only while stopped"))
  else
    match default_scenario 5 with
    | Raise e => (sv, Raise e)
    | Ok s =>
      let sv := sv <| sv_scenario := s |> <| sv_supervisor ::= clear_archived_logs |>
        <| sv_message := ("Scenario reset to the five-node full mesh; packet evidence and daemon logs " +:+
                          "were cleared; saved runs were preserved") |> in
      let sv := publish_lifecycle now sv in
      let sv := sv <| sv_broker ::= clear stream_id now |> in
      (sv, Ok (mkCommandResult id (sv_state sv) (sv_message sv)))
    end.

Definition replace_scenario (scenario : Scenario) (sv : Service) : Service * res Scenario :=
  if negb (bool_decide (sv_state sv = STOPPED)) then
    (sv, Raise (SimulationConflict "SCENARIO_LOCKED"
       "node, identity, channel, and RF settings are editable only while stopped"))
  else (sv <| sv_scenario := scenario |>, Ok scenario).
End operations.
