(* ===== verification/ServiceRuns.v ===== *)
(** * Links, traffic runs and results of the service (src/backend/app/simulator/service.py)

    Editing the topology while it runs, sampling the firmware's counters, starting and
    stopping traffic runs, and finding results in the controller, on disk or in memory. *)
From S2P Require Import Prelude PyDict PyFloat Framing Scenario Reachability Mesh Airtime Events Medium.
From S2P Require Import TrafficRequest Identifier PacketIds TrafficState TrafficHandlers TrafficLifecycle.
From S2P Require Import Gateway Utf8 ProcessLogs Processes Configure Service ServiceOps.

(** Subclasses of [RuntimeError]. *)
Definition is_runtime_error (e : exn) : bool :=
  match e with
  | RuntimeError _ | GatewayError _ | NodeConfigurationError _ | PacketIdQuarantineCapacityError _ | SimulationConflict _ _ => true
  | _ => false
  end.

Definition conflict {A} (code message : string) : res A := Raise (SimulationConflict code message).

(** ** Topology *)

(** [[link for link in links if previous[key] != link]] *)
Fixpoint changed_since (previous : dict (string * string) DirectedLink) (ls : list DirectedLink)
    : res (list DirectedLink) :=
  match ls with
  | [] => Ok []
  | l :: ls =>
    match dget (link_key l) previous with
    | None => Raise (KeyError (from_node l +:+ " -> " +:+ to_node l))
    | Some old =>
      changed ← changed_since previous ls;
      Ok (if link_eqb old l then changed else l :: changed)
    end
  end.

Section runs.
Context `{Meshtastic} `{PyText} `{PyRandom} `{RadioCodec} `{TelemetryCodec} `{ResultText TrafficRunSummary}
  `{Sha256}.
Implicit Types (sv : Service).

(** [for event, link in zip(events, changed, strict=True)] *)
Fixpoint record_changes (events : list PacketEvent) (changed : list DirectedLink) (sv : Service)
    : Service * res unit :=
  match events, changed with
  | [], [] => (sv, Ok tt)
  | e :: events, l :: changed =>
    match on_traffic (Ok tt) (record_topology_change e l) sv with
    | (sv, Ok _) => record_changes events changed sv
    | (sv, Raise x) => (sv, Raise x)
    end
  | [], _ => (sv, Raise (ValueError "zip() argument 2 is longer than argument 1"))
  | _, [] => (sv, Raise (ValueError "zip() argument 2 is shorter than argument 1"))
  end.

(** [_apply_runtime_scenario] *)
Definition apply_runtime_scenario (updated : Scenario) (now : float) (sv : Service) : Service * res unit :=
  match sv_medium sv with
  | None => (sv, Raise (RuntimeError "runtime medium is unavailable"))
  | Some m =>
    match changed_since (link_map (sv_scenario sv)) (links updated) with
    | Raise e => (sv, Raise e)
    | Ok changed =>
      match match sv_traffic sv with
            | Some c => ensure_topology_change_capacity (zlen changed) c
            | None => Ok tt
            end with
      | Raise e => (sv, if is_runtime_error e then conflict "TOPOLOGY_HISTORY_FULL" (exn_text e) else Raise e)
      | Ok _ =>
        match apply_links (links updated) now m (sv_broker sv) with
        | Raise e => (sv, Raise e)
        | Ok (m, (events, b)) =>
          let sv := sv <| sv_medium := Some m |> <| sv_broker := b |> <| sv_scenario := updated |> in
          match sv_traffic sv with
          | Some _ => record_changes events changed sv
          | None => (sv, Ok tt)
          end
        end
      end
    end
  end.

Definition unknown_link (update_map existing : dict (string * string) DirectedLink)
    : option (string * string) :=
  fst ∘ snd <$> list_find (λ kv, negb (dmem kv.1 existing) = true) update_map.

Definition replace_links (update_map : dict (string * string) DirectedLink) (ls : list DirectedLink)
    : list DirectedLink :=
  (λ current, default current (dget (link_key current) update_map)) <$> ls.

Definition is_running (sv : Service) : bool := bool_decide (sv_state sv = RUNNING).

Definition update_links (updates : list DirectedLink) (now : float) (sv : Service)
    : Service * res (list DirectedLink) :=
  match updates with
  | [] => (sv, conflict "INVALID_LINK_UPDATE" "at least one link update is required")
  | _ =>
    let update_map := dict_of ((λ l, (link_key l, l)) <$> updates) in
    if negb (zlen update_map =? zlen updates) then
      (sv, conflict "INVALID_LINK_UPDATE" "link updates must be unique")
    else if negb (is_running sv) || bool_decide (sv_medium sv = None) then
      (sv, conflict "INVALID_LIFECYCLE_STATE" "runtime links require RUNNING state")
    else match unknown_link update_map (link_map (sv_scenario sv)) with
    | Some (a, b) => (sv, conflict "UNKNOWN_LINK" ("unknown directed link: " +:+ a +:+ " -> " +:+ b))
    | None =>
      let updated := (sv_scenario sv) <| links ::= replace_links update_map |> in
      match apply_runtime_scenario updated now sv with
      | (sv, Ok _) => (sv, Ok updates)
      | (sv, Raise e) => (sv, Raise e)
      end
    end
  end.

(** [update_link] *)
Definition update_one_link (link : DirectedLink) (now : float) (sv : Service) : Service * res DirectedLink :=
  match update_links [link] now sv with
  | (sv, Ok ls) => (sv, match ls with l :: _ => Ok l | [] => Raise (IndexError "list index out of range") end)
  | (sv, Raise e) => (sv, Raise e)
  end.

Definition apply_topology (preset : TopologyPreset) (now : float) (sv : Service) : Service * res Scenario :=
  match apply_topology_preset (sv_scenario sv) preset with
  | Raise e => (sv, Raise e)
  | Ok updated =>
    if decide (sv_state sv = STOPPED) then (sv <| sv_scenario := updated |>, Ok updated)
    else if negb (is_running sv) || bool_decide (sv_medium sv = None) then
      (sv, conflict "INVALID_LIFECYCLE_STATE" ("cannot apply topology from " +:+ lifecycle_text (sv_state sv)))
    else match apply_runtime_scenario updated now sv with
    | (sv, Ok _) => (sv, Ok updated)
    | (sv, Raise e) => (sv, Raise e)
    end
  end.

(** ** Sampling the firmware's counters *)

Definition next_control_packet_id (sv : Service) : Service * Z :=
  let id := Z.land (control_packet_id sv + 1) 0xFFFFFFFF in
  let id := if id =? 0 then 1 else id in
  (sv <| control_packet_id := id |>, id).

(** [_local_stats_request]; the id is taken before the node is looked up. *)
Definition local_stats_request (node : string) (sv : Service) : Service * res (ToRadio * Z) :=
  let (sv, id) := next_control_packet_id sv in
  match dget node (verifications sv) with
  | None => (sv, Raise (KeyError node))
  | Some v =>
    (sv, Ok (ToPacket (mkPacket 0 (node_number v) id
      (Decoded (mkData TELEMETRY_APP local_stats_payload true 0 []))
      false 0 0 PRIORITY_RELIABLE 0 0 fzero []), id))
  end.

(** The task of one node: the requests it has sent, whether it waits for a response,
    and how it ended (with the counters, without a response, or raising). *)
Record SampleTask := mkSampleTask {
  expected_packet_ids : list Z;
  awaiting : bool;
  ended : option (res (option (Z * Z))) }.
#[export] Instance eta_SampleTask : Eta SampleTask := λ r,
  mkSampleTask (expected_packet_ids r) (awaiting r) (ended r).

(** The tasks' steps: one turn of a node's loop, with the clock before and after it
    sends; the wait of a node ending with its predicate true; anything else. *)
Inductive sample_op :=
| SampleAsk (node : string) (before after : float)
| SampleWake (node : string)
| SampleMeanwhile (now : float) (op : sv_op).

Definition end_sample (r : res (option (Z * Z))) (t : SampleTask) : SampleTask :=
  t <| awaiting := false |> <| ended := Some r |>.

(** One turn of [sample_node]'s loop. *)
Definition sample_ask (deadline : float) (node : string) (before after : float) (t : SampleTask) (sv : Service)
    : SampleTask * Service :=
  if fle (fsub deadline before) fzero then (end_sample (Ok None) t, sv)
  else match local_stats_request node sv with
  | (sv, Raise e) => (end_sample (Raise e) t, sv)
  | (sv, Ok (request, id)) =>
    let (sv, r) := on_gateway node (Raise (KeyError node)) (send_to_radio request "controller.local-stats") sv in
    let expired := fle (fsub deadline after) fzero in
    match r with
    | Raise _ => ((if expired then end_sample (Ok None) t else t <| awaiting := false |>), sv)
    | Ok _ =>
      let t := t <| expected_packet_ids ::= cons id |> in
      ((if expired then end_sample (Ok None) t else t <| awaiting := true |>), sv)
    end
  end.

Definition response_arrived (node : string) (t : SampleTask) (sv : Service) : bool :=
  match local_stats_response_ids sv !! node with
  | Some id => bool_decide (id ∈ expected_packet_ids t)
  | None => false
  end.

Definition sample_wake (node : string) (t : SampleTask) (sv : Service) : SampleTask :=
  if awaiting t && response_arrived node t sv then
    end_sample match dget node (node_metrics sv) with
               | Some m => Ok (Some (nm_rx_bad m, nm_rx_duplicate m))
               | None => Raise (KeyError node)
               end t
  else t.

Definition sample_step (deadline : float) (op : sample_op) (w : dict string SampleTask * Service)
    : dict string SampleTask * Service :=
  let (tasks, sv) := w in
  match op with
  | SampleMeanwhile now op => (tasks, sv_step now op sv)
  | SampleAsk node before after =>
    match dget node tasks with
    | Some t =>
      match ended t with
      | None => let (t, sv) := sample_ask deadline node before after t sv in (dset node t tasks, sv)
      | Some _ => w
      end
    | None => w
    end
  | SampleWake node =>
    match dget node tasks with
    | Some t => match ended t with None => (dset node (sample_wake node t sv) tasks, sv) | Some _ => w end
    | None => w
    end
  end.

Definition sample_run (deadline : float) (ops : list sample_op) (w : dict string SampleTask * Service)
    : dict string SampleTask * Service :=
  foldl (λ w op, sample_step deadline op w) w ops.

(** What [gather] returns: [None] while a task has not ended. *)
Fixpoint gather_samples (tasks : dict string SampleTask) : option (res (dict string (option (Z * Z)))) :=
  match tasks with
  | [] => Some (Ok [])
  | (node, t) :: tasks =>
    match ended t, gather_samples tasks with
    | Some (Raise e), _ => Some (Raise e)
    | Some (Ok v), Some (Ok rest) => Some (Ok ((node, v) :: rest))
    | Some (Ok _), r => r
    | None, _ => None
    end
  end.

Definition sample_of (values : dict string (option (Z * Z))) : FailedReceptionSample :=
  mkSample (omap (λ nv, v ← nv.2; Some (nv.1, v.1)) values) (omap (λ nv, v ← nv.2; Some (nv.1, v.2)) values)
    (filter (λ nv, nv.2 = None) values).*1.

(** [_sample_local_stats] from time [now] with the given patience; [None] while it has
    not returned. *)
Definition sample_local_stats (now patience : float) (ops : list sample_op) (sv : Service)
    : Service * option (res FailedReceptionSample) :=
  let ids := (sv_gateways sv).*1 in
  if negb (nonempty ids) ||
     negb (bool_decide (list_to_set ids = (list_to_set (verifications sv).*1 : gset string)))
  then (sv, Some (Raise (RuntimeError "native nodes are not ready for local-stat sampling")))
  else
    let (tasks, sv) := sample_run (fadd now patience) ops ((λ n, (n, mkSampleTask [] false None)) <$> ids, sv) in
    (sv, match gather_samples tasks with
         | Some (Ok values) => Some (Ok (sample_of values))
         | Some (Raise e) => Some (Raise e)
         | None => None
         end).

(** ** Traffic runs *)

Record TrafficEnv := mkTrafficEnv {
  tr_now : float;
  tr_patience : float;
  tr_sampling : list sample_op;
  tr_stop_requested : option float;
  tr_run_id : string }.

(** The conflict an error of [TrafficController.start] becomes. *)
Definition traffic_start_error {A} (e : exn) : res A :=
  match e with
  | PacketIdQuarantineCapacityError msg => conflict "PACKET_ID_QUARANTINE_FULL" msg
  | ValueError msg => conflict "INVALID_TRAFFIC_REQUEST" msg
  | e => if is_runtime_error e then conflict "TRAFFIC_RUN_ACTIVE" (exn_text e) else Raise e
  end.

(** [start_traffic] once the counters are sampled. *)
Definition start_sampled (env : TrafficEnv) (request : TrafficRunRequest) (baseline : FailedReceptionSample)
    (sv : Service) : Service * res string :=
  match sv_traffic sv with
  | Some c =>
    if negb (is_running sv) then
      (sv, conflict "INVALID_LIFECYCLE_STATE" "simulation stopped while traffic baselines were being captured")
    else
      let sv := archive_unpersisted c sv in
      let (sv, r) := on_traffic (Ok EmptyString) (TrafficLifecycle.start request (Some (sv_scenario sv))
                       (Some (SSample baseline)) (tr_run_id env) (tr_now env)) sv in
      (sv, match r with Ok id => Ok id | Raise e => traffic_start_error e end)
  | None => (sv, conflict "INVALID_LIFECYCLE_STATE" "simulation stopped while traffic baselines were being captured")
  end.

(** [start_traffic]; a stop may be requested while the counters are sampled. [None]
    while the sampling has not ended. *)
Definition start_traffic (env : TrafficEnv) (request : TrafficRunRequest) (sv : Service)
    : option (Service * res string) :=
  match sv_traffic sv with
  | Some c =>
    if negb (is_running sv) then
      Some (sv, conflict "INVALID_LIFECYCLE_STATE" "traffic requires RUNNING state")
    else match c_state c with
    | TrafficState.RUNNING | TrafficState.STOPPING =>
      Some (sv, conflict "TRAFFIC_RUN_ACTIVE" "a traffic run is already active")
    | _ =>
      match sample_local_stats (tr_now env) (tr_patience env) (tr_sampling env) sv with
      | (_, None) => None
      | (sv, Some (Raise e)) =>
        Some (sv, conflict "LOCAL_STATS_UNAVAILABLE" ("could not capture native local statistics: " +:+ exn_text e))
      | (sv, Some (Ok baseline)) =>
        let sv := match tr_stop_requested env with Some t => request_stop t sv | None => sv end in
        Some (start_sampled env request baseline sv)
      end
    end
  | None => Some (sv, conflict "INVALID_LIFECYCLE_STATE" "traffic requires RUNNING state")
  end.

Definition stop_traffic (env : StopEnv (B := EventBroker)) (sv : Service) : Service * res unit :=
  match sv_traffic sv with
  | None => (sv, Ok tt)
  | Some c =>
    let '((c, b), fs, r) := TrafficLifecycle.stop env (c, sv_broker sv) (sv_files sv) in
    (sv <| sv_traffic := Some c |> <| sv_broker := b |> <| sv_files := fs |>,
     match r with Ok _ => Ok tt | Raise e => Raise e end)
  end.

(** [_settle_late_traffic_finalization] of the oldest late run, once its finalization,
    whose effect is [finalized], is done. *)
Definition settle_late (now : float)
    (finalized : (Controller * EventBroker) * gmap string string → (Controller * EventBroker) * gmap string string)
    (sv : Service) : Service :=
  match late_runs sv with
  | [] => sv
  | c :: rest =>
    let '((c, b), fs) := finalized ((c, sv_broker sv), sv_files sv) in
    let sv := sv <| late_runs := rest |> <| sv_broker := b |> <| sv_files := fs |> in
    match TrafficLifecycle.summary now c with
    | Ok s =>
      let newer := match s, last_traffic_summary sv with
                   | Some s, Some old => bool_decide (s_run_id old = s_run_id s)
                   | Some _, None => true
                   | None, _ => false
                   end in
      archive_unpersisted c (if newer then sv <| last_traffic_summary := s |> else sv)
    | Raise _ => sv
    end
  end.

(** ** Results *)

(** Reading the JSON of a result and of a summary. *)
Class ResultReader := {
  read_result : string → res TrafficRunResult;
  read_summary : string → res TrafficRunSummary }.

Context `{ResultReader}.

(** The controller whose current run is [run_id]. *)
Definition current_controller (run_id : string) (sv : Service) : option Controller :=
  c ← sv_traffic sv; r ← c_current c; if decide (r_run_id r = run_id) then Some c else None.

Definition file_not_found {A} (run_id : string) : res A := Raise (FileNotFoundError run_id).

(** The result of a run the controller does not have. *)
Definition saved_result (run_id : string) (sv : Service) : res TrafficRunResult :=
  match sv_files sv !! result_path run_id with
  | Some content => read_result content
  | None =>
    match dget run_id (volatile_results sv) with
    | Some r => Ok r
    | None => file_not_found run_id
    end
  end.

Definition traffic_result (run_id : string) (sv : Service) : res TrafficRunResult :=
  match current_controller run_id sv ≫= TrafficLifecycle.result with
  | Some r => Ok r
  | None => saved_result run_id sv
  end.

Definition traffic_result_is_complete (run_id : string) (sv : Service) : res bool :=
  match current_controller run_id sv with
  | Some c => Ok (result_is_finalized run_id c)
  | None =>
    if bool_decide (is_Some (sv_files sv !! result_path run_id)) || dmem run_id (volatile_results sv)
    then Ok true else file_not_found run_id
  end.

Definition saved_summary (run_id : string) (sv : Service) : res TrafficRunSummary :=
  match sv_files sv !! summary_path run_id with
  | Some content => read_summary content
  | None => r ← traffic_result run_id sv; Ok (summarize_result r)
  end.

Definition traffic_summary (run_id : string) (now : float) (sv : Service) : res TrafficRunSummary :=
  match current_controller run_id sv with
  | Some c =>
    match TrafficLifecycle.summary now c with
    | Raise e => Raise e
    | Ok (Some s) => Ok s
    | Ok None => saved_summary run_id sv
    end
  | None => saved_summary run_id sv
  end.

Definition current_traffic_summary (now : float) (sv : Service) : res (option TrafficRunSummary) :=
  match sv_traffic sv with
  | Some c => TrafficLifecycle.summary now c
  | None => Ok (last_traffic_summary sv)
  end.

(** [export_traffic_result] of src/backend/app/main.py: the JSON served. *)
Definition export_traffic_result (run_id : string) (sv : Service) : res string :=
  complete ← traffic_result_is_complete run_id sv;
  if complete : bool then
    match sv_files sv !! result_path run_id with
    | Some content => Ok content
    | None => r ← traffic_result run_id sv; Ok (result_json r)
    end
  else conflict "TRAFFIC_RUN_NOT_COMPLETE" "traffic results can be exported after the run finishes".

(** [completed_runs]: the stems of the saved results, and the results in memory. *)
Definition without_suffix (suffix s : string) : option string :=
  let n := (String.length s - String.length suffix)%nat in
  if decide (String.substring n (String.length suffix) s = suffix ∧ (String.length suffix <= String.length s)%nat)
  then Some (String.substring 0 n s) else None.

Definition saved_run (path : string) : option string :=
  match without_suffix ".summary.json" path with
  | Some _ => None
  | None => without_suffix ".json" path
  end.

Definition completed_runs (sv : Service) : list string :=
  str_sorted (remove_dups (omap saved_run (map_to_list (sv_files sv)).*1 ++ (volatile_results sv).*1)).
End runs.
