(* ===== verification/ServiceTopology.v ===== *)
(** * Editing the topology of a running simulation

    The scenario the service holds, the medium's link table, the events published and
    the changes a run records agree after every edit. *)
From S2P Require Import Prelude PyDict PyFloat Framing Scenario Reachability Mesh Airtime Events Medium.
From S2P Require Import TrafficRequest Identifier PacketIds TrafficState TrafficHandlers TrafficLifecycle.
From S2P Require Import Gateway Utf8 ProcessLogs Processes Configure Service ServiceOps ServiceRuns.

(** The links of an edit that differ from the scenario's. *)
Definition differs (previous : dict (string * string) DirectedLink) (l : DirectedLink) : Prop :=
  ∃ old, dget (link_key l) previous = Some old ∧ link_eqb old l = false.

#[export] Instance differs_dec previous l : Decision (differs previous l).
Proof.
  destruct (dget (link_key l) previous) as [old|] eqn:E; [|right; intros (? & ? & ?); congruence].
  destruct (link_eqb old l) eqn:El; [right; intros (? & ? & ?); congruence|left; by exists old].
Defined.

Definition changes_of (sc : Scenario) (ls : list DirectedLink) : list DirectedLink :=
  filter (differs (link_map sc)) ls.

(** The medium's table is the scenario's links. *)
Definition links_agree (sv : Service) : Prop :=
  ∀ m, sv_medium sv = Some m → md_links m = link_map (sv_scenario sv).

(** What a run records of an edit: the change of each event. *)
Definition add_changes (events : list PacketEvent) (changed : list DirectedLink) (r : TrafficRunResult)
    : TrafficRunResult :=
  r <| r_topology_changes ::= λ l, l ++
         zip_with (λ e l, mkChange (e_sequence e) (monotonic_seconds e) l) events changed |>.

Definition recorded (events : list PacketEvent) (changed : list DirectedLink) (c : Controller) : Controller :=
  if bool_decide (c_current c ≠ None) && accepts_run_events false c then
    c <| c_current ::= fmap (add_changes events changed) |> <| c_frozen ::= fmap (add_changes events changed) |>
  else c.

Lemma changed_since_spec previous ls :
  (∀ l, l ∈ ls → link_key l ∈ previous.*1) →
  changed_since previous ls = Ok (filter (differs previous) ls).
Proof.
  induction ls as [|l ls IH]; intros Hk; [done|]. cbn [changed_since].
  destruct (dget_is_Some (link_key l) previous) as [old Hold]; [apply Hk; by left|]. rewrite Hold.
  rewrite IH by (intros l' Hl'; apply Hk; by right). cbn [mbind res_bind]. f_equal. rewrite filter_cons.
  destruct (link_eqb old l) eqn:El; case_decide as Hd; try done.
  - destruct Hd as (? & ? & ?). congruence.
  - destruct Hd. by exists old.
Qed.

Lemma link_map_pairs sc : NoDup (link_key <$> links sc) →
  link_map sc = (λ l, (link_key l, l)) <$> links sc.
Proof. intros Hnd. apply dict_of_nodup. by rewrite <-list_fmap_compose. Qed.

Lemma link_map_keys sc : NoDup (link_key <$> links sc) → (link_map sc).*1 = link_key <$> links sc.
Proof. intros Hnd. rewrite link_map_pairs by done. by rewrite <-list_fmap_compose. Qed.

Lemma filter_iff_in {A} (P Q : A → Prop) `{∀ x, Decision (P x)} `{∀ x, Decision (Q x)} (l : list A) :
  (∀ x, x ∈ l → (P x ↔ Q x)) → filter P l = filter Q l.
Proof.
  induction l as [|x l IH]; intros Hl; [done|]. rewrite !filter_cons, IH by (intros y Hy; apply Hl; by right).
  specialize (Hl x ltac:(by left)). repeat case_decide; naive_solver.
Qed.

Section topology.
Context `{Meshtastic} `{PyText} `{PyRandom} `{RadioCodec} `{TelemetryCodec} `{ResultText TrafficRunSummary}
  `{Sha256}.
Implicit Types (sv : Service).

Lemma publish_each_length es (b : EventBroker) : length (publish_each es b).1 = length es.
Proof.
  revert b. induction es as [|e es IH]; intros b; [done|]. cbn [publish_each].
  destruct (sink_publish e b) as [e' b']. specialize (IH b').
  destruct (publish_each es b') as [es' b'']. cbn in *. congruence.
Qed.

Lemma add_changes_nil r : add_changes [] [] r = r.
Proof. unfold add_changes, set_field; cbn. rewrite app_nil_r. by destruct r. Qed.

Lemma add_changes_cons e events l changed r :
  add_changes events changed (add_changes [e] [l] r) = add_changes (e :: events) (l :: changed) r.
Proof. unfold add_changes, set_field; cbn. by rewrite <-app_assoc. Qed.

(** What recording leaves of the run's state. *)
Lemma recorded_accepts events changed c :
  accepts_run_events false (recorded events changed c) = accepts_run_events false c ∧
  (c_current (recorded events changed c) = None ↔ c_current c = None).
Proof. unfold recorded. case_match; [|done]. split; [done|]. unfold set_field; cbn. by destruct (c_current c). Qed.

Lemma recorded_nil c : recorded [] [] c = c.
Proof.
  unfold recorded. case_match; [|done]. destruct c as [? ? [cur|] [fr|]]; unfold set_field; cbn;
    by rewrite ?add_changes_nil.
Qed.

Lemma recorded_cons e events l changed c :
  recorded events changed (recorded [e] [l] c) = recorded (e :: events) (l :: changed) c.
Proof.
  destruct (recorded_accepts [e] [l] c) as [Ha Hc]. unfold recorded at 1. rewrite Ha, (bool_decide_ext _ (c_current c ≠ None)) by by rewrite Hc.
  unfold recorded. case_match; [|done].
  destruct c as [? ? [cur|] [fr|]]; unfold set_field; cbn; by rewrite ?add_changes_cons.
Qed.

Lemma recorded_current events changed c cur :
  c_current c = Some cur → accepts_run_events false c = true →
  c_current (recorded events changed c) = Some (add_changes events changed cur).
Proof. intros Ec Ea. unfold recorded. rewrite Ec, Ea. unfold set_field; cbn [c_current]. by rewrite Ec. Qed.

Lemma capacity_recorded n e l c :
  1 <= n → ensure_topology_change_capacity n c = Ok tt →
  ensure_topology_change_capacity 1 c = Ok tt ∧
  ensure_topology_change_capacity (n - 1) (recorded [e] [l] c) = Ok tt.
Proof.
  intros Hn. unfold ensure_topology_change_capacity. destruct (recorded_accepts [e] [l] c) as [-> Hc].
  destruct (c_current c) as [cur|] eqn:Ec; [|by rewrite (proj2 Hc)].
  destruct (accepts_run_events false c) eqn:Ea; cbn [negb]; [|by case_match].
  intros Hcap%guard_raise_ok%Z.ltb_ge. rewrite (recorded_current _ _ _ _ Ec Ea), !guard_raise_ok, !Z.ltb_ge.
  unfold add_changes, set_field; cbn [r_topology_changes zip_with].
  rewrite !zlen_app, zlen_cons, zlen_nil. lia.
Qed.

Lemma record_one e l sv c :
  sv_traffic sv = Some c → ensure_topology_change_capacity 1 c = Ok tt →
  on_traffic (Ok tt) (record_topology_change e l) sv = (sv <| sv_traffic := Some (recorded [e] [l] c) |>, Ok tt).
Proof.
  intros Hc Hcap. unfold on_traffic. rewrite Hc. unfold record_topology_change, recorded. cbn [fst snd].
  destruct sv. cbn in Hc. subst.
  destruct (c_current c) as [cur|] eqn:Ec; [|done].
  destruct (accepts_run_events false c) eqn:Ea; cbn [negb]; [|done].
  rewrite Hcap. done.
Qed.

(** Recording as many changes as there is room for. *)
Lemma record_changes_ok events changed sv c :
  sv_traffic sv = Some c → length events = length changed →
  ensure_topology_change_capacity (zlen changed) c = Ok tt →
  record_changes events changed sv = (sv <| sv_traffic := Some (recorded events changed c) |>, Ok tt).
Proof.
  revert events sv c. induction changed as [|l changed IH]; intros [|e events] sv c Hc Hlen Hcap; try done.
  { cbn [record_changes]. rewrite recorded_nil. destruct sv. cbn in Hc. by subst. }
  cbn [record_changes]. rewrite zlen_cons in Hcap.
  destruct (capacity_recorded (zlen changed + 1) e l c ltac:(pose proof (zlen_nonneg changed); lia) Hcap) as [Hc1 Hc2].
  rewrite (record_one e l sv c) by done. rewrite Z.add_simpl_r in Hc2.
  rewrite (IH events _ (recorded [e] [l] c)); [|done|by injection Hlen|done].
  by rewrite recorded_cons.
Qed.

(** The state an accepted edit leaves. *)
Definition edited (updated : Scenario) (now : float) (sv : Service) (m : DirectedMedium Controller EventBroker)
    : Service :=
  let changed := changes_of (sv_scenario sv) (links updated) in
  let '(events, b) := publish_each (link_update_event now <$> changed) (sv_broker sv) in
  sv <| sv_medium := Some (m <| md_links := link_map updated |>) |> <| sv_broker := b |>
     <| sv_scenario := updated |> <| sv_traffic ::= fmap (recorded events changed) |>.

Definition has_capacity (n : Z) (sv : Service) : res unit :=
  match sv_traffic sv with Some c => ensure_topology_change_capacity n c | None => Ok tt end.

Lemma capacity_error n sv e : has_capacity n sv = Raise e → e = topology_limit_error.
Proof.
  unfold has_capacity, ensure_topology_change_capacity. repeat (case_match; try done).
  unfold guard_raise. case_match; congruence.
Qed.

Lemma same_keys_refl d : same_keys d d = true.
Proof. by apply same_keys_spec. Qed.

(** An edit that keeps the pairs of linked nodes is applied whole, or refused for want
    of room in the run's record. *)
Lemma apply_runtime_ok updated now sv m :
  sv_medium sv = Some m → links_agree sv → NoDup (link_key <$> links (sv_scenario sv)) →
  link_key <$> links updated = link_key <$> links (sv_scenario sv) →
  apply_runtime_scenario updated now sv =
    match has_capacity (zlen (changes_of (sv_scenario sv) (links updated))) sv with
    | Ok _ => (edited updated now sv m, Ok tt)
    | Raise e => (sv, conflict "TOPOLOGY_HISTORY_FULL" (exn_text e))
    end.
Proof.
  intros Hm Hag Hnd Hkeys. specialize (Hag m Hm). unfold apply_runtime_scenario. rewrite Hm.
  assert (NoDup (link_key <$> links updated)) as Hnd' by by rewrite Hkeys.
  rewrite changed_since_spec.
  2:{ intros l Hl. rewrite link_map_keys, <-Hkeys by done. apply list_elem_of_fmap. by exists l. }
  set (changed := filter (differs (link_map (sv_scenario sv))) (links updated)).
  change (changes_of (sv_scenario sv) (links updated)) with changed.
  change (match sv_traffic sv with Some c => ensure_topology_change_capacity (zlen changed) c | None => Ok tt end)
    with (has_capacity (zlen changed) sv).
  destruct (has_capacity (zlen changed) sv) as [[]|e] eqn:Hcap.
  2:{ pose proof (capacity_error _ _ _ Hcap) as ->. done. }
  unfold apply_links. change (dict_of ((λ l, (link_key l, l)) <$> links updated)) with (link_map updated).
  rewrite Hag. replace (same_keys (link_map updated) (link_map (sv_scenario sv))) with true.
  2:{ symmetry. apply same_keys_spec. intros k. by rewrite !link_map_keys, Hkeys by done. }
  cbn [negb guard_raise mbind res_bind].
  assert (changed_links (link_map updated) (link_map (sv_scenario sv)) = changed) as ->.
  { unfold changed_links, changed. rewrite (link_map_pairs updated) by done.
    rewrite <-list_fmap_compose. change (snd ∘ _) with (@id DirectedLink). rewrite list_fmap_id.
    apply filter_iff_in. intros l Hl. unfold differs, link_changed.
    destruct (dget_is_Some (link_key l) (link_map (sv_scenario sv))) as [old Hold].
    { rewrite link_map_keys, <-Hkeys by done. apply list_elem_of_fmap. by exists l. }
    rewrite Hold, negb_true_iff. naive_solver. }
  pose proof (publish_each_length (link_update_event now <$> changed) (sv_broker sv)) as Hlen.
  unfold edited. change (changes_of (sv_scenario sv) (links updated)) with changed.
  destruct (publish_each (link_update_event now <$> changed) (sv_broker sv)) as [events b]. cbn [fst] in Hlen.
  rewrite length_fmap in Hlen. unfold has_capacity in Hcap.
  match goal with |- context [match sv_traffic ?s with _ => _ end] =>
    assert (sv_traffic s = sv_traffic sv) as Htr by reflexivity; set (sv1 := s) in * end.
  clearbody sv1. rewrite <-Htr in Hcap. destruct (sv_traffic sv1) as [c|] eqn:Ec.
  - rewrite (record_changes_ok events changed _ c) by done. destruct sv1; cbn in Ec; by subst.
  - destruct sv1; cbn in Ec; by subst.
Qed.
(** ** The edits *)

(** The scenario is a complete graph with the medium's links, and there is no medium
    while stopped. *)
Record topology_ok sv : Prop := mk_topology_ok {
  tk_graph : graph_ok (sv_scenario sv);
  tk_nodes : nodes (sv_scenario sv) ≠ [];
  tk_agree : links_agree sv;
  tk_stopped : sv_state sv = STOPPED → sv_medium sv = None }.

Definition is_conflict (e : exn) : Prop := ∃ code message, e = SimulationConflict code message.

(** What [update_links] makes of the scenario. *)
Definition with_links (updates : list DirectedLink) (sc : Scenario) : Scenario :=
  sc <| links ::= replace_links (dict_of ((λ l, (link_key l, l)) <$> updates)) |>.

(** The updates are one or more distinct links of the running simulation, and the run
    has room to record what they change. *)
Definition updates_accepted (updates : list DirectedLink) sv : Prop :=
  updates ≠ [] ∧ NoDup (link_key <$> updates) ∧ sv_state sv = RUNNING ∧ is_Some (sv_medium sv) ∧
  (∀ l, l ∈ updates → link_key l ∈ link_key <$> links (sv_scenario sv)) ∧
  has_capacity (zlen (changes_of (sv_scenario sv) (links (with_links updates (sv_scenario sv))))) sv = Ok tt.

Lemma edited_fields updated now sv m :
  sv_scenario (edited updated now sv m) = updated ∧ sv_state (edited updated now sv m) = sv_state sv ∧
  sv_medium (edited updated now sv m) = Some (m <| md_links := link_map updated |>).
Proof. unfold edited. by destruct (publish_each _ _). Qed.

Lemma edited_ok ls now sv m :
  topology_ok sv → sv_state sv ≠ STOPPED → link_key <$> ls = link_key <$> links (sv_scenario sv) →
  topology_ok (edited ((sv_scenario sv) <| links := ls |>) now sv m).
Proof.
  intros [Hg Hn Ha _] Hs Hk. destruct (edited_fields ((sv_scenario sv) <| links := ls |>) now sv m) as (E1 & E2 & E3).
  constructor; rewrite ?E1, ?E2, ?E3.
  - by apply graph_ok_same_keys.
  - done.
  - intros m' [=<-]%(eq_trans (eq_sym E3)). by rewrite E1.
  - done.
Qed.

Abbreviation update_map updates := (dict_of ((λ l : DirectedLink, (link_key l, l)) <$> updates)).

Lemma update_map_get updates k l :
  NoDup (link_key <$> updates) → dget k (update_map updates) = Some l ↔ l ∈ updates ∧ link_key l = k.
Proof.
  intros Hnd. assert (((λ l, (link_key l, l)) <$> updates).*1 = link_key <$> updates) as Hk
    by by rewrite <-list_fmap_compose.
  rewrite dict_of_nodup by by rewrite Hk. rewrite dget_Some by (unfold dict_ok; by rewrite Hk).
  rewrite list_elem_of_fmap. naive_solver.
Qed.

Lemma replace_links_keys updates ls :
  NoDup (link_key <$> updates) → link_key <$> replace_links (update_map updates) ls = link_key <$> ls.
Proof.
  intros Hnd. unfold replace_links. rewrite <-list_fmap_compose. apply list_fmap_ext. intros i l _. cbn.
  destruct (dget _ _) as [l'|] eqn:E; [|done]. by apply update_map_get in E as [_ Hk].
Qed.

Lemma replace_links_elem updates ls l :
  NoDup (link_key <$> updates) → (∀ l, l ∈ updates → link_key l ∈ link_key <$> ls) →
  l ∈ replace_links (update_map updates) ls ↔ l ∈ updates ∨ l ∈ ls ∧ link_key l ∉ link_key <$> updates.
Proof.
  intros Hnd Hkn. unfold replace_links. rewrite list_elem_of_fmap. split.
  - intros (old & -> & Hold). destruct (dget _ _) as [l'|] eqn:E; cbn.
    + left. by apply update_map_get in E as [? _].
    + right. split; [done|]. intros (l' & Hk & Hl')%list_elem_of_fmap.
      by rewrite (proj2 (update_map_get updates (link_key old) l' Hnd) (conj Hl' (eq_sym Hk))) in E.
  - intros [Hl|[Hl Hfresh]].
    + pose proof (Hkn l Hl) as (old & Hk & Hold)%list_elem_of_fmap. exists old. split; [|done].
      by rewrite (proj2 (update_map_get updates (link_key old) l Hnd) (conj Hl Hk)).
    + exists l. split; [|done]. destruct (dget _ _) as [l'|] eqn:E; [|done].
      apply update_map_get in E as [? Hk]; [|done]. destruct Hfresh. apply list_elem_of_fmap. by exists l'.
Qed.

Lemma update_map_unique updates :
  (zlen (update_map updates) =? zlen updates) = true ↔ NoDup (link_key <$> updates).
Proof.
  unfold zlen. rewrite Z.eqb_eq, Nat2Z.inj_iff.
  assert (((λ l, (link_key l, l)) <$> updates).*1 = link_key <$> updates) as Hk by by rewrite <-list_fmap_compose.
  split.
  - intros Hl. assert ((update_map updates).*1 ≡ₚ ((λ l, (link_key l, l)) <$> updates).*1) as Hp.
    { apply submseteq_length_Permutation; [|rewrite !length_fmap, Hl; lia].
      apply NoDup_submseteq; [apply dict_of_ok|]. intros k. by rewrite dict_of_keys. }
    rewrite <-Hk, <-Hp. apply dict_of_ok.
  - intros Hnd. rewrite dict_of_nodup by by rewrite Hk. by rewrite length_fmap.
Qed.

Lemma unknown_link_spec updates existing :
  NoDup (link_key <$> updates) →
  unknown_link (update_map updates) existing = None ↔ ∀ l, l ∈ updates → link_key l ∈ existing.*1.
Proof.
  intros Hnd. unfold unknown_link. rewrite dict_of_nodup by by rewrite <-list_fmap_compose.
  rewrite fmap_None, list_find_None, Forall_fmap, Forall_forall. apply forall_proper; intros l.
  apply forall_proper; intros Hl. cbn. rewrite negb_true_iff, not_false_iff_true, dmem_spec. split.
  - intros [? ?]. by eapply dget_key.
  - apply dget_is_Some.
Qed.

(** What updating links does. *)
Lemma update_links_spec updates now sv :
  topology_ok sv →
  match update_links updates now sv with
  | (sv', Raise e) => sv' = sv ∧ is_conflict e ∧ ¬ updates_accepted updates sv
  | (sv', Ok ls) =>
    updates_accepted updates sv ∧ ls = updates ∧
    ∃ m, sv_medium sv = Some m ∧ sv' = edited (with_links updates (sv_scenario sv)) now sv m ∧ topology_ok sv'
  end.
Proof.
  intros Hok. destruct updates as [|u us] eqn:Eu; [by split_and!; [|eexists _, _|intros []]|].
  unfold update_links. rewrite <-Eu. assert (updates ≠ []) as Hne by by subst. clear u us Eu.
  destruct (zlen (update_map updates) =? zlen updates) eqn:Eq; cbn [negb].
  2:{ split_and!; [done|by eexists _, _|]. intros (_ & Hnd%update_map_unique & _). congruence. }
  apply update_map_unique in Eq. unfold is_running.
  destruct (decide (sv_state sv = RUNNING)) as [Hr|Hr].
  2:{ rewrite bool_decide_false by done. split_and!; [done|by eexists _, _|]. by intros (_ & _ & ? & _). }
  rewrite bool_decide_true by done. cbn [negb orb].
  destruct (sv_medium sv) as [m|] eqn:Em.
  2:{ split_and!; [done|by eexists _, _|]. intros (_ & _ & _ & [? ?] & _). congruence. }
  rewrite bool_decide_false by done.
  pose proof (tk_graph _ Hok) as Hg. pose proof (graph_keys _ Hg) as Hnk.
  destruct (unknown_link _ _) as [[a b]|] eqn:Ek.
  { split_and!; [done|by eexists _, _|]. intros (_ & _ & _ & _ & Hkn & _).
    rewrite (proj2 (unknown_link_spec updates (link_map (sv_scenario sv)) Eq)) in Ek; [done|].
    intros l Hl. rewrite link_map_keys by done. by apply Hkn. }
  rewrite unknown_link_spec, link_map_keys in Ek by done.
  pose proof (replace_links_keys updates (links (sv_scenario sv)) Eq) as Hkeys.
  rewrite (apply_runtime_ok _ now sv m) by (try done; apply Hok).
  change ((sv_scenario sv) <| links ::= replace_links (update_map updates) |>)
    with (with_links updates (sv_scenario sv)).
  destruct (has_capacity _ sv) as [[]|e] eqn:Hcap.
  - split; [by split_and!|]. split; [done|]. exists m. split_and!; [done..|].
    apply edited_ok; [done| |done]. by rewrite Hr.
  - split_and!; [done|by eexists _, _|]. intros (_ & _ & _ & _ & _ & ?). congruence.
Qed.

(** What applying a preset does. *)
Lemma apply_topology_spec preset now sv :
  topology_ok sv →
  match apply_topology preset now sv with
  | (sv', Raise e) => sv' = sv ∧ is_conflict e ∧ sv_state sv ≠ STOPPED
  | (sv', Ok updated) =>
    Forall2 (preset_link (sv_scenario sv) preset) (links (sv_scenario sv)) (links updated) ∧
    updated = (sv_scenario sv) <| links := links updated |> ∧ sv_scenario sv' = updated ∧ topology_ok sv' ∧
    (sv_state sv = STOPPED ∧ sv' = sv <| sv_scenario := updated |> ∨
     sv_state sv = RUNNING ∧ ∃ m, sv_medium sv = Some m ∧ sv' = edited updated now sv m)
  end.
Proof.
  intros Hok. pose proof Hok as [Hg Hn Ha Hs].
  destruct (preset_applies (sv_scenario sv) preset Hg Hn) as (ls & Hp & Hf & _).
  pose proof (preset_links_keys _ _ _ _ Hf) as Hk. unfold apply_topology. rewrite Hp.
  destruct (decide (sv_state sv = STOPPED)) as [Est|Est].
  { split_and!; [done..| |by left]. constructor; cbn [sv_scenario sv_state sv_medium].
    - by apply graph_ok_same_keys.
    - done.
    - intros m Hm. change (sv_medium sv = Some m) in Hm. by rewrite Hs in Hm.
    - done. }
  unfold is_running. destruct (decide (sv_state sv = RUNNING)) as [Hr|Hr].
  2:{ rewrite bool_decide_false by done. by split_and!; [|eexists _, _|]. }
  rewrite bool_decide_true by done. cbn [negb orb].
  destruct (sv_medium sv) as [m|] eqn:Em; [|by split_and!; [|eexists _, _|]].
  rewrite bool_decide_false, (apply_runtime_ok _ now sv m) by (try done; apply Hg).
  destruct (has_capacity _ sv) as [[]|e]; [|by split_and!; [|eexists _, _|]].
  split_and!; [done..|apply edited_fields|by apply edited_ok|]. right. split; [done|]. by exists m.
Qed.

(** C6: *)
Theorem topology_edits_correct sv now updates preset :
  topology_ok sv →
  match update_links updates now sv with
  | (sv', Raise e) => sv' = sv ∧ is_conflict e ∧ ¬ updates_accepted updates sv
  | (sv', Ok ls) =>
    updates_accepted updates sv ∧ ls = updates ∧ topology_ok sv' ∧
    (∃ m, sv_medium sv = Some m ∧ sv' = edited (with_links updates (sv_scenario sv)) now sv m) ∧
    ∀ l, l ∈ links (sv_scenario sv') ↔
         l ∈ updates ∨ l ∈ links (sv_scenario sv) ∧ link_key l ∉ link_key <$> updates
  end ∧
  match apply_topology preset now sv with
  | (sv', Raise e) => sv' = sv ∧ is_conflict e ∧ sv_state sv ≠ STOPPED
  | (sv', Ok updated) =>
    Forall2 (preset_link (sv_scenario sv) preset) (links (sv_scenario sv)) (links updated) ∧
    updated = (sv_scenario sv) <| links := links updated |> ∧ sv_scenario sv' = updated ∧ topology_ok sv' ∧
    (sv_state sv = STOPPED ∧ sv' = sv <| sv_scenario := updated |> ∨
     sv_state sv = RUNNING ∧ ∃ m, sv_medium sv = Some m ∧ sv' = edited updated now sv m)
  end.
Proof.
  intros Hok. split; [|by apply apply_topology_spec].
  pose proof (update_links_spec updates now sv Hok) as Hu. destruct (update_links updates now sv) as [sv' [ls|e]]; [|done].
  destruct Hu as (Hacc & -> & m & Hm & -> & Hok'). split_and!; [done..|by exists m|]. intros l.
  destruct Hacc as (_ & Hnd & _ & _ & Hkn & _).
  rewrite (proj1 (edited_fields _ _ _ _)). by apply replace_links_elem.
Qed.
End topology.
