(* ===== verification/ServiceFrame.v ===== *)
(** * What the components' tasks leave of the service

    A gateway's or a process's operation reaches the service through its handlers
    alone, so a relation the handlers keep is kept by the operation ([keeps]); every
    task of the service keeps its configuration and moves its lifecycle to FAILED at
    most ([frame]). *)
From S2P Require Import Prelude PyDict PyFloat Framing Scenario Reachability Mesh Airtime Events Medium.
From S2P Require Import TrafficRequest Identifier PacketIds TrafficState TrafficHandlers TrafficLifecycle.
From S2P Require Import Gateway Utf8 ProcessLogs Processes ProcessLifecycle Configure Service ServiceOps ServiceRuns.

Create HintDb frame.

(** ** Gateways *)

Section gateways.
Context `{Meshtastic} `{RadioCodec} {T : Type} (hs : GatewayHandlers T) (R : relation T) `{!PreOrder R}.
Implicit Types (w : NodeGateway * T).

Definition handlers_keep : Prop :=
  match event_handler hs with Some h => ∀ e t, R t (h e t) | None => True end ∧
  match from_radio_handler hs with Some h => ∀ n m t, R t (h n m t).1 | None => True end.

Context (Hh : handlers_keep).

Definition keeps w w' : Prop := R w.2 w'.2.

#[local] Instance keeps_preorder : PreOrder keeps.
Proof. split; [intros w; unfold keeps; reflexivity|intros w1 w2 w3; unfold keeps; apply transitivity]. Qed.

#[local] Typeclasses Opaque keeps.

Lemma with_gateway_keeps f w : keeps w (with_gateway f w).
Proof. unfold keeps, with_gateway. cbn. reflexivity. Qed.

Lemma emit_keeps k d f w : keeps w (emit hs k d f w).
Proof. unfold keeps, emit. cbn. destruct Hh as [He _]. by case_match; [apply He|]. Qed.

Lemma keeps_gateway f w w' : keeps (with_gateway f w) w' → keeps w w'.
Proof. intros Hk. exact Hk. Qed.

Lemma keeps_emit k d f w w' : keeps (emit hs k d f w) w' → keeps w w'.
Proof. intros Hk. etrans; [apply emit_keeps|exact Hk]. Qed.

#[local] Hint Resolve with_gateway_keeps emit_keeps : frame.
#[local] Hint Extern 1 (keeps ?w ?w) => reflexivity : frame.
#[local] Hint Extern 2 (keeps _ (with_gateway _ _)) => etrans; [|apply with_gateway_keeps] : frame.
#[local] Hint Extern 2 (keeps _ (emit _ _ _ _ _)) => etrans; [|apply emit_keeps] : frame.

Ltac keeps_tac := cbv zeta; repeat (case_match; cbn [fst snd] in *); eauto 8 with frame.

Lemma send_to_radio_keeps m s w : keeps w (send_to_radio m s w).1.
Proof. unfold send_to_radio. keeps_tac. Qed.

Lemma gateway_fail_keeps d w : keeps w (gateway_fail hs d w).
Proof. unfold gateway_fail. keeps_tac. Qed.
#[local] Hint Resolve send_to_radio_keeps gateway_fail_keeps : frame.
#[local] Hint Extern 2 (keeps _ (gateway_fail _ _ _)) => etrans; [|apply gateway_fail_keeps] : frame.

Lemma put_rf_keeps p f w : keeps w (put_rf hs p f w).
Proof. unfold put_rf. keeps_tac. Qed.

Lemma put_external_keeps raw w : keeps w (put_external hs raw w).
Proof. unfold put_external. keeps_tac. Qed.

Lemma handle_downstream_frame_keeps f w : keeps w (handle_downstream_frame hs f w).1.
Proof.
  unfold handle_downstream_frame. destruct (parse_from_radio (payload f)) as [m|e]; [|apply emit_keeps].
  destruct (match from_radio_handler hs with Some h => _ | None => _ end) as [t r] eqn:E.
  assert (keeps w (w.1, t)) as Hk.
  { unfold keeps. cbn. destruct Hh as [_ Hr]. destruct (from_radio_handler hs) as [h|]; [|by injection E as <- _].
    specialize (Hr (gw_node_id w.1) m w.2). by rewrite E in Hr. }
  etrans; [exact Hk|]. destruct r as [|e]; [|reflexivity].
  etrans; [apply (with_gateway_keeps (λ g, complete_config m (g <| gw_handled ::= (λ l, l ++ [f]) |>)))|]. cbn zeta.
  destruct (simulated_packet m) as [p|]; cbn [fst].
  - apply put_rf_keeps.
  - apply put_external_keeps.
Qed.

Lemma handle_frames_keeps fs w : keeps w (handle_frames hs fs w).1.
Proof.
  revert w. induction fs as [|f fs IH]; intros w; cbn [handle_frames]; [reflexivity|].
  pose proof (handle_downstream_frame_keeps f w) as Hk.
  destruct (handle_downstream_frame hs f w) as [w' [?|?]]; [|exact Hk]. etrans; [exact Hk|apply IH].
Qed.

Lemma downstream_read_keeps data w : keeps w (downstream_read hs data w).
Proof.
  unfold downstream_read. destruct data as [|b data]; [keeps_tac|].
  destruct (feed _ _) as [fs parser]. cbv zeta. set (w1 := with_gateway _ w).
  assert (keeps w w1) as H1 by apply with_gateway_keeps. pose proof (handle_frames_keeps fs w1) as H2.
  destruct (handle_frames hs fs w1) as [w2 [?|e]]; cbn [fst] in H2; [by etrans|].
  etrans; [exact H1|]. etrans; [exact H2|]. eauto with frame.
Qed.

Lemma gw_step_keeps op w : keeps w (gw_step hs op w).
Proof.
  destruct op; cbn [gw_step]; unfold downstream_read_error, downstream_write, client_connect, reject_client,
    client_disconnect, enable_public_clients.
  2: case_match; [apply downstream_read_keeps|reflexivity].
  11: { unfold request_config. set (w1 := with_gateway _ w). pose proof (send_to_radio_keeps (WantConfig nonce) "controller.config" w1) as Hs.
       destruct (send_to_radio _ _ w1) as [w2 [?|?]]; cbn [fst] in *; exact Hs. }
  all: keeps_tac.
Qed.

Lemma gw_run_keeps ops w : keeps w (gw_run hs ops w).
Proof.
  unfold gw_run. revert w. induction ops as [|op ops IH]; intros w; [reflexivity|]. cbn [foldl].
  etrans; [apply gw_step_keeps|apply IH].
Qed.

Lemma gateway_stop_keeps closing w : keeps w (gateway_stop hs closing w).
Proof.
  unfold gateway_stop, close_transports. case_match; [apply (gw_run_keeps closing w)|].
  etrans; [|apply emit_keeps]. apply (gw_run_keeps closing (with_gateway _ w)).
Qed.

Lemma establish_keeps attempts e w : keeps w (establish hs attempts e w).1.
Proof.
  revert e w. induction attempts as [|[err|ops] attempts IH]; intros e w; cbn [establish]; [reflexivity|apply IH|].
  destruct (encode_frame _) as [raw|e']; [|reflexivity]. cbv zeta.
  set (w1 := with_gateway _ w). pose proof (gw_run_keeps ops w1) as Hr.
  destruct (dget _ _) as [[| |d]|]; cbn [fst]; try exact Hr.
  - etrans; [exact Hr|]. eauto with frame.
  - etrans; [exact Hr|]. etrans; [|apply IH]. apply with_gateway_keeps.
Qed.

Lemma gateway_start_keeps env w : keeps w (gateway_start hs env w).1.
Proof.
  unfold gateway_start.
  assert (∀ w, keeps w (Gateway.start_body hs env w).1) as Hb.
  { intros w0. unfold Gateway.start_body. destruct (reserve_public_listener _ _) as [g [?|?]]; [|unfold keeps; cbn; reflexivity].
    pose proof (establish_keeps (gs_attempts env) None (g, w0.2)) as He.
    destruct (establish hs _ None (g, w0.2)) as [w1 [?|?]]; [|exact He]. cbn [fst] in He.
    change (keeps w0 w1) in He. destruct (gs_control env); [|exact He]. cbv zeta.
    pose proof (gw_run_keeps (gs_listening env) (with_gateway (λ g, g <| control_server := true |>) w1)) as Hl.
    assert (keeps w0 (gw_run hs (gs_listening env) (with_gateway (λ g, g <| control_server := true |>) w1))) as Ht by (etrans; [exact He|exact Hl]).
    set (w2 := gw_run hs _ _) in *. case_match; [exact Ht|]. destruct (gs_server env); [|exact Ht]. cbn [fst].
    etrans; [exact Ht|]. eauto with frame. }
  set (w0 := with_gateway _ w). specialize (Hb w0).
  destruct (gw_state w.1); try reflexivity; cbv zeta;
    (destruct (Gateway.start_body hs env w0) as [w1 [?|e]]; [exact Hb|]; cbn [fst] in *; etrans; [exact Hb|];
     apply (gw_run_keeps (gs_closing env) (with_gateway _ w1))).
Qed.
End gateways.

(** ** Processes *)

Section processes.
Context `{Sha256} {T : Type} (h : option (string → option Z → T → T)) (R : relation T) `{!PreOrder R}.
Context (Hh : match h with Some h => ∀ n c t, R t (h n c t) | None => True end).
Implicit Types (w : Supervisor * T).

Lemma proc_step_keeps op w : R w.2 (proc_step h op w).2.
Proof.
  destruct op; cbn [proc_step with_sup snd]; try reflexivity. unfold observe_exit.
  repeat (case_match; cbn [with_sup fst snd] in *; try reflexivity). apply Hh.
Qed.

Lemma proc_run_keeps ops w : R w.2 (proc_run h ops w).2.
Proof.
  unfold proc_run. revert w. induction ops as [|op ops IH]; intros w; [reflexivity|]. cbn [foldl].
  etrans; [apply proc_step_keeps|apply IH].
Qed.

Lemma stop_unlocked_keeps exiting draining w : R w.2 (stop_unlocked h exiting draining w).2.
Proof.
  unfold stop_unlocked. destruct (sup_records w.1); [reflexivity|]. cbv zeta.
  set (w1 := proc_run h exiting _). set (w2 := with_sup (map_records kill_record) _).
  change (R w.2 (proc_run h draining w2).2). etrans; [|apply proc_run_keeps]. change (R w.2 w1.2).
  unfold w1. etrans; [|apply proc_run_keeps]. reflexivity.
Qed.

Lemma stop_unlocked_empty exiting draining w : sup_records (stop_unlocked h exiting draining w).1 = [].
Proof. unfold stop_unlocked. by destruct (sup_records w.1) eqn:E. Qed.

Lemma start_one_keeps erase n sp w : R w.2 (start_one h erase n sp w).1.2.
Proof.
  unfold start_one. destruct (dget n _); [|reflexivity]. cbv zeta.
  set (w0 := if erase then _ else w). assert (w0.2 = w.2) as <- by (unfold w0; by destruct erase).
  destruct (sp_prepare sp); [|reflexivity]. set (w1 := proc_run h _ _).
  assert (R w0.2 w1.2) as Hr by (etrans; [|apply proc_run_keeps]; reflexivity).
  destruct (sp_process sp) as [[pid []]|]; cbn [negb fst snd with_sup]; exact Hr.
Qed.

Lemma start_nodes_keeps erase ids spawn l w : R w.2 (start_nodes h erase ids spawn l w).1.2.
Proof.
  revert w. induction l as [|[i n] l IH]; intros w; cbn [start_nodes]; [reflexivity|].
  destruct (dget n ids) as [hw|]; [|reflexivity]. cbv zeta. set (w0 := with_sup _ w).
  pose proof (start_one_keeps erase n (spawn i) w0) as Hs. change w0.2 with w.2 in Hs.
  destruct (start_one h erase n (spawn i) w0) as [w1 [?|?]]; cbn [fst] in *; [|exact Hs].
  etrans; [exact Hs|apply IH].
Qed.

Lemma start_unlocked_keeps fuel env scenario w w' r :
  start_unlocked h fuel env scenario w = Some (w', r) → R w.2 w'.2.
Proof.
  unfold start_unlocked. destruct (sup_records w.1); [|by intros [= <- _]]. cbv zeta.
  destruct (ss_binary_present env); cbn [negb]; [|by intros [= <- _]].
  destruct (ss_root env); [|by intros [= <- _]]. destruct (hardware_ids_for _ _) as [ids|]; [|done]. cbn [mbind option_bind].
  set (w0 := with_sup (λ s, s <| sup_stopping := false |>) _). intros Hs. change (R w0.2 w'.2).
  pose proof (start_nodes_keeps (fresh_state scenario) ids (ss_spawn env) (enumerate (node_ids scenario)) w0) as Hn.
  destruct (start_nodes h _ _ _ _ w0) as [w1 [?|?]]; injection Hs as <- <-; [exact Hn|].
  etrans; [exact Hn|]. apply stop_unlocked_keeps.
Qed.

Lemma proc_step_keys op w : (sup_records (proc_step h op w).1).*1 = (sup_records w.1).*1.
Proof. apply (proc_step_evolves h op w). Qed.
End processes.

(** ** The service *)

Definition can_fail (s : LifecycleState) : Prop := s ∉ [STOPPING; STOPPED; FAILED].

#[export] Instance can_fail_dec s : Decision (can_fail s).
Proof. unfold can_fail. apply _. Defined.

(** What no task changes. *)
Definition fixed_part (sv : Service) :=
  (sv_scenario sv, sv_medium sv, (sv_gateways sv).*1, (sup_records (sv_supervisor sv)).*1, verifications sv,
   (bool_decide (sv_traffic sv = None), volatile_results sv, last_traffic_summary sv, control_packet_id sv),
   (startup_active sv, lag_task sv, late_runs sv, sv_files sv, simulation_id sv, sv_build sv)).

(** The lifecycle stays, or fails; outside a start, a failure schedules its cleanup. *)
Definition may_fail (sv sv' : Service) : Prop :=
  sv_state sv' = sv_state sv ∧ failure_cleanup sv' = failure_cleanup sv ∨
  can_fail (sv_state sv) ∧ sv_state sv' = FAILED ∧
    (if startup_active sv then failure_cleanup sv' = failure_cleanup sv else is_Some (failure_cleanup sv')).

Definition frame (sv sv' : Service) : Prop := fixed_part sv' = fixed_part sv ∧ may_fail sv sv'.

Lemma may_fail_trans sv1 sv2 sv3 :
  startup_active sv2 = startup_active sv1 → may_fail sv1 sv2 → may_fail sv2 sv3 → may_fail sv1 sv3.
Proof.
  intros Hs [[Hs1 Hc1]|(Hf1 & Hs1 & Hc1)] [[Hs2 Hc2]|(Hf2 & Hs2 & Hc2)].
  - left. split; congruence.
  - right. split_and!; [by rewrite <-Hs1|done|]. rewrite <-Hs. by rewrite <-Hc1.
  - right. split_and!; [done|congruence|]. by rewrite Hc2.
  - exfalso. rewrite Hs1 in Hf2. apply Hf2. set_solver.
Qed.

#[export] Instance frame_preorder : PreOrder frame.
Proof.
  split; [by intros sv; split; [|left]|].
  intros sv1 sv2 sv3 [E1 H1] [E2 H2]. split; [congruence|].
  apply (may_fail_trans sv1 sv2); [|done|done]. unfold fixed_part in E1. congruence.
Qed.

Lemma frame_same sv sv' :
  fixed_part sv' = fixed_part sv → sv_state sv' = sv_state sv → failure_cleanup sv' = failure_cleanup sv →
  frame sv sv'.
Proof. intros Hf Hs Hc. split; [done|by left]. Qed.

Lemma fixed_gateways f sv :
  (f (sv_gateways sv)).*1 = (sv_gateways sv).*1 → fixed_part (sv <| sv_gateways ::= f |>) = fixed_part sv.
Proof. destruct sv. unfold fixed_part. cbn. by intros ->. Qed.

Lemma fixed_supervisor s sv :
  (sup_records s).*1 = (sup_records (sv_supervisor sv)).*1 → fixed_part (sv <| sv_supervisor := s |>) = fixed_part sv.
Proof. destruct sv. unfold fixed_part. cbn. by intros ->. Qed.

(** Setting a field that no command relies on. *)
Lemma sv_publish_frame e sv : frame sv (sv_publish e sv).
Proof. by apply frame_same. Qed.

Lemma schedule_runtime_failure_frame now category detail sv :
  frame sv (schedule_runtime_failure now category detail sv).
Proof.
  unfold schedule_runtime_failure. destruct (decide (can_fail (sv_state sv))) as [Hf|Hf].
  2:{ unfold can_fail in Hf. destruct (sv_state sv); try reflexivity; exfalso; apply Hf; set_solver. }
  cbv zeta. set (sv1 := publish_lifecycle _ _).
  assert (frame sv (if startup_active sv1 then sv1 else
      match failure_cleanup sv1 with None => sv1 <| failure_cleanup := Some (category +:+ ": " +:+ detail) |> | Some _ => sv1 end)) as Hk.
  { split.
    - destruct (startup_active sv1); [done|]. by destruct (failure_cleanup sv1).
    - right. split; [done|]. change (startup_active sv1) with (startup_active sv).
      destruct (startup_active sv); [done|]. split; [by destruct (failure_cleanup sv1)|].
      destruct (failure_cleanup sv1) as [r|] eqn:E; [by exists r|by eexists]. }
  destruct (sv_state sv); try exact Hk; exfalso; apply Hf; set_solver.
Qed.

Section tasks.
Context `{Meshtastic} `{PyText} `{PyRandom} `{RadioCodec} `{TelemetryCodec} `{ResultText TrafficRunSummary}
  `{Sha256}.
Implicit Types (sv : Service).

Lemma on_traffic_frame {A} (d : A) f sv : frame sv (on_traffic d f sv).1.
Proof.
  unfold on_traffic. destruct (sv_traffic sv) as [c|] eqn:E; [|reflexivity].
  destruct (f _) as [[c' b] a]. apply frame_same; [|done|done].
  unfold fixed_part; cbn. by rewrite E.
Qed.

Lemma on_traffic__frame f sv : frame sv (on_traffic_ f sv).
Proof. apply on_traffic_frame. Qed.

Lemma on_process_failure_frame now n c sv : frame sv (on_process_failure now n c sv).
Proof. unfold on_process_failure. destruct (sv_state sv); try reflexivity; apply schedule_runtime_failure_frame. Qed.

Lemma on_gateway_event_frame now e sv : frame sv (on_gateway_event now e sv).
Proof.
  unfold on_gateway_event. set (sv1 := if (_ : bool) then _ else sv).
  assert (frame sv sv1) as Ha by (unfold sv1; case_match; [apply sv_publish_frame|reflexivity]).
  case_match; [|exact Ha]. etrans; [exact Ha|apply schedule_runtime_failure_frame].
Qed.

Lemma receive_telemetry_frame now n d sv : frame sv (receive_telemetry now n d sv).
Proof.
  unfold receive_telemetry. destruct (parse_telemetry (data_payload d)) as [[]|]; try reflexivity;
    destruct (dget n (node_metrics sv)) as [m|]; try reflexivity; [|by apply frame_same].
  cbv zeta. set (sv1 := on_traffic_ _ (on_traffic_ _ _)).
  assert (frame sv sv1) as Ha.
  { unfold sv1. etrans; [|apply on_traffic__frame]. etrans; [|apply on_traffic__frame]. by apply frame_same. }
  set (sv2 := if (_ : bool) then _ else sv1).
  assert (frame sv sv2) as Hb.
  { etrans; [exact Ha|]. unfold sv2. case_match; [apply sv_publish_frame|reflexivity]. }
  etrans; [exact Hb|]. by apply frame_same.
Qed.

Lemma on_from_radio_frame now n m sv : frame sv (on_from_radio now n m sv).1.
Proof.
  unfold on_from_radio. pose proof (on_traffic_frame (Ok tt) (handle_from_radio n m now) sv) as Ha.
  destruct (on_traffic _ _ sv) as [sv1 [?|?]]; cbn [fst] in *; [|exact Ha].
  destruct m as [p| | |]; try exact Ha. destruct (p_payload p) as [d| |]; try exact Ha. cbn [fst].
  set (sv2 := if portnum d =? NODEINFO_APP then _ else sv1).
  assert (frame sv sv2) as Hb.
  { etrans; [exact Ha|]. unfold sv2, observe_nodeinfo. repeat (case_match; try reflexivity). by apply frame_same. }
  case_match; [|exact Hb]. etrans; [exact Hb|apply receive_telemetry_frame].
Qed.

Lemma gateway_handlers_keep now : handlers_keep (gateway_handlers now) frame.
Proof. split; cbn; intros; [apply on_gateway_event_frame|apply on_from_radio_frame]. Qed.

(** A gateway's operation, its handlers acting on the service. *)
Lemma on_gateway_frame {A} n (d : A) f sv :
  (∀ w, keeps frame w (f w).1) → frame sv (on_gateway n d f sv).1.
Proof.
  intros Hf. unfold on_gateway. destruct (dget n (sv_gateways sv)) as [g|] eqn:E; [|reflexivity].
  specialize (Hf (g, sv)). destruct (f (g, sv)) as [[g' sv'] a]. unfold keeps in Hf. cbn [fst snd] in *.
  etrans; [exact Hf|]. apply frame_same; [|done|done]. apply fixed_gateways, dset_keys.
  assert ((sv_gateways sv').*1 = (sv_gateways sv).*1) as -> by (destruct Hf as [Hf _]; unfold fixed_part in Hf; congruence).
  by eapply dget_key.
Qed.

Lemma gateway_op_frame now n op sv : frame sv (gateway_op now n op sv).
Proof. apply on_gateway_frame. intros w. apply gw_step_keeps; [apply _|apply gateway_handlers_keep]. Qed.

Lemma process_op_frame now op sv : frame sv (process_op now op sv).
Proof.
  unfold process_op.
  pose proof (proc_step_keeps (Some (on_process_failure now)) frame (on_process_failure_frame now) op (sv_supervisor sv, sv)) as Hk.
  pose proof (proc_step_keys (Some (on_process_failure now)) op (sv_supervisor sv, sv)) as Hn.
  destruct (proc_step _ _ _) as [s sv']. cbn [fst snd] in *. etrans; [exact Hk|].
  apply frame_same; [|done|done]. apply fixed_supervisor. rewrite Hn.
  destruct Hk as [Hk _]. unfold fixed_part in Hk. congruence.
Qed.

Lemma inject_all_frame now l sv : frame sv (inject_all now l sv).1.
Proof.
  revert sv. induction l as [|i l IH]; intros sv; cbn [inject_all]; [reflexivity|]. unfold inject.
  pose proof (on_gateway_frame (to_node (inj_link i)) (Raise (KeyError (to_node (inj_link i))))
    (inject_simulated_packet (inj_packet i)) sv) as Ha.
  assert (frame sv (on_gateway (to_node (inj_link i)) (Raise (KeyError (to_node (inj_link i))))
    (inject_simulated_packet (inj_packet i)) sv).1) as Hb.
  { apply Ha. intros w. apply send_to_radio_keeps, _. }
  clear Ha. destruct (on_gateway _ _ _ sv) as [sv1 r]. cbn [fst] in Hb.
  assert (∀ sv', frame sv1 sv' → frame sv (inject_all now l sv').1) as Hn.
  { intros sv' Hf. etrans; [exact Hb|]. etrans; [exact Hf|apply IH]. }
  destruct r as [?|e].
  - specialize (Hn (sv1 <| sv_broker ::= inject_done i |>) ltac:(by apply frame_same)).
    by destruct (inject_all now l _).
  - specialize (Hn sv1 ltac:(reflexivity)). by destruct (inject_all now l sv1).
Qed.

Lemma medium_frame_frame now n sv : frame sv (medium_frame now n sv).
Proof.
  unfold medium_frame. destruct (sv_medium sv) as [m|]; [|reflexivity].
  destruct (dget n (sv_gateways sv)) as [g|]; [|reflexivity]. destruct (rf_frames g) as [|p ?]; [reflexivity|].
  case_match; [|reflexivity]. pose proof (gateway_op_frame now n GTakeRf sv) as Ha.
  set (sv1 := gateway_op _ _ _ sv) in *. clearbody sv1. cbv zeta.
  pose proof (on_traffic_frame (Ok []) (transmit (m <| md_handlers := medium_handlers now |>) n p now) sv1) as Hb.
  destruct (on_traffic _ _ sv1) as [sv2 r]. cbn [fst] in Hb. assert (frame sv sv2) as Hc by by etrans.
  set (p1 := match r with Raise e => (sv2, Some e) | Ok injections => inject_all now injections sv2 end).
  assert (frame sv p1.1) as Hd.
  { unfold p1. destruct r; [|exact Hc]. etrans; [exact Hc|apply inject_all_frame]. }
  destruct p1 as [sv3 [e|]]; cbn [fst] in Hd; [|exact Hd]. etrans; [exact Hd|].
  etrans; [|apply schedule_runtime_failure_frame]. by apply frame_same.
Qed.

(** No task changes what the commands rely on. *)
Lemma sv_step_frame now op sv : frame sv (sv_step now op sv).
Proof.
  destruct op; cbn [sv_step].
  - apply gateway_op_frame.
  - apply process_op_frame.
  - apply medium_frame_frame.
  - apply on_traffic__frame.
  - unfold measure_lag. case_match; [apply on_traffic__frame|reflexivity].
Qed.

Lemma sv_run_frame ops sv : frame sv (sv_run ops sv).
Proof.
  unfold sv_run. revert sv. induction ops as [|[now op] ops IH]; intros sv; [reflexivity|]. cbn [foldl].
  etrans; [apply sv_step_frame|apply IH].
Qed.

Lemma stop_gateways_frame now closing ns sv : frame sv (stop_gateways now closing ns sv).
Proof.
  unfold stop_gateways. revert sv. induction ns as [|n ns IH]; intros sv; [reflexivity|]. cbn [foldl].
  etrans; [|apply IH]. apply on_gateway_frame. intros w. apply gateway_stop_keeps; [apply _|apply gateway_handlers_keep].
Qed.

Lemma start_gateways_frame now env ns sv : frame sv (start_gateways now env ns sv).1.
Proof.
  revert sv. induction ns as [|n ns IH]; intros sv; cbn [start_gateways]; [reflexivity|].
  pose proof (on_gateway_frame n (Raise (KeyError n)) (gateway_start (gateway_handlers now) (env n)) sv) as Hk.
  destruct (on_gateway n _ _ sv) as [sv1 r]. cbn [fst] in Hk. specialize (IH sv1).
  destruct (start_gateways now env ns sv1) as [sv2 r']. cbn [fst] in *. etrans; [|exact IH]. apply Hk.
  intros w. apply gateway_start_keeps; [apply _|apply gateway_handlers_keep].
Qed.

Lemma enable_gateways_frame now ns sv : frame sv (enable_gateways now ns sv).1.
Proof.
  revert sv. induction ns as [|n ns IH]; intros sv; cbn [enable_gateways]; [reflexivity|].
  pose proof (on_gateway_frame n (Raise (KeyError n)) (enable_gateway now) sv) as Hk.
  destruct (on_gateway n _ _ sv) as [sv1 r]. cbn [fst] in Hk. specialize (IH sv1).
  destruct (enable_gateways now ns sv1) as [sv2 r']. cbn [fst] in *. etrans; [|exact IH]. apply Hk.
  intros w. unfold enable_gateway. pose proof (gw_step_keeps (gateway_handlers now) frame (gateway_handlers_keep now) GEnablePublic w) as He.
  destruct (gw_state w.1); try exact He; unfold keeps; cbn; reflexivity.
Qed.
End tasks.
