(* ===== verification/ServiceInvariant.v ===== *)
(** * The lifecycle of the service

    What the commands make of the service's resources: a start that returns leaves
    every resource in place, a stop or a failed start leaves none, and the invariant
    [service_ok] of every reachable state. *)
From S2P Require Import Prelude PyDict PyFloat Framing Scenario Reachability Mesh Airtime Events Medium.
From S2P Require Import TrafficRequest Identifier PacketIds TrafficState TrafficHandlers TrafficLifecycle.
From S2P Require Import Gateway Utf8 ProcessLogs Processes ProcessLifecycle Configure Service ServiceOps ServiceRuns.
From S2P Require Import ServiceTopology ServiceFrame.

(** ** Relations that command steps keep *)

Definition se_keeps {A} (R : relation Service) (m : se A) : Prop :=
  ∀ sv sv' r, m sv = Some (sv', r) → R sv sv'.

Section keeping.
Context (R : relation Service) `{!PreOrder R}.

Lemma se_bind_inv {A B} (f : A → se B) m sv sv' r :
  (m ≫= f) sv = Some (sv', r) →
  (∃ e, m sv = Some (sv', Raise e) ∧ r = Raise e) ∨ ∃ a sv1, m sv = Some (sv1, Ok a) ∧ f a sv1 = Some (sv', r).
Proof.
  unfold mbind, se_bind. destruct (m sv) as [[sv1 [a|e]]|]; [|intros [= <- <-]|done]; [right|left]; eauto.
Qed.

Lemma se_keeps_bind {A B} (m : se A) (f : A → se B) :
  se_keeps R m → (∀ a, se_keeps R (f a)) → se_keeps R (m ≫= f).
Proof.
  intros Hm Hf sv sv' r [(e & Hr & _)|(a & sv1 & Ha & Hr)]%se_bind_inv; [by eapply Hm|].
  etrans; [by eapply Hm|by eapply Hf].
Qed.

Lemma se_keeps_ret {A} (a : A) : se_keeps R (mret a).
Proof. intros sv sv' r [= <- _]. reflexivity. Qed.

Lemma se_keeps_lift {A} (a : res A) : se_keeps R (se_lift a).
Proof. intros sv sv' r [= <- _]. reflexivity. Qed.

Lemma se_keeps_get {A} (f : Service → A) : se_keeps R (se_get f).
Proof. intros sv sv' r [= <- _]. reflexivity. Qed.

Lemma se_keeps_modify f : (∀ sv, R sv (f sv)) → se_keeps R (se_modify f).
Proof. intros Hf sv sv' r [= <- _]. apply Hf. Qed.

Lemma se_keeps_of {A} (f : Service → Service * res A) : (∀ sv, R sv (f sv).1) → se_keeps R (se_of f).
Proof. intros Hf sv sv' r Hr. specialize (Hf sv). unfold se_of in Hr. injection Hr as Hr. by rewrite Hr in Hf. Qed.
End keeping.

Lemma se_keeps_mono {A} (R S : relation Service) (m : se A) :
  (∀ x y, R x y → S x y) → se_keeps R m → se_keeps S m.
Proof. intros Hrs Hm sv sv' r Hr. apply Hrs. by eapply Hm. Qed.

(** One goal per step of a command. *)
Ltac se_steps :=
  repeat match goal with
         | |- se_keeps _ (mbind _ _) => apply se_keeps_bind; [apply _| |intros ?]
         | |- se_keeps _ (match ?p with (_, _) => _ end) => destruct p
         end.

#[export] Hint Resolve se_keeps_bind se_keeps_ret se_keeps_lift se_keeps_get se_keeps_modify se_keeps_of : frame.

(** ** What the parts of a start keep *)

(** The scenario, its gateways and what a run needs of the service. *)
Definition run_fields (sv : Service) :=
  (sv_scenario sv, (sv_gateways sv).*1, sv_medium sv, bool_decide (sv_traffic sv = None)).

Definition same_run (sv sv' : Service) : Prop := run_fields sv' = run_fields sv.
Definition same_gateways (sv sv' : Service) : Prop :=
  sv_scenario sv' = sv_scenario sv ∧ (sv_gateways sv').*1 = (sv_gateways sv).*1.

(** What a whole start keeps, its task set. *)
Definition kept_by_start (sv : Service) :=
  (sv_scenario sv, startup_active sv, failure_cleanup sv, volatile_results sv, control_packet_id sv,
   late_runs sv, sv_files sv, sv_build sv).

Definition starting (sv sv' : Service) : Prop :=
  startup_active sv = true → kept_by_start sv' = kept_by_start sv ∧ (links_agree sv → links_agree sv').

#[export] Instance same_run_preorder : PreOrder same_run.
Proof. split; unfold same_run; [by intros sv|intros sv1 sv2 sv3; congruence]. Qed.
#[export] Instance same_gateways_preorder : PreOrder same_gateways.
Proof. split; unfold same_gateways; [by intros sv|intros sv1 sv2 sv3 [? ?] [? ?]; split; congruence]. Qed.
#[export] Instance starting_preorder : PreOrder starting.
Proof.
  split; unfold starting; [by intros sv|]. intros sv1 sv2 sv3 H12 H23 Ha. destruct (H12 Ha) as [E12 L12].
  destruct H23 as [E23 L23]; [unfold kept_by_start in E12; congruence|]. split; [congruence|auto].
Qed.

Lemma frame_same_run sv sv' : frame sv sv' → same_run sv sv'.
Proof. intros [Hf _]. unfold fixed_part in Hf. unfold same_run, run_fields. congruence. Qed.

Lemma same_run_gateways sv sv' : same_run sv sv' → same_gateways sv sv'.
Proof. unfold same_run, run_fields. intros ?. split; congruence. Qed.

Lemma frame_starting sv sv' : frame sv sv' → starting sv sv'.
Proof.
  intros [Hf Hm] Ha. unfold fixed_part in Hf. unfold kept_by_start, links_agree.
  assert (failure_cleanup sv' = failure_cleanup sv) as Hc by (destruct Hm as [[_ ?]|(_ & _ & Hm)]; [done|by rewrite Ha in Hm]).
  assert (sv_medium sv' = sv_medium sv) as -> by congruence.
  assert (sv_scenario sv' = sv_scenario sv) as -> by congruence. split; [congruence|done].
Qed.

Section operations.
Context `{Meshtastic} `{PyText} `{PyRandom} `{RadioCodec} `{TelemetryCodec} `{ResultText TrafficRunSummary}
  `{Sha256}.
Implicit Types (sv : Service).

#[local] Hint Resolve sv_run_frame stop_gateways_frame start_gateways_frame enable_gateways_frame : frame.

Lemma waits_frame ops : se_keeps frame (waits ops).
Proof. unfold waits. auto with frame. Qed.

Lemma check_startup_frame : se_keeps frame check_startup.
Proof. intros sv sv' r [= <- _]. reflexivity. Qed.

Lemma modify_gateway_frame n f : se_keeps frame (modify_gateway n f).
Proof.
  apply se_keeps_of. intros sv. apply on_gateway_frame. intros w. destruct (f w.1). unfold keeps; cbn. reflexivity.
Qed.
#[local] Hint Resolve waits_frame check_startup_frame modify_gateway_frame : frame.

Lemma reserve_listeners_frame bind ns : se_keeps frame (reserve_listeners bind ns).
Proof. induction ns; cbn [reserve_listeners]; eauto with frame typeclass_instances. Qed.

Lemma wait_for_reboots_frame reboot ns : se_keeps frame (wait_for_reboots reboot ns).
Proof.
  induction ns as [|n ns IH]; cbn [wait_for_reboots]; [eauto with frame typeclass_instances|].
  apply se_keeps_bind; [apply _|auto with frame|intros _]. apply se_keeps_bind; [apply _|auto with frame typeclass_instances|].
  intros []; [done|]. auto with frame typeclass_instances.
Qed.

Lemma observe_restarted_frame env ns : se_keeps frame (observe_restarted env ns).
Proof.
  induction ns as [|n ns IH]; cbn [observe_restarted]; [eauto with frame typeclass_instances|].
  se_steps; auto with frame typeclass_instances.
Qed.
#[local] Hint Resolve reserve_listeners_frame wait_for_reboots_frame observe_restarted_frame : frame.

Lemma restart_rounds_frame now rounds attempt more pending verified :
  se_keeps frame (restart_rounds now rounds attempt more pending verified).
Proof.
  revert attempt pending verified. induction more as [|more IH]; intros; cbn [restart_rounds];
    [auto with frame typeclass_instances|].
  apply se_keeps_bind; [apply _| |].
  - unfold restart_round. se_steps; auto with frame typeclass_instances.
  - intros l. cbv zeta. destruct (unstable l); [auto with frame typeclass_instances|apply IH].
Qed.

Lemma configure_nodes_frame now env : se_keeps frame (configure_nodes now env).
Proof.
  unfold configure_nodes. repeat (apply se_keeps_bind; [apply _|by auto with frame typeclass_instances|intros ?]).
  apply restart_rounds_frame.
Qed.
#[local] Hint Resolve configure_nodes_frame : frame.

Lemma warm_up_nodes_frame waiting : se_keeps frame (warm_up_nodes waiting).
Proof.
  unfold warm_up_nodes.
  se_steps; auto with frame typeclass_instances.
  - apply se_keeps_of. reflexivity.
  - apply se_keeps_modify. intros sv. by apply frame_same.
Qed.
#[local] Hint Resolve warm_up_nodes_frame : frame.

Lemma start_processes_keeps now fuel env sv sv' r :
  start_processes now fuel env sv = Some (sv', r) → same_run sv sv' ∧ starting sv sv'.
Proof.
  unfold start_processes. destruct (start_unlocked _ _ _ _ _) as [[[s sv1] r1]|] eqn:E; [|done].
  intros [= <- _]. apply (start_unlocked_keeps (Some (on_process_failure now)) frame (on_process_failure_frame now)) in E.
  cbn [snd] in E. split; [apply (frame_same_run _ _ E)|].
  intros Ha. destruct (frame_starting _ _ E Ha) as [Hk Hl]. by split.
Qed.

(** The steps of a start that are not tasks. *)
Lemma make_traffic_keeps now sv :
  starting sv (make_traffic now sv).1 ∧ same_gateways sv (make_traffic now sv).1 ∧
  (∀ sv', make_traffic now sv = (sv', Ok tt) → bool_decide (sv_traffic sv' = None) = false).
Proof.
  unfold make_traffic. destruct (new_controller _ _) as [c|e]; cbn [fst].
  - split_and!; [done|done|]. by intros sv' [= <-].
  - split_and!; [reflexivity|reflexivity|done].
Qed.

Lemma make_medium_keeps now sv :
  starting sv (make_medium now sv) ∧ same_gateways sv (make_medium now sv) ∧
  is_Some (sv_medium (make_medium now sv)) ∧ bool_decide (sv_traffic (make_medium now sv) = None) = bool_decide (sv_traffic sv = None).
Proof.
  split_and!; [|done|by eexists|done]. intros Ha. split; [done|]. intros _ m [= <-]. done.
Qed.

(** The body of a start keeps the configuration, and the links agree after it. *)
Lemma start_body_starting env : se_keeps starting (start_body env).
Proof.
  assert (∀ A (m : se A), se_keeps frame m → se_keeps starting m) as Hfr.
  { intros A m. apply se_keeps_mono, frame_starting. }
  unfold start_body. se_steps.
  all: first [ apply Hfr; by auto with frame typeclass_instances
             | apply Hfr, se_keeps_of; intros; by auto with frame
             | intros sv sv' r Hr; by eapply start_processes_keeps
             | apply se_keeps_of; intros; by apply make_traffic_keeps
             | apply se_keeps_modify; intros; by apply make_medium_keeps
             | by apply se_keeps_modify ].
Qed.

(** ** What a start that returns leaves *)

(** A run of [m] that returns from a state with [P] ends in one with [Q]. *)
Definition gives {A} (P : Service → Prop) (m : se A) (Q : Service → Prop) : Prop :=
  ∀ sv sv' a, P sv → m sv = Some (sv', Ok a) → Q sv'.

Lemma gives_bind {A B} (m : se A) (f : A → se B) P Q S :
  gives P m Q → (∀ a, gives Q (f a) S) → gives P (m ≫= f) S.
Proof.
  intros Hm Hf sv sv' b HP [(e & _ & Hr)|(a & sv1 & Ha & Hb)]%se_bind_inv; [done|].
  eapply Hf; [|done]. by eapply Hm.
Qed.

Lemma gives_keeps {A} (R : relation Service) (m : se A) (P : Service → Prop) :
  se_keeps R m → (∀ x y, R x y → P x → P y) → gives P m P.
Proof. intros Hm HP sv sv' a Hp Ha. eapply HP; [|done]. by eapply Hm. Qed.

Definition has_gateways sv : Prop := (sv_gateways sv).*1 = node_ids (sv_scenario sv).
Definition has_traffic sv : Prop := has_gateways sv ∧ bool_decide (sv_traffic sv = None) = false.

(** Every resource of a running simulation. *)
Definition resources sv : Prop := has_traffic sv ∧ is_Some (sv_medium sv).

Lemma has_gateways_keeps sv sv' : same_gateways sv sv' → has_gateways sv → has_gateways sv'.
Proof. unfold has_gateways. by intros [-> ->]. Qed.

Lemma resources_keeps sv sv' : same_run sv sv' → resources sv → resources sv'.
Proof.
  unfold same_run, run_fields, resources, has_traffic, has_gateways. intros Hs.
  assert (sv_scenario sv' = sv_scenario sv) as -> by congruence.
  assert ((sv_gateways sv').*1 = (sv_gateways sv).*1) as -> by congruence.
  assert (sv_medium sv' = sv_medium sv) as -> by congruence.
  assert (bool_decide (sv_traffic sv' = None) = bool_decide (sv_traffic sv = None)) as -> by congruence. done.
Qed.

Lemma make_gateways_keys sv : has_gateways (make_gateways sv).
Proof.
  unfold has_gateways, make_gateways, node_ids. cbn [sv_gateways sv_scenario set_field].
  change (sv_gateways _) with ((λ n, (node_id n, new_gateway (node_id n) 256 (api_port n) false)) <$> nodes (sv_scenario sv)).
  change (sv_scenario _) with (sv_scenario sv). by rewrite <-list_fmap_compose.
Qed.

Lemma start_body_resources env sv sv' :
  start_body env sv = Some (sv', Ok tt) → sv_state sv' = RUNNING ∧ resources sv' ∧ lag_task sv' = true.
Proof.
  assert (∀ A (m : se A), se_keeps frame m → gives has_gateways m has_gateways) as Hg.
  { intros A m Hm. eapply gives_keeps; [exact Hm|]. intros x y Hf. by apply has_gateways_keeps, same_run_gateways, frame_same_run. }
  assert (∀ A (m : se A), se_keeps frame m → gives resources m resources) as Hr.
  { intros A m Hm. eapply gives_keeps; [exact Hm|]. intros x y Hf. by apply resources_keeps, frame_same_run. }
  assert (gives (λ _, True) (start_body env)
    (λ sv, sv_state sv = RUNNING ∧ resources sv ∧ lag_task sv = true)) as Hb; [|intros Hs; by eapply Hb].
  unfold start_body. do 2 (eapply (gives_bind _ _ _ (λ _, True)); [done|intros _]).
  eapply (gives_bind _ _ _ has_gateways); [intros sv0 sv1 a _ [= <- _]; apply make_gateways_keys|intros _].
  do 9 (eapply (gives_bind _ _ _ has_gateways);
    [first [apply Hg; by auto with frame typeclass_instances
           |apply Hg, se_keeps_of; intros; by auto with frame
           |intros ? ? ? Hq [= <- _]; exact Hq]|intros ?]).
  eapply (gives_bind _ _ _ has_traffic); [|intros _].
  { intros sv0 sv1 [] Hq Hr1. assert (make_traffic (st_clock env 4) sv0 = (sv1, Ok tt)) as Hr2 by exact (inj Some _ _ Hr1).
    pose proof (make_traffic_keeps (st_clock env 4) sv0) as (_ & Hk & Ht).
    split; [|by apply Ht]. rewrite Hr2 in Hk. by eapply has_gateways_keeps. }
  eapply (gives_bind _ _ _ resources); [|intros _].
  { intros sv0 sv1 [] [Hq Ht] [= <-]. pose proof (make_medium_keeps (st_clock env 4) sv0) as (_ & Hk & Hm & Ht').
    split; [|done]. split; [by eapply has_gateways_keeps|by rewrite Ht']. }
  do 8 (eapply (gives_bind _ _ _ resources);
    [first [apply Hr; by auto with frame typeclass_instances
           |apply Hr, se_keeps_of; intros; by auto with frame
           |intros ? ? ? Hq [= <- _]; exact Hq]|intros ?]; try destruct (_ : gset _ * Z)%type).
  intros ? ? ? Hq [= <- _]. split_and!; [done|exact Hq|done].
Qed.

(** ** Results in memory *)

(** At most eight results, each of a finished run, under its id. *)
Record results_ok (d : dict string TrafficRunResult) : Prop := mk_results_ok {
  rk_keys : dict_ok d;
  rk_size : zlen d <= MAX_VOLATILE_RESULTS;
  rk_values : ∀ id r, (id, r) ∈ d → r_run_id r = id ∧ r_finished r = true }.

Lemma trim_results_suffix d : ∃ dropped, d = dropped ++ trim_results d.
Proof.
  induction d as [|kv d [dropped IH]]; [by exists []|]. cbn [trim_results].
  case_match; [|by exists []]. exists (kv :: dropped). cbn. by f_equal.
Qed.

Lemma trim_results_size d : zlen (trim_results d) <= MAX_VOLATILE_RESULTS.
Proof.
  induction d as [|kv d IH]; [done|]. cbn [trim_results]. destruct (MAX_VOLATILE_RESULTS <? zlen (kv :: d)) eqn:E; [done|].
  by apply Z.ltb_ge.
Qed.

Lemma results_ok_trim d :
  dict_ok d → (∀ id r, (id, r) ∈ d → r_run_id r = id ∧ r_finished r = true) → results_ok (trim_results d).
Proof.
  intros Hd Hv. destruct (trim_results_suffix d) as [dropped Ed]. split; [|apply trim_results_size|].
  - unfold dict_ok in *. rewrite Ed, fmap_app in Hd. by apply NoDup_app in Hd as (_ & _ & ?).
  - intros id r Hr. apply Hv. rewrite Ed. apply elem_of_app. by right.
Qed.

Lemma results_ok_add r d : r_finished r = true → results_ok d → results_ok (trim_results (dset (r_run_id r) r d)).
Proof.
  intros Hf [Hd _ Hv]. apply results_ok_trim; [by apply dict_ok_dset|].
  intros id r' [[-> ->]|Hr]%dset_elem; [done|by apply Hv].
Qed.

Lemma archive_unpersisted_ok c sv :
  results_ok (volatile_results sv) → results_ok (volatile_results (archive_unpersisted c sv)).
Proof.
  intros Hok. unfold archive_unpersisted. repeat (case_match; try done). apply results_ok_add; [|done].
  by apply negb_false_iff.
Qed.

(** ** Releasing *)

(** No resource is left. *)
Record released sv : Prop := mk_released {
  rl_medium : sv_medium sv = None;
  rl_loops : failed_loops sv = [];
  rl_traffic : sv_traffic sv = None;
  rl_gateways : sv_gateways sv = [];
  rl_verifications : verifications sv = [];
  rl_processes : sup_records (sv_supervisor sv) = [];
  rl_lag : lag_task sv = false }.

(** What a command leaves alone besides the resources. *)
Definition identity_fields sv :=
  (sv_scenario sv, startup_active sv, control_packet_id sv, sv_build sv, simulation_id sv).

(** A step of the release: the medium's links stay, and results are archived. *)
Definition releasing sv sv' : Prop :=
  identity_fields sv' = identity_fields sv ∧ may_fail sv sv' ∧ (links_agree sv → links_agree sv') ∧
  (results_ok (volatile_results sv) → results_ok (volatile_results sv')) ∧
  (lag_task sv = false → lag_task sv' = false).

#[export] Instance releasing_preorder : PreOrder releasing.
Proof.
  split; [intros sv; split_and!; [done|by left|done..]|].
  intros sv1 sv2 sv3 (E1 & M1 & L1 & R1 & G1) (E2 & M2 & L2 & R2 & G2).
  split_and!; [congruence| |by auto..].
  apply (may_fail_trans sv1 sv2); [|done|done]. unfold identity_fields in E1. congruence.
Qed.

Lemma frame_releasing sv sv' : frame sv sv' → releasing sv sv'.
Proof.
  intros [Hf Hm]. unfold fixed_part in Hf. unfold releasing, identity_fields, links_agree.
  assert (sv_medium sv' = sv_medium sv) as -> by congruence.
  assert (sv_scenario sv' = sv_scenario sv) as -> by congruence.
  assert (volatile_results sv' = volatile_results sv) as -> by congruence.
  assert (lag_task sv' = lag_task sv) as -> by congruence. split_and!; [congruence|done..].
Qed.

Lemma archive_unpersisted_fields c sv :
  archive_unpersisted c sv = sv <| volatile_results := volatile_results (archive_unpersisted c sv) |>.
Proof. unfold archive_unpersisted. repeat case_match; by destruct sv. Qed.

Lemma archive_releasing c sv : releasing sv (archive_unpersisted c sv).
Proof.
  pose proof (archive_unpersisted_ok c sv) as Hr. rewrite archive_unpersisted_fields in Hr |- *.
  split_and!; [done|by left|done|exact Hr|done].
Qed.

Lemma release_traffic_releasing env sv : releasing sv (release_traffic env sv).1.
Proof.
  unfold release_traffic. destruct (sv_traffic sv) as [c|]; [|reflexivity].
  destruct (TrafficLifecycle.stop _ _ _) as [[[c' b] fs] r]. cbv zeta.
  set (sv1 := set_field sv_files _ _). assert (releasing sv sv1) as Ha by (split_and!; [done|by left|done..]).
  destruct r as [finalized|e]; [|exact Ha].
  destruct (TrafficLifecycle.summary _ c') as [s|e]; [|exact Ha]. cbn [fst].
  set (sv2 := sv1 <| last_traffic_summary := s |>).
  assert (releasing sv sv2) as Hb by (split_and!; [done|by left|done..]).
  destruct finalized; [|exact Hb]. etrans; [exact Hb|apply archive_releasing].
Qed.

Lemma stop_processes_releasing now exiting draining sv :
  releasing sv (stop_processes now exiting draining sv) ∧
  sup_records (sv_supervisor (stop_processes now exiting draining sv)) = [].
Proof.
  unfold stop_processes.
  pose proof (stop_unlocked_keeps (Some (on_process_failure now)) frame (on_process_failure_frame now) exiting draining (sv_supervisor sv, sv)) as Hk.
  pose proof (stop_unlocked_empty (Some (on_process_failure now)) exiting draining (sv_supervisor sv, sv)) as He.
  destruct (stop_unlocked _ _ _ _) as [s sv1]. cbn [fst snd] in *. split; [|done].
  etrans; [by apply frame_releasing|]. split_and!; [done|by left|done..].
Qed.

(** Cleaning up releases everything, unless ending the traffic run raises. *)
Lemma cleanup_resources_spec env sv :
  releasing sv (cleanup_resources env sv).1 ∧
  ((cleanup_resources env sv).2 = Ok tt → released (cleanup_resources env sv).1).
Proof.
  unfold cleanup_resources. set (sv0 := sv <| lag_task := false |>).
  assert (releasing sv sv0) as H0' by (split_and!; [done|by left|done..]).
  pose proof (release_traffic_releasing env sv0) as Ht. destruct (release_traffic env sv0) as [sv1 [finalized|e]];
    cbn [fst snd] in *; [|split; [by etrans|done]].
  assert (releasing sv sv1) as Hr1 by by etrans. assert (lag_task sv1 = false) as Hg1 by by apply Ht.
  clear H0' Ht. clearbody sv0.
  set (sv2 := sv1 <| sv_medium ::= fmap medium_stop |>).
  assert (releasing sv1 sv2) as Hr2.
  { split_and!; [done|by left| |done..]. intros Hl m Hm. unfold sv2 in Hm. cbn in Hm.
    change (fmap medium_stop (sv_medium sv1) = Some m) in Hm. apply fmap_Some in Hm as (m0 & Hm & ->). exact (Hl m0 Hm). }
  pose proof (frame_releasing _ _ (sv_run_frame (ce_waiting env) sv2)) as Hr3. set (sv3 := sv_run _ sv2) in *.
  pose proof (frame_releasing _ _ (stop_gateways_frame (ce_now env) (ce_closing env) (sv_gateways sv3).*1 sv3)) as Hr4.
  set (sv4 := stop_gateways _ _ _ sv3) in *.
  destruct (stop_processes_releasing (ce_now env) (ce_exiting env) (ce_draining env) sv4) as [Hr5 Hp].
  set (sv5 := stop_processes _ _ _ sv4) in *.
  assert (releasing sv sv5) as Hr by (do 4 (etrans; [eassumption|]); done).
  assert (lag_task sv5 = false) as Hg by (apply Hr5, Hr4, Hr3, Hr2, Hg1).
  clearbody sv5. clear - Hr Hg Hp. cbv zeta.
  set (sv6 := if (finalized : bool) then sv5 else _). 
  assert (sv6 = sv5 <| late_runs := late_runs sv6 |>) as E6 by (unfold sv6; destruct finalized; by destruct sv5).
  split.
  - etrans; [exact Hr|]. rewrite E6. split_and!; [done|by left| |done..]. by intros _ m [=].
  - intros _. rewrite E6. by constructor.
Qed.

(** ** Starting *)

(** What a command leaves of the scenario and the results. *)
Definition settled_fields sv := (sv_scenario sv, startup_active sv, control_packet_id sv).

Definition preserves sv sv' : Prop :=
  settled_fields sv' = settled_fields sv ∧ (links_agree sv → links_agree sv') ∧
  (results_ok (volatile_results sv) → results_ok (volatile_results sv')).

#[export] Instance preserves_preorder : PreOrder preserves.
Proof.
  split; [by intros sv|]. intros sv1 sv2 sv3 (E1 & L1 & R1) (E2 & L2 & R2). split_and!; [congruence|auto..].
Qed.

Lemma releasing_preserves sv sv' : releasing sv sv' → preserves sv sv'.
Proof.
  intros (E & _ & Hl & Hr & _). split_and!; [|done..]. unfold identity_fields in E. unfold settled_fields. congruence.
Qed.

Lemma may_fail_stays sv sv' :
  ¬ can_fail (sv_state sv) → may_fail sv sv' →
  sv_state sv' = sv_state sv ∧ failure_cleanup sv' = failure_cleanup sv.
Proof. by intros Hn [?|(? & _)]. Qed.

(** The cleanup of a start raised. *)
Definition cleanup_raises env (e : exn) : Prop := ∃ sv, (cleanup_resources env sv).2 = Raise e.

(** The outcome of a start from a state without resources. *)
Definition started_from env sv sv' (r : res CommandResult) : Prop :=
  match r with
  | Ok c => sv_state sv' = RUNNING ∧ resources sv' ∧ lag_task sv' = true ∧ cr_state c = RUNNING
  | Raise e =>
    sv' = sv ∧ is_conflict e ∨
    sv_state sv' = FAILED ∧ (released sv' ∨ cleanup_raises (st_cleanup env) e)
  end.

Lemma preserves_end sv sv' :
  startup_active sv = false → sv_scenario sv' = sv_scenario sv → control_packet_id sv' = control_packet_id sv →
  (links_agree sv → links_agree sv') → (results_ok (volatile_results sv) → results_ok (volatile_results sv')) →
  preserves sv (sv' <| startup_active := false |>).
Proof. intros Hs H1' H2' Hl Hr. split_and!; [|exact Hl|exact Hr]. unfold settled_fields. destruct sv'; cbn in *. congruence. Qed.

Lemma start_checked_outcome env sv sv' r :
  startup_active sv = false → start_checked env sv = Some (sv', r) →
  started_from env sv sv' r ∧ preserves sv sv' ∧ failure_cleanup sv' = failure_cleanup sv.
Proof.
  intros Hs. unfold start_checked, capabilities. cbv zeta. cbn [collision_available provenance_available].
  destruct (st_collision_available env); cbn [negb].
  2:{ intros [= <- <-]. split_and!; [left; by split; [|eexists _, _]|reflexivity|done]. }
  destruct (metadata_available (sv_build sv)); cbn [negb].
  2:{ intros [= <- <-]. split_and!; [left; by split; [|eexists _, _]|reflexivity|done]. }
  set (sv0 := publish_lifecycle _ _). cbv zeta. set (sv1 := sv0 <| startup_active := true |>).
  pose proof (start_body_starting env sv1) as Hk. pose proof (start_body_resources env sv1) as Ho.
  destruct (start_body env sv1) as [[sv2 rb]|]; [|done].
  destruct (Hk sv2 rb eq_refl eq_refl) as [Ek Hl]. unfold kept_by_start in Ek.
  assert (sv_scenario sv2 = sv_scenario sv) as Esc by (transitivity (sv_scenario sv1); [congruence|done]).
  assert (failure_cleanup sv2 = failure_cleanup sv) as Efc by (transitivity (failure_cleanup sv1); [congruence|done]).
  assert (volatile_results sv2 = volatile_results sv) as Evr by (transitivity (volatile_results sv1); [congruence|done]).
  assert (control_packet_id sv2 = control_packet_id sv) as Ecp by (transitivity (control_packet_id sv1); [congruence|done]).
  change (links_agree sv → links_agree sv2) in Hl. clear Hk Ek. clearbody sv1.
  destruct rb as [[]|e]; [intros [= <- <-]|].
  - destruct (Ho sv2 eq_refl) as (Hr & Hrs & Hg). split; [by repeat split; try apply Hrs|].
    split; [|exact Efc]. apply preserves_end; try done. by rewrite Evr.
  - set (sv3 := publish_lifecycle _ _). destruct (cleanup_resources_spec (st_cleanup env) sv3) as [Hrel Hok].
    destruct (cleanup_resources (st_cleanup env) sv3) as [sv4 rc] eqn:Ec. cbn [fst snd] in *. intros [= <- <-].
    destruct Hrel as (Ei & Hm & Hl' & Hr & _). apply may_fail_stays in Hm as [Hst Hfc]; [|unfold can_fail; set_solver].
    unfold identity_fields in Ei. split; [|split].
    + unfold started_from. assert (∀ e', (sv_state (sv4 <| startup_active := false |>) = FAILED ∧
        (released (sv4 <| startup_active := false |>) ∨ cleanup_raises (st_cleanup env) e')) → started_from env sv
          (sv4 <| startup_active := false |>) (Raise e')) as Hin by (intros e' He'; by right).
      destruct rc as [[]|e']; apply Hin; (split; [exact Hst|]).
      * left. destruct (Hok eq_refl). by constructor.
      * right. exists sv3. by rewrite Ec.
    + apply preserves_end; [done| | | |].
      * transitivity (sv_scenario sv3); [congruence|exact Esc].
      * transitivity (control_packet_id sv3); [congruence|exact Ecp].
      * intros Ha. by apply Hl', Hl.
      * intros Ha. apply Hr. change (results_ok (volatile_results sv2)). by rewrite Evr.
    + transitivity (failure_cleanup sv3); [exact Hfc|exact Efc].
Qed.

(** What starting comes to, by the state it is asked in. *)
Definition start_outcome env sv sv' (r : res CommandResult) : Prop :=
  match sv_state sv with
  | RUNNING | WARMING_UP => sv' = sv ∧ r = Ok (mkCommandResult (st_command_id env) (sv_state sv) "already running")
  | STARTING | STOPPING => sv' = sv ∧ ∃ e, r = Raise e ∧ is_conflict e
  | STOPPED => started_from env sv sv' r
  | FAILED =>
    match r with
    | Ok c => sv_state sv' = RUNNING ∧ resources sv' ∧ lag_task sv' = true ∧ cr_state c = RUNNING
    | Raise e => sv_state sv' = FAILED ∧
        (released sv' ∨ cleanup_raises (st_released env) e ∨ cleanup_raises (st_cleanup env) e)
    end
  end.

Lemma start_locked_outcome env sv sv' r :
  startup_active sv = false → start_locked env sv = Some (sv', r) →
  start_outcome env sv sv' r ∧ preserves sv sv' ∧ failure_cleanup sv' = failure_cleanup sv.
Proof.
  intros Hs. unfold start_locked, start_outcome. destruct (sv_state sv) eqn:Est.
  - by apply start_checked_outcome.
  - intros [= <- <-]. split_and!; [done|by eexists; split; [|eexists _, _]|reflexivity|done].
  - intros [= <- <-]. by split_and!.
  - intros [= <- <-]. by split_and!.
  - intros [= <- <-]. split_and!; [done|by eexists; split; [|eexists _, _]|reflexivity|done].
  - destruct (cleanup_resources_spec (st_released env) sv) as [Hrel Hok].
    destruct (cleanup_resources (st_released env) sv) as [sv1 rc] eqn:Ec. cbn [fst snd] in *.
    pose proof (releasing_preserves _ _ Hrel) as Hp. destruct Hrel as (Ei & Hm & _).
    apply may_fail_stays in Hm as [Hst Hfc]; [|unfold can_fail; rewrite Est; set_solver]. rewrite Est in Hst.
    destruct rc as [[]|e].
    + intros Hc. apply start_checked_outcome in Hc as (Ho & Hp' & Hf);
        [|transitivity (startup_active sv); [unfold identity_fields in Ei; congruence|done]].
      split; [|split; [by etrans|congruence]]. specialize (Hok eq_refl).
      destruct r as [c|e]; [done|]. destruct Ho as [[-> Ho]|[Ho1 Ho2]]; split; [done| |done|]; naive_solver.
    + intros [= <- <-]. split; [|done]. split; [done|]. right; left. exists sv. by rewrite Ec.
Qed.

(** ** Stopping *)

Lemma stop_outcome id now waiting env later sv :
  startup_active sv = false →
  let '(sv', r) := stop id now waiting env later sv in
  preserves sv sv' ∧ failure_cleanup sv' = failure_cleanup sv ∧
  match r with
  | Ok c => sv_state sv' = STOPPED ∧ cr_state c = STOPPED ∧
      (sv_state sv = STOPPED ∧ sv' = sv ∨ released sv' ∧ simulation_id sv' = None)
  | Raise e => sv_state sv' = STOPPING ∧ cleanup_raises env e
  end.
Proof.
  intros Hs. unfold stop. destruct (decide (sv_state sv = STOPPED)) as [Est|Est].
  { split_and!; [reflexivity|done|done|done|by left]. }
  set (sv0 := request_stop now sv). pose proof (sv_run_frame waiting sv0) as Hw. set (sv1 := sv_run waiting sv0) in *.
  pose proof (frame_releasing _ _ Hw) as Hw'.
  destruct (cleanup_resources_spec env sv1) as [Hrel Hok].
  destruct (cleanup_resources env sv1) as [sv2 rc] eqn:Ec. cbn [fst snd] in *.
  assert (releasing sv0 sv2) as Hr by by etrans.
  assert (preserves sv sv2) as Hp by (etrans; [|by apply releasing_preserves]; by split_and!).
  pose proof Hr as (_ & Hm & _). apply may_fail_stays in Hm as [Hst Hfc]; [|unfold can_fail; set_solver].
  clearbody sv1. destruct rc as [[]|e]; (split; [|split]).
  - etrans; [exact Hp|]. by split_and!.
  - exact Hfc.
  - split_and!; [done|done|]. right. split; [|done]. destruct (Hok eq_refl). by constructor.
  - exact Hp.
  - exact Hfc.
  - split; [exact Hst|]. exists sv1. by rewrite Ec.
Qed.

(** ** The cleanup after a failure *)

Lemma fail_traffic_releasing reason env sv : releasing sv (fail_traffic reason env sv).1.
Proof.
  unfold fail_traffic. destruct (sv_traffic sv) as [c|]; [|reflexivity].
  destruct (TrafficLifecycle.fail _ _ _ _) as [[[c' b] fs] r]. cbn [fst]. by split_and!; [|left|..].
Qed.

Lemma run_failure_cleanup_outcome failing env sv reason :
  failure_cleanup sv = Some reason →
  let sv' := run_failure_cleanup failing env sv in
  preserves sv sv' ∧ failure_cleanup sv' = None ∧ (¬ can_fail (sv_state sv) → sv_state sv' = sv_state sv) ∧
  (released sv' ∨ (∃ e, (fail_traffic reason failing sv).2 = Raise e) ∨ ∃ e, cleanup_raises env e).
Proof.
  cbv zeta. intros Ef. unfold run_failure_cleanup. rewrite Ef.
  pose proof (fail_traffic_releasing reason failing sv) as Ha.
  destruct (fail_traffic reason failing sv) as [sv1 [?|e]]; cbn [fst snd] in *.
  - destruct (cleanup_resources_spec env sv1) as [Hrel Hok].
    assert (∀ e, (cleanup_resources env sv1).2 = Raise e → cleanup_raises env e) as Hraise by (intros e He; by exists sv1).
    destruct (cleanup_resources env sv1) as [sv2 r2]. cbn [fst snd] in *.
    assert (releasing sv sv2) as Hr by by etrans. split_and!; [|done| |].
    + etrans; [by apply releasing_preserves|]. by split_and!.
    + intros Hn. destruct Hr as (_ & Hm & _). by apply may_fail_stays in Hm as [Hst _].
    + destruct r2 as [[]|e]; [left; destruct (Hok eq_refl); by constructor|]. right; right. exists e. by apply Hraise.
  - split_and!; [|done| |].
    + etrans; [by apply releasing_preserves|]. by split_and!.
    + intros Hn. destruct Ha as (_ & Hm & _). by apply may_fail_stays in Hm as [Hst _].
    + right; left. by exists e.
Qed.
End operations.
