(* ===== verification/ServiceSafety.v ===== *)
(** * The reachable states of the service

    A state of the service follows from another by a task's step or a command
    ([service_step]); every reachable state satisfies [service_ok]. *)
From S2P Require Import Prelude PyDict PyFloat Framing Scenario Reachability Mesh Airtime Events Medium.
From S2P Require Import TrafficRequest Identifier PacketIds TrafficState TrafficHandlers TrafficLifecycle.
From S2P Require Import Gateway Utf8 ProcessLogs Processes ProcessLifecycle Configure Service ServiceOps ServiceRuns.
From S2P Require Import ServiceTopology ServiceFrame ServiceInvariant.

Definition control_ok (sv : Service) : Prop := 1 <= control_packet_id sv <= 0xFFFFFFFF.

(** A frame, but for the control packet id. *)
Definition sampling (sv sv' : Service) : Prop :=
  fixed_part (sv' <| control_packet_id := 1 |>) = fixed_part (sv <| control_packet_id := 1 |>) ∧
  may_fail sv sv' ∧ (control_ok sv → control_ok sv').

#[export] Instance sampling_preorder : PreOrder sampling.
Proof.
  split; [intros sv; split_and!; [done|by left|done]|].
  intros sv1 sv2 sv3 (E1 & M1 & C1) (E2 & M2 & C2). split_and!; [congruence| |auto].
  apply (may_fail_trans sv1 sv2); [|done|done].
  change (startup_active (sv2 <| control_packet_id := 1 |>) = startup_active (sv1 <| control_packet_id := 1 |>)).
  unfold fixed_part in E1. congruence.
Qed.

Lemma fixed_part_control sv sv' :
  fixed_part sv' = fixed_part sv → fixed_part (sv' <| control_packet_id := 1 |>) = fixed_part (sv <| control_packet_id := 1 |>).
Proof. destruct sv, sv'. unfold fixed_part. cbn. congruence. Qed.

Lemma frame_sampling sv sv' : frame sv sv' → sampling sv sv'.
Proof.
  intros [Hf Hm]. split_and!; [by apply fixed_part_control|done|].
  unfold control_ok. assert (control_packet_id sv' = control_packet_id sv) as -> by (unfold fixed_part in Hf; congruence).
  done.
Qed.

Section safety.
Context `{Meshtastic} `{PyText} `{PyRandom} `{RadioCodec} `{TelemetryCodec} `{ResultText TrafficRunSummary}
  `{Sha256}.
Implicit Types (sv : Service).

(** ** Sampling *)

Lemma next_control_packet_id_sampling sv :
  sampling sv (next_control_packet_id sv).1 ∧ control_ok (next_control_packet_id sv).1 ∧
  (next_control_packet_id sv).2 = control_packet_id (next_control_packet_id sv).1.
Proof.
  unfold next_control_packet_id. cbn [fst snd].
  assert (1 <= (if Z.land (control_packet_id sv + 1) 0xFFFFFFFF =? 0 then 1 else Z.land (control_packet_id sv + 1) 0xFFFFFFFF) <= 0xFFFFFFFF) as Hr.
  { change 0xFFFFFFFF with (Z.ones 32). rewrite Z.land_ones by lia.
    pose proof (Z.mod_pos_bound (control_packet_id sv + 1) (2 ^ 32) ltac:(lia)) as Hm.
    change (2 ^ 32) with (Z.ones 32 + 1) in *. destruct (_ =? 0) eqn:E; [change (Z.ones 32) with 0xFFFFFFFF; lia|].
    apply Z.eqb_neq in E. lia. }
  split_and!; [|exact Hr|done]. split_and!; [done|by left|intros _; exact Hr].
Qed.

Lemma sample_step_sampling deadline op w : sampling w.2 (sample_step deadline op w).2.
Proof.
  destruct w as [tasks sv]. destruct op as [node before after|node|now op]; cbn [sample_step snd].
  - destruct (dget node tasks) as [t|]; [|reflexivity]. destruct (ended t); [reflexivity|].
    unfold sample_ask. destruct (fle (fsub deadline before) fzero); [reflexivity|]. unfold local_stats_request.
    pose proof (next_control_packet_id_sampling sv) as (Hn & _). destruct (next_control_packet_id sv) as [sv1 id]. cbn [fst] in Hn.
    destruct (dget node (verifications sv1)) as [v|]; [|exact Hn].
    match goal with |- context [on_gateway ?n ?d ?f sv1] => pose proof (on_gateway_frame n d f sv1) as Hg end.
    destruct (on_gateway _ _ _ sv1) as [sv2 r]. cbn [fst] in Hg.
    assert (sampling sv sv2) as Hs.
    { etrans; [exact Hn|]. apply frame_sampling, Hg. intros w. apply send_to_radio_keeps; apply _. }
    destruct r; exact Hs.
  - destruct (dget node tasks) as [t|]; [|reflexivity]. by destruct (ended t).
  - apply frame_sampling, sv_step_frame.
Qed.

Lemma sample_local_stats_sampling now patience ops sv :
  sampling sv (sample_local_stats now patience ops sv).1.
Proof.
  unfold sample_local_stats. cbv zeta. case_match; [reflexivity|]. set (tasks := _ <$> (sv_gateways sv).*1).
  assert (∀ ops w, sampling w.2 (sample_run (fadd now patience) ops w).2) as Hr.
  { clear. intros ops. unfold sample_run. induction ops as [|op ops IH]; intros w; [reflexivity|]. cbn [foldl].
    etrans; [apply sample_step_sampling|apply IH]. }
  specialize (Hr ops (tasks, sv)). by destruct (sample_run _ ops (tasks, sv)).
Qed.

(** ** The invariant *)

(** A running service has every resource, a stopped one none; the links of the
    scenario are the medium's; at most eight results are kept in memory. *)
Record service_ok sv : Prop := mk_service_ok {
  so_graph : graph_ok (sv_scenario sv);
  so_nodes : nodes (sv_scenario sv) ≠ [];
  so_agree : links_agree sv;
  so_results : results_ok (volatile_results sv);
  so_control : control_ok sv;
  so_startup : startup_active sv = false;
  so_state : sv_state sv ∈ [STOPPED; RUNNING; STOPPING; FAILED];
  so_stopped : sv_state sv = STOPPED → released sv;
  so_running : sv_state sv = RUNNING → resources sv ∧ lag_task sv = true;
  so_cleanup : is_Some (failure_cleanup sv) → sv_state sv ∈ [STOPPING; FAILED] }.

Lemma service_ok_topology sv : service_ok sv → topology_ok sv.
Proof. intros Hok. constructor; [apply Hok..|]. intros Hs. by apply so_stopped. Qed.

(** The parts a command with [preserves] keeps. *)
Lemma service_ok_preserves sv sv' :
  service_ok sv → preserves sv sv' → sv_state sv' ∈ [STOPPED; RUNNING; STOPPING; FAILED] →
  (sv_state sv' = STOPPED → released sv') → (sv_state sv' = RUNNING → resources sv' ∧ lag_task sv' = true) →
  (is_Some (failure_cleanup sv') → sv_state sv' ∈ [STOPPING; FAILED]) → service_ok sv'.
Proof.
  intros Hok (Ef & Hl & Hr) Hst Hs Hrun Hc. unfold settled_fields in Ef.
  assert (sv_scenario sv' = sv_scenario sv) as Es by congruence.
  assert (control_packet_id sv' = control_packet_id sv) as Ec by congruence.
  constructor; try done; rewrite ?Es; try apply Hok; [apply Hl, Hok|apply Hr, Hok| |].
  - unfold control_ok. rewrite Ec. apply Hok.
  - transitivity (startup_active sv); [congruence|apply Hok].
Qed.

(** A task, or a command that samples, keeps the invariant. *)
Lemma service_ok_sampling sv sv' : service_ok sv → sampling sv sv' → failed_loops sv' = failed_loops sv ∨ sv_state sv ≠ STOPPED →
  service_ok sv'.
Proof.
  intros Hok (Ef & Hm & Hc) Hl. assert (run_fields sv' = run_fields sv ∧ volatile_results sv' = volatile_results sv ∧
    startup_active sv' = startup_active sv ∧ lag_task sv' = lag_task sv ∧ verifications sv' = verifications sv ∧
    (sup_records (sv_supervisor sv')).*1 = (sup_records (sv_supervisor sv)).*1) as (Er & Ev & Ea & Eg & Ever & Ep).
  { destruct sv, sv'. unfold fixed_part, run_fields in *. cbn in *. split_and!; congruence. }
  pose proof Er as Er'. unfold run_fields in Er'.
  assert (sv_scenario sv' = sv_scenario sv) as Es by congruence.
  assert (sv_medium sv' = sv_medium sv) as Em by congruence.
  assert (sv_state sv' = sv_state sv ∨ can_fail (sv_state sv) ∧ sv_state sv' = FAILED) as Hst.
  { destruct Hm as [[? _]|(? & ? & _)]; [by left|by right]. }
  constructor; rewrite ?Es, ?Ev, ?Ea; try apply Hok.
  - intros m Hmm. rewrite Em in Hmm. rewrite Es. by apply Hok.
  - apply Hc, Hok.
  - destruct Hst as [->|[_ ->]]; [apply Hok|set_solver].
  - intros Hs. destruct Hst as [Hst|[_ Hst]]; [|by rewrite Hst in Hs].
    rewrite Hst in Hs. destruct (so_stopped _ Hok Hs) as [R1 R2 R3 R4 R5 R6 R7]. constructor; try congruence.
    + destruct Hl as [->|Hl]; [done|by destruct Hl].
    + assert (bool_decide (sv_traffic sv' = None) = true) as Ht%bool_decide_eq_true; [|done].
      transitivity (bool_decide (sv_traffic sv = None)); [congruence|by rewrite R3].
    + assert ((sv_gateways sv').*1 = []) as Hk by (transitivity ((sv_gateways sv).*1); [congruence|by rewrite R4]).
      by apply fmap_nil_inv in Hk.
    + rewrite R6 in Ep. by apply fmap_nil_inv in Ep.
  - intros Hs. destruct Hst as [Hst|[_ Hst]]; [|by rewrite Hst in Hs]. rewrite Hst in Hs.
    destruct (so_running _ Hok Hs) as [Hr Hg]. split; [|congruence]. by eapply resources_keeps.
  - intros Hcl. destruct Hm as [[Hm1 Hm2]|(_ & Hm & _)]; [|rewrite Hm; set_solver]. rewrite Hm1. rewrite Hm2 in Hcl.
    by apply (so_cleanup _ Hok).
Qed.

(** ** The commands *)

Lemma released_step now op sv : released sv → failed_loops (sv_step now op sv) = failed_loops sv.
Proof.
  intros [R1 R2 R3 R4 R5 R6 R7]. destruct op as [n op|op|n|f|lag]; cbn [sv_step].
  - unfold gateway_op, on_gateway. by rewrite R4.
  - unfold process_op. assert ((proc_step (Some (on_process_failure now)) op (sv_supervisor sv, sv)).2 = sv) as Hs.
    { destruct op; cbn [proc_step with_sup snd]; try done. unfold observe_exit. cbn [fst snd]. by rewrite R6. }
    destruct (proc_step _ _ _) as [s sv']. cbn [snd] in Hs. by subst.
  - unfold medium_frame. by rewrite R1.
  - unfold on_traffic_, on_traffic. by rewrite R3.
  - unfold measure_lag. by rewrite R7.
Qed.

Lemma task_ok now op sv : service_ok sv → service_ok (sv_step now op sv).
Proof.
  intros Hok. apply (service_ok_sampling sv); [done|apply frame_sampling, sv_step_frame|].
  destruct (decide (sv_state sv = STOPPED)) as [Hs|Hs]; [left|by right]. by apply released_step, so_stopped.
Qed.

Lemma start_ok env sv sv' r :
  service_ok sv → failure_cleanup sv = None → start_locked env sv = Some (sv', r) → service_ok sv'.
Proof.
  intros Hok Hf Hs. apply start_locked_outcome in Hs as (Ho & Hp & Hc); [|apply Hok].
  unfold start_outcome in Ho. assert (∀ (b : Prop), is_Some (failure_cleanup sv') → b) as Hno.
  { intros b [? Hx]. congruence. }
  assert (sv_state sv' = RUNNING ∧ resources sv' ∧ lag_task sv' = true → service_ok sv') as Hr.
  { intros (Hst & Hrs & Hg). apply (service_ok_preserves sv); try done; rewrite ?Hst; [set_solver|done|apply Hno]. }
  assert (sv_state sv' = FAILED → service_ok sv') as Hfl.
  { intros Hst. apply (service_ok_preserves sv); try done; rewrite ?Hst; [set_solver|done|done|set_solver]. }
  pose proof (so_state _ Hok) as Hst. destruct (sv_state sv) eqn:Est; try (exfalso; set_solver).
  - destruct r as [c|e]; [by apply Hr; naive_solver|]. destruct Ho as [[-> _]|[Ho _]]; [done|by apply Hfl].
  - by destruct Ho as [-> _].
  - by destruct Ho as [-> _].
  - destruct r as [c|e]; [by apply Hr; naive_solver|]. apply Hfl, Ho.
Qed.

Lemma stop_ok id now waiting env later sv :
  service_ok sv → failure_cleanup sv = None → service_ok (stop id now waiting env later sv).1.
Proof.
  intros Hok Hf. pose proof (stop_outcome id now waiting env later sv (so_startup _ Hok)) as Ho.
  destruct (stop id now waiting env later sv) as [sv' r]. cbn [fst]. destruct Ho as (Hp & Hc & Ho).
  apply (service_ok_preserves sv); [done..| | | |intros [? Hx]; congruence].
  - destruct r as [c|e]; [destruct Ho as [-> _]|destruct Ho as [-> _]]; set_solver.
  - destruct r as [c|e]; [|by destruct Ho as [-> _]]. intros _. destruct Ho as (_ & _ & [[Hs ->]|[Hr _]]); [|done].
    by apply so_stopped.
  - destruct r as [c|e]; by destruct Ho as [-> _].
Qed.

Lemma failure_cleanup_ok failing env sv :
  service_ok sv → service_ok (run_failure_cleanup failing env sv).
Proof.
  intros Hok. destruct (failure_cleanup sv) as [reason|] eqn:Ef.
  2:{ unfold run_failure_cleanup. by rewrite Ef. }
  destruct (run_failure_cleanup_outcome failing env sv reason Ef) as (Hp & Hc & Hst & _).
  assert (sv_state sv ∈ [STOPPING; FAILED]) as Hin by (apply (so_cleanup _ Hok); by rewrite Ef).
  assert (¬ can_fail (sv_state sv)) as Hn by (unfold can_fail; set_solver).
  specialize (Hst Hn). set (sv' := run_failure_cleanup failing env sv) in *.
  apply (service_ok_preserves sv); [done..| | | |].
  - rewrite Hst. apply Hok.
  - intros Hs. rewrite Hst in Hs. rewrite Hs in Hin. set_solver.
  - intros Hs. rewrite Hst in Hs. rewrite Hs in Hin. set_solver.
  - by rewrite Hc; intros [? ?].
Qed.

Lemma default_scenario_ok : ∃ s, default_scenario 5 = Ok s ∧ graph_ok s ∧ nodes s ≠ [].
Proof.
  destruct (default_scenario 5) as [s|] eqn:E; [|done]. exists s. split; [done|]. split.
  - apply (validate_graph_iff s s). injection E as <-. vm_compute. reflexivity.
  - injection E as <-. done.
Qed.

(** With another scenario while stopped. *)
Lemma with_scenario_ok scenario sv :
  service_ok sv → sv_state sv = STOPPED → graph_ok scenario → nodes scenario ≠ [] →
  service_ok (sv <| sv_scenario := scenario |>).
Proof.
  intros Hok Hs Hg Hn. pose proof (so_stopped _ Hok Hs) as Hrel. destruct Hok. constructor; try done.
  - intros m Hm. change (sv_medium sv = Some m) in Hm. by rewrite (rl_medium _ Hrel) in Hm.
  - intros _. by destruct Hrel.
  - intros Hr. change (sv_state sv = RUNNING) in Hr. congruence.
Qed.

Lemma replace_ok scenario sv :
  service_ok sv → graph_ok scenario → nodes scenario ≠ [] → service_ok (replace_scenario scenario sv).1.
Proof.
  intros Hok Hg Hn. unfold replace_scenario. case_bool_decide as Hs; cbn [negb fst]; [|done].
  by apply with_scenario_ok.
Qed.

Lemma reset_ok id stream_id now sv : service_ok sv → service_ok (reset id stream_id now sv).1.
Proof.
  intros Hok. unfold reset. case_bool_decide as Hs; cbn [negb fst]; [|done].
  destruct default_scenario_ok as (sc & -> & Hg & Hn). cbv zeta. cbn [fst].
  pose proof (with_scenario_ok sc sv Hok Hs Hg Hn) as Hok1. pose proof (so_stopped _ Hok1 Hs) as [R1 R2 R3 R4 R5 R6 R7].
  destruct Hok1. by constructor.
Qed.

Lemma request_stop_ok now sv : service_ok sv → service_ok (request_stop now sv).
Proof. intros Hok. destruct Hok. constructor; try done; cbn; set_solver. Qed.

Lemma edited_ok_service updated now sv m :
  service_ok sv → sv_state sv = RUNNING → sv_medium sv = Some m → topology_ok (edited updated now sv m) →
  nodes updated = nodes (sv_scenario sv) → service_ok (edited updated now sv m).
Proof.
  intros Hok Hr Hm [T1 T2 T3 _] Hn. destruct (so_running _ Hok Hr) as [[[Hg Ht] _] Hl].
  revert T1 T2 T3. unfold edited. destruct (publish_each _ _) as [es b]. intros T1 T2 T3.
  destruct Hok. constructor; try done.
  - intros Hs. change (sv_state sv = STOPPED) in Hs. congruence.
  - intros _. split; [|done]. split; [split|by eexists].
    + unfold has_gateways, node_ids in Hg. rewrite <-Hn in Hg. exact Hg.
    + destruct (sv_traffic sv) as [c|] eqn:Et; [|done].
      apply bool_decide_eq_false. cbn. rewrite Et. done.
Qed.

Lemma links_ok updates now sv : service_ok sv → service_ok (update_links updates now sv).1.
Proof.
  intros Hok. pose proof (update_links_spec updates now sv (service_ok_topology _ Hok)) as Hu.
  destruct (update_links updates now sv) as [sv' [ls|e]]; cbn [fst]; [|by destruct Hu as [-> _]].
  destruct Hu as ((_ & _ & Hr & _) & _ & m & Hm & -> & Ht). by apply edited_ok_service.
Qed.

Lemma topology_preset_ok preset now sv : service_ok sv → service_ok (apply_topology preset now sv).1.
Proof.
  intros Hok. pose proof (apply_topology_spec preset now sv (service_ok_topology _ Hok)) as Hu.
  destruct (apply_topology preset now sv) as [sv' [ls|e]]; cbn [fst]; [|by destruct Hu as [-> _]].
  destruct Hu as (_ & Eu & _ & Ht & [[Hs Es]|(Hr & m & Hm & Es)]); subst sv'.
  - pose proof (tk_graph _ Ht) as Hg. pose proof (tk_nodes _ Ht) as Hn. by apply with_scenario_ok.
  - apply edited_ok_service; try done. by rewrite Eu.
Qed.

Lemma archive_ok c sv : service_ok sv → service_ok (archive_unpersisted c sv).
Proof.
  intros Hok. pose proof (archive_releasing c sv) as Hr. pose proof (archive_unpersisted_fields c sv) as Ef.
  apply (service_ok_preserves sv); [done|by apply releasing_preserves|..]; rewrite Ef.
  - apply Hok.
  - intros Hs. destruct (so_stopped _ Hok Hs). by constructor.
  - apply Hok.
  - apply Hok.
Qed.

(** With the traffic controller, the broker and the files changed. *)
Lemma with_traffic_ok c b fs sv :
  service_ok sv → is_Some (sv_traffic sv) →
  service_ok (sv <| sv_traffic := Some c |> <| sv_broker := b |> <| sv_files := fs |>).
Proof.
  intros Hok [c0 Hc]. pose proof (so_running _ Hok) as Hrun. pose proof (so_stopped _ Hok) as Hst. destruct Hok.
  constructor; try done.
  - intros Hs. destruct (Hst Hs). congruence.
  - intros Hs. destruct (Hrun Hs) as [[[Hg _] Hm] Hl]. split; [|done]. by split; [split|].
Qed.

Lemma stop_traffic_ok env sv : service_ok sv → service_ok (stop_traffic env sv).1.
Proof.
  intros Hok. unfold stop_traffic. destruct (sv_traffic sv) as [c|] eqn:Ec; [|done].
  destruct (TrafficLifecycle.stop _ _ _) as [[[c' b] fs] r]. cbn [fst]. apply with_traffic_ok; [done|by exists c].
Qed.

Lemma settle_late_ok now f sv : service_ok sv → service_ok (settle_late now f sv).
Proof.
  intros Hok. unfold settle_late. destruct (late_runs sv) as [|c rest]; [done|].
  destruct (f _) as [[c' b] fs]. cbv zeta. set (sv1 := set_field sv_files _ _).
  assert (service_ok sv1) as Ha.
  { pose proof (so_stopped _ Hok) as Hst. destruct Hok. constructor; try done. intros Hs. destruct (Hst Hs). by constructor. }
  destruct (TrafficLifecycle.summary _ _) as [s|e]; [|done]. apply archive_ok. case_match; [|done].
  pose proof (so_stopped _ Ha) as Hst. destruct Ha. constructor; try done. intros Hs. destruct (Hst Hs). by constructor.
Qed.

Lemma start_sampled_ok env request baseline sv :
  service_ok sv → service_ok (start_sampled env request baseline sv).1.
Proof.
  intros Hok. unfold start_sampled. destruct (sv_traffic sv) as [c|]; [|done].
  destruct (negb (is_running sv)); [done|]. pose proof (archive_ok c sv Hok) as Ha.
  set (sv1 := archive_unpersisted c sv) in *. clearbody sv1.
  match goal with |- context [on_traffic ?d ?f sv1] => pose proof (on_traffic_frame d f sv1) as Hf;
    assert (failed_loops (on_traffic d f sv1).1 = failed_loops sv1) as Hl
      by (unfold on_traffic; destruct (sv_traffic sv1); [by destruct (f _) as [[? ?] ?]|done]) end.
  cbv zeta. destruct (on_traffic _ _ sv1) as [sv2 r]. cbn [fst] in *.
  apply (service_ok_sampling sv1); [done|by apply frame_sampling|by left].
Qed.

Lemma start_traffic_ok env request sv sv' r :
  service_ok sv → start_traffic env request sv = Some (sv', r) → service_ok sv'.
Proof.
  intros Hok. unfold start_traffic. destruct (sv_traffic sv) as [c|]; [|by intros [= <- _]].
  unfold is_running. case_bool_decide as Hrun; cbn [negb]; [|by intros [= <- _]].
  pose proof (sample_local_stats_sampling (tr_now env) (tr_patience env) (tr_sampling env) sv) as Hs.
  destruct (sample_local_stats _ _ _ sv) as [sv1 o]. cbn [fst] in Hs.
  assert (service_ok sv1) as Hok1 by (apply (service_ok_sampling sv); [done|done|right; congruence]).
  destruct (c_state c); try (by intros [= <- _]); destruct o as [[baseline|e]|]; try done;
    try (by intros [= <- _]); cbv zeta; intros Hr; injection Hr as Hr;
    assert (sv' = (sv', r).1) as -> by done; rewrite <-Hr; apply start_sampled_ok;
    (destruct (tr_stop_requested env); [by apply request_stop_ok|done]).
Qed.

(** ** Reachable states *)

(** A task's step or a command.  Starting, stopping and resetting wait for a scheduled
    cleanup; a scenario that replaces the current one has been validated. *)
Inductive service_step sv : Service → Prop :=
| ss_task now op : service_step sv (sv_step now op sv)
| ss_failure_cleanup failing env : service_step sv (run_failure_cleanup failing env sv)
| ss_start env sv' r :
    failure_cleanup sv = None → start_locked env sv = Some (sv', r) → service_step sv sv'
| ss_stop id now waiting env later :
    failure_cleanup sv = None → service_step sv (stop id now waiting env later sv).1
| ss_reset id stream_id now :
    failure_cleanup sv = None → service_step sv (reset id stream_id now sv).1
| ss_replace scenario :
    graph_ok scenario → nodes scenario ≠ [] → service_step sv (replace_scenario scenario sv).1
| ss_links updates now : service_step sv (update_links updates now sv).1
| ss_topology preset now : service_step sv (apply_topology preset now sv).1
| ss_start_traffic env request sv' r :
    start_traffic env request sv = Some (sv', r) → service_step sv sv'
| ss_stop_traffic env : service_step sv (stop_traffic env sv).1
| ss_settle_late now finalized : service_step sv (settle_late now finalized sv).

(** The service as constructed: the default scenario, no process yet. *)
Definition constructed sv : Prop :=
  ∃ deadline retry scenario build supervisor broker results,
    default_scenario 5 = Ok scenario ∧ sup_records supervisor = [] ∧
    service_init deadline retry scenario build supervisor broker results = Ok sv.

Lemma constructed_ok sv : constructed sv → service_ok sv.
Proof.
  intros (d & r & sc & bu & sup & br & res & Hd & Hp & Hi). unfold service_init in Hi.
  destruct (guard_raise _ _) as [?|?]; [|done]. injection Hi as <-.
  destruct default_scenario_ok as (sc' & Hd' & Hg & Hn). rewrite Hd in Hd'. injection Hd' as <-.
  constructor; try done; try (cbn; set_solver). by split; [apply dict_ok_nil| |intros ? ? ?%elem_of_nil].
Qed.

Lemma service_step_ok sv sv' : service_ok sv → service_step sv sv' → service_ok sv'.
Proof.
  intros Hok Hs. destruct Hs.
  - by apply task_ok.
  - by apply failure_cleanup_ok.
  - by eapply start_ok.
  - by apply stop_ok.
  - by apply reset_ok.
  - by apply replace_ok.
  - by apply links_ok.
  - by apply topology_preset_ok.
  - by eapply start_traffic_ok.
  - by apply stop_traffic_ok.
  - by apply settle_late_ok.
Qed.


End safety.
