(* ===== verification/ServiceResults.v ===== *)
(** * The results of finished runs, and the counters sampled for a run

    A finished run that was not saved stays available in memory; what the service lists
    as completed runs; what a sample of the firmware's counters consists of. *)
From Stdlib Require Import Sorting.Sorted.
From S2P Require Import Prelude PyDict PyFloat Framing Scenario Reachability Mesh Airtime Events Medium.
From S2P Require Import TrafficRequest Identifier PacketIds TrafficState TrafficHandlers TrafficLifecycle.
From S2P Require Import Gateway Utf8 ProcessLogs Processes ProcessLifecycle Configure Service ServiceOps ServiceRuns.
From S2P Require Import ServiceTopology ServiceFrame ServiceInvariant ServiceSafety.

(** ** Text *)

#[local] Arguments String.append !_ _ / : simpl nomatch.
#[local] Arguments String.length !_ / : simpl nomatch.

Lemma substring_app_l s t : String.substring 0 (String.length s) (s +:+ t) = s.
Proof. induction s as [|a s IH]; cbn; [by destruct t|by f_equal]. Qed.

Lemma substring_app_r s t k : String.substring (String.length s) k (s +:+ t) = String.substring 0 k t.
Proof. induction s as [|a s IH]; cbn; done. Qed.

Lemma substring_full t : String.substring 0 (String.length t) t = t.
Proof. induction t as [|a t IH]; cbn; [done|by f_equal]. Qed.

Lemma substring_split n k s :
  (n + k = String.length s)%nat → String.substring 0 n s +:+ String.substring n k s = s.
Proof.
  revert n. induction s as [|a s IH]; intros n Hl; cbn [String.length] in Hl.
  - destruct n, k; try lia. done.
  - destruct n as [|n]; [by cbn in Hl; subst; apply (substring_full (String a s))|].
    cbn. f_equal. apply IH. lia.
Qed.

Lemma without_suffix_spec suffix s x : without_suffix suffix s = Some x ↔ s = x +:+ suffix.
Proof.
  unfold without_suffix. split.
  - case_decide as Hd; [|done]. destruct Hd as [Hs Hl]. intros [= <-].
    rewrite <-Hs at 2. symmetry. apply substring_split. lia.
  - intros ->. rewrite string_length_app, Nat.add_sub, substring_app_l, substring_app_r, substring_full.
    rewrite decide_True; [done|]. split; [done|lia].
Qed.

(** Run ids that are not taken for a summary's. *)
Definition plain_id (id : string) : Prop := ∀ x, id ≠ x +:+ ".summary".

Lemma saved_run_spec path id : plain_id id → saved_run path = Some id ↔ path = result_path id.
Proof.
  intros Hp. unfold saved_run, result_path. rewrite <-(without_suffix_spec ".json").
  destruct (without_suffix ".summary.json" path) as [x|] eqn:Es; [|done]. split; [done|].
  apply without_suffix_spec in Es as ->. change ".summary.json"%string with (".summary" +:+ ".json")%string.
  rewrite without_suffix_spec. intros He. exfalso. apply (Hp x).
  apply (f_equal (λ s, without_suffix ".json" s)) in He.
  assert (x +:+ ".summary" +:+ ".json" = (x +:+ ".summary") +:+ ".json") as Ha.
  { clear. induction x as [|a x IH]; cbn; [done|by f_equal]. }
  rewrite Ha in He. rewrite !(proj2 (without_suffix_spec ".json" _ _) eq_refl) in He. by injection He as <-.
Qed.

Lemma sinsert_sorted x l :
  StronglySorted (λ s t, String.ltb t s = false) l → StronglySorted (λ s t, String.ltb t s = false) (sinsert x l).
Proof.
  induction l as [|y l IH]; intros Hs; cbn [sinsert]; [by repeat constructor|].
  apply StronglySorted_inv in Hs as [Hs Hy]. destruct (String.ltb y x) eqn:Eyx.
  - constructor; [by apply IH|]. rewrite sinsert_perm. constructor; [by apply ltb_asym|done].
  - constructor; [by constructor|]. constructor; [done|]. eapply Forall_impl; [exact Hy|]. cbn. intros z Hz.
    destruct (ltb_total y x) as [?|[->|Hxy]]; [congruence|done|].
    destruct (String.ltb z x) eqn:Ezx; [|done]. by rewrite (ltb_trans _ _ _ Ezx Hxy) in Hz.
Qed.

Lemma str_sorted_sorted l : StronglySorted (λ s t, String.ltb t s = false) (str_sorted l).
Proof. induction l as [|x l IH]; [constructor|]. by apply sinsert_sorted. Qed.

Lemma trim_results_drop d : trim_results d = drop (length d - Z.to_nat MAX_VOLATILE_RESULTS) d.
Proof.
  unfold MAX_VOLATILE_RESULTS. induction d as [|kv d IH]; [done|]. cbn [trim_results]. unfold MAX_VOLATILE_RESULTS.
  destruct (8 <? zlen (kv :: d)) eqn:E; unfold zlen in E; cbn [length] in E |- *.
  - apply Z.ltb_lt in E. rewrite IH. replace (S (length d) - Z.to_nat 8)%nat with (S (length d - Z.to_nat 8)) by lia. done.
  - apply Z.ltb_ge in E. replace (S (length d) - Z.to_nat 8)%nat with 0%nat by lia. done.
Qed.

Section results.
Context `{Meshtastic} `{PyText} `{PyRandom} `{RadioCodec} `{TelemetryCodec} `{ResultText TrafficRunSummary}
  `{Sha256} `{ResultReader}.
Implicit Types (sv : Service).

(** ** Finished runs *)

Lemma completed_runs_elem id sv :
  plain_id id →
  id ∈ completed_runs sv ↔ is_Some (sv_files sv !! result_path id) ∨ id ∈ (volatile_results sv).*1.
Proof.
  intros Hp. unfold completed_runs. rewrite str_sorted_perm, elem_of_remove_dups, elem_of_app, list_elem_of_omap.
  apply or_iff_compat_r. split.
  - intros (path & ([k v] & Ek & Hkv)%list_elem_of_fmap & ->%saved_run_spec); [|done].
    apply elem_of_map_to_list in Hkv. exists v. cbn in Ek. by rewrite Ek.
  - intros [v Hv]. exists (result_path id). split; [|by apply saved_run_spec].
    apply list_elem_of_fmap. exists (result_path id, v). split; [done|]. by apply elem_of_map_to_list.
Qed.

Lemma completed_runs_order sv :
  NoDup (completed_runs sv) ∧ StronglySorted (λ s t, String.ltb t s = false) (completed_runs sv).
Proof. unfold completed_runs. split; [rewrite str_sorted_perm; apply NoDup_remove_dups|apply str_sorted_sorted]. Qed.

(** A run the controller has frozen, finished, with no file. *)
Definition unsaved_run (c : Controller) (r : TrafficRunResult) sv : Prop :=
  c_frozen c = Some r ∧ r_finished r = true ∧ (r_run_id <$> c_current c) = Some (r_run_id r) ∧
  sv_files sv !! result_path (r_run_id r) = None.

Lemma archive_adds c r sv :
  unsaved_run c r sv →
  archive_unpersisted c sv = sv <| volatile_results ::= λ d, trim_results (dset (r_run_id r) r d) |>.
Proof.
  intros (Hf & Hfin & Hc & Hn). unfold archive_unpersisted, result_is_finalized, TrafficLifecycle.result.
  destruct (c_current c) as [cur|]; [|done]. injection Hc as Hc. rewrite Hf, Hc, bool_decide_true by done. cbn [negb].
  rewrite Hn, bool_decide_false by by intros [? ?]. by rewrite Hfin.
Qed.

(** What is added last is not what makes room. *)
Lemma trim_keeps_last id r d :
  results_ok d → dget id (trim_results (dset id r d)) = Some r.
Proof.
  intros [Hd Hs _]. assert (dict_ok (trim_results (dset id r d))) as Hok.
  { destruct (trim_results_suffix (dset id r d)) as [dropped Ed]. pose proof (dict_ok_dset id r d Hd) as Hd'.
    unfold dict_ok in *. rewrite Ed, fmap_app in Hd'. by apply NoDup_app in Hd' as (_ & _ & ?). }
  apply dget_Some; [done|]. rewrite trim_results_drop. unfold MAX_VOLATILE_RESULTS, zlen in *.
  destruct (decide (id ∈ d.*1)) as [Hin|Hin].
  - assert (length (dset id r d) = length d) as Hl.
    { rewrite <-(length_fmap fst (dset id r d)), dset_keys, length_fmap; done. }
    rewrite Hl. replace (length d - Z.to_nat 8)%nat with 0%nat by lia. rewrite drop_0. apply dget_Some; [by apply dict_ok_dset|apply dget_dset_eq].
  - rewrite dset_fresh by done. rewrite length_app. cbn [length]. rewrite drop_app_le by lia.
    apply elem_of_app. right. by left.
Qed.

(** C36: archiving a finished run that has no file keeps it in memory, the newest of at
    most eight, the oldest leaving first; with its controller gone the run's result,
    its completion, its export and the list of completed runs show it. *)
Theorem finished_run_available c r sv :
  unsaved_run c r sv → results_ok (volatile_results sv) → sv_traffic sv = None →
  let sv' := archive_unpersisted c sv in
  let id := r_run_id r in
  let d := dset id r (volatile_results sv) in
  volatile_results sv' = drop (length d - Z.to_nat MAX_VOLATILE_RESULTS) d ∧
  results_ok (volatile_results sv') ∧
  traffic_result id sv' = Ok r ∧ traffic_result_is_complete id sv' = Ok true ∧
  export_traffic_result id sv' = Ok (result_json r) ∧ id ∈ completed_runs sv' ∧
  NoDup (completed_runs sv') ∧ StronglySorted (λ s t, String.ltb t s = false) (completed_runs sv') ∧
  (∀ x, plain_id x → x ∈ completed_runs sv' ↔
     is_Some (sv_files sv' !! result_path x) ∨ x ∈ (volatile_results sv').*1).
Proof.
  intros Hu Hok Hnt. cbv zeta. pose proof Hu as (_ & Hfin & _ & Hnone).
  pose proof (archive_unpersisted_ok c sv Hok) as Hok'. rewrite (archive_adds c r sv Hu) in *.
  set (sv' := sv <| volatile_results ::= _ |>) in *.
  assert (dget (r_run_id r) (volatile_results sv') = Some r) as Hget by by apply trim_keeps_last.
  assert (current_controller (r_run_id r) sv' = None) as Hcur.
  { unfold current_controller. change (sv_traffic sv') with (sv_traffic sv). by rewrite Hnt. }
  assert (sv_files sv' !! result_path (r_run_id r) = None) as Hnone' by exact Hnone.
  assert (traffic_result (r_run_id r) sv' = Ok r) as Hres.
  { unfold traffic_result. rewrite Hcur. cbn [mbind option_bind]. unfold saved_result. by rewrite Hnone', Hget. }
  assert (traffic_result_is_complete (r_run_id r) sv' = Ok true) as Hcomp.
  { unfold traffic_result_is_complete. rewrite Hcur, Hnone'. rewrite (proj2 (dmem_spec _ _)) by by exists r.
    by rewrite orb_true_r. }
  split_and!; [|done|done|done| | | | |].
  - change (volatile_results sv') with (trim_results (dset (r_run_id r) r (volatile_results sv))).
    apply trim_results_drop.
  - unfold export_traffic_result. rewrite Hcomp. cbn [mbind res_bind]. rewrite Hnone', Hres. done.
  - unfold completed_runs. rewrite str_sorted_perm, elem_of_remove_dups. apply elem_of_app. right. by eapply dget_key.
  - apply completed_runs_order.
  - apply completed_runs_order.
  - intros x Hx. by apply completed_runs_elem.
Qed.
End results.

Section sampling.
Context `{Meshtastic} `{PyText} `{PyRandom} `{RadioCodec} `{TelemetryCodec} `{ResultText TrafficRunSummary}
  `{Sha256}.
Implicit Types (sv : Service).

(** ** Sampling the firmware's counters *)

(** A packet id handed out since [sv0]. *)
Definition issued sv0 (id : Z) : Prop := ∃ sv, sampling sv0 sv ∧ id = (next_control_packet_id sv).2.

(** The node's counters, as they were when its response to a request of this sample
    was the last it had sent. *)
Definition observed sv0 (node : string) (bad dup : Z) : Prop :=
  ∃ sv m id, sampling sv0 sv ∧ issued sv0 id ∧ local_stats_response_ids sv !! node = Some id ∧
    dget node (node_metrics sv) = Some m ∧ bad = nm_rx_bad m ∧ dup = nm_rx_duplicate m.

Record sample_ok sv0 (node : string) (t : SampleTask) : Prop := mk_sample_ok {
  tok_ids : ∀ id, id ∈ expected_packet_ids t → issued sv0 id;
  tok_value : ∀ bad dup, ended t = Some (Ok (Some (bad, dup))) → observed sv0 node bad dup }.

Definition samples_ok sv0 (w : dict string SampleTask * Service) : Prop :=
  sampling sv0 w.2 ∧ ∀ n t, (n, t) ∈ w.1 → sample_ok sv0 n t.

Lemma end_sample_ok sv0 n t r :
  sample_ok sv0 n t → (∀ bad dup, r = Ok (Some (bad, dup)) → observed sv0 n bad dup) → sample_ok sv0 n (end_sample r t).
Proof. intros [Hi _] Hv. split; [exact Hi|]. intros bad dup [= Hr]. by apply Hv. Qed.

Lemma sample_ask_ok sv0 deadline n before after t sv :
  sampling sv0 sv → ended t = None → sample_ok sv0 n t →
  sample_ok sv0 n (sample_ask deadline n before after t sv).1.
Proof.
  intros Hs He Ht. unfold sample_ask.
  assert (∀ t', sample_ok sv0 n t' → sample_ok sv0 n (end_sample (Ok None) t')) as Hend by (intros t' Ht'; by apply end_sample_ok).
  destruct (fle (fsub deadline before) fzero); [by apply Hend|]. unfold local_stats_request.
  assert (issued sv0 (next_control_packet_id sv).2) as Hid by by exists sv.
  destruct (next_control_packet_id sv) as [sv1 id]. cbn [snd] in Hid.
  destruct (dget n (verifications sv1)) as [v|]; cbn [fst]; [|by apply end_sample_ok].
  destruct (on_gateway _ _ _ sv1) as [sv2 [?|e]]; cbn [fst].
  - assert (sample_ok sv0 n (t <| expected_packet_ids ::= cons id |>)) as Ht'.
    { destruct Ht as [Hi Hv]. split; [|exact Hv]. intros i [->|Hin]%elem_of_cons; [done|by apply Hi]. }
    destruct (fle _ _); [by apply Hend|]. destruct Ht' as [Hi Hv]. by split.
  - destruct (fle _ _); [by apply Hend|]. destruct Ht as [Hi Hv]. by split.
Qed.

Lemma sample_wake_ok sv0 n t sv :
  sampling sv0 sv → sample_ok sv0 n t → sample_ok sv0 n (sample_wake n t sv).
Proof.
  intros Hs Ht. unfold sample_wake, response_arrived. destruct (awaiting t); cbn [andb]; [|done].
  destruct (local_stats_response_ids sv !! n) as [id|] eqn:El; [|done].
  case_bool_decide as Hin; [|done]. apply end_sample_ok; [done|]. intros bad dup.
  destruct (dget n (node_metrics sv)) as [m|] eqn:Em; [|done]. intros [= <- <-].
  exists sv, m, id. split_and!; try done. by apply Ht.
Qed.

Lemma sample_step_ok sv0 deadline op w :
  samples_ok sv0 w → samples_ok sv0 (sample_step deadline op w) ∧ (sample_step deadline op w).1.*1 = w.1.*1.
Proof.
  intros [Hs Ht]. pose proof (sample_step_sampling deadline op w) as Hstep.
  assert (sampling sv0 (sample_step deadline op w).2) as Hs' by by etrans. clear Hstep.
  destruct w as [tasks sv]. cbn [fst snd] in *.
  assert (∀ n t t', dget n tasks = Some t → sample_ok sv0 n t' → ∀ m u, (m, u) ∈ dset n t' tasks → sample_ok sv0 m u) as Hset.
  { intros n t t' _ Ht' m u [[-> ->]|Hin]%dset_elem; [done|by apply Ht]. }
  assert (∀ n t t', dget n tasks = Some t → (dset n t' tasks).*1 = tasks.*1) as Hkeys.
  { intros n t t' Hg. apply dset_keys. by eapply dget_key. }
  revert Hs'. unfold samples_ok. destruct op as [n before after|n|now op]; cbn [sample_step].
  - destruct (dget n tasks) as [t|] eqn:Eg; [|done]. destruct (ended t) eqn:Ee; [done|].
    pose proof (sample_ask_ok sv0 deadline n before after t sv Hs Ee (Ht _ _ (dget_elem _ _ _ Eg))) as Ha.
    destruct (sample_ask _ _ _ _ t sv) as [t' sv']. cbn [fst snd] in *. eauto.
  - destruct (dget n tasks) as [t|] eqn:Eg; [|done]. destruct (ended t) eqn:Ee; [done|].
    pose proof (sample_wake_ok sv0 n t sv Hs (Ht _ _ (dget_elem _ _ _ Eg))) as Ha. cbn [fst snd]. eauto.
  - done.
Qed.

Lemma sample_run_ok sv0 deadline ops w :
  samples_ok sv0 w → samples_ok sv0 (sample_run deadline ops w) ∧ (sample_run deadline ops w).1.*1 = w.1.*1.
Proof.
  unfold sample_run. revert w. induction ops as [|op ops IH]; intros w Hw; [done|]. cbn [foldl].
  destruct (sample_step_ok sv0 deadline op w Hw) as [Hw' Hk]. destruct (IH _ Hw') as [? Hk']. split; [done|congruence].
Qed.

Lemma gather_samples_ok tasks values :
  gather_samples tasks = Some (Ok values) →
  values.*1 = tasks.*1 ∧ ∀ n v, (n, v) ∈ values → ∃ t, (n, t) ∈ tasks ∧ ended t = Some (Ok v).
Proof.
  revert values. induction tasks as [|[n t] tasks IH]; intros values; cbn [gather_samples].
  { intros [= <-]. split; [done|]. intros ? ? []%elem_of_nil. }
  destruct (ended t) as [[v|e]|] eqn:Ee; [|done|by destruct (gather_samples tasks) as [[?|?]|]].
  destruct (gather_samples tasks) as [[rest|e]|]; [|done|done]. intros [= <-].
  destruct (IH rest eq_refl) as [Hk Hv]. split; [cbn; by rewrite Hk|].
  intros m u [[= -> ->]|Hin]%elem_of_cons; [exists t; split; [by left|done]|].
  destruct (Hv _ _ Hin) as (t' & ? & ?). exists t'. split; [by right|done].
Qed.

(** The nodes of a sample: those with counters, and those missing. *)
Lemma sample_of_nodes values :
  (fs_totals (sample_of values)).*1 = (fs_duplicate_totals (sample_of values)).*1 ∧
  (fs_totals (sample_of values)).*1 ++ fs_missing_nodes (sample_of values) ≡ₚ values.*1.
Proof.
  unfold sample_of. cbn [fs_totals fs_duplicate_totals fs_missing_nodes].
  induction values as [|[n [[bad dup]|]] values [IH1 IH2]]; [done| |]; cbn in IH1, IH2 |- *.
  - rewrite decide_False by done. split; [by rewrite IH1|by rewrite IH2].
  - rewrite decide_True by done. split; [done|]. rewrite fmap_cons, <-Permutation_middle. by rewrite IH2.
Qed.

Lemma sample_of_values values n bad :
  (n, bad) ∈ fs_totals (sample_of values) → ∃ dup, (n, dup) ∈ fs_duplicate_totals (sample_of values) ∧
    (n, Some (bad, dup)) ∈ values.
Proof.
  unfold sample_of; cbn [fs_totals fs_duplicate_totals]. rewrite list_elem_of_omap. intros ([m [[b d]|]] & Hin & Hv); [|done].
  cbn in Hv. injection Hv as -> ->. exists d. split; [|done]. rewrite list_elem_of_omap. by exists (n, Some (bad, d)).
Qed.

End sampling.
