(* ===== verification/ServiceExamples.v ===== *)
(** * A worked service

    Two nodes, the packages of the samples, a start that returns and what follows it:
    the theorems about the service applied to them, and two runs behind the findings. *)
From Stdlib Require Import Floats.SpecFloat.
From S2P Require Import Prelude PyDict PyFloat Framing Scenario Reachability Mesh Airtime Events Medium.
From S2P Require Import TrafficRequest Identifier PacketIds TrafficState TrafficHandlers TrafficLifecycle RunExamples.
From S2P Require Import Gateway GatewayExamples Utf8 ProcessLogs Processes ProcessLifecycle ProcessExamples.
From S2P Require Import Configure Service ServiceOps ServiceRuns ServiceTopology ServiceFrame ServiceInvariant ServiceSafety.
From S2P Require Import ServiceResults.

#[local] Existing Instance sample_protobuf.
#[local] Existing Instance sample_text.
#[local] Existing Instance sample_random.
#[local] Existing Instance sample_result_text.
#[local] Existing Instance sample_sha256.

(** The codec of the gateway's examples, with one more message: 2, telemetry of node
    11 or 12 (the next byte) for a request (four bytes). *)
#[local] Instance lab_codec : RadioCodec := {|
  parse_from_radio := λ b,
    match b with
    | tag :: node :: rest =>
      if byte_val tag =? 2 then
        Ok (FromPacket (mkPacket (byte_val node) 0 1
          (Decoded (mkData TELEMETRY_APP (drop 4 rest) false (from_bytes_big (take 4 rest)) [])) false 3 3 0 0 0 fzero []))
      else @parse_from_radio sample_codec b
    | _ => @parse_from_radio sample_codec b
    end;
  serialize_to_radio := @serialize_to_radio sample_codec |}.

(** Local statistics are four bytes. *)
#[local] Instance lab_telemetry : TelemetryCodec := {|
  parse_telemetry := λ b,
    match b with
    | [tx; rx; bad; dupe] => Some (LocalStats (byte_val tx) (byte_val rx) (byte_val bad) (byte_val dupe))
    | _ => None
    end;
  local_stats_payload := [] |}.

#[local] Instance lab_reader : ResultReader := {|
  read_result := λ s, Raise (ValueError s);
  read_summary := λ s, Raise (ValueError s) |}.

Definition lab_build : BuildMetadata := mkBuild "c" "p" "f" "aarch64" "d" "m" "v".
Definition lab_supervisor : Supervisor :=
  mkSupervisor "/usr/bin/meshtasticd" "/data/nodes" 47000 4096 [] [] false ∅ [] [].
Definition lab_service (scenario : Scenario) : Service :=
  new_service scenario lab_build lab_supervisor (new_broker 8 4 "stream") ∅.

Definition lab_verified (n : string) : res NodeVerification :=
  Ok (mkVerification n (if decide (n = "a"%string) then 11 else 12) "2.7" n n "CLIENT" "EU_868" "LONG_FAST" 0 3 "lab").

Definition disconnect (n : string) : float * sv_op := (fzero, SvGateway n (GDaemonData [])).

(** A start where nothing goes wrong, but what [window] lets happen while the nodes'
    stability is watched. *)
Definition lab_ending : StopEnv (B := EventBroker) :=
  mkStopEnv None id (Raise (RuntimeError "no sampler")) id None (mkDisk (λ _, None) (λ _, false)) fzero.
Definition lab_cleanup : CleanupEnv := mkCleanupEnv lab_ending fzero [] (λ _, []) [] [].
Definition lab_start (window : string → list (float * sv_op)) : StartEnv :=
  mkStartEnv (λ _, fzero) fzero "command" "simulation" true lab_cleanup 8
    (mkSupervisorStart true (Ok tt) (λ i, mkSpawn (Ok tt) [] (Ok (100 + i, true))) [] [])
    (λ _, Ok 45001) (λ _, demo_start)
    (mkConfigureEnv lab_verified (λ n, [disconnect n])
       (λ _, mkRestartEnv (λ _, []) (λ _, Ok 45001) (λ _, demo_start) lab_verified window))
    (λ _, []) (of_Z 1) lab_cleanup.
Definition quiet (n : string) : list (float * sv_op) := [].

Definition run_of (o : option (Service * res CommandResult)) : Service :=
  match o with Some (sv, _) => sv | None => lab_service demo_scenario end.
Definition outcome_of (o : option (Service * res CommandResult)) : option LifecycleState :=
  match o with Some (_, Ok r) => Some (cr_state r) | _ => None end.

Lemma run_of_eq o s : outcome_of o = Some s → ∃ r, o = Some (run_of o, Ok r) ∧ cr_state r = s.
Proof. destruct o as [[sv [r|e]]|]; [|done|done]. intros [= <-]. by exists r. Qed.

Definition lab_running : Service := run_of (start_locked (lab_start quiet) (lab_service demo_scenario)).

Lemma lab_running_eq :
  ∃ r, start_locked (lab_start quiet) (lab_service demo_scenario) = Some (lab_running, Ok r) ∧ cr_state r = RUNNING.
Proof. apply run_of_eq. vm_compute. reflexivity. Qed.

Lemma lab_service_ok scenario : graph_ok scenario → nodes scenario ≠ [] → service_ok (lab_service scenario).
Proof.
  intros Hg Hn. constructor; try done; try (cbn; set_solver). by split; [apply dict_ok_nil| |intros ? ? ?%elem_of_nil].
Qed.

Lemma demo_scenario_ok : graph_ok demo_scenario ∧ nodes demo_scenario ≠ [].
Proof. split; [|done]. apply (validate_graph_iff demo_scenario demo_scenario). vm_compute. reflexivity. Qed.

Lemma lab_running_ok : service_ok lab_running.
Proof.
  destruct lab_running_eq as (r & Hr & _). destruct demo_scenario_ok.
  apply (start_ok (lab_start quiet) (lab_service demo_scenario) lab_running (Ok r)); [by apply lab_service_ok|done|exact Hr].
Qed.

(** ** The theorems at these states *)

Definition lab_update : DirectedLink := mkLink "b" "a" true (-70) (of_Z 3).

Lemma topology_edits_correct_witness :
  topology_ok lab_running ∧ sv_state lab_running = RUNNING ∧
  ∃ sv', update_links [lab_update] fzero lab_running = (sv', Ok [lab_update]) ∧ topology_ok sv' ∧
    lab_update ∈ links (sv_scenario sv') ∧ length (history (sv_broker sv')) = 8%nat.
Proof.
  pose proof (service_ok_topology _ lab_running_ok) as Hok. split; [exact Hok|]. split; [vm_compute; reflexivity|].
  destruct (topology_edits_correct lab_running fzero [lab_update] FULL_MESH Hok) as [Hu _].
  destruct (update_links [lab_update] fzero lab_running) as [sv' [ls|e]] eqn:E.
  - destruct Hu as (_ & -> & Hok' & _ & Hin). exists sv'. split; [reflexivity|]. split; [exact Hok'|].
    split; [apply Hin; left; by left|]. apply (f_equal fst) in E. cbn [fst] in E. rewrite <-E. vm_compute. reflexivity.
  - apply (f_equal snd) in E. vm_compute in E. discriminate E.
Defined.

(** The five nodes of a new installation. *)
Definition new_scenario : Scenario := match default_scenario 5 with Ok s => s | Raise _ => demo_scenario end.
Definition five_running : Service := run_of (start_locked (lab_start quiet) (lab_service new_scenario)).
Definition five_star : Service := (apply_topology STAR fzero five_running).1.


(** A gateway fails while the simulation runs. *)
Definition lab_failed : Service := sv_step fzero (SvGateway "a" (GDaemonData [])) lab_running.
Definition lab_reason : string := "GATEWAY_FAILED: Gateway for a: downstream daemon disconnected".


Lemma finished_run_available_witness :
  ∃ r, unsaved_run demo_stopped.1 r (lab_service demo_scenario) ∧
    let sv' := archive_unpersisted demo_stopped.1 (lab_service demo_scenario) in
    traffic_result (r_run_id r) sv' = Ok r ∧ "run"%string ∈ completed_runs sv'.
Proof.
  assert (∃ r, c_frozen demo_stopped.1 = Some r ∧ r_finished r = true ∧
    (r_run_id <$> c_current demo_stopped.1) = Some (r_run_id r) ∧ r_run_id r = "run"%string) as (r & Hf & Hfin & Hc & Hid).
  { vm_compute. eexists. split; [reflexivity|]. split; [reflexivity|]. split; reflexivity. }
  exists r. assert (unsaved_run demo_stopped.1 r (lab_service demo_scenario)) as Hu.
  { split; [exact Hf|]. split; [exact Hfin|]. split; [exact Hc|]. reflexivity. }
  split; [exact Hu|].
  destruct (finished_run_available demo_stopped.1 r (lab_service demo_scenario) Hu) as (_ & _ & Hr & _ & _ & Hin & _);
    [split; [apply dict_ok_nil|vm_compute; discriminate|intros ? ? []%elem_of_nil]|reflexivity|].
  cbv zeta. split; [exact Hr|]. rewrite Hid in Hin. exact Hin.
Defined.

(** Each node is asked once and answers with its request's id. *)
Definition lab_answer (node : byte) (id : Z) (bad dupe : Z) : float * sv_op :=
  (fzero, SvGateway (if decide (node = byte_of 11) then "a"%string else "b"%string)
     (GDaemonData (demo_frame ([byte_of 2; node] ++ (to_bytes2_big (id / 65536) ++ to_bytes2_big id) ++ [byte_of 9; byte_of 8; byte_of bad; byte_of dupe])))).

Definition lab_ask_and_answer : list sample_op :=
  [SampleAsk "a" fzero fzero; SampleAsk "b" fzero fzero;
   SampleMeanwhile fzero (lab_answer (byte_of 11) 0x4D4C0001 3 4).2;
   SampleWake "a"; SampleWake "b"; SampleAsk "b" (of_Z 20) (of_Z 20)].


(** ** Two runs behind the findings *)

(** The daemon of [a] drops its connection while [b] is still watched: the start
    returns, the simulation runs, the gateway of [a] has failed and nothing is
    scheduled. *)
Definition lab_unwatched : Service :=
  run_of (start_locked (lab_start (λ n, if decide (n = "b"%string) then [disconnect "a"] else [])) (lab_service demo_scenario)).

Example start_keeps_failed_gateway :
  outcome_of (start_locked (lab_start (λ n, if decide (n = "b"%string) then [disconnect "a"] else []))
                (lab_service demo_scenario)) = Some RUNNING ∧
  sv_state lab_unwatched = RUNNING ∧ failure_cleanup lab_unwatched = None ∧
  gateway_has_failed "a" lab_unwatched = true ∧ gateway_has_failed "b" lab_unwatched = false.
Proof. vm_compute. repeat split. Qed.

(** A start that was waiting for the lock when the failure came runs before the
    failure's cleanup, which then takes the new simulation down. *)
Definition lab_restarted : Service := run_of (start_locked (lab_start quiet) lab_failed).

Example stale_cleanup_stops_new_run :
  outcome_of (start_locked (lab_start quiet) lab_failed) = Some RUNNING ∧
  is_Some (sv_medium lab_restarted) ∧
  let sv := run_failure_cleanup lab_ending lab_cleanup lab_restarted in
  sv_state sv = RUNNING ∧ sv_medium sv = None ∧ sv_gateways sv = [].
Proof.
  split; [vm_compute; reflexivity|]. split; [|vm_compute; repeat split].
  destruct (sv_medium lab_restarted) eqn:E; [by eexists|]. apply (f_equal (λ o, bool_decide (o = None))) in E.
  vm_compute in E. discriminate E.
Qed.
