(* ===== verification/Api.v ===== *)
(** * The HTTP API (src/backend/app/main.py)

    One constructor of [request] per route, with the path and query parameters and the
    body; [handle] is the routes' handlers with the checks FastAPI makes of them first
    and the exception handlers.  A response is its status and its content before JSON
    encoding.  The websocket route is EventStream.v's. *)
From S2P Require Import Prelude PyDict PyFloat Framing Scenario Reachability Mesh Airtime Events Medium.
From S2P Require Import TrafficRequest Identifier PacketIds TrafficState TrafficHandlers TrafficLifecycle.
From S2P Require Import Gateway Utf8 ProcessLogs Processes ProcessLifecycle Configure Service ServiceOps ServiceRuns.

(** ** The file name of an exported scenario *)

(** The characters [urllib.parse.quote] keeps when nothing else is safe. *)
Definition unreserved (c : Ascii.ascii) : bool :=
  let n := Z.of_N (Ascii.N_of_ascii c) in
  z_between 48 57 n || z_between 65 90 n || z_between 97 122 n
  || (n =? 95) || (n =? 46) || (n =? 45) || (n =? 126).

Definition hex_upper (n : Z) : Ascii.ascii :=
  Ascii.ascii_of_nat (Z.to_nat (if n <? 10 then 48 + n else 55 + n)).

(** [quote(s, safe='')] of a string in UTF-8. *)
Fixpoint quote (s : string) : string :=
  match s with
  | EmptyString => EmptyString
  | String c s =>
    if unreserved c then String c (quote s)
    else let n := Z.of_N (Ascii.N_of_ascii c) in
      "%" +:+ String (hex_upper (n / 16)) (String (hex_upper (n mod 16)) (quote s))
  end.

Definition quoted (s : string) : string := String double_quote (s +:+ String double_quote EmptyString).

Definition export_disposition (name : string) : string :=
  "attachment; filename=" +:+ quoted "scenario.json" +:+ "; filename*=UTF-8''" +:+ quote (name +:+ ".json").

(** ** Requests and responses *)

Inductive request :=
| GetHealth
| GetCapabilities
| GetState
| GetScenario
| PutScenario (scenario_update : Scenario)
| ExportScenario
| PostStart
| PostStop
| PostReset
| GetNodes
| GetNodeLogs (node : string) (stream : option string) (limit : option Z)
| PutLink (link : DirectedLink)
| PutLinks (links : list DirectedLink)
| PostTopology (preset : TopologyPreset)
| PostTraffic (r : TrafficRunRequest)
| PostStopTraffic
| GetCurrentTraffic
| GetCompletedRuns
| GetTrafficResult (run_id : string)
| ExportTrafficResult (run_id : string)
| GetEvents (limit : option Z) (node : option string) (event_type : option EventType)
| GetEventHistory (after_sequence limit : option Z) (stream : option string).

(** The contents of the responses: [HealthView], [TrafficStarted] and [IdleTraffic] are
    the models of the routes. *)
Inductive content :=
| Health (status : string) (ready : bool) (lifecycle : string)
| Capabilities (v : CapabilityView)
| LifecycleOf (v : LifecycleView)
| ScenarioOf (s : Scenario)
| ScenarioFile (s : Scenario) (disposition : string)
| CommandOf (c : CommandResult)
| NodesOf (l : list NodeView)
| LogsOf (node stream : string) (lines : list text)
| LinkOf (l : DirectedLink)
| LinksOf (l : list DirectedLink)
| TrafficStarted (run_id : string)
| SummaryOf (s : TrafficRunSummary)
| IdleTraffic
| RunIds (l : list string)
| ResultFile (json : string)
| EventsOf (l : list PacketEvent)
| HistoryOf (page : EventHistoryPage)
| ErrorBody (code message : string)
| Detail (detail : string)
| InvalidRequest
| InternalError.

Record response := mkResponse { status : Z; body : content }.

Definition ok (c : content) : response := mkResponse 200 c.

(** The exception handlers; what has none is an internal error. *)
Definition error_response (e : exn) : response :=
  match e with
  | SimulationConflict code message => mkResponse 409 (ErrorBody code message)
  | FileNotFoundError message => mkResponse 404 (ErrorBody "NOT_FOUND" message)
  | _ => mkResponse 500 InternalError
  end.

Definition reply {A} (f : A → content) (r : res A) : response :=
  match r with Ok a => ok (f a) | Raise e => error_response e end.

(** What a request meets: clock readings, new ids, and the environments of the service's
    operations. *)
Record RequestEnv := mkRequestEnv {
  rq_now : float;
  rq_collision : bool;
  rq_command_id : string;
  rq_stream_id : string;
  rq_start : StartEnv;
  rq_waiting : sv_ops;
  rq_cleanup : CleanupEnv;
  rq_later : float;
  rq_traffic : TrafficEnv;
  rq_stopping : StopEnv (B := EventBroker) }.

Section api.
Context `{Meshtastic} `{PyText} `{PyRandom} `{RadioCodec} `{TelemetryCodec} `{ResultText TrafficRunSummary}
  `{Sha256} `{ResultReader} `{ScenarioDeps}.
Implicit Types (sv : Service).

(** ** Validation of the parameters *)

Definition stream_of (name : string) : option stream :=
  if decide (name = "stdout"%string) then Some STDOUT
  else if decide (name = "stderr"%string) then Some STDERR else None.

Definition at_least (low : Z) (v : option Z) : bool := match v with Some n => low <=? n | None => true end.
Definition in_range (low high : Z) (v : option Z) : bool := match v with Some n => z_between low high n | None => true end.

(** [None] is the 422 response. *)
Definition accepts (r : request) : bool :=
  match r with
  | PutScenario s => scenario_valid s
  | GetNodeLogs _ stream limit =>
    match stream with Some name => bool_decide (is_Some (stream_of name)) | None => true end && in_range 1 250 limit
  | PutLink l => link_fields_ok l
  | PutLinks ls => forallb link_fields_ok ls
  | PostTraffic r => request_valid r
  | GetEvents limit _ _ => in_range 1 5000 limit
  | GetEventHistory after_sequence limit stream =>
    at_least 0 after_sequence && in_range 1 5000 limit
    && match stream with Some s => str_between 1 64 s | None => true end
  | _ => true
  end.

(** ** The handlers *)

Definition health sv : content :=
  Health "ok" (bool_decide (lifecycle_text (sv_state sv) = "RUNNING"%string)) (lifecycle_text (sv_state sv)).

Definition node_logs (node : string) (stream : string) (limit : Z) sv : response :=
  if negb (has_logs node (sv_supervisor sv)) then mkResponse 404 (Detail ("unknown or stopped node: " +:+ node))
  else reply (LogsOf node stream)
         (recent_logs node (if decide (stream = "stderr"%string) then STDERR else STDOUT) limit (sv_supervisor sv)).

Definition summary_or_idle (s : option TrafficRunSummary) : content :=
  match s with Some s => SummaryOf s | None => IdleTraffic end.

Definition stop_traffic_run (env : RequestEnv) sv : Service * response :=
  let (sv, r) := stop_traffic (rq_stopping env) sv in
  (sv, reply summary_or_idle
         (_ ← r; match sv_traffic sv with Some c => TrafficLifecycle.summary (rq_now env) c | None => Ok None end)).

Definition pure {A} (sv : Service) (f : A → content) (r : res A) : option (Service * response) :=
  Some (sv, reply f r).

Definition done {A} (f : A → content) (w : Service * res A) : option (Service * response) :=
  Some (w.1, reply f w.2).

(** Starting, stopping and resetting wait for a scheduled cleanup: [None] while there is
    one, as while a start or a sampling has not ended. *)
Definition cleaned sv (r : option (Service * response)) : option (Service * response) :=
  match failure_cleanup sv with Some _ => None | None => r end.

Definition handle_accepted (env : RequestEnv) (r : request) sv : option (Service * response) :=
  match r with
  | GetHealth => Some (sv, ok (health sv))
  | GetCapabilities => Some (sv, ok (Capabilities (capabilities (rq_collision env) sv)))
  | GetState => Some (sv, ok (LifecycleOf (lifecycle sv)))
  | GetScenario => Some (sv, ok (ScenarioOf (sv_scenario sv)))
  | PutScenario s => done ScenarioOf (replace_scenario s sv)
  | ExportScenario =>
    Some (sv, ok (ScenarioFile (sv_scenario sv) (export_disposition (scenario_name (sv_scenario sv)))))
  | PostStart => cleaned sv (start_locked (rq_start env) sv ≫= done CommandOf)
  | PostStop =>
    cleaned sv (done CommandOf (stop (rq_command_id env) (rq_now env) (rq_waiting env) (rq_cleanup env) (rq_later env) sv))
  | PostReset => cleaned sv (done CommandOf (reset (rq_command_id env) (rq_stream_id env) (rq_now env) sv))
  | GetNodes => Some (sv, ok (NodesOf (nodes_view sv)))
  | GetNodeLogs node stream limit => Some (sv, node_logs node (default "stderr"%string stream) (default 100 limit) sv)
  | PutLink link => done LinkOf (update_one_link link (rq_now env) sv)
  | PutLinks ls => done LinksOf (update_links ls (rq_now env) sv)
  | PostTopology preset => done ScenarioOf (apply_topology preset (rq_now env) sv)
  | PostTraffic r => start_traffic (rq_traffic env) r sv ≫= done TrafficStarted
  | PostStopTraffic => Some (stop_traffic_run env sv)
  | GetCurrentTraffic => pure sv summary_or_idle (current_traffic_summary (rq_now env) sv)
  | GetCompletedRuns => Some (sv, ok (RunIds (completed_runs sv)))
  | GetTrafficResult run_id => pure sv SummaryOf (traffic_summary run_id (rq_now env) sv)
  | ExportTrafficResult run_id => pure sv ResultFile (export_traffic_result run_id sv)
  | GetEvents limit node type =>
    Some (sv, ok (EventsOf (recent (default 250 limit) node type (sv_broker sv))))
  | GetEventHistory after_sequence limit stream =>
    Some (sv, ok (HistoryOf (history_page (default 0 after_sequence) (default 5000 limit) stream (sv_broker sv))))
  end.

(** A request that FastAPI refuses does not reach its handler. *)
Definition handle (env : RequestEnv) (r : request) sv : option (Service * response) :=
  if accepts r then handle_accepted env r sv else Some (sv, mkResponse 422 InvalidRequest).

(** The end of the application's lifespan: a simulation that is not stopped is. *)
Definition shut_down (env : RequestEnv) sv : option Service :=
  if decide (lifecycle_text (sv_state sv) = "STOPPED"%string) then Some sv
  else match failure_cleanup sv with
       | Some _ => None
       | None => Some (stop (rq_command_id env) (rq_now env) (rq_waiting env) (rq_cleanup env) (rq_later env) sv).1
       end.
End api.
