(* ===== verification/ApiTheorems.v ===== *)
(** * What the API guarantees (src/backend/app/main.py)

    A request is at most one step of the service, so the API keeps the service's
    invariant; requests that read change nothing, an edit that is refused changes
    nothing, and the name of an exported scenario survives its header. *)
From S2P Require Import Prelude PyDict PyFloat Framing Scenario Reachability Mesh Airtime Events Medium.
From S2P Require Import TrafficRequest Identifier PacketIds TrafficState TrafficHandlers TrafficLifecycle.
From S2P Require Import Gateway Utf8 ProcessLogs Processes ProcessLifecycle Configure Service ServiceOps ServiceRuns.
From S2P Require Import ServiceTopology ServiceFrame ServiceInvariant ServiceSafety Api.

(** ** File names *)

Definition hex_digit (c : Ascii.ascii) : option Z :=
  let n := Z.of_N (Ascii.N_of_ascii c) in
  if z_between 48 57 n then Some (n - 48) else if z_between 65 70 n then Some (n - 55) else None.

(** The decoding of percent escapes (RFC 3986). *)
Fixpoint unquote (s : string) : option string :=
  match s with
  | EmptyString => Some EmptyString
  | String c rest =>
    if decide (c = Ascii.ascii_of_nat 37) then
      match rest with
      | String h (String l rest) =>
        h ← hex_digit h; l ← hex_digit l; rest ← unquote rest;
        Some (String (Ascii.ascii_of_N (Z.to_N (16 * h + l))) rest)
      | _ => None
      end
    else rest ← unquote rest; Some (String c rest)
  end.

(** Checking every character. *)
Definition all_ascii (P : Ascii.ascii → bool) : bool :=
  forallb (λ n, P (Ascii.ascii_of_nat n)) (seq 0 256).

Lemma all_ascii_spec P c : all_ascii P = true → P c = true.
Proof.
  unfold all_ascii. rewrite forallb_forall. intros HP. rewrite <-(Ascii.ascii_nat_embedding c).
  apply HP, in_seq. pose proof (Ascii.nat_ascii_bounded c). lia.
Qed.

Definition header_char (c : Ascii.ascii) : bool := unreserved c || bool_decide (c = Ascii.ascii_of_nat 37).

Definition escapes_back (c : Ascii.ascii) : bool :=
  let n := Z.of_N (Ascii.N_of_ascii c) in
  let h := hex_upper (n / 16) in
  let l := hex_upper (n mod 16) in
  if unreserved c then bool_decide (c ≠ Ascii.ascii_of_nat 37)
  else header_char h && header_char l &&
       bool_decide (hex_digit h = Some (n / 16) ∧ hex_digit l = Some (n mod 16) ∧
                    Ascii.ascii_of_N (Z.to_N (16 * (n / 16) + n mod 16)) = c).

Lemma escapes_back_all c : escapes_back c = true.
Proof. apply all_ascii_spec. vm_compute. reflexivity. Qed.

Lemma percent s : "%" +:+ s = String (Ascii.ascii_of_nat 37) s.
Proof. done. Qed.

Lemma quote_chars s : Forall (λ c, header_char c = true) (String.list_ascii_of_string (quote s)).
Proof.
  induction s as [|c s IH]; [constructor|]. pose proof (escapes_back_all c) as Hc. unfold escapes_back in Hc.
  cbn [quote]. destruct (unreserved c) eqn:Hu.
  - constructor; [unfold header_char; by rewrite Hu | done].
  - apply andb_true_iff in Hc as [[Hh Hl]%andb_true_iff _]. rewrite percent. by repeat constructor.
Qed.

Lemma unquote_quote s : unquote (quote s) = Some s.
Proof.
  induction s as [|c s IH]; [done|]. pose proof (escapes_back_all c) as Hc. unfold escapes_back in Hc.
  cbn [quote]. destruct (unreserved c).
  - apply bool_decide_eq_true in Hc. cbn [unquote]. rewrite decide_False, IH by done. done.
  - apply andb_true_iff in Hc as [_ (Hh & Hl & He)%bool_decide_eq_true].
    set (n := Z.of_N (Ascii.N_of_ascii c)) in *. rewrite percent. cbn [unquote].
    rewrite decide_True by done. rewrite Hh, Hl, IH. cbn [mbind option_bind]. by rewrite He.
Qed.

Section api.
Context `{Meshtastic} `{PyText} `{PyRandom} `{RadioCodec} `{TelemetryCodec} `{ResultText TrafficRunSummary}
  `{Sha256} `{ResultReader} `{ScenarioDeps}.
Implicit Types (sv : Service).

(** ** Requests as steps of the service *)

(** The checks of a scenario discharge what replacing one needs. *)
Lemma scenario_valid_graph s : scenario_valid s = true → graph_ok s ∧ nodes s ≠ [].
Proof.
  unfold scenario_valid, scenario_fields_ok. rewrite !andb_true_iff.
  intros [[[[[[[[[_ _] Hn] _] _] _] _] _] _] [s' Hs]%is_ok_inv].
  apply validate_graph_iff in Hs as [_ Hg]. split; [done|]. intros Hnil.
  pose proof (graph_count _ Hg) as Hc. rewrite Hnil in Hc. unfold z_between, zlen in *. cbn in Hc. rewrite Hc in Hn. done.
Qed.

Lemma update_one_link_step link now sv : (update_one_link link now sv).1 = (update_links [link] now sv).1.
Proof. unfold update_one_link. by destruct (update_links [link] now sv) as [? [?|?]]. Qed.

Lemma cleaned_inv sv r x : cleaned sv r = Some x → failure_cleanup sv = None ∧ r = Some x.
Proof. unfold cleaned. by destruct (failure_cleanup sv). Qed.

Lemma handle_step env r sv sv' resp : handle env r sv = Some (sv', resp) → sv' = sv ∨ service_step sv sv'.
Proof.
  unfold handle. destruct (accepts r) eqn:Ha; [|intros [= <- _]; by left].
  destruct r; cbn [handle_accepted]; try (intros [= <- _]; by left).
  - unfold done. intros [= <- _]. right. cbn in Ha. apply scenario_valid_graph in Ha as [??]. by constructor.
  - intros [Hf Hr]%cleaned_inv. right.
    destruct (start_locked (rq_start env) sv) as [[sv1 c]|] eqn:Hs; [|done]. injection Hr as <- _.
    by eapply ss_start.
  - intros [Hf Hr]%cleaned_inv. injection Hr as <- _. right. by constructor.
  - intros [Hf Hr]%cleaned_inv. injection Hr as <- _. right. by constructor.
  - unfold done. intros [= <- _]. rewrite update_one_link_step. right. constructor.
  - unfold done. intros [= <- _]. right. constructor.
  - unfold done. intros [= <- _]. right. constructor.
  - destruct (start_traffic (rq_traffic env) r sv) as [[sv1 c]|] eqn:Hs; [|done]. intros [= <- _]. right.
    by eapply ss_start_traffic.
  - intros Hr. injection Hr as Hr. apply (f_equal fst) in Hr. cbn in Hr. subst sv'. right.
    unfold stop_traffic_run. destruct (stop_traffic (rq_stopping env) sv) as [sv1 c] eqn:Hs. cbn.
    replace sv1 with (stop_traffic (rq_stopping env) sv).1 by (by rewrite Hs). constructor.
Qed.

Lemma shut_down_step env sv sv' : shut_down env sv = Some sv' → sv' = sv ∨ service_step sv sv'.
Proof.
  unfold shut_down. case_decide; [intros [= <-]; by left|]. destruct (failure_cleanup sv) eqn:Hf; [done|].
  intros [= <-]. right. by constructor.
Qed.

(** ** Responses *)

Definition reads (r : request) : bool :=
  match r with
  | PutScenario _ | PutLink _ | PutLinks _ | PostTopology _ | PostStart | PostStop | PostReset
  | PostTraffic _ | PostStopTraffic => false
  | _ => true
  end.

(** Edits of the scenario. *)
Definition edits (r : request) : bool :=
  match r with
  | PutScenario _ | PutLink _ | PutLinks _ | PostTopology _ | PostReset => true
  | _ => false
  end.

(** An operation that succeeds, or conflicts and changes nothing. *)
Definition atomic {A} (sv : Service) (w : Service * res A) : Prop :=
  match w.2 with Ok _ => True | Raise e => w.1 = sv ∧ is_conflict e end.

Lemma atomic_response {A} (f : A → content) w sv sv' resp :
  atomic sv w → done f w = Some (sv', resp) → status resp = 200 ∨ sv' = sv ∧ status resp = 409.
Proof.
  destruct w as [sv1 [a|e]]; unfold atomic, done; cbn; [intros _ [= _ <-]; by left|].
  intros [-> (code & message & ->)] [= <- <-]. by right.
Qed.

Lemma update_links_atomic ls now sv : topology_ok sv → atomic sv (update_links ls now sv).
Proof.
  intros Hok. pose proof (update_links_spec ls now sv Hok) as Hu. unfold atomic.
  destruct (update_links ls now sv) as [sv' [l|e]]; [done | split; apply Hu].
Qed.

Lemma update_one_link_atomic link now sv : topology_ok sv → atomic sv (update_one_link link now sv).
Proof.
  intros Hok. pose proof (update_links_spec [link] now sv Hok) as Hu. unfold update_one_link, atomic.
  destruct (update_links [link] now sv) as [sv' [l|e]]; cbn; [|split; apply Hu]. by destruct Hu as (_ & -> & _).
Qed.

Lemma apply_topology_atomic preset now sv : topology_ok sv → atomic sv (apply_topology preset now sv).
Proof.
  intros Hok. pose proof (apply_topology_spec preset now sv Hok) as Hu. unfold atomic.
  destruct (apply_topology preset now sv) as [sv' [l|e]]; [done | split; apply Hu].
Qed.

Lemma replace_scenario_atomic scenario sv : atomic sv (replace_scenario scenario sv).
Proof. unfold replace_scenario, atomic. destruct (negb _); [|done]. split; [done | by eexists _, _]. Qed.

Lemma reset_atomic id stream_id now sv : atomic sv (reset id stream_id now sv).
Proof.
  unfold reset, atomic. destruct (negb _); [split; [done | by eexists _, _]|].
  destruct default_scenario_ok as (s & -> & _). done.
Qed.

Lemma edit_response env r sv sv' resp :
  service_ok sv → edits r = true → handle env r sv = Some (sv', resp) →
  status resp = 200 ∨ sv' = sv ∧ status resp ∈ [409; 422].
Proof.
  intros Hok Hr. apply service_ok_topology in Hok. unfold handle.
  destruct (accepts r); [|intros [= <- <-]; right; set_solver].
  intros Hh. assert (status resp = 200 ∨ sv' = sv ∧ status resp = 409) as [?|[-> ->]]; [|by left|right; set_solver].
  revert Hh. destruct r; try done; cbn [handle_accepted].
  - apply atomic_response, replace_scenario_atomic.
  - intros [_ Hh]%cleaned_inv. revert Hh. apply atomic_response, reset_atomic.
  - by apply atomic_response, update_one_link_atomic.
  - by apply atomic_response, update_links_atomic.
  - by apply atomic_response, apply_topology_atomic.
Qed.

Lemma read_response env r sv sv' resp : reads r = true → handle env r sv = Some (sv', resp) → sv' = sv.
Proof. unfold handle. destruct (accepts r), r; try done; cbn [handle_accepted]; by intros _ [= <- _]. Qed.

Lemma error_status e : status (error_response e) ∈ [404; 409; 500].
Proof. destruct e; cbn; set_solver. Qed.

Lemma reply_status {A} (f : A → content) r : status (reply f r) ∈ [200; 404; 409; 500].
Proof. destruct r as [a|e]; cbn; [set_solver|]. pose proof (error_status e). set_solver. Qed.

Lemma done_status {A} (f : A → content) w sv' resp :
  done f w = Some (sv', resp) → status resp ∈ [200; 404; 409; 500].
Proof. intros [= _ <-]. apply reply_status. Qed.

Lemma accepted_status env r sv sv' resp :
  handle_accepted env r sv = Some (sv', resp) → status resp ∈ [200; 404; 409; 500].
Proof.
  destruct r; cbn [handle_accepted]; intros Hh;
    try (injection Hh as _ <-; cbn; set_solver); try (by eapply done_status);
    try (injection Hh as _ <-; apply reply_status).
  - apply cleaned_inv in Hh as [_ Hh]. destruct (start_locked _ _) as [w|]; [|done]. by eapply done_status.
  - apply cleaned_inv in Hh as [_ Hh]. by eapply done_status.
  - apply cleaned_inv in Hh as [_ Hh]. by eapply done_status.
  - injection Hh as _ <-. unfold node_logs. destruct (negb _); [cbn; set_solver | apply reply_status].
  - destruct (start_traffic _ _ _) as [w|]; [|done]. by eapply done_status.
  - unfold stop_traffic_run in Hh. destruct (stop_traffic _ _). injection Hh as _ <-. apply reply_status.
Qed.

Lemma refused_status env r sv sv' resp :
  handle env r sv = Some (sv', resp) → status resp = 422 ↔ accepts r = false.
Proof.
  unfold handle. destruct (accepts r); [|by intros [= _ <-]].
  intros Hh%accepted_status. split; [|done]. intros E. rewrite E in Hh. set_solver.
Qed.

(** The logs of a node are served exactly when it has some. *)
Lemma node_logs_status node stream limit sv :
  status (node_logs node stream limit sv) = if has_logs node (sv_supervisor sv) then 200 else 404.
Proof.
  unfold node_logs, has_logs, recent_logs.
  destruct (dmem node (sup_records _)) eqn:Hr; [|destruct (dmem node (archived_logs _)) eqn:Ha; [|done]]; cbn [orb negb].
  - apply dmem_spec in Hr as [r ->]. done.
  - apply dmem_spec in Ha as [a Ha]. destruct (dget node (sup_records _)); [done|]. by rewrite Ha.
Qed.

(** ** The scenario served *)

Lemma frame_scenario sv sv' : frame sv sv' → sv_scenario sv' = sv_scenario sv.
Proof. intros [Hf _]. unfold fixed_part in Hf. congruence. Qed.

Lemma preserves_scenario sv sv' : preserves sv sv' → sv_scenario sv' = sv_scenario sv.
Proof. intros (Hf & _). unfold settled_fields in Hf. congruence. Qed.

Lemma sampling_scenario sv sv' : sampling sv sv' → sv_scenario sv' = sv_scenario sv.
Proof. intros (Hf & _). destruct sv, sv'. unfold fixed_part in Hf. cbn in *. congruence. Qed.

Lemma archive_scenario c sv : sv_scenario (archive_unpersisted c sv) = sv_scenario sv.
Proof. by rewrite archive_unpersisted_fields. Qed.

Lemma start_sampled_scenario env request baseline sv :
  sv_scenario (start_sampled env request baseline sv).1 = sv_scenario sv.
Proof.
  unfold start_sampled. destruct (sv_traffic sv) as [c|]; [|done]. destruct (negb (is_running sv)); [done|].
  rewrite <-(archive_scenario c sv). set (sv1 := archive_unpersisted c sv). clearbody sv1.
  match goal with |- context [on_traffic ?d ?f sv1] => pose proof (on_traffic_frame d f sv1) as Hf end.
  apply frame_scenario in Hf. destruct (on_traffic _ _ sv1) as [sv2 r]. exact Hf.
Qed.

Lemma start_traffic_scenario env request sv sv' r :
  start_traffic env request sv = Some (sv', r) → sv_scenario sv' = sv_scenario sv.
Proof.
  unfold start_traffic. destruct (sv_traffic sv) as [c|]; [|by intros [= <- _]].
  destruct (negb (is_running sv)); [by intros [= <- _]|].
  pose proof (sample_local_stats_sampling (tr_now env) (tr_patience env) (tr_sampling env) sv) as Hs.
  apply sampling_scenario in Hs. destruct (sample_local_stats _ _ _ sv) as [sv1 o]. cbn [fst] in Hs. rewrite <-Hs.
  destruct (c_state c); try (by intros [= <- _]); destruct o as [[baseline|e]|]; try done;
    try (by intros [= <- _]); cbv zeta; intros Hr; injection Hr as Hr;
    assert (sv' = (sv', r).1) as -> by done; rewrite <-Hr, start_sampled_scenario;
    by destruct (tr_stop_requested env).
Qed.

Lemma stop_traffic_scenario env sv : sv_scenario (stop_traffic env sv).1 = sv_scenario sv.
Proof.
  unfold stop_traffic. destruct (sv_traffic sv) as [c|]; [|done]. by destruct (TrafficLifecycle.stop _ _ _) as [[[c' b] fs] r].
Qed.

Lemma settle_late_scenario now f sv : sv_scenario (settle_late now f sv) = sv_scenario sv.
Proof.
  unfold settle_late. destruct (late_runs sv) as [|c rest]; [done|]. destruct (f _) as [[c' b] fs]. cbv zeta.
  destruct (TrafficLifecycle.summary _ _) as [s|e]; [|done]. rewrite archive_scenario. by case_match.
Qed.

Lemma failure_cleanup_scenario failing env sv : sv_scenario (run_failure_cleanup failing env sv) = sv_scenario sv.
Proof.
  destruct (failure_cleanup sv) as [reason|] eqn:Hf.
  - apply preserves_scenario, (run_failure_cleanup_outcome failing env sv reason Hf).
  - unfold run_failure_cleanup. by rewrite Hf.
Qed.

Lemma stop_scenario id now waiting env later sv :
  startup_active sv = false → sv_scenario (stop id now waiting env later sv).1 = sv_scenario sv.
Proof.
  intros Hs. pose proof (stop_outcome id now waiting env later sv Hs) as Ho.
  destruct (stop id now waiting env later sv) as [sv' r]. by apply preserves_scenario, Ho.
Qed.

(** Validity of a scenario with other links. *)
Lemma scenario_valid_links s ls :
  scenario_valid s = true → forallb link_fields_ok ls = true → graph_ok (s <| links := ls |>) →
  scenario_valid (s <| links := ls |>) = true.
Proof.
  intros Hv Hl Hg. unfold scenario_valid, scenario_fields_ok in *. rewrite !andb_true_iff in *.
  destruct Hv as [[[[[[[[[? ?] ?] ?] ?] ?] ?] ?] _] _].
  split_and!; try done. by rewrite (proj2 (validate_graph_iff _ _) (conj eq_refl Hg)).
Qed.

Lemma scenario_valid_fields s l : scenario_valid s = true → l ∈ links s → link_fields_ok l = true.
Proof.
  unfold scenario_valid, scenario_fields_ok. rewrite !andb_true_iff. intros [[_ Hl] _] Hin.
  rewrite forallb_forall in Hl. by apply Hl, list_elem_of_In.
Qed.

Definition valid_links (ls : list DirectedLink) : Prop := Forall (λ l, link_fields_ok l = true) ls.

Lemma valid_links_forallb ls : valid_links ls ↔ forallb link_fields_ok ls = true.
Proof.
  unfold valid_links. rewrite Forall_forall, forallb_forall. setoid_rewrite list_elem_of_In. done.
Qed.

Lemma preset_links_valid s preset ls :
  scenario_valid s = true → Forall2 (preset_link s preset) (links s) ls → forallb link_fields_ok ls = true.
Proof.
  intros Hv Hf. apply valid_links_forallb.
  assert (valid_links (links s)) as Hl by (apply Forall_forall; intros l; by apply scenario_valid_fields).
  clear Hv. unfold valid_links in *. induction Hf as [|l l' ls ls' (? & ? & ? & _ & _ & _ & ->) _ IH]; [constructor|].
  apply Forall_cons in Hl as [??]. constructor; [done | by apply IH].
Qed.

Lemma update_links_valid ls now sv :
  service_ok sv → scenario_valid (sv_scenario sv) = true → forallb link_fields_ok ls = true →
  scenario_valid (sv_scenario (update_links ls now sv).1) = true.
Proof.
  intros Hok Hv Hl. pose proof (update_links_spec ls now sv (service_ok_topology _ Hok)) as Hu.
  destruct (update_links ls now sv) as [sv' [l|e]]; cbn [fst]; [|by destruct Hu as [-> _]].
  destruct Hu as ((_ & Hnd & _ & _ & Hkn & _) & _ & m & _ & -> & Ht). pose proof (tk_graph _ Ht) as Hg.
  rewrite (proj1 (edited_fields _ _ _ _)) in Hg |- *. apply scenario_valid_links; [done| |exact Hg].
  apply valid_links_forallb, Forall_forall. intros x [Hx|[Hx _]]%(replace_links_elem ls _ _ Hnd Hkn).
  - apply valid_links_forallb in Hl. unfold valid_links in Hl. rewrite Forall_forall in Hl. by apply Hl.
  - by eapply scenario_valid_fields.
Qed.

Lemma apply_topology_valid preset now sv :
  service_ok sv → scenario_valid (sv_scenario sv) = true →
  scenario_valid (sv_scenario (apply_topology preset now sv).1) = true.
Proof.
  intros Hok Hv. pose proof (apply_topology_spec preset now sv (service_ok_topology _ Hok)) as Hu.
  destruct (apply_topology preset now sv) as [sv' [updated|e]]; cbn [fst]; [|by destruct Hu as [-> _]].
  destruct Hu as (Hf & Eu & Es & Ht & _). pose proof (tk_graph _ Ht) as Hg. rewrite Es in Hg |- *. rewrite Eu in Hg |- *.
  apply scenario_valid_links; [done| |exact Hg]. by eapply preset_links_valid.
Qed.

(** ** Reachable states *)

(** A request, the end of the application, or a task of the service. *)
Inductive api_step sv : Service → Prop :=
| ap_request env r sv' resp : handle env r sv = Some (sv', resp) → api_step sv sv'
| ap_shut_down env sv' : shut_down env sv = Some sv' → api_step sv sv'
| ap_task now op : api_step sv (sv_step now op sv)
| ap_failure_cleanup failing env : api_step sv (run_failure_cleanup failing env sv)
| ap_settle_late now finalized : api_step sv (settle_late now finalized sv).

Lemma api_step_service sv sv' : api_step sv sv' → sv' = sv ∨ service_step sv sv'.
Proof.
  intros [env r sv1 resp Hh|env sv1 Hh|now op|failing env|now finalized];
    [by eapply handle_step | by eapply shut_down_step | right; constructor..].
Qed.

Lemma api_step_ok sv sv' : service_ok sv → api_step sv sv' → service_ok sv'.
Proof. intros Hok [->|Hs]%api_step_service; [done | by eapply service_step_ok]. Qed.

Section defaults.
Context (key : byte) (Hus : is_Some (region_code "US")) (Hkey : b64decode "AQ==" = Some [key]).

Lemma default_valid s : default_scenario 5 = Ok s → scenario_valid s = true.
Proof. intros Hs. pose proof (default_scenario_valid _ 5 key Hus Hkey) as Hv. rewrite Hs in Hv. apply Hv. Qed.

Lemma handle_valid env r sv sv' resp :
  service_ok sv → scenario_valid (sv_scenario sv) = true → handle env r sv = Some (sv', resp) →
  scenario_valid (sv_scenario sv') = true.
Proof.
  intros Hok Hv. unfold handle. destruct (accepts r) eqn:Ha; [|by intros [= <- _]].
  destruct r; cbn [handle_accepted]; try (by intros [= <- _]); cbn [accepts] in Ha; unfold done.
  - intros [= <- _]. unfold replace_scenario. by destruct (negb _).
  - intros [_ Hr]%cleaned_inv. destruct (start_locked _ sv) as [[sv1 c]|] eqn:Hs; [|done]. injection Hr as <- _. cbn [fst].
    apply start_locked_outcome in Hs as (_ & Hp & _); [|apply Hok]. by rewrite (preserves_scenario _ _ Hp).
  - intros [_ Hr]%cleaned_inv. injection Hr as <- _. by rewrite stop_scenario by apply Hok.
  - intros [_ Hr]%cleaned_inv. injection Hr as <- _. unfold reset. destruct (negb _); [done|].
    destruct (default_scenario 5) as [s|] eqn:Hs; [|done]. by apply default_valid.
  - intros [= <- _]. rewrite update_one_link_step. apply update_links_valid; [done..|]. cbn. by rewrite Ha.
  - intros [= <- _]. by apply update_links_valid.
  - intros [= <- _]. by apply apply_topology_valid.
  - destruct (start_traffic _ _ sv) as [[sv1 c]|] eqn:Hs; [|done]. intros [= <- _]. cbn [fst].
    by rewrite (start_traffic_scenario _ _ _ _ _ Hs).
  - intros Hr. injection Hr as Hr. apply (f_equal fst) in Hr. cbn in Hr. subst sv'. unfold stop_traffic_run.
    pose proof (stop_traffic_scenario (rq_stopping env) sv) as Hs. destruct (stop_traffic _ sv). cbn in *. by rewrite Hs.
Qed.

Lemma api_step_valid sv sv' :
  service_ok sv → scenario_valid (sv_scenario sv) = true → api_step sv sv' → scenario_valid (sv_scenario sv') = true.
Proof.
  intros Hok Hv [env r sv1 resp Hh|env sv1 Hh|now op|failing env|now finalized].
  - by eapply handle_valid.
  - revert Hh. unfold shut_down. case_decide; [by intros [= <-]|]. destruct (failure_cleanup sv); [done|].
    intros [= <-]. by rewrite stop_scenario by apply Hok.
  - by rewrite (frame_scenario _ _ (sv_step_frame now op sv)).
  - by rewrite failure_cleanup_scenario.
  - by rewrite settle_late_scenario.
Qed.

Lemma constructed_valid sv : constructed sv → scenario_valid (sv_scenario sv) = true.
Proof.
  intros (d & r & sc & bu & sup & br & res & Hd & _ & Hi). unfold service_init in Hi.
  destruct (guard_raise _ _) as [?|?]; [|done]. injection Hi as <-. by apply default_valid.
Qed.

Lemma api_reachable sv0 sv :
  constructed sv0 → rtc api_step sv0 sv → service_ok sv ∧ scenario_valid (sv_scenario sv) = true.
Proof.
  intros Hc Hs. pose proof (constructed_ok _ Hc) as Hok. pose proof (constructed_valid _ Hc) as Hv. clear Hc.
  induction Hs as [|sv1 sv2 sv3 Hs _ IH]; [done|]. apply IH; [by eapply api_step_ok | by eapply api_step_valid].
Qed.
End defaults.

Lemma ready_running sv st l : health sv = Health st true l → sv_state sv = RUNNING.
Proof. unfold health. intros [= _ Hr _]. apply bool_decide_eq_true in Hr. by destruct (sv_state sv). Qed.


(** C9: The responses.  A status is 200, 404, 409, 422 or 500; it is 422 exactly for a
    request whose parameters are refused, which changes nothing, and a request that reads
    changes nothing.  An edit of the scenario succeeds, or is refused with 409 or 422 and
    changes nothing; it is never an internal error.  The logs of a node are served
    exactly when the supervisor has them, and are otherwise not found. *)
Theorem responses_correct env r sv sv' resp :
  service_ok sv → handle env r sv = Some (sv', resp) →
  status resp ∈ [200; 404; 409; 422; 500] ∧
  (status resp = 422 ↔ accepts r = false) ∧
  (accepts r = false ∨ reads r = true → sv' = sv) ∧
  (edits r = true → status resp = 200 ∨ sv' = sv ∧ status resp ∈ [409; 422]) ∧
  (∀ node stream limit, r = GetNodeLogs node stream limit → accepts r = true →
     status resp = if has_logs node (sv_supervisor sv) then 200 else 404).
Proof.
  intros Hok Hh. split_and!.
  - pose proof (refused_status _ _ _ _ _ Hh) as Hr. destruct (accepts r) eqn:Ha.
    + unfold handle in Hh. rewrite Ha in Hh. apply accepted_status in Hh. set_solver.
    + rewrite (proj2 Hr) by done. set_solver.
  - by eapply refused_status.
  - intros [Ha|Hr]; [|by eapply read_response]. unfold handle in Hh. rewrite Ha in Hh. by injection Hh as <- _.
  - intros Hr. by eapply edit_response.
  - intros node stream limit -> Ha. unfold handle in Hh. rewrite Ha in Hh. injection Hh as _ <-. apply node_logs_status.
Qed.
End api.

(** The name of an exported scenario survives its header: decoding the percent
    escapes of [filename*] gives the name back, and the encoded name has no character
    but unreserved ones and the percent sign, so no name can end the header or its
    quoted string. *)
Theorem export_name_roundtrip s :
  unquote (quote s) = Some s ∧
  Forall (λ c, unreserved c = true ∨ c = Ascii.ascii_of_nat 37) (String.list_ascii_of_string (quote s)).
Proof.
  split; [apply unquote_quote|]. eapply Forall_impl; [apply quote_chars|]. intros c Hc.
  unfold header_char in Hc. apply orb_true_iff in Hc as [?|?%bool_decide_eq_true]; [by left | by right].
Qed.
