(* ===== verification/ApiExamples.v ===== *)
(** * The API at work

    The service of ServiceExamples behind its API: a start, an edit of a link and an
    export, and a start without the firmware binary. *)
From Stdlib Require Import Floats.SpecFloat.
From S2P Require Import Prelude PyDict PyFloat Framing Scenario Reachability Mesh Airtime Events Medium.
From S2P Require Import TrafficRequest Identifier PacketIds TrafficState TrafficHandlers TrafficLifecycle RunExamples.
From S2P Require Import Gateway GatewayExamples Utf8 ProcessLogs Processes ProcessLifecycle ProcessExamples.
From S2P Require Import Configure Service ServiceOps ServiceRuns ServiceTopology ServiceFrame ServiceInvariant ServiceSafety.
From S2P Require Import ServiceResults ServiceExamples Api ApiTheorems.

#[local] Existing Instance sample_protobuf.
#[local] Existing Instance sample_text.
#[local] Existing Instance sample_random.
#[local] Existing Instance sample_result_text.
#[local] Existing Instance sample_sha256.
#[local] Existing Instance lab_codec.
#[local] Existing Instance lab_telemetry.
#[local] Existing Instance lab_reader.
#[local] Existing Instance witness_deps.

Definition lab_request (start : StartEnv) : RequestEnv :=
  mkRequestEnv fzero true "command" "stream-2" start [] lab_cleanup fzero
    (mkTrafficEnv fzero (of_Z 10) [] None "run") lab_ending.

(** The states after a start, and after an edit of a link that follows it. *)
Definition after (o : option (Service * response)) (sv : Service) : Service :=
  match o with Some (sv, _) => sv | None => sv end.
Definition status_of (o : option (Service * response)) : option Z := status ∘ snd <$> o.

Lemma status_of_eq o s sv : status_of o = Some s → ∃ resp, o = Some (after o sv, resp) ∧ status resp = s.
Proof. destruct o as [[sv' resp]|]; [|done]. intros [= <-]. by exists resp. Qed.

Definition api_new : Service := lab_service new_scenario.
Definition api_started : Service := after (handle (lab_request (lab_start quiet)) PostStart api_new) api_new.
Definition api_link : DirectedLink := mkLink "node-2" "node-1" false (-70) (of_Z 3).
Definition api_edited : Service := after (handle (lab_request (lab_start quiet)) (PutLink api_link) api_started) api_started.

Lemma api_new_constructed : constructed api_new.
Proof.
  exists (of_Z 10), (of_Z 1), new_scenario, lab_build, lab_supervisor, (new_broker 8 4 "stream"), ∅.
  split; [vm_compute; reflexivity|]. split; [reflexivity|vm_compute; reflexivity].
Qed.

Lemma served_scenario env sv s : handle env GetScenario sv = Some (sv, ok (ScenarioOf s)) → s = sv_scenario sv.
Proof. by intros [= ->]. Qed.


Lemma responses_correct_witness :
  service_ok lab_running ∧
  (∃ sv' resp, handle (lab_request (lab_start quiet)) PostReset lab_running = Some (sv', resp) ∧
     sv' = lab_running ∧ status resp = 409) ∧
  ∃ sv' resp, handle (lab_request (lab_start quiet)) (GetNodeLogs "c" None None) lab_running = Some (sv', resp) ∧
     sv' = lab_running ∧ status resp = 404.
Proof.
  split; [apply lab_running_ok|]. split.
  - destruct (status_of_eq (handle (lab_request (lab_start quiet)) PostReset lab_running) 409 lab_running) as (resp & Hr & Hs);
      [vm_compute; reflexivity|].
    eexists _, resp. split; [exact Hr|]. split; [|exact Hs].
    destruct (responses_correct _ _ _ _ _ lab_running_ok Hr) as (_ & _ & _ & He & _).
    destruct (He eq_refl) as [Hs'|[E _]]; [rewrite Hs in Hs'; discriminate Hs' | exact E].
  - destruct (status_of_eq (handle (lab_request (lab_start quiet)) (GetNodeLogs "c" None None) lab_running) 404 lab_running)
      as (resp & Hr & Hs); [vm_compute; reflexivity|].
    eexists _, resp. split; [exact Hr|]. split; [|exact Hs].
    destruct (responses_correct _ _ _ _ _ lab_running_ok Hr) as (_ & _ & Hread & _). apply Hread. by right.
Defined.

(** A start whose firmware binary is missing is answered 404, as an unknown run is. *)
Definition without_binary : StartEnv :=
  let env := lab_start quiet in
  mkStartEnv (st_clock env) (st_wall_clock env) (st_command_id env) (st_simulation_id env) true (st_released env)
    (st_fuel env) (mkSupervisorStart false (Ok tt) (λ i, mkSpawn (Ok tt) [] (Ok (100 + i, true))) [] [])
    (st_bind env) (st_gateway env) (st_configure env) (st_waiting env) (st_warmup_seconds env) (st_cleanup env).

Example missing_binary_not_found :
  (λ o, body ∘ snd <$> o) (handle (lab_request without_binary) PostStart api_new) =
    Some (ErrorBody "NOT_FOUND" "native firmware binary not found: /usr/bin/meshtasticd") ∧
  status_of (handle (lab_request without_binary) PostStart api_new) = Some 404 ∧
  sv_state (after (handle (lab_request without_binary) PostStart api_new) api_new) = FAILED.
Proof. vm_compute. repeat split. Qed.
