(* ===== verification/Bench.v ===== *)
(** * The system benchmark (src/experiments/run_system_bench.py)

    The benchmark drives the program through its API: its calls are [request]s of Api.v,
    what they return is the environment of each operation, and the calls made and files
    written are recorded in order ([bench]).  Experiments and workloads are records
    where the code has the JSON they are validated from. *)
From Stdlib Require Import Floats.SpecFloat.
From S2P Require Import Prelude PyDict PyFloat Scenario Calculations Events PyDecimal TrafficRequest TrafficState.
From S2P Require Import TrafficLifecycle Service ServiceOps Api.

Definition TRAFFIC_WAIT_GRACE_SECONDS : float := of_Z 30.

(** ** Experiments and workloads *)

Record ResourceSample := mkResourceSample {
  rs_monotonic_seconds : float;
  rs_cpu_percent : float;
  rs_memory : string;
  rs_pids : Z }.

Record Experiment := mkExperiment {
  x_name : string;
  x_request : TrafficRunRequest;
  x_link_schedule : list (float * DirectedLink);
  x_repetitions : Z }.

Record WorkloadScenario := mkWorkloadScenario {
  ws_node_count : Z;
  ws_topology : TopologyPreset;
  ws_region : string;
  ws_frequency_slot : Z;
  ws_hop_limit : Z;
  ws_fresh_state : bool }.

Record WorkloadDefinition := mkWorkload {
  wl_schema_version : Z;
  wl_name : string;
  wl_scenario : WorkloadScenario;
  wl_modem_presets : list string;
  wl_traffic : TrafficRunRequest;
  wl_trials : Z }.

(** The groups of a benchmark: scenarios with their experiments. *)
Abbreviation groups := (list (Scenario * list Experiment)).

Definition lower_char (c : Ascii.ascii) : Ascii.ascii :=
  let n := Ascii.N_of_ascii c in if ((65 <=? n) && (n <=? 90))%N then Ascii.ascii_of_N (n + 32) else c.

Definition underscore : Ascii.ascii := Ascii.ascii_of_nat 95.
Definition hyphen : Ascii.ascii := Ascii.ascii_of_nat 45.

Definition map_chars (f : Ascii.ascii → Ascii.ascii) (s : string) : string :=
  String.string_of_list_ascii (f <$> String.list_ascii_of_string s).

(** [str.lower], and [replace('_', '-')] *)
Definition lower (s : string) : string := map_chars lower_char s.
Definition hyphenated (s : string) : string :=
  map_chars (λ c, if decide (c = underscore) then hyphen else c) s.

Definition topology_text (t : TopologyPreset) : string :=
  match t with
  | FULL_MESH => "full-mesh" | LINE => "line" | STAR => "star" | ALL_ISOLATED => "all-isolated"
  end.

Definition timing_text (t : SourceTiming) : string :=
  match t with
  | ALIGNED => "aligned" | EVENLY_STAGGERED => "evenly-staggered" | DETERMINISTIC_JITTER => "deterministic-jitter"
  end.

(** [scenario] *)
Definition bench_scenario (node_count : Z) (topology : TopologyPreset) (preset : string) : res Scenario :=
  value ← default_scenario node_count;
  value ← apply_topology_preset value topology;
  Ok (value <| scenario_name := "bench-" +:+ pretty node_count +:+ "-" +:+ topology_text topology +:+ "-" +:+ lower preset |>
            <| rf := (rf value) <| modem_preset := preset |> |>).

Section workloads.
Context `{ScenarioDeps}.

(** [RFSettings(...)]: the settings, if they validate. *)
Definition checked_rf (r : RFSettings) : res RFSettings :=
  if rf_fields_ok r then validate_preset r else Raise (ValueError "RFSettings").

Definition workload_scenario (w : WorkloadDefinition) (preset : string) : res Scenario :=
  let settings := wl_scenario w in
  value ← default_scenario (ws_node_count settings);
  value ← apply_topology_preset value (ws_topology settings);
  r ← checked_rf (mkRF (ws_region settings) preset (ws_frequency_slot settings) (ws_hop_limit settings)
                    (collision_mode default_rf));
  Ok (value <| scenario_name := wl_name w +:+ "-" +:+ hyphenated (lower preset) |> <| rf := r |>
            <| fresh_state := ws_fresh_state settings |>).

Definition validate_modem_presets (values : list string) : res (list string) :=
  _ ← guard_raise (negb (bool_decide (NoDup values))) (ValueError "modemPresets must be unique");
  _ ← map_res (λ v, checked_rf (default_rf <| modem_preset := v |>)) values;
  Ok values.

(** What [WorkloadDefinition.model_validate_json] accepts. *)
Definition workload_valid (w : WorkloadDefinition) : bool :=
  let s := wl_scenario w in
  (wl_schema_version w =? 1) && matches_id 63 (wl_name w)
  && z_between 2 10 (ws_node_count s) && z_between 0 255 (ws_frequency_slot s) && z_between 1 7 (ws_hop_limit s)
  && z_between 1 9 (zlen (wl_modem_presets w)) && is_ok (validate_modem_presets (wl_modem_presets w))
  && request_valid (wl_traffic w) && z_between 1 10 (wl_trials w).
End workloads.

(** ** Waiting *)

Inductive bench_call :=
| Call (r : request)
| WriteFile (name : string).

Abbreviation bench := (traced bench_call).

(** A poll of the state: the error of the request or of its status, or the state and
    the [repr] of the response. *)
Inductive poll :=
| PollRaised (e : exn)
| PolledState (state shown : string).

(** [wait_for_state]; the deadline passes when the list ends. *)
Fixpoint wait_for_state (expected : string) (polls : list poll) (last : string) : bench string :=
  match polls with
  | [] => ([], Raise (TimeoutError ("timed out waiting for " +:+ expected +:+ ": " +:+ last)))
  | PollRaised e :: _ => ([Call GetState], Raise e)
  | PolledState state shown :: polls =>
    let (calls, r) :=
      if decide (state = expected) then ([], Ok shown)
      else if decide (state = "FAILED"%string) then
        ([], Raise (RuntimeError ("simulation failed while waiting for " +:+ expected +:+ ": " +:+ shown)))
      else wait_for_state expected polls shown in
    (Call GetState :: calls, r)
  end.

(** What a poll of a run says, and the sample kept of it. *)
Record RunStatus := mkRunStatus {
  st_state : string;
  st_phase : string;
  st_requested : Z;
  st_submitted : Z;
  st_pending : Z;
  st_unresolved : Z;
  st_drain_remaining : option float;
  st_shown : string }.

Record StatusSample := mkStatusSample {
  ss_elapsed : float;
  ss_status : RunStatus;
  ss_remaining : option float }.

(** [TERMINAL_TRAFFIC_STATES] *)
Definition terminal_state (s : string) : bool :=
  bool_decide (s ∈ ["COMPLETED"; "FAILED"; "CANCELLED"]%string).

(** While a run is waited for, its status is polled (at an elapsed time) and the links of
    the schedule are put, each with the error of its request if it has one. *)
Inductive run_event :=
| EvPoll (elapsed : float) (status : res RunStatus)
| EvLink (put : res unit).

(** The links still to be put, and the error that ended their task. *)
Record LinkTask := mkLinkTask {
  lt_left : list (float * DirectedLink);
  lt_error : option exn }.

(** One step of [apply_link_schedule]. *)
Definition put_link (put : res unit) (t : LinkTask) : list bench_call * LinkTask :=
  match lt_left t, lt_error t with
  | (_, link) :: rest, None =>
    ([Call (PutLink link)], mkLinkTask rest (match put with Raise e => Some e | Ok _ => None end))
  | _, _ => ([], t)
  end.

(** What is left of the task, run alone. *)
Fixpoint put_rest (put : DirectedLink → res unit) (left : list (float * DirectedLink)) : bench unit :=
  match left with
  | [] => mret tt
  | (_, link) :: rest => _ ← ([Call (PutLink link)], put link); put_rest put rest
  end.

Definition await_links (put : DirectedLink → res unit) (t : LinkTask) : bench unit :=
  match lt_error t with Some e => traced_lift (Raise e) | None => put_rest put (lt_left t) end.

Section bench.
Context `{ScenarioDeps}.

(** [round(x, n)], and [float] and [int] of a text. *)
Context (round_to : Z → float → float) (py_float : string → res float) (py_int : string → res Z).

(** [wait_for_traffic] beside the task of the link schedule. *)
Fixpoint wait_for_traffic (run_id : string) (events : list run_event) (t : LinkTask) (last : string)
    : list bench_call * LinkTask * list StatusSample * res RunStatus :=
  match events with
  | [] => ([], t, [], Raise (TimeoutError ("traffic run " +:+ run_id +:+ " did not finish: " +:+ last)))
  | EvLink put :: events =>
    let (calls, t) := put_link put t in
    let '(more, t, samples, r) := wait_for_traffic run_id events t last in
    (calls ++ more, t, samples, r)
  | EvPoll _ (Raise e) :: _ => ([Call (GetTrafficResult run_id)], t, [], Raise e)
  | EvPoll elapsed (Ok s) :: events =>
    let sample := mkStatusSample (round_to 3 elapsed) s (round_to 1 <$> st_drain_remaining s) in
    if terminal_state (st_state s) then ([Call (GetTrafficResult run_id)], t, [sample], Ok s)
    else
      let '(more, t, samples, r) := wait_for_traffic run_id events t (st_shown s) in
      (Call (GetTrafficResult run_id) :: more, t, sample :: samples, r)
  end.

(** [traffic_wait_deadline] *)
Definition phase_offset (f : TrafficFlow) : res float :=
  if decide (flow_source_timing f = ALIGNED) then Ok fzero
  else float_truediv (of_Z 60) (flow_messages_per_minute f).

Definition traffic_wait_deadline (r : TrafficRunRequest) : res float :=
  if negb (request_valid r) then Raise (ValueError "TrafficRunRequest")
  else
    offsets ← map_res phase_offset (scheduling_flows r);
    match offsets with
    | [] => Raise (ValueError "max() iterable argument is empty")
    | x :: xs =>
      Ok (fadd (fadd (fadd (duration_seconds r) (foldl fmax x xs)) MAX_DRAIN_SECONDS) TRAFFIC_WAIT_GRACE_SECONDS)
    end.

(** ** Resources *)

Fixpoint split_on (sep : Ascii.ascii) (s : string) : list string :=
  match s with
  | EmptyString => [EmptyString]
  | String c s =>
    if decide (c = sep) then EmptyString :: split_on sep s
    else match split_on sep s with x :: xs => String c x :: xs | [] => [String c EmptyString] end
  end.

Fixpoint rstrip_char (c : Ascii.ascii) (s : string) : string :=
  match s with
  | EmptyString => EmptyString
  | String a s =>
    match rstrip_char c s with
    | EmptyString => if decide (a = c) then EmptyString else String a EmptyString
    | t => String a t
    end
  end.

(** How [docker stats] ends: with a return code and its output, or by the timeout. *)
Inductive docker_stats := StatsTimeout | StatsDone (returncode : Z) (stdout : string).

Definition resource_sample (elapsed : float) (d : docker_stats) : res (option ResourceSample) :=
  match d with
  | StatsTimeout => Ok None
  | StatsDone code out =>
    match split_on (Ascii.ascii_of_nat 124) (str_strip out) with
    | [cpu; memory; pids] =>
      if code =? 0 then
        cpu ← py_float (rstrip_char (Ascii.ascii_of_nat 37) cpu);
        pids ← py_int pids;
        Ok (Some (mkResourceSample elapsed cpu memory pids))
      else Ok None
    | _ => Ok None
    end
  end.

(** [sample_resources]: an error ends the task. *)
Definition sample_resources (stats : list (float * docker_stats)) : res (list ResourceSample) :=
  samples ← map_res (λ s, resource_sample s.1 s.2) stats;
  Ok (omap id (samples : list (option ResourceSample))).

(** [timed_resource_capture]: the sampler's error replaces the operation's outcome. *)
Definition captured {A} (stats : list (float * docker_stats)) (m : bench A) : bench (A * list ResourceSample) :=
  (m.1, samples ← sample_resources stats; a ← m.2; Ok (a, samples)).

Record ResourceSummary := mkResourceSummary {
  rm_samples : Z;
  rm_peaks : option (float * Z * string);
  rm_raw : list ResourceSample }.

(** [summarize_resources] *)
Definition summarize_resources (samples : list ResourceSample) : ResourceSummary :=
  mkResourceSummary (zlen samples)
    match samples with
    | [] => None
    | s :: rest =>
      Some (foldl fmax (rs_cpu_percent s) (rs_cpu_percent <$> rest),
            foldl Z.max (rs_pids s) (rs_pids <$> rest),
            rs_memory (default s (last rest)))
    end samples.

(** ** Flows *)

Record FlowSummary := mkFlowSummary {
  fs_definition : TrafficFlow;
  fs_source_count : Z;
  fs_interval_seconds : float;
  fs_requested : Z;
  fs_submitted : Z;
  fs_submission_failed : Z;
  fs_transmitted : Z;
  fs_delivered : Z;
  fs_acknowledged : Z;
  fs_admission_ratio : option float;
  fs_delivery_ratio : option float;
  fs_on_time : Z;
  fs_on_time_ratio : option float;
  fs_acknowledgment_ratio : option float;
  fs_median_latency : option float;
  fs_p95_latency : option float;
  fs_maximum_latency : option float }.

Definition count_if {A} (p : A → bool) (l : list A) : Z := zlen (filter (λ x, p x = true) l).

Definition message_delivered (m : GeneratedMessage) : bool :=
  if decide (g_destination m = "broadcast"%string)
  then existsb (λ receiver, negb (bool_decide (receiver = g_source m))) (g_delivered_to m)
  else bool_decide (g_destination m ∈ g_delivered_to m).

Definition optional_ratio (n d : Z) : res (option float) :=
  if d =? 0 then Ok None else Some <$> int_truediv n d.

Definition maximum (l : list float) : option float :=
  match l with [] => None | x :: xs => Some (foldl fmax x xs) end.

(** The summary of the messages of a flow. *)
Definition summarize_flow (acknowledgments_expected : bool) (generated : list GeneratedMessage) (f : TrafficFlow)
    : res FlowSummary :=
  let messages := filter (λ m, g_flow m = flow_name f) generated in
  let submitted := filter (λ m, g_submitted m = true) messages in
  let delivered := filter (λ m, message_delivered m = true) messages in
  let latencies := omap g_latency delivered in
  let requested_count := zlen messages in
  let submitted_count := zlen submitted in
  interval ← float_truediv (of_Z 60) (flow_messages_per_minute f);
  let on_time := count_if (λ latency, fle latency (fmul interval (of_Z 1000))) latencies in
  admission ← optional_ratio submitted_count requested_count;
  delivery ← optional_ratio (zlen delivered) requested_count;
  on_time_ratio ← optional_ratio on_time requested_count;
  ack ← (if acknowledgments_expected then optional_ratio (count_if g_acknowledged submitted) submitted_count else Ok None);
  median ← percentile latencies (flit 5 10) 1;
  p95 ← percentile latencies (flit 95 100) 20;
  Ok (mkFlowSummary f (zlen (flow_source_nodes f)) interval requested_count submitted_count
        (count_if (λ m, bool_decide (is_Some (g_error m))) messages)
        (count_if g_transmitted messages) (zlen delivered) (count_if g_acknowledged messages)
        admission delivery on_time on_time_ratio ack median p95 (maximum latencies)).

(** [summarize_flows]: the last definition of a name counts. *)
Definition summarize_flows (result : TrafficRunResult) : res (dict string FlowSummary) :=
  let request := r_request result in
  let expected := bool_decide (kind request = DIRECT_TEXT) && acknowledgment_requested request in
  let definitions := dict_of ((λ f, (flow_name f, f)) <$> scheduling_flows request) in
  map_res (λ kv, s ← summarize_flow expected (r_messages result) kv.2; Ok (kv.1, s)) definitions.

(** ** Trials *)

Record Artifact := mkArtifact {
  ar_name : string;
  ar_experiment : string;
  ar_trial : Z;
  ar_elapsed : float;
  ar_resources : ResourceSummary;
  ar_status_samples : list StatusSample;
  ar_result : TrafficRunResult;
  ar_flows : dict string FlowSummary }.

Record Distribution := mkDistribution { d_median : float; d_minimum : float; d_maximum : float }.

(** [statistics.median] *)
Definition median (l : list float) : option float :=
  let data := fsorted l in
  let n := length data in
  if Nat.odd n then data !! (n / 2)%nat
  else match data !! (n / 2 - 1)%nat, data !! (n / 2)%nat with
       | Some a, Some b => Some (fdiv (fadd a b) (of_Z 2))
       | _, _ => None
       end.

(** [distribution] of the values that are there. *)
Definition distribution (values : list (option float)) : option Distribution :=
  match omap id (values : list (option float)) with
  | [] => None
  | x :: xs =>
    m ← median (x :: xs);
    Some (mkDistribution m (foldl fmin x xs) (foldl fmax x xs))
  end.

Record FlowAggregate := mkFlowAggregate {
  fa_requested : option Distribution;
  fa_admission_ratio : option Distribution;
  fa_delivery_ratio : option Distribution;
  fa_on_time_ratio : option Distribution;
  fa_acknowledgment_ratio : option Distribution;
  fa_median_latency : option Distribution;
  fa_p95_latency : option Distribution;
  fa_maximum_latency : option Distribution }.

Record TrialSummary := mkTrialSummary {
  ts_name : string;
  ts_trials : Z;
  ts_completed : Z;
  ts_incomplete : Z;
  ts_terminal_states : dict string Z;
  ts_complete_receptions : Z;
  ts_source_timing : string;
  ts_submitted : option Distribution;
  ts_delivered : option Distribution;
  ts_receiver_ratio : option Distribution;
  ts_median_latency : option Distribution;
  ts_p95_latency : option Distribution;
  ts_rf_transmissions : option Distribution;
  ts_airtime : option Distribution;
  ts_elapsed : option Distribution;
  ts_peak_cpu : option Distribution;
  ts_flows : dict string FlowAggregate }.

Definition run_state_text (s : TrafficRunState) : string :=
  match s with
  | TrafficState.IDLE => "IDLE" | TrafficState.RUNNING => "RUNNING" | TrafficState.STOPPING => "STOPPING"
  | TrafficState.COMPLETED => "COMPLETED" | TrafficState.CANCELLED => "CANCELLED" | TrafficState.FAILED => "FAILED"
  end.

(** [dict(sorted(Counter(l).items()))] *)
Definition sorted_counts (l : list string) : dict string Z :=
  (λ k, (k, count_if (λ x, bool_decide (x = k)) l)) <$> str_sorted (remove_dups l).

Definition completed_artifacts (artifacts : list Artifact) : list Artifact :=
  filter (λ a, r_state (ar_result a) = TrafficState.COMPLETED) artifacts.

Definition metric_of (f : Metrics → option float) (a : Artifact) : option float :=
  f (snapshot_base (r_metrics (ar_result a))).

Definition flow_value (name : string) (f : FlowSummary → option float) (a : Artifact) : option float :=
  dget name (ar_flows a) ≫= f.

Definition flow_aggregate (completed : list Artifact) (name : string) : FlowAggregate :=
  let d f := distribution (flow_value name f <$> completed) in
  mkFlowAggregate (d (Some ∘ of_Z ∘ fs_requested)) (d fs_admission_ratio) (d fs_delivery_ratio) (d fs_on_time_ratio)
    (d fs_acknowledgment_ratio) (d fs_median_latency) (d fs_p95_latency) (d fs_maximum_latency).

Definition experiment_timing (r : TrafficRunRequest) : string :=
  match remove_dups (flow_source_timing <$> flows r) with
  | [] => timing_text (source_timing r)
  | [t] => timing_text t
  | _ => "mixed"
  end.

(** [summarize_trials] *)
Definition summarize_trials (e : Experiment) (artifacts : list Artifact) : TrialSummary :=
  let completed := completed_artifacts artifacts in
  let d f := distribution (f <$> completed) in
  mkTrialSummary (x_name e) (zlen artifacts) (zlen completed) (zlen artifacts - zlen completed)
    (sorted_counts ((λ a, run_state_text (r_state (ar_result a))) <$> artifacts))
    (count_if (λ a, r_complete (ar_result a)) completed)
    (experiment_timing (x_request e))
    (d (λ a, Some (of_Z (r_submitted (ar_result a)))))
    (d (λ a, Some (of_Z (r_delivered (ar_result a)))))
    (d (metric_of m_receiver_delivery_ratio))
    (d (metric_of m_median_latency_ms))
    (d (metric_of m_p95_latency_ms))
    (d (metric_of (λ m, Some (of_Z (m_rf_transmissions m)))))
    (d (metric_of (λ m, Some (of_Z (m_observed_airtime_ms m)))))
    (d (λ a, Some (ar_elapsed a)))
    (d (λ a, (λ p, p.1.1) <$> rm_peaks (ar_resources a)))
    ((λ name, (name, flow_aggregate completed name)) <$>
       str_sorted (remove_dups (completed ≫= λ a, (ar_flows a).*1))).

(** ** Runs *)

(** What the requests of a trial return and what happens meanwhile. *)
Record TrialEnv := mkTrialEnv {
  te_stop : res unit;
  te_stopped : list poll;
  te_replaced : res unit;
  te_started : res unit;
  te_running : list poll;
  te_startup_stats : list (float * docker_stats);
  te_startup_seconds : float;
  te_nodes : res (list NodeView);
  te_run : res string;
  te_events : list run_event;
  te_put : DirectedLink → res unit;
  te_run_stats : list (float * docker_stats);
  te_run_seconds : float;
  te_export : res TrafficRunResult }.

Record Startup := mkStartup {
  su_scenario : string;
  su_startup_seconds : float;
  su_state : string;
  su_nodes : list NodeView;
  su_resources : ResourceSummary;
  su_experiment : string;
  su_trial : Z }.

Definition call {A} (r : request) (result : res A) : bench A := ([Call r], result).

(** [start_scenario]; its experiment and trial are added by the caller. *)
Definition start_scenario (env : TrialEnv) (definition : Scenario) (experiment : string) (trial : Z) : bench Startup :=
  _ ← call PostStop (te_stop env);
  _ ← wait_for_state "STOPPED" (te_stopped env) "{}";
  _ ← call (PutScenario definition) (te_replaced env);
  '(state, samples) ← captured (te_startup_stats env)
    (_ ← call PostStart (te_started env); wait_for_state "RUNNING" (te_running env) "{}");
  nodes ← call GetNodes (te_nodes env);
  mret (mkStartup (scenario_name definition) (te_startup_seconds env) state nodes (summarize_resources samples)
          experiment trial).

Definition artifact_name (e : Experiment) (trial : Z) : string :=
  if x_repetitions e =? 1 then x_name e else x_name e +:+ "-r" +:+ pretty trial.

Definition run_experiment (env : TrialEnv) (e : Experiment) (trial : Z) : bench Artifact :=
  run_id ← call (PostTraffic (x_request e)) (te_run env);
  _ ← traced_lift (traffic_wait_deadline (x_request e));
  let '(calls, links, statuses, r) :=
    wait_for_traffic run_id (te_events env) (mkLinkTask (x_link_schedule e) None) "{}" in
  '(_, samples) ← captured (te_run_stats env) (calls, r);
  _ ← await_links (te_put env) links;
  exported ← call (ExportTrafficResult run_id) (te_export env);
  flows ← traced_lift (summarize_flows exported);
  let name := artifact_name e trial in
  _ ← (([WriteFile (name +:+ ".json")], Ok tt) : bench unit);
  mret (mkArtifact name (x_name e) trial (te_run_seconds env) (summarize_resources samples) statuses exported flows).

(** [run_fresh_trials], from a trial on. *)
Fixpoint run_trials (env : Z → TrialEnv) (definition : Scenario) (e : Experiment) (trial : Z) (more : nat)
    : bench (list Startup * list Artifact) :=
  match more with
  | O => mret ([], [])
  | S more =>
    startup ← start_scenario (env trial) definition (x_name e) trial;
    artifact ← run_experiment (env trial) e trial;
    '(startups, artifacts) ← run_trials env definition e (trial + 1) more;
    mret (startup :: startups, artifact :: artifacts)
  end.

Definition run_fresh_trials (env : Z → TrialEnv) (definition : Scenario) (e : Experiment)
    : bench (list Startup * list Artifact) :=
  run_trials env definition e 1 (Z.to_nat (x_repetitions e)).

(** ** The whole benchmark *)

Definition workload_groups (w : WorkloadDefinition) (trials : option Z) : res groups :=
  map_res (λ preset,
    definition ← workload_scenario w preset;
    Ok (definition, [mkExperiment (wl_name w +:+ "-" +:+ hyphenated (lower preset)) (wl_traffic w) []
                       (default (wl_trials w) trials)]))
    (wl_modem_presets w).

Definition unknown_names (only : list string) (gs : groups) : list string :=
  filter (λ n, n ∉ gs ≫= λ g, x_name <$> g.2) (remove_dups only).

Definition select_experiments (only : option (list string)) (trials : option Z) (es : list Experiment)
    : list Experiment :=
  (λ e, mkExperiment (x_name e) (x_request e) (x_link_schedule e) (default (x_repetitions e) trials)) <$>
    filter (λ e, match only with Some names => bool_decide (x_name e ∈ names) | None => true end = true) es.

Definition select_groups (only : option (list string)) (trials : option Z) (gs : groups) : res groups :=
  _ ← guard_raise (nonempty (unknown_names (default [] only) gs))
        (ValueError ("unknown experiments: " +:+ comma_join (str_sorted (unknown_names (default [] only) gs))));
  Ok match only, trials with
     | None, None => gs
     | _, _ => filter (λ g, nonempty g.2 = true) ((λ g, (g.1, select_experiments only trials g.2)) <$> gs)
     end.

(** The groups of a run: the workload's or those of [built_in] selected. *)
Definition chosen_groups (built_in : res groups) (only : option (list string)) (trials : option Z)
    (workload : option WorkloadDefinition) : res groups :=
  gs ← built_in;
  match workload with
  | Some w =>
    if bool_decide (is_Some only) then Raise (ValueError "--only cannot be combined with --workload")
    else workload_groups w trials
  | None => select_groups only trials gs
  end.

Record BenchSummary := mkBenchSummary {
  sm_startups : list Startup;
  sm_experiments : list Artifact;
  sm_aggregates : list TrialSummary }.

Definition add_trials (e : Experiment) (startups : list Startup) (artifacts : list Artifact) (s : BenchSummary)
    : BenchSummary :=
  mkBenchSummary (sm_startups s ++ startups) (sm_experiments s ++ artifacts)
    (sm_aggregates s ++ [summarize_trials e artifacts]).

(** The experiments of the groups, with the environment of each trial. *)
Fixpoint run_experiments (env : string → Z → TrialEnv) (jobs : list (Scenario * Experiment)) (s : BenchSummary)
    : bench BenchSummary :=
  match jobs with
  | [] => mret s
  | (definition, e) :: jobs =>
    '(startups, artifacts) ← run_fresh_trials (env (x_name e)) definition e;
    run_experiments env jobs (add_trials e startups artifacts s)
  end.

Definition jobs_of (gs : groups) : list (Scenario * Experiment) :=
  gs ≫= λ g, (λ e, (g.1, e)) <$> g.2.

Record MainEnv := mkMainEnv {
  me_capabilities : res unit;
  me_trials : string → Z → TrialEnv;
  me_stop : res unit;
  me_stopped : list poll }.

Definition final_stop (env : MainEnv) : bench unit :=
  _ ← call PostStop (me_stop env);
  _ ← wait_for_state "STOPPED" (me_stopped env) "{}";
  mret tt.

(** [main], given its groups. *)
Definition run_groups (env : MainEnv) (output_dir : string) (gs : groups) : bench BenchSummary :=
  _ ← call GetCapabilities (me_capabilities env);
  s ← traced_finally (run_experiments (me_trials env) (jobs_of gs) (mkBenchSummary [] [] [])) (final_stop env);
  _ ← (([WriteFile "summary.json"], Ok tt) : bench unit);
  let incomplete := zsum (ts_incomplete <$> sm_aggregates s) in
  if incomplete =? 0 then mret s
  else traced_lift (Raise (RuntimeError
    (pretty incomplete +:+ " traffic trial(s) did not complete; results: " +:+ output_dir))).
End bench.
