(* ===== verification/BenchExperiments.v ===== *)
(** * The experiments of the benchmark (src/experiments/run_system_bench.py, [main])

    The built-in groups, with the scenario read from src/scenarios/hidden-terminal.json,
    and that what they and the workloads send is accepted by the API. *)
From Stdlib Require Import Floats.SpecFloat.
From S2P Require Import Prelude PyDict PyFloat Scenario TrafficRequest Api ApiTheorems Bench.

Definition sources_10 : list string := (λ index : Z, "node-" +:+ pretty index) <$> seqZ 1 10.

Definition bench_link (source target : string) (on : bool) : DirectedLink := mkLink source target on (-85) (of_Z 8).

Definition broadcast (sources : list string) (rate payload duration : Z) (timing : SourceTiming) (seed : Z)
    : TrafficRunRequest :=
  mkRequest BROADCAST_TEXT sources FIXED None (of_Z rate) payload (of_Z duration) false timing [] seed.

Definition four_hops (duration seed : Z) : TrafficRunRequest :=
  mkRequest DIRECT_TEXT ["node-1"%string] FIXED (Some "node-5"%string) (of_Z 3) 64 (of_Z duration) true ALIGNED [] seed.

Definition hidden_terminal : Scenario :=
  mkScenario 1 "hidden-terminal" 7 3 (mkRF "US" "LONG_FAST" 20 4 NATIVE) (mkChannel "Simulator" "AQ==")
    [mkNode "node-1" "Hidden A" CLIENT 45001; mkNode "node-2" "Receiver" CLIENT 45002;
     mkNode "node-3" "Hidden B" CLIENT 45003]
    [mkLink "node-1" "node-2" true (-80) (of_Z 10); mkLink "node-1" "node-3" false (-85) (of_Z 8);
     mkLink "node-2" "node-1" true (-80) (of_Z 10); mkLink "node-2" "node-3" true (-80) (of_Z 10);
     mkLink "node-3" "node-1" false (-85) (of_Z 8); mkLink "node-3" "node-2" true (-80) (of_Z 10)]
    true.

(** The groups of [main]. *)
Definition built_in_groups : res groups :=
  mesh ← bench_scenario 10 FULL_MESH "LONG_FAST";
  fast ← bench_scenario 10 FULL_MESH "SHORT_FAST";
  line ← bench_scenario 5 LINE "LONG_FAST";
  Ok [(mesh,
       [mkExperiment "long-fast-one-talker" (broadcast ["node-1"%string] 6 64 21 ALIGNED 101) [] 3;
        mkExperiment "long-fast-ten-talker-aligned" (broadcast sources_10 3 64 21 ALIGNED 102) [] 3;
        mkExperiment "long-fast-ten-talker-jittered" (broadcast sources_10 3 64 21 DETERMINISTIC_JITTER 102) [] 3;
        mkExperiment "long-fast-ingest-saturation" (broadcast sources_10 600 200 10 ALIGNED 103) [] 1]);
      (fast,
       [mkExperiment "short-fast-ten-talker-aligned" (broadcast sources_10 3 64 21 ALIGNED 102) [] 3;
        mkExperiment "short-fast-ten-talker-jittered" (broadcast sources_10 3 64 21 DETERMINISTIC_JITTER 102) [] 3]);
      (line,
       [mkExperiment "long-fast-four-hop-direct" (four_hops 21 104) [] 1;
        mkExperiment "long-fast-partition-recovery" (four_hops 41 105)
          [(of_Z 12, bench_link "node-3" "node-4" false); (of_Z 12, bench_link "node-4" "node-3" false);
           (of_Z 32, bench_link "node-3" "node-4" true); (of_Z 32, bench_link "node-4" "node-3" true)] 1]);
      (hidden_terminal,
       [mkExperiment "long-fast-hidden-terminal"
          (broadcast ["node-1"; "node-3"]%string 60 200 5 ALIGNED 106) [] 1])].

(** ** What the API accepts *)

(** An experiment fits a scenario: its request is valid there, and its schedule is of
    links of the scenario, put in order while messages are generated. *)
Definition schedule_ok (duration : float) (d : Scenario) (schedule : list (float * DirectedLink)) : bool :=
  forallb (λ l, link_fields_ok l.2 && bool_decide (link_key l.2 ∈ link_key <$> links d) &&
                fle fzero l.1 && flt l.1 duration) schedule
  && bool_decide (fsorted schedule.*1 = schedule.*1).

Definition experiment_fits (d : Scenario) (e : Experiment) : bool :=
  request_valid (x_request e) && is_ok (validate_request_nodes (x_request e) d)
  && schedule_ok (duration_seconds (x_request e)) d (x_link_schedule e)
  && is_ok (traffic_wait_deadline (x_request e)) && (1 <=? x_repetitions e).

(** The parameters' part of a scenario's validity. *)
Lemma scenario_valid_default `{ScenarioDeps} b s :
  is_Some (region_code "US") → b64decode "AQ==" = Some [b] →
  closed_checks s = true → region (rf s) = "US"%string → channel s = default_channel →
  z_between 0 255 (frequency_slot (rf s)) && z_between 1 7 (hop_limit (rf s)) = true → scenario_valid s = true.
Proof.
  intros [code Hr] Hb Hc Hus Hch Hp. unfold closed_checks in Hc. repeat rewrite andb_true_iff in Hc.
  destruct_and! Hc. unfold scenario_valid, scenario_fields_ok. repeat rewrite andb_true_iff. split_and!; try done.
  - unfold rf_fields_ok. rewrite Hp, Hus. unfold validate_region. by rewrite Hr.
  - rewrite Hch. unfold validate_psk. cbn [psk default_channel]. by rewrite Hb.
Qed.

(** What is checked of every built-in experiment, none of it a parameter. *)
Definition job_checks (job : Scenario * Experiment) : bool :=
  closed_checks job.1 && bool_decide (region (rf job.1) = "US"%string) && bool_decide (channel_name (channel job.1) = "Simulator"%string)
  && bool_decide (psk (channel job.1) = "AQ=="%string)
  && (z_between 0 255 (frequency_slot (rf job.1)) && z_between 1 7 (hop_limit (rf job.1)))
  && experiment_fits job.1 job.2.

Lemma built_in_checks :
  match built_in_groups with
  | Ok gs => forallb job_checks (jobs_of gs) = true ∧ NoDup (x_name ∘ snd <$> jobs_of gs)
  | Raise _ => False
  end.
Proof.
  destruct built_in_groups as [gs|e] eqn:Hg.
  - split.
    + transitivity (match built_in_groups with Ok gs => forallb job_checks (jobs_of gs) | Raise _ => true end);
        [by rewrite Hg|]. vm_compute. reflexivity.
    + apply (bool_decide_eq_true_1 (NoDup (x_name ∘ snd <$> jobs_of gs))).
      transitivity (match built_in_groups with Ok gs => bool_decide (NoDup (x_name ∘ snd <$> jobs_of gs)) | Raise _ => true end);
        [by rewrite Hg|]. vm_compute. reflexivity.
  - assert (is_ok built_in_groups = true) as Hok by (vm_compute; reflexivity). by rewrite Hg in Hok.
Qed.

Section accepted.
Context `{ScenarioDeps} (key : byte) (Hus : is_Some (region_code "US")) (Hkey : b64decode "AQ==" = Some [key]).

(** ** The built-in experiments *)

Lemma built_in_job gs d e :
  built_in_groups = Ok gs → (d, e) ∈ jobs_of gs → scenario_valid d = true ∧ experiment_fits d e = true.
Proof.
  intros Hg Hin. pose proof built_in_checks as Hc. rewrite Hg in Hc. destruct Hc as [Hc _].
  rewrite forallb_forall in Hc. specialize (Hc (d, e) (proj1 (list_elem_of_In _ _) Hin)).
  unfold job_checks in Hc. cbn [fst snd] in Hc. rewrite !andb_true_iff in Hc.
  destruct Hc as [[[[[Hd Hr] Hn] Hp] Hf] He]. apply bool_decide_eq_true in Hr, Hn, Hp. clear Hg Hin. split; [|exact He].
  apply (scenario_valid_default key); try done; [|by apply andb_true_iff].
  destruct (channel d). unfold default_channel. cbn in *. by subst.
Qed.

(** ** The workloads *)

Lemma preset_valid s preset s' :
  scenario_valid s = true → apply_topology_preset s preset = Ok s' →
  scenario_valid s' = true ∧ s' = s <| links := links s' |>.
Proof.
  intros Hv Hs. apply scenario_valid_graph in Hv as Hg. destruct Hg as [Hg Hn].
  destruct (preset_applies s preset Hg Hn) as (ls & Hp & Hf & Hok). rewrite Hs in Hp. injection Hp as ->.
  split; [|done]. apply validate_graph_iff in Hok as [_ Hok].
  apply scenario_valid_links; [done| |done]. by eapply preset_links_valid.
Qed.

Lemma checked_rf_ok r r' : checked_rf r = Ok r' → r' = r ∧ rf_fields_ok r = true ∧ modem_preset r ∈ SUPPORTED_MODEM_PRESETS.
Proof.
  unfold checked_rf, validate_preset. destruct (rf_fields_ok r); [|done]. case_bool_decide; [|done]. by intros [= <-].
Qed.

Lemma preset_name_length p : p ∈ SUPPORTED_MODEM_PRESETS → (String.length (hyphenated (lower p)) <= 13)%nat.
Proof.
  revert p. apply Forall_forall. unfold SUPPORTED_MODEM_PRESETS. repeat constructor; vm_compute; lia.
Qed.

Lemma matches_id_length k s : matches_id k s = true → (1 <= String.length s <= S k)%nat.
Proof.
  destruct s as [|c s]; [done|]. cbn [matches_id String.length]. rewrite !andb_true_iff, Nat.leb_le. lia.
Qed.

Lemma workload_scenario_valid w preset s :
  workload_valid w = true → workload_scenario w preset = Ok s → scenario_valid s = true.
Proof.
  unfold workload_valid. rewrite !andb_true_iff. intros [[[[[[[[_ Hname] Hn] _] _] _] _] _] _] Hs.
  unfold workload_scenario in Hs. inv_bind Hs. inv_bind Hs. inv_bind Hs. injection Hs as <-.
  apply checked_rf_ok in Ha1 as (-> & Hrf & Hp). cbn in Hp. pose proof (preset_name_length _ Hp) as Hlen.
  pose proof (default_scenario_valid _ (ws_node_count (wl_scenario w)) key Hus Hkey) as Hd. rewrite Ha in Hd.
  destruct Hd as (_ & Hv & _). apply (preset_valid _ _ _ Hv) in Ha0 as [Hv' _].
  pose proof (proj1 (scenario_valid_graph _ Hv')) as Hok.
  apply matches_id_length in Hname.
  unfold scenario_valid, scenario_fields_ok in *. rewrite !andb_true_iff in *.
  destruct Hv' as [[[[[[[[[? _] ?] _] _] ?] ?] ?] ?] ?]. split_and!; try done.
  - assert (String.length (wl_name w +:+ "-" +:+ hyphenated (lower preset)) =
            String.length (wl_name w) + S (String.length (hyphenated (lower preset))))%nat as Hl
      by (by rewrite !string_length_app).
    unfold str_between. cbn. rewrite Hl. apply andb_true_iff. split; [|apply Nat.leb_le; lia].
    by destruct (String.length (wl_name w)).
  - unfold validate_preset. cbn. by rewrite bool_decide_true.
  - match goal with |- is_ok (validate_graph ?s) = true => assert (graph_ok s) as Hg by (by destruct Hok; constructor);
      by rewrite (proj2 (validate_graph_iff s s) (conj eq_refl Hg)) end.
Qed.

(** ** Deadlines *)

Lemma truediv_positive a x : flt fzero x = true → ∃ y, float_truediv a x = Ok y.
Proof. destruct x as [[]|[]| |[] m e]; try done; intros _; by eexists. Qed.

Lemma valid_rates r f : request_valid r = true → f ∈ scheduling_flows r → flt fzero (flow_messages_per_minute f) = true.
Proof.
  unfold request_valid, request_fields_ok. rewrite !andb_true_iff. intros [[[[[[[_ Hr] _] _] _] _] Hf] _] Hin.
  unfold scheduling_flows in Hin. destruct (flows r) as [|f' fs] eqn:Hfs.
  - apply list_elem_of_singleton in Hin as ->. cbn. unfold positive_upto in Hr. by apply andb_true_iff in Hr as [? _].
  - rewrite <-Hfs in Hin. rewrite <-Hfs, forallb_forall in Hf. apply list_elem_of_In, Hf in Hin.
    unfold flow_fields_ok, positive_upto in Hin. rewrite !andb_true_iff in Hin. by destruct_and! Hin.
Qed.

Lemma map_res_some {A B} (f : A → res B) l :
  (∀ x, x ∈ l → ∃ y, f x = Ok y) → ∃ ys, map_res f l = Ok ys ∧ length ys = length l.
Proof.
  induction l as [|x l IH]; intros Hf; cbn; [by exists []|].
  destruct (Hf x) as [y ->]; [by left|]. destruct IH as (ys & -> & Hl); [intros z Hz; apply Hf; by right|].
  exists (y :: ys). cbn. by rewrite Hl.
Qed.

Lemma deadline_ok r : request_valid r = true → is_ok (traffic_wait_deadline r) = true.
Proof.
  intros Hv. unfold traffic_wait_deadline. rewrite Hv. cbn [negb].
  destruct (map_res_some phase_offset (scheduling_flows r)) as (ys & -> & Hl).
  - intros f Hf. unfold phase_offset. case_decide; [by eexists|]. by eapply truediv_positive, valid_rates.
  - cbn. destruct ys; [|done]. unfold scheduling_flows in Hl. by destruct (flows r).
Qed.

(** ** What is chosen *)

Lemma jobs_of_elem (gs : groups) d e : (d, e) ∈ jobs_of gs ↔ ∃ es, (d, es) ∈ gs ∧ e ∈ es.
Proof.
  unfold jobs_of. rewrite list_elem_of_bind. split.
  - intros ([d' es] & Hin & Hg). apply list_elem_of_fmap in Hin as (e' & [= <- <-] & He). by exists es.
  - intros (es & Hg & He). exists (d, es). split; [|done]. apply list_elem_of_fmap. by exists e.
Qed.

(** A selected experiment is a built-in one, perhaps with another number of trials. *)
Lemma selected_job only trials gs gs' d e :
  select_groups only trials gs = Ok gs' → (d, e) ∈ jobs_of gs' →
  ∃ e', (d, e') ∈ jobs_of gs ∧ x_request e = x_request e' ∧ x_link_schedule e = x_link_schedule e' ∧
    (x_repetitions e = x_repetitions e' ∨ trials = Some (x_repetitions e)) ∧
    match only with Some names => x_name e ∈ names | None => True end.
Proof.
  unfold select_groups. intros Hs Hin. inv_bind Hs. injection Hs as <-.
  assert (∀ l, (d, e) ∈ jobs_of (filter (λ g, nonempty g.2 = true) ((λ g, (g.1, select_experiments only trials g.2)) <$> l)) →
    ∃ e', (d, e') ∈ jobs_of l ∧ x_request e = x_request e' ∧ x_link_schedule e = x_link_schedule e' ∧
      (x_repetitions e = x_repetitions e' ∨ trials = Some (x_repetitions e)) ∧
      match only with Some names => x_name e ∈ names | None => True end) as Hsel.
  { intros l (es & Hg & He)%jobs_of_elem. apply list_elem_of_filter in Hg as [_ Hg].
    apply list_elem_of_fmap in Hg as ([d' es'] & [= -> ->] & Hg). unfold select_experiments in He.
    apply list_elem_of_fmap in He as (e' & -> & He). apply list_elem_of_filter in He as [Ho He'].
    exists e'. split; [apply jobs_of_elem; by exists es'|]. cbn. split_and!; try done.
    - destruct trials; [by right | by left].
    - destruct only as [names|]; [|done]. by apply bool_decide_eq_true in Ho. }
  destruct only as [names|]; [by apply Hsel|]. destruct trials as [t|]; [by apply Hsel|].
  exists e. split_and!; try done. by left.
Qed.

Lemma workload_job w trials gs d e :
  workload_groups w trials = Ok gs → (d, e) ∈ jobs_of gs →
  ∃ preset, workload_scenario w preset = Ok d ∧ x_request e = wl_traffic w ∧ x_link_schedule e = [] ∧
    x_repetitions e = default (wl_trials w) trials.
Proof.
  unfold workload_groups. intros Hg (es & Hin & He)%jobs_of_elem.
  apply map_res_ok in Hg. apply list_elem_of_lookup in Hin as [i Hi].
  destruct (Forall2_lookup_r _ _ _ _ _ Hg Hi) as (preset & _ & Hp). inv_bind Hp. injection Hp as <- <-.
  apply list_elem_of_singleton in He as ->. by exists preset.
Qed.

Lemma workload_valid_parts w :
  workload_valid w = true → request_valid (wl_traffic w) = true ∧ 1 <= wl_trials w.
Proof.
  unfold workload_valid, z_between. rewrite !andb_true_iff. intros [[_ Hr] [Ht _]]. split; [done | lia].
Qed.

Lemma fits_parts d e :
  experiment_fits d e = true →
  request_valid (x_request e) = true ∧ is_ok (validate_request_nodes (x_request e) d) = true ∧
  (∀ at_ l, (at_, l) ∈ x_link_schedule e → link_fields_ok l = true ∧ link_key l ∈ link_key <$> links d) ∧
  1 <= x_repetitions e.
Proof.
  unfold experiment_fits, schedule_ok. rewrite !andb_true_iff. intros [[[[Hr Hn] [Hl _]] _] Ht].
  split_and!; [done|done| |lia]. intros t l Hin. rewrite forallb_forall in Hl.
  apply list_elem_of_In, Hl in Hin. rewrite !andb_true_iff in Hin. destruct Hin as [[[? Hk] _] _].
  apply bool_decide_eq_true in Hk. done.
Qed.

(** C39: Everything the benchmark is going to send is accepted by the API: for the
    built-in groups, whatever is selected of them, and for a valid workload, each
    scenario, traffic request and scheduled link passes the checks of its route, a
    scheduled link is one of the scenario, the wait for a run has a deadline, and each
    experiment is run at least once; a built-in request is also valid for its scenario. *)
Theorem benchmark_inputs_accepted only trials workload gs d e :
  chosen_groups built_in_groups only trials workload = Ok gs → (d, e) ∈ jobs_of gs →
  (∀ t, trials = Some t → 1 <= t) → (∀ w, workload = Some w → workload_valid w = true) →
  accepts (PutScenario d) = true ∧ accepts (PostTraffic (x_request e)) = true ∧
  (∀ at_ l, (at_, l) ∈ x_link_schedule e → accepts (PutLink l) = true ∧ link_key l ∈ link_key <$> links d) ∧
  is_ok (traffic_wait_deadline (x_request e)) = true ∧ 1 <= x_repetitions e ∧
  (workload = None → is_ok (validate_request_nodes (x_request e) d) = true).
Proof.
  intros Hc Hin Ht Hw. unfold chosen_groups in Hc. inv_bind Hc. destruct workload as [w|].
  - clear Ha. destruct (bool_decide _); [done|]. specialize (Hw w eq_refl).
    destruct (workload_job _ _ _ _ _ Hc Hin) as (preset & Hs & Hr & Hl & Hn).
    destruct (workload_valid_parts w Hw) as [Hv Htr]. rewrite Hr, Hl. split_and!; try done.
    + by eapply workload_scenario_valid.
    + intros t l []%elem_of_nil.
    + by apply deadline_ok.
    + rewrite Hn. destruct trials as [t|]; [by apply Ht | done].
  - destruct (selected_job _ _ _ _ _ _ Hc Hin) as (e' & Hin' & Hr & Hl & Hn & _).
    destruct (built_in_job _ _ _ Ha Hin') as [Hd He]. apply fits_parts in He as (Hv & Hnodes & Hlinks & Htr).
    clear Ha Hc Hin Hin'.     rewrite Hr, Hl. split_and!; try done.
    + by apply deadline_ok.
    + destruct Hn as [->|Hn]; [done | by apply Ht].
Qed.
End accepted.

#[local] Existing Instance witness_deps.

(** The partition experiment alone, twice. *)
Definition partition_twice : res groups :=
  chosen_groups built_in_groups (Some ["long-fast-partition-recovery"%string]) (Some 2) None.

Definition job_sizes (gs : res groups) : list (Z * nat) :=
  match gs with Ok gs => (λ j, (x_repetitions j.2, length (x_link_schedule j.2))) <$> jobs_of gs | Raise _ => [] end.

Lemma partition_twice_sizes : job_sizes partition_twice = [(2, 4%nat)].
Proof. vm_compute. reflexivity. Qed.

Lemma benchmark_inputs_accepted_witness :
  ∃ gs d e, partition_twice = Ok gs ∧ jobs_of gs = [(d, e)] ∧ x_repetitions e = 2 ∧
    length (x_link_schedule e) = 4%nat ∧ accepts (PutScenario d) = true.
Proof.
  pose proof partition_twice_sizes as Hj. revert Hj. destruct partition_twice as [gs|] eqn:Hg; intros Hj; [|discriminate Hj].
  unfold job_sizes in Hj. destruct (jobs_of gs) as [|[d e] [|]] eqn:Hjobs; try discriminate Hj. injection Hj as Hn Hl.
  exists gs, d, e. split; [reflexivity|]. split; [exact Hjobs|]. split; [exact Hn|]. split; [exact Hl|].
  apply (@benchmark_inputs_accepted witness_deps (byte_of 1) (mk_is_Some (@region_code witness_deps "US") 1 eq_refl) eq_refl
           (Some ["long-fast-partition-recovery"%string]) (Some 2) None gs d e Hg).
  - rewrite Hjobs. by left.
  - intros t [= <-]. lia.
  - discriminate.
Defined.
