(* ===== verification/BenchTheorems.v ===== *)
(** * What the benchmark guarantees (src/experiments/run_system_bench.py)

    Every run is on freshly started firmware with its scenario, in the order of the
    groups, and the simulation is stopped at the end whatever fails ([follows] is the
    rule by which the sequence of commands is composed).  The summary of a run's flows
    accounts for each of its messages. *)
From Stdlib Require Import Floats.SpecFloat.
From S2P Require Import Prelude PyDict PyFloat Scenario Calculations TrafficRequest TrafficState TrafficLifecycle.
From S2P Require Import Service ServiceOps Api Bench BenchExperiments.

(** ** Commands *)

(** The requests that change the program's state. *)
Definition command (c : bench_call) : option request :=
  match c with
  | Call (GetState | GetNodes | GetCapabilities | GetTrafficResult _ | ExportTrafficResult _) => None
  | Call r => Some r
  | WriteFile _ => None
  end.

Definition commands (calls : list bench_call) : list request := omap command calls.

#[local] Arguments commands : simpl never.

Lemma commands_app c d : commands (c ++ d) = commands c ++ commands d.
Proof. apply omap_app. Qed.

(** A computation issues an initial part of the commands, all of them if it returns. *)
Definition follows {A} (m : traced bench_call A) (program : list request) : Prop :=
  commands m.1 `prefix_of` program ∧ (is_ok m.2 = true → commands m.1 = program).

Lemma follows_ret {A} (a : A) : follows (mret a) [].
Proof. by split. Qed.

Lemma follows_lift {A} (r : res A) : follows (traced_lift r) [].
Proof. by split. Qed.

Lemma follows_call {A} r (result : res A) : follows (call r result) (commands [Call r]).
Proof. by split. Qed.

Lemma follows_bind {A B} (m : traced bench_call A) (f : A → traced bench_call B) p q :
  follows m p → (∀ a, m.2 = Ok a → follows (f a) q) → follows (m ≫= f) (p ++ q).
Proof.
  intros [Hp Ho] Hf. destruct m as [c [a|e]]; unfold mbind, traced_bind; cbn in *.
  - destruct (Hf a eq_refl) as [Hq Hq']. destruct (f a) as [c' r]. cbn in *. unfold follows. cbn.
    rewrite commands_app, (Ho eq_refl). split; [by apply prefix_app|]. intros Hr. by rewrite Hq'.
  - split; [by apply prefix_app_r | done].
Qed.

Lemma follows_quiet {A B} (m : traced bench_call A) (f : A → traced bench_call B) q :
  follows m [] → (∀ a, m.2 = Ok a → follows (f a) q) → follows (m ≫= f) q.
Proof. intros Hm Hf. by apply (follows_bind m f [] q). Qed.

Lemma follows_wait expected polls last : follows (wait_for_state expected polls last) [].
Proof.
  revert last. induction polls as [|[e|state shown] polls IH]; intros last; cbn; [by split..|].
  destruct (decide _); [by split|]. destruct (decide _); [by split|].
  specialize (IH shown). by destruct (wait_for_state expected polls shown).
Qed.

(** ** Trials *)

Section bench.
Context `{ScenarioDeps} (round_to : Z → float → float) (py_float : string → res float) (py_int : string → res Z).

Lemma follows_captured {A} stats (m : traced bench_call A) p : follows m p → follows (captured py_float py_int stats m) p.
Proof.
  intros [Hp Ho]. split; [done|]. cbn. destruct (sample_resources _ _ _); [|done]. cbn.
  destruct m.2; [by intros _; apply Ho | done].
Qed.

Definition link_commands (schedule : list (float * DirectedLink)) : list request := PutLink ∘ snd <$> schedule.

(** The links put while a run is waited for and those left make up the schedule. *)
Lemma put_link_commands put t :
  let (calls, t') := put_link put t in commands calls ++ link_commands (lt_left t') = link_commands (lt_left t).
Proof. unfold put_link. destruct t as [[|[o l] left] [e|]]; done. Qed.

Lemma wait_for_traffic_links run_id events t last :
  let '(calls, t', _, _) := wait_for_traffic round_to run_id events t last in
  commands calls ++ link_commands (lt_left t') = link_commands (lt_left t).
Proof.
  revert t last. induction events as [|[elapsed [s|e]|put] events IH]; intros t last; cbn; [done| |done|].
  - destruct (terminal_state _); [done|]. specialize (IH t (st_shown s)).
    by destruct (wait_for_traffic round_to run_id events t (st_shown s)) as [[[? ?] ?] ?].
  - pose proof (put_link_commands put t) as Hp. destruct (put_link put t) as [calls t']. specialize (IH t' last).
    destruct (wait_for_traffic round_to run_id events t' last) as [[[more t''] ?] ?].
    by rewrite commands_app, <-app_assoc, IH.
Qed.

Lemma follows_rest put left : follows (put_rest put left) (link_commands left).
Proof.
  induction left as [|[o l] left IH]; cbn [put_rest]; [apply follows_ret|].
  change (link_commands ((o, l) :: left)) with ([PutLink l] ++ link_commands left).
  apply follows_bind; [apply (follows_call (PutLink l)) | by intros _ _].
Qed.

Lemma follows_await put t : follows (await_links put t) (link_commands (lt_left t)).
Proof.
  unfold await_links. destruct (lt_error t); [|apply follows_rest]. split; [apply prefix_nil | done].
Qed.

Lemma follows_start env d name trial : follows (start_scenario py_float py_int env d name trial) [PostStop; PutScenario d; PostStart].
Proof.
  unfold start_scenario. apply (follows_bind _ _ [PostStop] [PutScenario d; PostStart]); [apply (follows_call PostStop)|].
  intros _ _. apply follows_quiet; [apply follows_wait|]. intros _ _.
  apply (follows_bind _ _ [PutScenario d] [PostStart]); [apply (follows_call (PutScenario d))|]. intros _ _.
  apply (follows_bind _ _ [PostStart] []).
  - apply follows_captured. apply (follows_bind _ _ [PostStart] []); [apply (follows_call PostStart)|].
    intros _ _. apply follows_wait.
  - intros [state samples] _. apply follows_quiet; [apply (follows_call GetNodes)|]. intros nodes _. apply follows_ret.
Qed.

Lemma follows_experiment env e trial :
  follows (run_experiment round_to py_float py_int env e trial) (PostTraffic (x_request e) :: link_commands (x_link_schedule e)).
Proof.
  unfold run_experiment.
  apply (follows_bind _ _ [PostTraffic (x_request e)]); [apply (follows_call (PostTraffic (x_request e)))|].
  intros run_id _. apply follows_quiet; [apply follows_lift|]. intros _ _.
  pose proof (wait_for_traffic_links run_id (te_events env) (mkLinkTask (x_link_schedule e) None) "{}") as Hw.
  destruct (wait_for_traffic _ _ _ _ _) as [[[calls links] statuses] r]. cbn [lt_left] in Hw. rewrite <-Hw.
  apply follows_bind; [apply follows_captured; split; [done|by intros _]|]. intros [status samples] _.
  rewrite <-(app_nil_r (link_commands (lt_left links))). apply follows_bind; [apply follows_await|]. intros _ _.
  apply follows_quiet; [apply (follows_call (ExportTrafficResult run_id))|]. intros exported _.
  apply follows_quiet; [apply follows_lift|]. intros fl _.
  apply follows_quiet; [by split|]. intros _ _. apply follows_ret.
Qed.

(** The commands of one trial, and of a job: all its trials. *)
Definition trial_commands (d : Scenario) (e : Experiment) : list request :=
  [PostStop; PutScenario d; PostStart] ++ PostTraffic (x_request e) :: link_commands (x_link_schedule e).

Definition job_commands (job : Scenario * Experiment) : list request :=
  mjoin (replicate (Z.to_nat (x_repetitions job.2)) (trial_commands job.1 job.2)).

Abbreviation run_trials := (run_trials round_to py_float py_int).
Abbreviation run_experiments := (run_experiments round_to py_float py_int).
Abbreviation run_groups := (run_groups round_to py_float py_int).

Lemma follows_trials env d e trial more :
  follows (run_trials env d e trial more) (mjoin (replicate more (trial_commands d e))) ∧
  ∀ startups artifacts, (run_trials env d e trial more).2 = Ok (startups, artifacts) → length artifacts = more.
Proof.
  revert trial. induction more as [|more IH]; intros trial; cbn [Bench.run_trials replicate mjoin list_join].
  { split; [apply follows_ret|]. by intros ? ? [= <- <-]. }
  destruct (IH (trial + 1)) as [Hf Hl]. split.
  - unfold trial_commands at 1. rewrite <-app_assoc.
    apply follows_bind; [apply follows_start|]. intros startup _.
    apply follows_bind; [apply follows_experiment|]. intros artifact _.
    rewrite <-(app_nil_r (mjoin _)). apply follows_bind; [exact Hf|]. intros [startups artifacts] _. apply follows_ret.
  - intros startups artifacts. unfold mbind, traced_bind.
    destruct (start_scenario _ _ _ _ _ _) as [c1 [startup|]]; [|done].
    destruct (run_experiment _ _ _ _ _ _) as [c2 [artifact|]]; [|done].
    destruct (run_trials env d e (trial + 1) more) as [c3 [[ss aa]|]] eqn:Hr; [|done]. cbn.
    intros [= <- <-]. cbn. f_equal. by apply (Hl ss aa).
Qed.

Definition job_trials (job : Scenario * Experiment) : nat := Z.to_nat (x_repetitions job.2).

(** What the experiments leave in the summary. *)
Definition extends (jobs : list (Scenario * Experiment)) (s s' : BenchSummary) : Prop :=
  ∃ added, sm_experiments s' = sm_experiments s ++ mjoin added ∧ length <$> added = job_trials <$> jobs ∧
    sm_aggregates s' = sm_aggregates s ++ zip_with summarize_trials jobs.*2 added.

Lemma follows_experiments env jobs s :
  follows (run_experiments env jobs s) (mjoin (job_commands <$> jobs)) ∧
  ∀ s', (run_experiments env jobs s).2 = Ok s' → extends jobs s s'.
Proof.
  revert s. induction jobs as [|[d e] jobs IH]; intros s; cbn [Bench.run_experiments fmap list_fmap mjoin list_join].
  { split; [apply follows_ret|]. intros s' [= <-]. exists []. cbn. by rewrite !app_nil_r. }
  destruct (follows_trials (env (x_name e)) d e 1 (Z.to_nat (x_repetitions e))) as [Hf Hl]. split.
  - apply follows_bind; [exact Hf|]. intros [startups artifacts] _. apply IH.
  - intros s'. unfold run_fresh_trials, mbind, traced_bind.
    destruct (run_trials _ _ _ _ _) as [c [[startups artifacts]|]] eqn:Hr; [|done].
    destruct (IH (add_trials e startups artifacts s)) as [_ He].
    destruct (run_experiments env jobs _) as [c' r]. cbn in *. intros ->.
    destruct (He s' eq_refl) as (added & Hx & Hlen & Ha). exists (artifacts :: added). cbn in *.
    rewrite Hx, Ha, Hlen, <-!app_assoc. split; [done|]. split; [|done]. f_equal. by apply (Hl startups artifacts).
Qed.

Lemma follows_stop env : commands (final_stop env).1 = [PostStop].
Proof.
  unfold final_stop, mbind, traced_bind, call. destruct (me_stop env) as [[]|e]; [|done].
  pose proof (follows_wait "STOPPED" (me_stopped env) "{}") as [Hp _].
  destruct (wait_for_state _ _ _) as [c [x|e]]; cbn in *.
  - rewrite app_nil_r. change (commands (Call PostStop :: c)) with (PostStop :: commands c).
    by apply prefix_nil_inv in Hp as ->.
  - change (commands (Call PostStop :: c)) with (PostStop :: commands c). by apply prefix_nil_inv in Hp as ->.
Qed.

(** A summary without incomplete trials. *)
Lemma complete_trials e artifacts :
  0 <= ts_incomplete (summarize_trials e artifacts) ∧
  (ts_incomplete (summarize_trials e artifacts) = 0 →
   Forall (λ a, r_state (ar_result a) = TrafficState.COMPLETED) artifacts).
Proof.
  unfold summarize_trials, completed_artifacts, zlen. cbn [ts_incomplete].
  pose proof (sublist_filter (λ a, r_state (ar_result a) = TrafficState.COMPLETED) artifacts) as Hsub.
  pose proof (sublist_length _ _ Hsub) as Hle. split; [lia|].
  intros Hz. assert (filter (λ a, r_state (ar_result a) = TrafficState.COMPLETED) artifacts = artifacts) as <-.
  { apply sublist_length_eq; [exact Hsub | lia]. }
  clear.
  apply Forall_forall. by intros a [? _]%list_elem_of_filter.
Qed.

Lemma zsum_zero l : Forall (λ x, 0 <= x) l → zsum l = 0 → Forall (λ x, x = 0) l.
Proof.
  induction 1 as [|x l Hx Hl IH]; [constructor|]. cbn. intros Hs. pose proof (zsum_nonneg l Hl).
  constructor; [lia|]. apply IH. lia.
Qed.

Lemma extends_complete jobs s :
  extends jobs (mkBenchSummary [] [] []) s → zsum (ts_incomplete <$> sm_aggregates s) = 0 →
  Forall (λ a, r_state (ar_result a) = TrafficState.COMPLETED) (sm_experiments s) ∧
  length (sm_experiments s) = sum_list (job_trials <$> jobs).
Proof.
  intros (added & -> & Hlen & ->) Hz. cbn [sm_experiments sm_aggregates app] in *.
  apply zsum_zero in Hz.
  2:{ apply Forall_fmap, Forall_zip_with_fst with (P := λ _, True); [by apply Forall_true|].
      apply Forall_true. intros artifacts e _. apply complete_trials. }
  revert jobs Hlen Hz. induction added as [|artifacts added IH]; intros [|job jobs] Hlen Hz; try done.
  cbn in *. injection Hlen as Hl Hlen. apply Forall_cons in Hz as [Hc Hz].
  destruct (IH jobs Hlen Hz) as [Hall Hn]. split.
  - apply Forall_app. split; [by apply (complete_trials job.2)|exact Hall].
  - rewrite length_app, Hl. by f_equal.
Qed.

(** C38: The benchmark.  The state-changing requests it makes are an initial part of this
    program: for every experiment of the groups in their order and every trial of it,
    stop the simulation, put the experiment's scenario, start, post the traffic request
    and put the scheduled links in order; then, whatever failed, one last stop.  It
    succeeds only if the whole program ran and every trial's run completed, with one
    artifact per trial.  Without the capabilities nothing is done. *)
Theorem benchmark_runs_fresh env output_dir gs calls r :
  run_groups env output_dir gs = (calls, r) →
  match me_capabilities env with
  | Raise e => commands calls = [] ∧ r = Raise e
  | Ok _ =>
    ∃ issued, commands calls = issued ++ [PostStop] ∧ issued `prefix_of` mjoin (job_commands <$> jobs_of gs) ∧
    ∀ s, r = Ok s →
      issued = mjoin (job_commands <$> jobs_of gs) ∧
      Forall (λ a, r_state (ar_result a) = TrafficState.COMPLETED) (sm_experiments s) ∧
      length (sm_experiments s) = sum_list (job_trials <$> jobs_of gs)
  end.
Proof.
  unfold Bench.run_groups. destruct (me_capabilities env) as [[]|e]; [|by intros [= <- <-]].
  pose proof (follows_experiments (me_trials env) (jobs_of gs) (mkBenchSummary [] [] [])) as [[Hp Ho] He].
  pose proof (follows_stop env) as Hs. unfold mbind, traced_bind, traced_finally, call.
  destruct (run_experiments _ _ _) as [c1 r1]. destruct (final_stop env) as [c2 r2]. cbn in *.
  destruct r2 as [u|e].
  2:{ intros [= <- <-]. change (commands (Call GetCapabilities :: c1 ++ c2)) with (commands (c1 ++ c2)).
      exists (commands c1). by rewrite commands_app, Hs. }
  destruct r1 as [s|e].
  - destruct (_ =? 0) eqn:Hz; intros [= <- <-];
      (exists (commands c1); split; [|split; [exact Hp|]]).
    + change (commands (Call GetCapabilities :: (c1 ++ c2) ++ [WriteFile "summary.json"])) with
        (commands ((c1 ++ c2) ++ [WriteFile "summary.json"])). rewrite !commands_app, Hs. by rewrite app_nil_r.
    + intros s' [= <-]. split; [by apply Ho|]. apply extends_complete; [by apply He|]. by apply Z.eqb_eq.
    + change (commands (Call GetCapabilities :: (c1 ++ c2) ++ [WriteFile "summary.json"])) with
        (commands ((c1 ++ c2) ++ [WriteFile "summary.json"])). rewrite !commands_app, Hs. by rewrite app_nil_r.
    + done.
  - intros [= <- <-]. change (commands (Call GetCapabilities :: c1 ++ c2)) with (commands (c1 ++ c2)).
    exists (commands c1). by rewrite commands_app, Hs.
Qed.
End bench.

(** ** Flow summaries *)

#[local] Arguments of_Z : simpl never.

Lemma count_if_cons {A} (p : A → bool) x l : count_if p (x :: l) = (if p x then 1 else 0) + count_if p l.
Proof.
  unfold count_if. rewrite filter_cons. destruct (p x) eqn:E.
  - rewrite decide_True by done. rewrite zlen_cons. lia.
  - rewrite decide_False by congruence. lia.
Qed.

Lemma count_if_le {A} (p q : A → bool) l : (∀ x, x ∈ l → p x = true → q x = true) → 0 <= count_if p l <= count_if q l.
Proof.
  induction l as [|x l IH]; intros Hpq; [done|]. rewrite !count_if_cons.
  specialize (IH (λ y Hy, Hpq y (list_elem_of_further _ _ _ Hy))).
  pose proof (Hpq x (list_elem_of_here _ _)). destruct (p x), (q x); naive_solver lia.
Qed.

Lemma count_if_true {A} (l : list A) : count_if (λ _, true) l = zlen l.
Proof. induction l as [|x l IH]; [done|]. rewrite count_if_cons, IH, zlen_cons. lia. Qed.

(** Messages of a flow with a property. *)
Definition flow_count (p : GeneratedMessage → bool) (ms : list GeneratedMessage) (name : string) : Z :=
  count_if p (filter (λ m, g_flow m = name) ms).

Lemma flow_count_cons p m ms name :
  flow_count p (m :: ms) name = (if decide (g_flow m = name) then if p m then 1 else 0 else 0) + flow_count p ms name.
Proof.
  unfold flow_count. rewrite filter_cons. case_decide; [by rewrite count_if_cons | done].
Qed.

Lemma zsum_plus {A} (f g : A → Z) l : zsum ((λ x, f x + g x) <$> l) = zsum (f <$> l) + zsum (g <$> l).
Proof. induction l as [|x l IH]; [done|]. cbn. rewrite IH. lia. Qed.

Lemma zsum_single (name : string) (v : Z) names :
  NoDup names → name ∈ names → zsum ((λ n, if decide (name = n) then v else 0) <$> names) = v.
Proof.
  assert (∀ names, name ∉ names → zsum ((λ n, if decide (name = n) then v else 0) <$> names) = 0) as Hnot.
  { intros l. induction l as [|n l IH]; intros Hn; [done|]. cbn. rewrite decide_False by set_solver.
    rewrite IH by set_solver. done. }
  induction 1 as [|n names Hn _ IH]; intros Hin; [by apply elem_of_nil in Hin|]. cbn.
  apply elem_of_cons in Hin as [->|Hin].
  - rewrite decide_True, Hnot by done. lia.
  - rewrite decide_False by (intros ->; done). rewrite IH by done. lia.
Qed.

(** The flows share out the messages. *)
Lemma flow_counts_total p ms names :
  NoDup names → Forall (λ m, g_flow m ∈ names) ms → zsum (flow_count p ms <$> names) = count_if p ms.
Proof.
  intros Hnd. induction 1 as [|m ms Hm _ IH].
  - clear Hnd. induction names as [|n names IH]; [done|]. cbn. by rewrite IH.
  - rewrite count_if_cons, <-IH, <-(zsum_single (g_flow m) (if p m then 1 else 0) names Hnd Hm), <-zsum_plus.
    f_equal. apply list_fmap_ext. intros i n _. apply flow_count_cons.
Qed.

Lemma optional_ratio_ok n d : ∃ o, optional_ratio n d = Ok o.
Proof. unfold optional_ratio, int_truediv. destruct (d =? 0); by eexists. Qed.

(** What a flow's summary counts. *)
Record flow_summary_ok (ms : list GeneratedMessage) (f : TrafficFlow) (s : FlowSummary) : Prop := mk_flow_summary_ok {
  fo_definition : fs_definition s = f;
  fo_requested : fs_requested s = flow_count (λ _, true) ms (flow_name f);
  fo_submitted : fs_submitted s = flow_count g_submitted ms (flow_name f);
  fo_delivered : fs_delivered s = flow_count message_delivered ms (flow_name f);
  fo_acknowledged : fs_acknowledged s = flow_count g_acknowledged ms (flow_name f);
  fo_order : 0 <= fs_on_time s <= fs_delivered s ∧ fs_delivered s <= fs_requested s ∧ fs_submitted s <= fs_requested s;
  fo_ratio : optional_ratio (fs_delivered s) (fs_requested s) = Ok (fs_delivery_ratio s);
  fo_on_time_ratio : optional_ratio (fs_on_time s) (fs_requested s) = Ok (fs_on_time_ratio s) }.

Lemma zlen_filter_count {A} (p : A → bool) (l : list A) : zlen (filter (λ x, p x = true) l) = count_if p l.
Proof. done. Qed.

Lemma zlen_omap_le {A B} (f : A → option B) l : zlen (omap f l) <= zlen l.
Proof.
  induction l as [|x l IH]; [done|]. cbn. rewrite zlen_cons. destruct (f x); [rewrite zlen_cons|]; lia.
Qed.

Lemma summarize_flow_spec expected ms f s : summarize_flow expected ms f = Ok s → flow_summary_ok ms f s.
Proof.
  unfold summarize_flow. intros Hs. repeat inv_bind Hs. injection Hs as <-.
  set (own := filter (λ m, g_flow m = flow_name f) ms) in *.
  set (delivered := filter (λ m, message_delivered m = true) own) in *.
  set (on_time := count_if (λ latency, fle latency (fmul a (of_Z 1000))) (omap g_latency delivered)) in *.
  assert (0 <= on_time <= zlen delivered) as Hon.
  { pose proof (count_if_le (λ latency, fle latency (fmul a (of_Z 1000))) (λ _, true) (omap g_latency delivered)
      (λ _ _ _, eq_refl)) as Hle. rewrite count_if_true in Hle. pose proof (zlen_omap_le g_latency delivered). lia. }
  assert (zlen own = count_if (λ _, true) own) as Hown by (by rewrite count_if_true).
  constructor; cbn; try done.
  split_and!; [lia|lia| |].
  - rewrite Hown. by apply (count_if_le message_delivered (λ _, true)).
  - rewrite Hown. by apply (count_if_le g_submitted (λ _, true)).
Qed.

Lemma summarize_flow_ok expected ms f :
  flt fzero (flow_messages_per_minute f) = true → zlen ms <= SAMPLE_BOUND → ∃ s, summarize_flow expected ms f = Ok s.
Proof.
  intros Hr Hn. unfold summarize_flow.
  destruct (truediv_positive (of_Z 60) _ Hr) as [interval ->]. cbn [mbind res_bind].
  set (latencies := omap _ _).
  assert (zlen latencies <= SAMPLE_BOUND) as Hl.
  { pose proof (zlen_omap_le g_latency (filter (λ m, message_delivered m = true) (filter (λ m, g_flow m = flow_name f) ms))).
    assert (∀ A (P : A → Prop) `{∀ x, Decision (P x)} (l : list A), zlen (filter P l) <= zlen l) as Hf.
    { intros A P ? l. unfold zlen. pose proof (sublist_length _ _ (sublist_filter P l)). lia. }
    pose proof (Hf _ (λ m, message_delivered m = true) _ (filter (λ m, g_flow m = flow_name f) ms)).
    pose proof (Hf _ (λ m, g_flow m = flow_name f) _ ms). unfold latencies. lia. }
  repeat match goal with |- context [optional_ratio ?n ?d ≫= _] =>
    destruct (optional_ratio_ok n d) as [? ->]; cbn [mbind res_bind] end.
  destruct (percentile_ok latencies 50 1) as [o50 H50]; [set_solver|lia|done|].
  destruct (percentile_ok latencies 95 20) as [o95 H95]; [set_solver|lia|done|].
  change (proportion_of 50) with (flit 5 10) in H50. change (proportion_of 95) with (flit 95 100) in H95.
  destruct expected; [destruct (optional_ratio_ok (count_if g_acknowledged (filter (λ m, g_submitted m = true)
    (filter (λ m, g_flow m = flow_name f) ms))) (zlen (filter (λ m, g_submitted m = true)
    (filter (λ m, g_flow m = flow_name f) ms)))) as [? ->]|]; cbn [mbind res_bind];
    rewrite H50, H95; by eexists.
Qed.

(** The flows of a valid request have distinct names. *)
Lemma valid_flow_names r : request_valid r = true → NoDup (flow_name <$> scheduling_flows r).
Proof.
  unfold request_valid. intros [_ [r' Hv]%is_ok_inv]%andb_true_iff. unfold validate_request in Hv.
  inv_bind Hv. inv_bind Hv. inv_bind Hv. apply guard_raise_ok, negb_false_iff, bool_decide_eq_true in Ha1.
  unfold scheduling_flows. destruct (flows r); [apply NoDup_singleton | done].
Qed.

Lemma flow_definitions r :
  request_valid r = true →
  dict_of ((λ f, (flow_name f, f)) <$> scheduling_flows r) = (λ f, (flow_name f, f)) <$> scheduling_flows r.
Proof. intros Hv. apply dict_of_nodup. rewrite <-list_fmap_compose. by apply valid_flow_names. Qed.

(** C40: The flow summaries of a benchmark's run.  For a result of a valid request with at
    most 2048 messages they are computed; whenever they are, there is one for each flow of
    the request, in its order, whose counts are those of the messages of the flow: of those
    requested, submitted, delivered (to its destination, or for a broadcast to a node other
    than the source) and acknowledged, those delivered in time being among the delivered
    ones and the ratios being of these counts; and if every message belongs to a flow of
    the request, the counts of the flows add up to those of the run. *)
Theorem flow_summaries_account result :
  request_valid (r_request result) = true →
  let fs := scheduling_flows (r_request result) in
  let ms := r_messages result in
  (zlen ms <= SAMPLE_BOUND → is_ok (summarize_flows result) = true) ∧
  ∀ d, summarize_flows result = Ok d →
    Forall2 (λ f kv, kv.1 = flow_name f ∧ flow_summary_ok ms f kv.2) fs d ∧
    (Forall (λ m, g_flow m ∈ flow_name <$> fs) ms →
     zsum (fs_requested ∘ snd <$> d) = zlen ms ∧
     zsum (fs_submitted ∘ snd <$> d) = count_if g_submitted ms ∧
     zsum (fs_delivered ∘ snd <$> d) = count_if message_delivered ms).
Proof.
  intros Hv fs ms. unfold summarize_flows. rewrite flow_definitions by done. split.
  - intros Hn. match goal with |- is_ok (map_res ?f ?l) = true => destruct (map_res_some f l) as (ys & -> & _) end; [|done].
    intros x (f & -> & Hf)%list_elem_of_fmap. cbn [fst snd].
    destruct (summarize_flow_ok (bool_decide (kind (r_request result) = DIRECT_TEXT) && acknowledgment_requested (r_request result))
      ms f) as [s Hs]; [by eapply valid_rates|done|]. unfold ms in Hs. rewrite Hs. by eexists.
  - intros d Hd. apply map_res_ok in Hd. rewrite Forall2_fmap_l in Hd.
    assert (Forall2 (λ f kv, kv.1 = flow_name f ∧ flow_summary_ok ms f kv.2) fs d) as Hall.
    { eapply Forall2_impl; [exact Hd|]. intros f kv Hs. cbn in Hs. inv_bind Hs. injection Hs as <-.
      split; [done | by eapply summarize_flow_spec]. }
    split; [exact Hall|]. intros Hms. pose proof (valid_flow_names _ Hv) as Hnd. fold fs in Hnd.
    rewrite <-(count_if_true ms), <-!(flow_counts_total _ ms (flow_name <$> fs)) by done.
    clear -Hall. induction Hall as [|f kv fs d [_ [_ E1 E2 E3 _ _ _ _]] _ (IH1 & IH2 & IH3)]; [done|].
    cbn. rewrite E1, E2, E3, IH1, IH2, IH3. done.
Qed.
