(* ===== verification/BenchExamples.v ===== *)
(** * The benchmark at work

    Two trials of one experiment, the second of which fails to start, and the summary of
    a run's messages. *)
From Stdlib Require Import Floats.SpecFloat.
From S2P Require Import Prelude PyDict PyFloat Scenario Calculations TrafficRequest TrafficState TrafficLifecycle.
From S2P Require Import RunExamples Service ServiceOps Api Bench BenchExperiments BenchTheorems.

Definition lab_metrics : Metrics :=
  mkMetrics 2 1 (Some (flit 1 2)) 1 (Some (flit 1 2)) None None None None 2 None 0 0 0 ∅ 0 ∅ ∅ None.

(** Two messages of node-1 to node-5, the first delivered and acknowledged in 1500 ms. *)
Definition lab_messages : list GeneratedMessage :=
  [mkMessage 1 "default" "node-1" "node-5" 7 fzero true None true ["node-5"%string] true (Some (of_Z 1500));
   mkMessage 2 "default" "node-1" "node-5" 8 (of_Z 20) false (Some "timeout"%string) false [] false None].

Definition lab_result : TrafficRunResult :=
  mkResult metadata_unavailable "run" TrafficState.COMPLETED (four_hops 21 104) hidden_terminal true 104 2 1 1 1 1 true []
    lab_messages [] (mkSnapshot lab_metrics ∅) None.

Lemma flow_summaries_account_witness :
  ∃ s, summarize_flows lab_result = Ok [("default"%string, s)] ∧ fs_requested s = 2 ∧ fs_delivered s = 1 ∧
    fs_delivery_ratio s = Some (flit 1 2) ∧ zsum (fs_requested ∘ snd <$> [("default"%string, s)]) = zlen lab_messages.
Proof.
  destruct (flow_summaries_account lab_result) as [Hok Hd]; [vm_compute; reflexivity|].
  assert (is_ok (summarize_flows lab_result) = true) as He by (apply Hok; vm_compute; discriminate).
  clear Hok. revert Hd. destruct (summarize_flows lab_result) as [d|] eqn:Hs; intros Hd; [|discriminate He].
  destruct (Hd d eq_refl) as [Hall Htotal]. clear Hd.
  apply Forall2_cons_inv_l in Hall as ([name s] & d' & [Hn Ho] & Hnil & ->). apply Forall2_nil_inv_l in Hnil as ->.
  cbn [fst snd] in Hn, Ho. subst name. exists s. split; [reflexivity|].
  pose proof (fo_ratio _ _ _ Ho) as H3.
  assert (fs_requested s = 2) as H1 by (rewrite (fo_requested _ _ _ Ho); vm_compute; reflexivity).
  assert (fs_delivered s = 1) as H2 by (rewrite (fo_delivered _ _ _ Ho); vm_compute; reflexivity).
  rewrite H1, H2 in H3. split; [exact H1|]. split; [exact H2|]. split.
  - injection H3 as <-. vm_compute. reflexivity.
  - apply Htotal. repeat constructor; vm_compute; by left.
Defined.

(** A trial that goes well, and one whose firmware does not start. *)
Definition lab_event (state : string) : run_event :=
  EvPoll (of_Z 1) (Ok (mkRunStatus state "GENERATING" 2 1 0 0 None "{}")).

Definition lab_trial (good : bool) : TrialEnv :=
  mkTrialEnv (Ok tt) [PolledState "STOPPED" "{}"] (Ok tt) (Ok tt)
    [PolledState "STARTING" "{}"; PolledState (if good then "RUNNING" else "FAILED") "{}"]
    [(fzero, StatsDone 0 "12.5%|200MiB|31"); (of_Z 10, StatsTimeout)] (of_Z 9) (Ok []) (Ok "run"%string)
    [lab_event "RUNNING"; EvLink (Ok tt); lab_event "COMPLETED"] (λ _, Ok tt) [] (of_Z 45) (Ok lab_result).

Definition lab_main (good : string → Z → bool) : MainEnv :=
  mkMainEnv (Ok tt) (λ name trial, lab_trial (good name trial)) (Ok tt) [PolledState "STOPPED" "{}"].

Definition lab_experiment : Experiment :=
  mkExperiment "partition" (four_hops 41 105)
    [(of_Z 12, bench_link "node-1" "node-3" false); (of_Z 32, bench_link "node-1" "node-3" true)] 2.
Definition lab_groups : groups := [(hidden_terminal, [lab_experiment])].

(** [round], [float] and [int] of the samples of this example. *)
Definition lab_round (n : Z) (x : float) : float := x.
Definition lab_float (s : string) : res float := if decide (s = "12.5"%string) then Ok (flit 125 10) else Raise (ValueError s).
Definition lab_int (s : string) : res Z := if decide (s = "31"%string) then Ok 31 else Raise (ValueError s).

Lemma benchmark_runs_fresh_witness :
  (∃ calls s, run_groups lab_round lab_float lab_int (lab_main (λ _ _, true)) "out" lab_groups = (calls, Ok s) ∧
     commands calls = trial_commands hidden_terminal lab_experiment ++ trial_commands hidden_terminal lab_experiment ++ [PostStop] ∧
     length (sm_experiments s) = 2%nat) ∧
  ∃ calls e, run_groups lab_round lab_float lab_int (lab_main (λ _ trial, trial =? 1)) "out" lab_groups = (calls, Raise e) ∧
     last (commands calls) = Some PostStop.
Proof.
  split.
  - assert (is_ok (run_groups lab_round lab_float lab_int (lab_main (λ _ _, true)) "out" lab_groups).2 = true) as Hok
      by (vm_compute; reflexivity).
    destruct (run_groups lab_round lab_float lab_int (lab_main (λ _ _, true)) "out" lab_groups) as [calls [s|e]] eqn:Hr;
      [|discriminate Hok].
    destruct (benchmark_runs_fresh lab_round lab_float lab_int _ _ _ _ _ Hr) as (issued & Hc & _ & Hs).
    destruct (Hs s eq_refl) as (-> & _ & Hl). exists calls, s. split; [reflexivity|]. split; [rewrite Hc|exact Hl].
    change (mjoin (job_commands <$> jobs_of lab_groups)) with
      ((trial_commands hidden_terminal lab_experiment ++ trial_commands hidden_terminal lab_experiment ++ []) ++ []).
    by rewrite !app_nil_r, <-app_assoc.
  - assert (is_ok (run_groups lab_round lab_float lab_int (lab_main (λ _ trial, trial =? 1)) "out" lab_groups).2 = false) as Hok
      by (vm_compute; reflexivity).
    destruct (run_groups lab_round lab_float lab_int (lab_main (λ _ trial, trial =? 1)) "out" lab_groups) as [calls [s|e]] eqn:Hr;
      [discriminate Hok|].
    destruct (benchmark_runs_fresh lab_round lab_float lab_int _ _ _ _ _ Hr) as (issued & Hc & _ & _).
    exists calls, e. split; [reflexivity|]. by rewrite Hc, last_snoc.
Defined.
